(* ===== verification/_CoqProject ===== *)
-Q . S2P
Prelude.v
Machine.v
Kprintf.v
PhysMem.v
VirtMem.v
Chain.v
Queue.v
ProcList.v
Util.v
Devices.v
Layout.v
Gdt.v
Ahci.v
Terminal.v
Scheduler.v
Files.v
Vma.v
Process.v
Exit.v
PageFault.v
Cow.v
Faults.v
Frames.v
Tarfs.v
Open.v
Elf.v
Exec.v
Boot.v
Sleep.v
Libc.v
User.v
Sbush.v
Asm.v
Entry.v
FirstRun.v
