(* ===== verification/Prelude.v ===== *)
(** * BLEH OS: a verification library for the Preemptive-OS kernel

    The program is a small 64-bit kernel (src/sys, src/include/sys) with a C
    library (src/libc, src/crt) for its user programs.  The loader enters
    [boot]; the kernel builds a free list of physical frames, page tables for
    itself, the interrupt and system call vectors, lists the tar image linked
    into it as a file system, and starts [/bin/init] from a kernel thread.
    From then on processes enter it by system calls, page faults, the timer
    and the keyboard.

    ** The model

    A routine is a function of the state monad [M kst] (this file and
    Machine.v).  [kst] has one record per group of C globals (frame array,
    processes and queues, console, terminal, keyboard, file system, CPU
    registers, the tick counter), a trace of port accesses, and the store [k_heap], a finite map
    from addresses to typed objects, for everything the kernel allocates: it
    allocates whole frames and puts one structure, array, page table, kernel
    stack or buffer of bytes on each, so an object stands at the address of
    its frame.  [kv p] is the address [p | KERNBASE].  A routine ends in
    [Ok], in [Ub] (it dereferences an address that holds no object of the
    type it expects, or leaves an array) or in [Timeout] (a loop used up its
    fuel).  C integers are [Z] with the conversions [u8] to [u64], [i8] to
    [i64] written where the code converts.

    A loop over a linked list has as fuel one more than the number of objects
    in the store, which is more than the list can have nodes; the walk over
    the tar image has one more than its bytes ([image_fuel]); the loop over
    the pages of an area has the number of its pages plus two.  Theorems that
    a routine returns state [Ok]; [Timeout] is only claimed of loops that do
    not end, and for every fuel.

    The disk driver runs on [hst]: the kernel state for its console, memory as
    bytes, and a disk controller.  A user program is a tree of system calls
    ([prog]); theorems about it hold for every kernel that answers them as
    stated.

    The assembly routines run on [mach] by [exec], an interpreter whose fuel
    is the number of instructions they execute.  A C routine they call is a
    function on the machine; that it keeps its calling convention is the
    hypothesis [polite], and what [copy_regs] does is [copies_regs]; that an
    interrupted program has selectors of the descriptor table is
    [selectors_ok].  The
    inline assembly is the whole body of its C function: the build omits
    frame pointers.

    What the repository does not define is a parameter: the tar image
    ([tar], hypotheses by the relation [archive]), the answers of the
    hardware to port reads ([hw]), the disk controller (the class
    [controller], hypotheses by the records [idle] and [answers]), the
    unspecified contents of a frame that is used without being cleared
    ([junk]), addresses of assembly routines and of string literals.
    [frontier base k s] says that the first [k] frames are in use and the
    frames after them hold nothing, the situation of a kernel that has not
    freed frames; theorems about routines that allocate assume it and name the
    frames they take.

    ** Files

    - Prelude.v: integers, the result type and the monad, C strings, tactics.
    - Machine.v (include/sys/*.h): the structures, the store, the globals.
    - Kprintf.v (kprintf.c): the console and formatted output.
    - PhysMem.v (phys_mmgr.c): the frame allocator, refined to a map from
      frames in use to reference counts ([phys_refinement]); the free list of
      boot.
    - VirtMem.v (virt_mmgr.c): page tables; mapping, walking, copying, the
      kernel mapping of boot.  [mmu_lookup] is what the processor does with an
      address: the index of each level is a field of the address, an entry
      must be present, the rights are those all levels grant.  [translate] is
      the view of the kernel's own walk, which looks at the address in the
      last entry and not at its present bit; theorems about mappings state
      both.
    - Chain.v: linked lists in the store.
    - Queue.v (queue.c): the scheduler queues, refined to lists.
    - ProcList.v (process.c): the lists of processes and zombies.
    - Util.v (util.c): rounding, octal numbers, string routines.
    - Devices.v (pic.c, pit.c, idt.c, common.c, pci.c): ports, vectors, the
      scan of the PCI bus.
    - Gdt.v (gdt.c): the segment descriptors and which selectors the processor
      takes for code and for a stack.
    - Layout.v, Ahci.v (ahci.h, ahci.c): packed structures in byte memory and the
      disk driver, over a controller that is a parameter.
    - Terminal.v (terminals.c, keyboard.c): the keyboard interrupt, refined to
      an abstract US keyboard (rows of keys, what shift and control make of
      them, a line, what appears on the screen); terminal reads.
    - Scheduler.v (scheduler.c, scheduler.s, signal.c): scheduling, refined to
      an abstract scheduler, with its invariant in every reachable state;
      signals.
    - Files.v (vfs.c, fs.c, tarfs.c): descriptors, reads, lookup.
    - Vma.v (memory.c): the areas of an address space, refined to sorted
      disjoint intervals, the stack apart; mmap, munmap, heap, stack, argument copy.
    - Process.v, Exit.v (process.c, pit.c): fork, exit, wait, the timer, the
      listing of processes.
    - PageFault.v, Cow.v, Faults.v (page_faults.c): anonymous, shared and file
      pages.
    - Frames.v: lemmas on routines that only take new frames.
    - Tarfs.v, Open.v (tarfs.c, fs.c): the listing of the archive, directories,
      opening a file and reading its contents.
    - Elf.v, Exec.v (elf.c, process.c, memory.c): the loader and execve: areas
      of the segments, heap, stack with the arguments.
    - Boot.v (main.c, start.c, syscalls.c, do_syscall.s, crt1.c): from
      the loader to user mode.
    - Sleep.v (pit.c): the sleep system call while interrupts, page faults and
      the system calls of other processes run; none of them changes the tick
      counter.
    - Libc.v (libc): strings, printf, environment, buffered input.
    - User.v, Sbush.v (bin): init, the commands and the shell, as interaction
      trees over the system calls.
    - Asm.v: the instructions the assembly routines use, on a machine with
      registers, flags, segments and 64-bit words; how the processor enters the
      kernel; a view of straight-line stack code that is sound for it.
    - Entry.v (do_syscall.s, page_fault_handler.s, scheduler.s, task.s, gdt.s,
      the inline assembly of pit.c, keyboard.c and common.c): the assembly
      routines as instruction lists, from the entry to the return.
    - FirstRun.v: Process.v and Entry.v together: from fork and from execve to the
      first instruction in user mode.

    ** Theorems

    Refinements and invariants: the allocator, the queues, the areas, the
    scheduler and the keyboard implement their abstract counterparts from
    every state of the invariant.  Functional theorems give the result and
    the whole change of the store of an operation: mapping a page, the three
    kinds of page fault, fork, exit, wait, mounting the archive, loading a
    program, laying out its stack.  Round trips: opening and reading a file
    returns the archived bytes, a typed line is the line read, printed numbers
    are read back.  User programs: a line of the shell runs the command it
    names with its words, cat copies a file to the terminal.  The disk driver: every
    transfer puts a well-formed command in memory.  The assembly: interrupts and
    page faults of user programs are invisible to them, a system call returns
    with its result and the other registers as they were, a process that is
    switched away comes back with its registers and stack, and the child of a
    fork and the program of an execve start where they should.  End-to-end
    runs on concrete machines, evaluated by the kernel of Rocq: the life of a
    process, and boot up to the first instruction of [/bin/init]. Where the
    code does not do what it means to, a theorem says what it does: frames
    released by their kernel address are lost, a running process at the head
    of the queue is never preempted, a lookup confuses names with equal
    character sums, a fault outside every area repeats for ever, data segments
    are read-only, fork maps untouched pages to physical page 0, an area
    inside the stack is accepted, sleep never returns, the disk test transfers 16 of its 800
    sectors, an empty line ends the shell, the child of a fork has other
    callee-saved registers than its parent, a page fault in kernel mode loses
    the registers of the user, system call numbers are not checked, the
    default handler takes an error code for a return address.

    ** Not modelled

    - The C routines do not run on the registers of Asm.v: Entry.v knows of
      them only the calling convention, and FirstRun.v joins the two where the
      words of a kernel stack are handed over.  Elsewhere an interrupt is a call of
      its handler between two routines, and [schedule] is followed up to the
      point where the next process goes on.  No interrupt arrives inside a
      routine of Entry.v.  [iretq] and the far return take 16 bits of a
      selector and fault unless they select a code and a stack segment of the
      descriptor table of Gdt.v; addresses are not checked.
    - The memory management unit inside a routine: accesses of the kernel to
      user pages go through [translate], a page fault is a call of the handler.
    - Failures of mmap for user programs: the theorems about the shell give
      every request for memory a zero-filled block ([with_memory]).
    - The superblock is a global here; at boot its address is inside the
      frame array ([superblock_inside_frame_array]), an overlap the rest of the
      model does not follow.
    - Memory is not bytes outside Layout.v: a structure is only read at its
      type, except for the headers of ELF files, which are decoded from bytes,
      and a cleared frame, whose neighbour loses its first byte as the code
      writes one byte too many.
    - The instructions of the system call stubs (a stub is an event of a user
      program), the addresses of user memory (a pointer is the buffer it points
      into), and the unused copies in src/to_be_tested. *)

From stdpp Require Export base tactics list gmap option strings.
From Stdlib Require Export ZArith Lia Ascii.

(** ** Scopes and notation *)

Declare Scope kernel_scope.
Delimit Scope kernel_scope with kern.
Global Open Scope Z_scope.

(** ** Machine integers

    Every C integer is a [Z]; the functions below are the conversions to the
    fixed-width types of [include/sys/defs.h]. *)

Definition u8  (z : Z) : Z := z mod 2 ^ 8.
Definition u16 (z : Z) : Z := z mod 2 ^ 16.
Definition u32 (z : Z) : Z := z mod 2 ^ 32.
Definition u64 (z : Z) : Z := z mod 2 ^ 64.

(** Two's complement reading of the low [w] bits. *)
Definition signed (w z : Z) : Z :=
  let r := z mod 2 ^ w in if r <? 2 ^ (w - 1) then r else r - 2 ^ w.
Definition i8  (z : Z) : Z := signed 8 z.
Definition i32 (z : Z) : Z := signed 32 z.
Definition i64 (z : Z) : Z := signed 64 z.

(** The bitwise complement of a 64-bit word. *)
Definition not64 (z : Z) : Z := u64 (Z.lnot z).

Definition NULL : Z := 0.

(** ** Results and the state monad

    A kernel routine runs on a state; it returns ([Ok]), it dereferences an
    address that holds no object of the expected type or leaves an array
    ([Ub]), or it exhausts the bound given to an unbounded loop ([Timeout]). *)

Inductive res (A : Type) : Type :=
| Ok (a : A)
| Ub
| Timeout.
Arguments Ok {A} _.
Arguments Ub {A}.
Arguments Timeout {A}.

Definition M (S A : Type) : Type := S → res (A * S).

#[global] Instance M_ret (S : Type) : MRet (M S) := λ A a s, Ok (a, s).
#[global] Instance M_bind (S : Type) : MBind (M S) := λ A B f m s,
  match m s with
  | Ok (a, s') => f a s'
  | Ub => Ub
  | Timeout => Timeout
  end.

Definition get {S : Type} : M S S := λ s, Ok (s, s).
Definition gets {S A : Type} (f : S → A) : M S A := λ s, Ok (f s, s).
Definition modify {S : Type} (f : S → S) : M S unit := λ s, Ok (tt, f s).
Definition ub {S A : Type} : M S A := λ _, Ub.
Definition timeout {S A : Type} : M S A := λ _, Timeout.
Definition of_option {S A : Type} (o : option A) : M S A :=
  match o with Some a => mret a | None => ub end.
Definition when {S : Type} (b : bool) (m : M S unit) : M S unit :=
  if b then m else mret tt.

Section monad.
Context {S A B : Type}.
Implicit Types (m : M S A) (f : A → M S B).

Lemma bind_ok m f s a s' : m s = Ok (a, s') → (m ≫= f) s = f a s'.
Proof. unfold mbind, M_bind. by intros ->. Qed.

Lemma bind_ub m f s : m s = Ub → (m ≫= f) s = Ub.
Proof. unfold mbind, M_bind. by intros ->. Qed.

Lemma bind_timeout m f s : m s = Timeout → (m ≫= f) s = Timeout.
Proof. unfold mbind, M_bind. by intros ->. Qed.

Lemma bind_inv m f s b s' :
  (m ≫= f) s = Ok (b, s') → ∃ a s1, m s = Ok (a, s1) ∧ f a s1 = Ok (b, s').
Proof. unfold mbind, M_bind. destruct (m s) as [[a s1]| |]; naive_solver. Qed.

Lemma bind_ret (a : A) f s : ((mret a : M S A) ≫= f) s = f a s.
Proof. done. Qed.

Lemma bind_get (f : S → M S B) s : (get ≫= f) s = f s s.
Proof. done. Qed.

Lemma bind_gets (g : S → A) f s : (gets g ≫= f) s = f (g s) s.
Proof. done. Qed.

Lemma bind_modify (g : S → S) (f : unit → M S B) s :
  (modify g ≫= f) s = f tt (g s).
Proof. done. Qed.
End monad.

Lemma bind_assoc {S A B C : Type} (m : M S A) (f : A → M S B) (g : B → M S C) s :
  ((m ≫= f) ≫= g) s = (m ≫= λ a, f a ≫= g) s.
Proof. unfold mbind, M_bind. by destruct (m s) as [[]| |]. Qed.

Create HintDb kernel discriminated.
Create Rewrite HintDb kmonad.
#[export] Hint Rewrite @bind_ret @bind_get @bind_gets @bind_modify : kmonad.

(** [mstep H] runs the first action of a sequence with the equation [H]. *)
Ltac mnorm := autorewrite with kmonad; cbn beta iota.
Ltac mstep H := first [ rewrite (bind_ok _ _ _ _ _ H) | erewrite bind_ok by (exact H) ]; cbn beta iota; mnorm.

(** ** Bytes and C strings

    A buffer is the list of bytes from the pointer on; a C string in it ends
    at the first zero byte. *)

Definition bytes_of_string (s : string) : list Z :=
  (λ c, Z.of_N (Ascii.N_of_ascii c)) <$> String.list_ascii_of_string s.
Definition chr (c : Ascii.ascii) : Z := Z.of_N (Ascii.N_of_ascii c).
Arguments chr c%_char_scope.

(** A message ended by a newline. *)
Definition line (s : string) : string :=
  (s ++ String (ascii_of_nat 10) EmptyString)%string.

(** The characters of the C string at the head of a buffer; [None] when the
    buffer has no terminator, in which case C code would read past its end. *)
Fixpoint cstring (b : list Z) : option (list Z) :=
  match b with
  | [] => None
  | c :: b' => if c =? 0 then Some [] else (c ::.) <$> cstring b'
  end.

Definition no_nul (l : list Z) : Prop := Forall (λ c, c ≠ 0) l.

Lemma cstring_app l b : no_nul l → cstring (l ++ 0 :: b) = Some l.
Proof.
  induction 1 as [|c l Hc Hl IH]; [done|]. simpl.
  by rewrite (proj2 (Z.eqb_neq c 0) Hc), IH.
Qed.

Lemma cstring_spec b l : cstring b = Some l → no_nul l ∧ ∃ b', b = l ++ 0 :: b'.
Proof.
  revert l. induction b as [|c b IH]; intros l; [done|]. simpl.
  destruct (Z.eqb_spec c 0) as [->|Hc].
  - intros [= <-]. split; [by constructor|]. by exists b.
  - destruct (cstring b) as [l'|]; [|done]. intros [= <-].
    destruct (IH l' eq_refl) as [Hn [b' ->]]. split; [by constructor|]. by exists b'.
Qed.

(** ** Integer lemmas *)

Lemma u64_small z : 0 ≤ z < 2 ^ 64 → u64 z = z.
Proof. apply Z.mod_small. Qed.
Lemma u32_small z : 0 ≤ z < 2 ^ 32 → u32 z = z.
Proof. apply Z.mod_small. Qed.
Lemma u64_range z : 0 ≤ u64 z < 2 ^ 64.
Proof. apply Z.mod_pos_bound. lia. Qed.
Lemma u32_range z : 0 ≤ u32 z < 2 ^ 32.
Proof. apply Z.mod_pos_bound. lia. Qed.
Lemma i32_small z : - 2 ^ 31 ≤ z < 2 ^ 31 → i32 z = z.
Proof.
  intros Hz. unfold i32, signed. destruct (Z_lt_le_dec z 0) as [Hn|Hn].
  - rewrite <- (Z_mod_plus_full z 1 (2 ^ 32)), Z.mod_small by lia.
    destruct (Z.ltb_spec (z + 1 * 2 ^ 32) (2 ^ (32 - 1))); lia.
  - rewrite Z.mod_small by lia. destruct (Z.ltb_spec z (2 ^ (32 - 1))); lia.
Qed.
#[export] Hint Resolve u64_range u32_range : kernel.

(** Bitwise equality by extensionality on bits. *)
Lemma testbit_high a n i : 0 ≤ a < 2 ^ n → 0 ≤ n ≤ i → Z.testbit a i = false.
Proof.
  intros Ha Hi. rewrite <- (Z.mod_small a (2 ^ n)) by done.
  by apply Z.mod_pow2_bits_high.
Qed.

Lemma land_disjoint_add a b n :
  0 ≤ n → 0 ≤ a < 2 ^ n → Z.lor (b * 2 ^ n) a = b * 2 ^ n + a.
Proof.
  intros Hn Ha. rewrite <- Z.lxor_lor, <- Z.add_nocarry_lxor; [done|..];
  apply Z.bits_inj'; intros i Hi; rewrite Z.land_spec, Z.bits_0;
  (destruct (Z_lt_le_dec i n);
   [rewrite <- Z.shiftl_mul_pow2, Z.shiftl_spec_low by lia; done
   |rewrite (testbit_high a n i) by lia; by rewrite andb_false_r]).
Qed.

Lemma land_low_mask a n : 0 ≤ n → Z.land a (2 ^ n - 1) = a mod 2 ^ n.
Proof. intros Hn. rewrite <- Z.land_ones by done. by rewrite Z.ones_equiv. Qed.

(** ** List lemmas *)

Lemma lookup_Z_nat {A} (l : list A) i x :
  l !! i = Some x → (0 ≤ Z.of_nat i < Z.of_nat (length l))%Z.
Proof. intros H%lookup_lt_Some. lia. Qed.
