(* ===== verification/Machine.v ===== *)
(** * The kernel state

    The structures of [include/sys/*.h] as records, the typed store the
    dynamic structures live in, the globals of each source file, and the
    typed loads and stores every component uses.  The [set_] functions are the
    field assignments of C. *)

From S2P Require Export Prelude.

(** [struct page] (include/sys/phys_mmgr.h): one physical frame; [is_free_page]
    is 1 when the frame is in use, as the comments of phys_mmgr.c say. *)
Record page : Type := Page {
  phys_addr_of_page : Z;
  reference_count : Z;
  is_free_page : Z
}.

Definition set_phys_addr_of_page (v : Z) (r : page) : page :=
  Page v (reference_count r) (is_free_page r).
Definition set_reference_count (v : Z) (r : page) : page :=
  Page (phys_addr_of_page r) v (is_free_page r).
Definition set_is_free_page (v : Z) (r : page) : page :=
  Page (phys_addr_of_page r) (reference_count r) v.

(** [enum {PF_UTHREAD, PF_KTHREAD}], [enum {NEW, NORMAL, ZOMBIE, DEAD}] and
    [enum {RUNNING, ..., STOPPED}] of [struct pcb]. *)
Inductive pf_flags : Type := PF_UTHREAD | PF_KTHREAD.
Inductive pstate : Type := NEW | NORMAL | ZOMBIE | DEAD.
Inductive tstate : Type := RUNNING | BLOCKED | WAITING | SLEEPING | STOPPED.
#[global] Instance pf_flags_eq_dec : EqDecision pf_flags.
Proof. solve_decision. Defined.
#[global] Instance pstate_eq_dec : EqDecision pstate.
Proof. solve_decision. Defined.
#[global] Instance tstate_eq_dec : EqDecision tstate.
Proof. solve_decision. Defined.

(** [struct pcb] (include/sys/process.h), the process descriptor; pointers are
    addresses, [p_fd] the 256 entries of the descriptor table. *)
Record pcb : Type := Pcb {
  p_esp0 : Z;
  p_rsp : Z;
  p_kstack : Z;
  p_flags : pf_flags;
  p_foreground : Z;
  p_is_sigkill_pending : Z;
  p_is_sigsegv_pending : Z;
  p_pid : Z;
  p_process_exit_status : Z;
  p_on_rq : Z;
  p_time_slice : Z;
  p_cwd : Z;
  p_sleep_time : Z;
  p_pptr : Z;
  p_cptr : Z;
  p_command : Z;
  p_process_state : pstate;
  p_next_in_queue : Z;
  p_mm : Z;
  p_fd : list Z;
  p_thread_state : tstate
}.

Definition set_p_esp0 (v : Z) (r : pcb) : pcb :=
  Pcb v (p_rsp r) (p_kstack r) (p_flags r) (p_foreground r)
    (p_is_sigkill_pending r) (p_is_sigsegv_pending r) (p_pid r)
    (p_process_exit_status r) (p_on_rq r) (p_time_slice r) (p_cwd r)
    (p_sleep_time r) (p_pptr r) (p_cptr r) (p_command r) (p_process_state r)
    (p_next_in_queue r) (p_mm r) (p_fd r) (p_thread_state r).
Definition set_p_rsp (v : Z) (r : pcb) : pcb :=
  Pcb (p_esp0 r) v (p_kstack r) (p_flags r) (p_foreground r)
    (p_is_sigkill_pending r) (p_is_sigsegv_pending r) (p_pid r)
    (p_process_exit_status r) (p_on_rq r) (p_time_slice r) (p_cwd r)
    (p_sleep_time r) (p_pptr r) (p_cptr r) (p_command r) (p_process_state r)
    (p_next_in_queue r) (p_mm r) (p_fd r) (p_thread_state r).
Definition set_p_kstack (v : Z) (r : pcb) : pcb :=
  Pcb (p_esp0 r) (p_rsp r) v (p_flags r) (p_foreground r)
    (p_is_sigkill_pending r) (p_is_sigsegv_pending r) (p_pid r)
    (p_process_exit_status r) (p_on_rq r) (p_time_slice r) (p_cwd r)
    (p_sleep_time r) (p_pptr r) (p_cptr r) (p_command r) (p_process_state r)
    (p_next_in_queue r) (p_mm r) (p_fd r) (p_thread_state r).
Definition set_p_flags (v : pf_flags) (r : pcb) : pcb :=
  Pcb (p_esp0 r) (p_rsp r) (p_kstack r) v (p_foreground r)
    (p_is_sigkill_pending r) (p_is_sigsegv_pending r) (p_pid r)
    (p_process_exit_status r) (p_on_rq r) (p_time_slice r) (p_cwd r)
    (p_sleep_time r) (p_pptr r) (p_cptr r) (p_command r) (p_process_state r)
    (p_next_in_queue r) (p_mm r) (p_fd r) (p_thread_state r).
Definition set_p_foreground (v : Z) (r : pcb) : pcb :=
  Pcb (p_esp0 r) (p_rsp r) (p_kstack r) (p_flags r) v (p_is_sigkill_pending
    r) (p_is_sigsegv_pending r) (p_pid r) (p_process_exit_status r) (p_on_rq
    r) (p_time_slice r) (p_cwd r) (p_sleep_time r) (p_pptr r) (p_cptr r)
    (p_command r) (p_process_state r) (p_next_in_queue r) (p_mm r) (p_fd r)
    (p_thread_state r).
Definition set_p_is_sigkill_pending (v : Z) (r : pcb) : pcb :=
  Pcb (p_esp0 r) (p_rsp r) (p_kstack r) (p_flags r) (p_foreground r) v
    (p_is_sigsegv_pending r) (p_pid r) (p_process_exit_status r) (p_on_rq r)
    (p_time_slice r) (p_cwd r) (p_sleep_time r) (p_pptr r) (p_cptr r)
    (p_command r) (p_process_state r) (p_next_in_queue r) (p_mm r) (p_fd r)
    (p_thread_state r).
Definition set_p_is_sigsegv_pending (v : Z) (r : pcb) : pcb :=
  Pcb (p_esp0 r) (p_rsp r) (p_kstack r) (p_flags r) (p_foreground r)
    (p_is_sigkill_pending r) v (p_pid r) (p_process_exit_status r) (p_on_rq
    r) (p_time_slice r) (p_cwd r) (p_sleep_time r) (p_pptr r) (p_cptr r)
    (p_command r) (p_process_state r) (p_next_in_queue r) (p_mm r) (p_fd r)
    (p_thread_state r).
Definition set_p_pid (v : Z) (r : pcb) : pcb :=
  Pcb (p_esp0 r) (p_rsp r) (p_kstack r) (p_flags r) (p_foreground r)
    (p_is_sigkill_pending r) (p_is_sigsegv_pending r) v
    (p_process_exit_status r) (p_on_rq r) (p_time_slice r) (p_cwd r)
    (p_sleep_time r) (p_pptr r) (p_cptr r) (p_command r) (p_process_state r)
    (p_next_in_queue r) (p_mm r) (p_fd r) (p_thread_state r).
Definition set_p_process_exit_status (v : Z) (r : pcb) : pcb :=
  Pcb (p_esp0 r) (p_rsp r) (p_kstack r) (p_flags r) (p_foreground r)
    (p_is_sigkill_pending r) (p_is_sigsegv_pending r) (p_pid r) v (p_on_rq
    r) (p_time_slice r) (p_cwd r) (p_sleep_time r) (p_pptr r) (p_cptr r)
    (p_command r) (p_process_state r) (p_next_in_queue r) (p_mm r) (p_fd r)
    (p_thread_state r).
Definition set_p_on_rq (v : Z) (r : pcb) : pcb :=
  Pcb (p_esp0 r) (p_rsp r) (p_kstack r) (p_flags r) (p_foreground r)
    (p_is_sigkill_pending r) (p_is_sigsegv_pending r) (p_pid r)
    (p_process_exit_status r) v (p_time_slice r) (p_cwd r) (p_sleep_time r)
    (p_pptr r) (p_cptr r) (p_command r) (p_process_state r) (p_next_in_queue
    r) (p_mm r) (p_fd r) (p_thread_state r).
Definition set_p_time_slice (v : Z) (r : pcb) : pcb :=
  Pcb (p_esp0 r) (p_rsp r) (p_kstack r) (p_flags r) (p_foreground r)
    (p_is_sigkill_pending r) (p_is_sigsegv_pending r) (p_pid r)
    (p_process_exit_status r) (p_on_rq r) v (p_cwd r) (p_sleep_time r)
    (p_pptr r) (p_cptr r) (p_command r) (p_process_state r) (p_next_in_queue
    r) (p_mm r) (p_fd r) (p_thread_state r).
Definition set_p_cwd (v : Z) (r : pcb) : pcb :=
  Pcb (p_esp0 r) (p_rsp r) (p_kstack r) (p_flags r) (p_foreground r)
    (p_is_sigkill_pending r) (p_is_sigsegv_pending r) (p_pid r)
    (p_process_exit_status r) (p_on_rq r) (p_time_slice r) v (p_sleep_time
    r) (p_pptr r) (p_cptr r) (p_command r) (p_process_state r)
    (p_next_in_queue r) (p_mm r) (p_fd r) (p_thread_state r).
Definition set_p_sleep_time (v : Z) (r : pcb) : pcb :=
  Pcb (p_esp0 r) (p_rsp r) (p_kstack r) (p_flags r) (p_foreground r)
    (p_is_sigkill_pending r) (p_is_sigsegv_pending r) (p_pid r)
    (p_process_exit_status r) (p_on_rq r) (p_time_slice r) (p_cwd r) v
    (p_pptr r) (p_cptr r) (p_command r) (p_process_state r) (p_next_in_queue
    r) (p_mm r) (p_fd r) (p_thread_state r).
Definition set_p_pptr (v : Z) (r : pcb) : pcb :=
  Pcb (p_esp0 r) (p_rsp r) (p_kstack r) (p_flags r) (p_foreground r)
    (p_is_sigkill_pending r) (p_is_sigsegv_pending r) (p_pid r)
    (p_process_exit_status r) (p_on_rq r) (p_time_slice r) (p_cwd r)
    (p_sleep_time r) v (p_cptr r) (p_command r) (p_process_state r)
    (p_next_in_queue r) (p_mm r) (p_fd r) (p_thread_state r).
Definition set_p_cptr (v : Z) (r : pcb) : pcb :=
  Pcb (p_esp0 r) (p_rsp r) (p_kstack r) (p_flags r) (p_foreground r)
    (p_is_sigkill_pending r) (p_is_sigsegv_pending r) (p_pid r)
    (p_process_exit_status r) (p_on_rq r) (p_time_slice r) (p_cwd r)
    (p_sleep_time r) (p_pptr r) v (p_command r) (p_process_state r)
    (p_next_in_queue r) (p_mm r) (p_fd r) (p_thread_state r).
Definition set_p_command (v : Z) (r : pcb) : pcb :=
  Pcb (p_esp0 r) (p_rsp r) (p_kstack r) (p_flags r) (p_foreground r)
    (p_is_sigkill_pending r) (p_is_sigsegv_pending r) (p_pid r)
    (p_process_exit_status r) (p_on_rq r) (p_time_slice r) (p_cwd r)
    (p_sleep_time r) (p_pptr r) (p_cptr r) v (p_process_state r)
    (p_next_in_queue r) (p_mm r) (p_fd r) (p_thread_state r).
Definition set_p_process_state (v : pstate) (r : pcb) : pcb :=
  Pcb (p_esp0 r) (p_rsp r) (p_kstack r) (p_flags r) (p_foreground r)
    (p_is_sigkill_pending r) (p_is_sigsegv_pending r) (p_pid r)
    (p_process_exit_status r) (p_on_rq r) (p_time_slice r) (p_cwd r)
    (p_sleep_time r) (p_pptr r) (p_cptr r) (p_command r) v (p_next_in_queue
    r) (p_mm r) (p_fd r) (p_thread_state r).
Definition set_p_next_in_queue (v : Z) (r : pcb) : pcb :=
  Pcb (p_esp0 r) (p_rsp r) (p_kstack r) (p_flags r) (p_foreground r)
    (p_is_sigkill_pending r) (p_is_sigsegv_pending r) (p_pid r)
    (p_process_exit_status r) (p_on_rq r) (p_time_slice r) (p_cwd r)
    (p_sleep_time r) (p_pptr r) (p_cptr r) (p_command r) (p_process_state r)
    v (p_mm r) (p_fd r) (p_thread_state r).
Definition set_p_mm (v : Z) (r : pcb) : pcb :=
  Pcb (p_esp0 r) (p_rsp r) (p_kstack r) (p_flags r) (p_foreground r)
    (p_is_sigkill_pending r) (p_is_sigsegv_pending r) (p_pid r)
    (p_process_exit_status r) (p_on_rq r) (p_time_slice r) (p_cwd r)
    (p_sleep_time r) (p_pptr r) (p_cptr r) (p_command r) (p_process_state r)
    (p_next_in_queue r) v (p_fd r) (p_thread_state r).
Definition set_p_fd (v : list Z) (r : pcb) : pcb :=
  Pcb (p_esp0 r) (p_rsp r) (p_kstack r) (p_flags r) (p_foreground r)
    (p_is_sigkill_pending r) (p_is_sigsegv_pending r) (p_pid r)
    (p_process_exit_status r) (p_on_rq r) (p_time_slice r) (p_cwd r)
    (p_sleep_time r) (p_pptr r) (p_cptr r) (p_command r) (p_process_state r)
    (p_next_in_queue r) (p_mm r) v (p_thread_state r).
Definition set_p_thread_state (v : tstate) (r : pcb) : pcb :=
  Pcb (p_esp0 r) (p_rsp r) (p_kstack r) (p_flags r) (p_foreground r)
    (p_is_sigkill_pending r) (p_is_sigsegv_pending r) (p_pid r)
    (p_process_exit_status r) (p_on_rq r) (p_time_slice r) (p_cwd r)
    (p_sleep_time r) (p_pptr r) (p_cptr r) (p_command r) (p_process_state r)
    (p_next_in_queue r) (p_mm r) (p_fd r) v.

(** [struct proc_list]: a cell of [allproc], [zombproc] and the child lists. *)
Record proc_list : Type := ProcList {
  pl_process : Z;
  pl_next : Z
}.

Definition set_pl_process (v : Z) (r : proc_list) : proc_list :=
  ProcList v (pl_next r).
Definition set_pl_next (v : Z) (r : proc_list) : proc_list :=
  ProcList (pl_process r) v.

(** The page-fault callbacks a region can carry. *)
Inductive fault_fn : Type := do_file_fault_fn | do_anon_fault_fn.
#[global] Instance fault_fn_eq_dec : EqDecision fault_fn.
Proof. solve_decision. Defined.

(** [struct vm_map_entry]: a region of a process' address space, linked both
    ways. *)
Record vm_map_entry : Type := Vma {
  v_start_addr : Z;
  v_end_addr : Z;
  v_filesize : Z;
  v_memsize : Z;
  v_fileoffset : Z;
  v_protection : Z;
  v_file : Z;
  v_next : Z;
  v_prev : Z;
  v_fault : option fault_fn
}.

Definition set_v_start_addr (v : Z) (r : vm_map_entry) : vm_map_entry :=
  Vma v (v_end_addr r) (v_filesize r) (v_memsize r) (v_fileoffset r)
    (v_protection r) (v_file r) (v_next r) (v_prev r) (v_fault r).
Definition set_v_end_addr (v : Z) (r : vm_map_entry) : vm_map_entry :=
  Vma (v_start_addr r) v (v_filesize r) (v_memsize r) (v_fileoffset r)
    (v_protection r) (v_file r) (v_next r) (v_prev r) (v_fault r).
Definition set_v_filesize (v : Z) (r : vm_map_entry) : vm_map_entry :=
  Vma (v_start_addr r) (v_end_addr r) v (v_memsize r) (v_fileoffset r)
    (v_protection r) (v_file r) (v_next r) (v_prev r) (v_fault r).
Definition set_v_memsize (v : Z) (r : vm_map_entry) : vm_map_entry :=
  Vma (v_start_addr r) (v_end_addr r) (v_filesize r) v (v_fileoffset r)
    (v_protection r) (v_file r) (v_next r) (v_prev r) (v_fault r).
Definition set_v_fileoffset (v : Z) (r : vm_map_entry) : vm_map_entry :=
  Vma (v_start_addr r) (v_end_addr r) (v_filesize r) (v_memsize r) v
    (v_protection r) (v_file r) (v_next r) (v_prev r) (v_fault r).
Definition set_v_protection (v : Z) (r : vm_map_entry) : vm_map_entry :=
  Vma (v_start_addr r) (v_end_addr r) (v_filesize r) (v_memsize r)
    (v_fileoffset r) v (v_file r) (v_next r) (v_prev r) (v_fault r).
Definition set_v_file (v : Z) (r : vm_map_entry) : vm_map_entry :=
  Vma (v_start_addr r) (v_end_addr r) (v_filesize r) (v_memsize r)
    (v_fileoffset r) (v_protection r) v (v_next r) (v_prev r) (v_fault r).
Definition set_v_next (v : Z) (r : vm_map_entry) : vm_map_entry :=
  Vma (v_start_addr r) (v_end_addr r) (v_filesize r) (v_memsize r)
    (v_fileoffset r) (v_protection r) (v_file r) v (v_prev r) (v_fault r).
Definition set_v_prev (v : Z) (r : vm_map_entry) : vm_map_entry :=
  Vma (v_start_addr r) (v_end_addr r) (v_filesize r) (v_memsize r)
    (v_fileoffset r) (v_protection r) (v_file r) (v_next r) v (v_fault r).
Definition set_v_fault (v : option fault_fn) (r : vm_map_entry) : vm_map_entry :=
  Vma (v_start_addr r) (v_end_addr r) (v_filesize r) (v_memsize r)
    (v_fileoffset r) (v_protection r) (v_file r) (v_next r) (v_prev r) v.

(** [struct mm_struct]. *)
Record mm_struct : Type := Mm {
  mm_vma : Z;
  mm_exec : Z;
  mm_file : Z;
  mm_rip : Z;
  mm_cr3 : Z
}.

Definition set_mm_vma (v : Z) (r : mm_struct) : mm_struct :=
  Mm v (mm_exec r) (mm_file r) (mm_rip r) (mm_cr3 r).
Definition set_mm_exec (v : Z) (r : mm_struct) : mm_struct :=
  Mm (mm_vma r) v (mm_file r) (mm_rip r) (mm_cr3 r).
Definition set_mm_file (v : Z) (r : mm_struct) : mm_struct :=
  Mm (mm_vma r) (mm_exec r) v (mm_rip r) (mm_cr3 r).
Definition set_mm_rip (v : Z) (r : mm_struct) : mm_struct :=
  Mm (mm_vma r) (mm_exec r) (mm_file r) v (mm_cr3 r).
Definition set_mm_cr3 (v : Z) (r : mm_struct) : mm_struct :=
  Mm (mm_vma r) (mm_exec r) (mm_file r) (mm_rip r) v.

(** The functions a [struct file_operations] can point to. *)
Inductive read_fn : Type := tarfs_read_fn | terminal_read_fn.
Inductive write_fn : Type := terminal_write_fn.
Inductive close_fn : Type := tarfs_close_fn | terminal_close_fn.

(** [struct file_operations]; [open], [mmap] and [lseek] are NULL in every file
    the kernel creates and are left out. *)
Record file_operations : Type := Fops {
  fo_read : option read_fn;
  fo_write : option write_fn;
  fo_close : option close_fn
}.

Definition set_fo_read (v : option read_fn) (r : file_operations) : file_operations :=
  Fops v (fo_write r) (fo_close r).
Definition set_fo_write (v : option write_fn) (r : file_operations) : file_operations :=
  Fops (fo_read r) v (fo_close r).
Definition set_fo_close (v : option close_fn) (r : file_operations) : file_operations :=
  Fops (fo_read r) (fo_write r) v.

(** [struct file] (include/sys/vfs.h). *)
Record file : Type := File {
  f_offset : Z;
  f_refcount : Z;
  f_mode : Z;
  f_flags : Z;
  f_dentry : Z;
  f_op : Z
}.

Definition set_f_offset (v : Z) (r : file) : file :=
  File v (f_refcount r) (f_mode r) (f_flags r) (f_dentry r) (f_op r).
Definition set_f_refcount (v : Z) (r : file) : file :=
  File (f_offset r) v (f_mode r) (f_flags r) (f_dentry r) (f_op r).
Definition set_f_mode (v : Z) (r : file) : file :=
  File (f_offset r) (f_refcount r) v (f_flags r) (f_dentry r) (f_op r).
Definition set_f_flags (v : Z) (r : file) : file :=
  File (f_offset r) (f_refcount r) (f_mode r) v (f_dentry r) (f_op r).
Definition set_f_dentry (v : Z) (r : file) : file :=
  File (f_offset r) (f_refcount r) (f_mode r) (f_flags r) v (f_op r).
Definition set_f_op (v : Z) (r : file) : file :=
  File (f_offset r) (f_refcount r) (f_mode r) (f_flags r) (f_dentry r) v.

(** [struct dentry]: a 100-byte name, the parent and the operations. *)
Record dentry : Type := Dentry {
  d_name : list Z;
  d_parent : Z;
  d_op : Z
}.

Definition set_d_name (v : list Z) (r : dentry) : dentry :=
  Dentry v (d_parent r) (d_op r).
Definition set_d_parent (v : Z) (r : dentry) : dentry :=
  Dentry (d_name r) v (d_op r).
Definition set_d_op (v : Z) (r : dentry) : dentry :=
  Dentry (d_name r) (d_parent r) v.

(** [struct dentry_cache]: an entry of the dentry cache, 16 bytes. *)
Record dentry_cache : Type := DentryCache {
  dc_inode_num : Z;
  dc_dentry_elem : Z
}.

Definition set_dc_inode_num (v : Z) (r : dentry_cache) : dentry_cache :=
  DentryCache v (dc_dentry_elem r).
Definition set_dc_dentry_elem (v : Z) (r : dentry_cache) : dentry_cache :=
  DentryCache (dc_inode_num r) v.

(** [struct inode]: [i_data] is the offset of the contents in the tar image
    ([_binary_tarfs_start]) or NULL. *)
Record inode : Type := Inode {
  i_number : Z;
  i_size : Z;
  i_typeflag : Z;
  i_data : option Z;
  i_sb : Z;
  i_op : Z;
  i_dentry : Z
}.

Definition set_i_number (v : Z) (r : inode) : inode :=
  Inode v (i_size r) (i_typeflag r) (i_data r) (i_sb r) (i_op r) (i_dentry
    r).
Definition set_i_size (v : Z) (r : inode) : inode :=
  Inode (i_number r) v (i_typeflag r) (i_data r) (i_sb r) (i_op r) (i_dentry
    r).
Definition set_i_typeflag (v : Z) (r : inode) : inode :=
  Inode (i_number r) (i_size r) v (i_data r) (i_sb r) (i_op r) (i_dentry r).
Definition set_i_data (v : option Z) (r : inode) : inode :=
  Inode (i_number r) (i_size r) (i_typeflag r) v (i_sb r) (i_op r) (i_dentry
    r).
Definition set_i_sb (v : Z) (r : inode) : inode :=
  Inode (i_number r) (i_size r) (i_typeflag r) (i_data r) v (i_op r)
    (i_dentry r).
Definition set_i_op (v : Z) (r : inode) : inode :=
  Inode (i_number r) (i_size r) (i_typeflag r) (i_data r) (i_sb r) v
    (i_dentry r).
Definition set_i_dentry (v : Z) (r : inode) : inode :=
  Inode (i_number r) (i_size r) (i_typeflag r) (i_data r) (i_sb r) (i_op r)
    v.

(** The functions a [struct super_block_operations] can point to. *)
Inductive sb_fn : Type := tarfs_alloc_inode_fn | tarfs_destroy_inode_fn.

(** [struct super_block_operations]. *)
Record super_block_operations : Type := Sops {
  so_alloc_inode : option sb_fn;
  so_destroy_inode : option sb_fn;
  so_sync_fs : option sb_fn;
  so_write_inode : option sb_fn;
  so_delete_inode : option sb_fn;
  so_put_super : option sb_fn;
  so_write_super : option sb_fn
}.

(** [struct inode_operations] and [struct dentry_operations]: pointers the
    kernel only ever sets to NULL. *)
Record inode_operations : Type := Iops {
  io_create : Z;
  io_lookup : Z;
  io_link : Z;
  io_unlink : Z;
  io_symlink : Z;
  io_mkdir : Z;
  io_rmdir : Z;
  io_rename : Z;
  io_permission : Z
}.
Record dentry_operations : Type := Dops {
  d_compare : Z;
  d_delete : Z
}.

(** [struct name]: pointers to the two parts of a path. *)
Record name : Type := Name {
  n_parent : Z;
  n_child : Z
}.

Definition set_n_parent (v : Z) (r : name) : name := Name v (n_child r).
Definition set_n_child (v : Z) (r : name) : name := Name (n_parent r) v.

(** What a frame holds.  [phys_mem_alloc] hands out whole frames and every
    dynamic kernel structure lives at the start of one, so the store maps the
    kernel virtual address of a frame to the structure in it. *)
Inductive obj : Type :=
| OPcb (p : pcb)
| OProcList (c : proc_list)
| OVma (v : vm_map_entry)
| OMm (m : mm_struct)
| OFile (f : file)
| OFops (o : file_operations)
| ODentry (d : dentry)
| ODcache (l : list dentry_cache)
| OInodes (l : list inode)
| OTable (t : list Z)
| OBytes (b : list Z)
| OSops (o : super_block_operations)
| OIops (o : inode_operations)
| ODops (o : dentry_operations)
| OName (n : name).

(** The globals of phys_mmgr.c: the frame array, its length and the pointer to
    it (an alias of the same array before and after paging is on). *)
Record phys_mgr : Type := Phys {
  pages : list page;
  number_of_pages : Z;
  free_page_list : Z
}.

Definition set_pages (v : list page) (r : phys_mgr) : phys_mgr :=
  Phys v (number_of_pages r) (free_page_list r).
Definition set_number_of_pages (v : Z) (r : phys_mgr) : phys_mgr :=
  Phys (pages r) v (free_page_list r).
Definition set_free_page_list_ptr (v : Z) (r : phys_mgr) : phys_mgr :=
  Phys (pages r) (number_of_pages r) v.

(** The globals of process.h, scheduler.h, queue.h and util.h: list heads, the
    running process and the heads ([processes]) of the four queues. *)
Record proc_globals : Type := ProcGlobals {
  allproc : Z;
  zombproc : Z;
  current : Z;
  idle_task : Z;
  run_queue : Z;
  blocked_queue : Z;
  sleeping_queue : Z;
  waiting_queue : Z;
  last_pid : Z
}.

Definition set_allproc (v : Z) (r : proc_globals) : proc_globals :=
  ProcGlobals v (zombproc r) (current r) (idle_task r) (run_queue r)
    (blocked_queue r) (sleeping_queue r) (waiting_queue r) (last_pid r).
Definition set_zombproc (v : Z) (r : proc_globals) : proc_globals :=
  ProcGlobals (allproc r) v (current r) (idle_task r) (run_queue r)
    (blocked_queue r) (sleeping_queue r) (waiting_queue r) (last_pid r).
Definition set_current (v : Z) (r : proc_globals) : proc_globals :=
  ProcGlobals (allproc r) (zombproc r) v (idle_task r) (run_queue r)
    (blocked_queue r) (sleeping_queue r) (waiting_queue r) (last_pid r).
Definition set_idle_task (v : Z) (r : proc_globals) : proc_globals :=
  ProcGlobals (allproc r) (zombproc r) (current r) v (run_queue r)
    (blocked_queue r) (sleeping_queue r) (waiting_queue r) (last_pid r).
Definition set_run_queue (v : Z) (r : proc_globals) : proc_globals :=
  ProcGlobals (allproc r) (zombproc r) (current r) (idle_task r) v
    (blocked_queue r) (sleeping_queue r) (waiting_queue r) (last_pid r).
Definition set_blocked_queue (v : Z) (r : proc_globals) : proc_globals :=
  ProcGlobals (allproc r) (zombproc r) (current r) (idle_task r) (run_queue
    r) v (sleeping_queue r) (waiting_queue r) (last_pid r).
Definition set_sleeping_queue (v : Z) (r : proc_globals) : proc_globals :=
  ProcGlobals (allproc r) (zombproc r) (current r) (idle_task r) (run_queue
    r) (blocked_queue r) v (waiting_queue r) (last_pid r).
Definition set_waiting_queue (v : Z) (r : proc_globals) : proc_globals :=
  ProcGlobals (allproc r) (zombproc r) (current r) (idle_task r) (run_queue
    r) (blocked_queue r) (sleeping_queue r) v (last_pid r).
Definition set_last_pid (v : Z) (r : proc_globals) : proc_globals :=
  ProcGlobals (allproc r) (zombproc r) (current r) (idle_task r) (run_queue
    r) (blocked_queue r) (sleeping_queue r) (waiting_queue r) v.

(** The globals of tarfs.h: the address of the superblock and of the dentry
    cache, and the fields of the superblock [tarfs_init] fills in. *)
Record fs_globals : Type := FsGlobals {
  tarfs_sb : Z;
  dentry_cache_array : Z;
  s_inodes : Z;
  s_root : Z;
  s_magic : Z;
  s_op : Z
}.

Definition set_tarfs_sb (v : Z) (r : fs_globals) : fs_globals :=
  FsGlobals v (dentry_cache_array r) (s_inodes r) (s_root r) (s_magic r) (s_op r).
Definition set_dentry_cache_array (v : Z) (r : fs_globals) : fs_globals :=
  FsGlobals (tarfs_sb r) v (s_inodes r) (s_root r) (s_magic r) (s_op r).
Definition set_s_inodes (v : Z) (r : fs_globals) : fs_globals :=
  FsGlobals (tarfs_sb r) (dentry_cache_array r) v (s_root r) (s_magic r) (s_op r).
Definition set_s_root (v : Z) (r : fs_globals) : fs_globals :=
  FsGlobals (tarfs_sb r) (dentry_cache_array r) (s_inodes r) v (s_magic r) (s_op r).
Definition set_s_magic (v : Z) (r : fs_globals) : fs_globals :=
  FsGlobals (tarfs_sb r) (dentry_cache_array r) (s_inodes r) (s_root r) v (s_op r).
Definition set_s_op (v : Z) (r : fs_globals) : fs_globals :=
  FsGlobals (tarfs_sb r) (dentry_cache_array r) (s_inodes r) (s_root r) (s_magic r) v.

(** Processor state the kernel writes: [cr3], the TSS [rsp0], the two words of
    [struct kernel_ds] with its address, and the MSRs as (low, high) pairs. *)
Record cpu : Type := Cpu {
  cr3 : Z;
  tss_rsp0 : Z;
  ds_k_rsp : Z;
  ds_u_rsp : Z;
  global_ds : Z;
  msr : gmap Z (Z * Z)
}.

Definition set_cr3 (v : Z) (r : cpu) : cpu :=
  Cpu v (tss_rsp0 r) (ds_k_rsp r) (ds_u_rsp r) (global_ds r) (msr r).
Definition set_tss_rsp0 (v : Z) (r : cpu) : cpu :=
  Cpu (cr3 r) v (ds_k_rsp r) (ds_u_rsp r) (global_ds r) (msr r).
Definition set_ds_k_rsp (v : Z) (r : cpu) : cpu :=
  Cpu (cr3 r) (tss_rsp0 r) v (ds_u_rsp r) (global_ds r) (msr r).
Definition set_ds_u_rsp (v : Z) (r : cpu) : cpu :=
  Cpu (cr3 r) (tss_rsp0 r) (ds_k_rsp r) v (global_ds r) (msr r).
Definition set_global_ds (v : Z) (r : cpu) : cpu :=
  Cpu (cr3 r) (tss_rsp0 r) (ds_k_rsp r) (ds_u_rsp r) v (msr r).
Definition set_msr (v : gmap Z (Z * Z)) (r : cpu) : cpu :=
  Cpu (cr3 r) (tss_rsp0 r) (ds_k_rsp r) (ds_u_rsp r) (global_ds r) v.

(** The globals of kprintf.c: the cursor, the base pointer and the cells of the
    text screen, by offset from the base. *)
Record console : Type := Console {
  con_x : Z;
  con_y : Z;
  con_vgamemory : Z;
  con_cells : gmap Z Z
}.

Definition set_con_x (v : Z) (r : console) : console :=
  Console v (con_y r) (con_vgamemory r) (con_cells r).
Definition set_con_y (v : Z) (r : console) : console :=
  Console (con_x r) v (con_vgamemory r) (con_cells r).
Definition set_con_vgamemory (v : Z) (r : console) : console :=
  Console (con_x r) (con_y r) v (con_cells r).
Definition set_con_cells (v : gmap Z Z) (r : console) : console :=
  Console (con_x r) (con_y r) (con_vgamemory r) v.

(** The globals of terminals.c: the input buffer by offset, the offset of
    [head] from [input_buffer], and the number of characters held. *)
Record tty : Type := Tty {
  input_buffer : gmap Z Z;
  head : Z;
  line_cursor : Z
}.

Definition set_input_buffer (v : gmap Z Z) (r : tty) : tty :=
  Tty v (head r) (line_cursor r).
Definition set_head (v : Z) (r : tty) : tty :=
  Tty (input_buffer r) v (line_cursor r).
Definition set_line_cursor (v : Z) (r : tty) : tty :=
  Tty (input_buffer r) (head r) v.

(** The globals of keyboard.h: the modifier keys and the echo switch. *)
Record keyboard : Type := Keyboard {
  _shift : Z;
  _ctrl : Z;
  stop_buffer_output : Z
}.

Definition set__shift (v : Z) (r : keyboard) : keyboard :=
  Keyboard v (_ctrl r) (stop_buffer_output r).
Definition set__ctrl (v : Z) (r : keyboard) : keyboard :=
  Keyboard (_shift r) v (stop_buffer_output r).
Definition set_stop_buffer_output (v : Z) (r : keyboard) : keyboard :=
  Keyboard (_shift r) (_ctrl r) v.

(** Port accesses, newest first in the trace: what the devices have seen. *)
Inductive io_event : Type :=
| OutPort (port value : Z)
| InPort (port value : Z).

(** The kernel state. *)
Record kst : Type := KSt {
  k_phys : phys_mgr;
  k_heap : gmap Z obj;
  k_proc : proc_globals;
  k_is_paging : Z;
  k_pml4 : Z;
  k_cpu : cpu;
  k_con : console;
  k_tty : tty;
  k_fs : fs_globals;
  k_kbd : keyboard;
  k_trace : list io_event;
  k_ticks : Z
}.

Definition set_k_phys (v : phys_mgr) (r : kst) : kst :=
  KSt v (k_heap r) (k_proc r) (k_is_paging r) (k_pml4 r) (k_cpu r) (k_con r)
    (k_tty r) (k_fs r) (k_kbd r) (k_trace r) (k_ticks r).
Definition set_k_heap (v : gmap Z obj) (r : kst) : kst :=
  KSt (k_phys r) v (k_proc r) (k_is_paging r) (k_pml4 r) (k_cpu r) (k_con r)
    (k_tty r) (k_fs r) (k_kbd r) (k_trace r) (k_ticks r).
Definition set_k_proc (v : proc_globals) (r : kst) : kst :=
  KSt (k_phys r) (k_heap r) v (k_is_paging r) (k_pml4 r) (k_cpu r) (k_con r)
    (k_tty r) (k_fs r) (k_kbd r) (k_trace r) (k_ticks r).
Definition set_k_is_paging (v : Z) (r : kst) : kst :=
  KSt (k_phys r) (k_heap r) (k_proc r) v (k_pml4 r) (k_cpu r) (k_con r)
    (k_tty r) (k_fs r) (k_kbd r) (k_trace r) (k_ticks r).
Definition set_k_pml4 (v : Z) (r : kst) : kst :=
  KSt (k_phys r) (k_heap r) (k_proc r) (k_is_paging r) v (k_cpu r) (k_con r)
    (k_tty r) (k_fs r) (k_kbd r) (k_trace r) (k_ticks r).
Definition set_k_cpu (v : cpu) (r : kst) : kst :=
  KSt (k_phys r) (k_heap r) (k_proc r) (k_is_paging r) (k_pml4 r) v (k_con
    r) (k_tty r) (k_fs r) (k_kbd r) (k_trace r) (k_ticks r).
Definition set_k_con (v : console) (r : kst) : kst :=
  KSt (k_phys r) (k_heap r) (k_proc r) (k_is_paging r) (k_pml4 r) (k_cpu r)
    v (k_tty r) (k_fs r) (k_kbd r) (k_trace r) (k_ticks r).
Definition set_k_tty (v : tty) (r : kst) : kst :=
  KSt (k_phys r) (k_heap r) (k_proc r) (k_is_paging r) (k_pml4 r) (k_cpu r)
    (k_con r) v (k_fs r) (k_kbd r) (k_trace r) (k_ticks r).
Definition set_k_fs (v : fs_globals) (r : kst) : kst :=
  KSt (k_phys r) (k_heap r) (k_proc r) (k_is_paging r) (k_pml4 r) (k_cpu r)
    (k_con r) (k_tty r) v (k_kbd r) (k_trace r) (k_ticks r).
Definition set_k_kbd (v : keyboard) (r : kst) : kst :=
  KSt (k_phys r) (k_heap r) (k_proc r) (k_is_paging r) (k_pml4 r) (k_cpu r)
    (k_con r) (k_tty r) (k_fs r) v (k_trace r) (k_ticks r).
Definition set_k_trace (v : list io_event) (r : kst) : kst :=
  KSt (k_phys r) (k_heap r) (k_proc r) (k_is_paging r) (k_pml4 r) (k_cpu r)
    (k_con r) (k_tty r) (k_fs r) (k_kbd r) v (k_ticks r).
Definition set_k_ticks (v : Z) (r : kst) : kst :=
  KSt (k_phys r) (k_heap r) (k_proc r) (k_is_paging r) (k_pml4 r) (k_cpu r)
    (k_con r) (k_tty r) (k_fs r) (k_kbd r) (k_trace r) v.
Definition upd_phys (f : phys_mgr → phys_mgr) (s : kst) : kst := set_k_phys (f (k_phys s)) s.
Definition upd_heap (f : gmap Z obj → gmap Z obj) (s : kst) : kst := set_k_heap (f (k_heap s)) s.
Definition upd_proc (f : proc_globals → proc_globals) (s : kst) : kst := set_k_proc (f (k_proc s)) s.
Definition upd_cpu (f : cpu → cpu) (s : kst) : kst := set_k_cpu (f (k_cpu s)) s.
Definition upd_con (f : console → console) (s : kst) : kst := set_k_con (f (k_con s)) s.
Definition upd_tty (f : tty → tty) (s : kst) : kst := set_k_tty (f (k_tty s)) s.

Definition upd_kbd (f : keyboard → keyboard) (s : kst) : kst := set_k_kbd (f (k_kbd s)) s.
Definition upd_fs (f : fs_globals → fs_globals) (s : kst) : kst := set_k_fs (f (k_fs s)) s.

(** ** Constants *)

Definition KERNBASE : Z := 0xFFFFFFFF80000000.
Definition PAGE_BLOCK_SIZE : Z := 4096.
Definition MAX_FD : Z := 256.
Definition TIME_SLICE : Z := 1000.
Definition STACK_START : Z := 0x00007ffffffff000.
Definition STACK_LIMIT : Z := STACK_START - 4 * PAGE_BLOCK_SIZE.

(** The kernel virtual address of a physical one: [(uint64_t)p | KERNBASE]. *)
Definition kv (p : Z) : Z := Z.lor p KERNBASE.

(** ** Typed access to the store

    The store is keyed by the kernel virtual address of a frame.  Before
    paging is on the boot code uses physical pointers; such an access is to
    [kv] of the pointer. *)

Definition as_pcb (o : obj) : option pcb := match o with OPcb p => Some p | _ => None end.
Definition as_proc_list (o : obj) : option proc_list :=
  match o with OProcList p => Some p | _ => None end.
Definition as_vma (o : obj) : option vm_map_entry := match o with OVma v => Some v | _ => None end.
Definition as_mm (o : obj) : option mm_struct := match o with OMm v => Some v | _ => None end.
Definition as_file (o : obj) : option file := match o with OFile v => Some v | _ => None end.
Definition as_fops (o : obj) : option file_operations :=
  match o with OFops v => Some v | _ => None end.
Definition as_dentry (o : obj) : option dentry := match o with ODentry v => Some v | _ => None end.
Definition as_dcache (o : obj) : option (list dentry_cache) :=
  match o with ODcache v => Some v | _ => None end.
Definition as_inodes (o : obj) : option (list inode) :=
  match o with OInodes v => Some v | _ => None end.
Definition as_table (o : obj) : option (list Z) := match o with OTable v => Some v | _ => None end.
Definition as_bytes (o : obj) : option (list Z) := match o with OBytes v => Some v | _ => None end.
Definition as_name (o : obj) : option name := match o with OName v => Some v | _ => None end.

Definition load {A : Type} (as_ : obj → option A) (a : Z) : M kst A :=
  λ s, match k_heap s !! a ≫= as_ with Some x => Ok (x, s) | None => Ub end.
Definition store (a : Z) (o : obj) : M kst unit := modify (upd_heap <[a := o]>).

(** [a->field = v]: the structure must already be there. *)
Definition update {A : Type} (as_ : obj → option A) (inj : A → obj) (a : Z) (f : A → A) : M kst unit :=
  x ← load as_ a; store a (inj (f x)).
Definition update_pcb := update as_pcb OPcb.
Definition update_vma := update as_vma OVma.
Definition update_mm := update as_mm OMm.
Definition update_proc_list := update as_proc_list OProcList.
Definition update_file := update as_file OFile.
Definition update_dentry := update as_dentry ODentry.
Definition update_name := update as_name OName.

Section store.
Context {A : Type} (as_ : obj → option A) (inj : A → obj).

Lemma load_ok a x s : k_heap s !! a ≫= as_ = Some x → load as_ a s = Ok (x, s).
Proof. unfold load. by intros ->. Qed.

Lemma load_some a o x s : k_heap s !! a = Some o → as_ o = Some x → load as_ a s = Ok (x, s).
Proof. intros H1 H2. apply load_ok. by rewrite H1. Qed.

Lemma update_ok a o x f s : k_heap s !! a = Some o → as_ o = Some x →
  update as_ inj a f s = Ok (tt, upd_heap <[a := inj (f x)]> s).
Proof. intros H1 H2. unfold update. by mstep (load_some a o x s H1 H2). Qed.

End store.

Lemma load_inv {A : Type} (as_ : obj → option A) a x s s' : load as_ a s = Ok (x, s') →
  s' = s ∧ ∃ o, k_heap s !! a = Some o ∧ as_ o = Some x.
Proof.
  unfold load. destruct (k_heap s !! a) as [o|]; [|done]. simpl.
  destruct (as_ o) eqn:E; [|done]. naive_solver.
Qed.

(** ** Writing a zeroed frame

    [my_memset] (util.c) stores [n] bytes and then one more zero byte.  With
    [n = 4096] at the start of a frame the extra byte is the first byte of
    the following frame; [zero_first_byte] is its effect on the structure
    that lives there. *)

Definition clear_low8 (z : Z) : Z := Z.ldiff z 255.
Definition zero_head (l : list Z) (f : Z → Z) : list Z :=
  match l with [] => [] | x :: l' => f x :: l' end.
Definition zero_first_byte (o : obj) : obj :=
  match o with
  | OPcb p => OPcb (set_p_esp0 (clear_low8 (p_esp0 p)) p)
  | OProcList c => OProcList (set_pl_process (clear_low8 (pl_process c)) c)
  | OVma v => OVma (set_v_start_addr (clear_low8 (v_start_addr v)) v)
  | OMm m => OMm (set_mm_vma (clear_low8 (mm_vma m)) m)
  | OFile f => OFile (set_f_offset (clear_low8 (f_offset f)) f)
  | OFops f => OFops f
  | ODentry d => ODentry (set_d_name (zero_head (d_name d) (λ _, 0)) d)
  | ODcache l => ODcache (match l with
      | [] => [] | e :: l' => set_dc_inode_num (clear_low8 (dc_inode_num e)) e :: l' end)
  | OInodes l => OInodes (match l with
      | [] => [] | e :: l' => set_i_number (clear_low8 (i_number e)) e :: l' end)
  | OTable t => OTable (zero_head t clear_low8)
  | OBytes b => OBytes (zero_head b (λ _, 0))
  | OSops o => OSops o
  | OIops o => OIops (Iops (clear_low8 (io_create o)) (io_lookup o) (io_link o) (io_unlink o) (io_symlink o)
      (io_mkdir o) (io_rmdir o) (io_rename o) (io_permission o))
  | ODops o => ODops (Dops (clear_low8 (d_compare o)) (d_delete o))
  | OName n => OName (set_n_parent (clear_low8 (n_parent n)) n)
  end.

(** [my_memset((void * )a, 0, 4096)], where [o] is the all-zero structure of
    the type the caller uses the frame at. *)
Definition memset_frame (a : Z) (o : obj) : M kst unit :=
  modify (upd_heap (λ h, alter zero_first_byte (a + PAGE_BLOCK_SIZE) (<[a := o]> h))).

Definition zero_pcb : pcb :=
  Pcb 0 0 0 PF_UTHREAD 0 0 0 0 0 0 0 0 0 0 0 0 NEW 0 0 (replicate 256 0) RUNNING.
Definition zero_table : list Z := replicate 512 0.
Definition zero_bytes : list Z := replicate 4096 0.
Definition zero_dcache : list dentry_cache := replicate 256 (DentryCache 0 0).
Definition zero_mm : mm_struct := Mm 0 0 0 0 0.
Definition zero_file : file := File 0 0 0 0 0 0.

Lemma memset_frame_clean a o s :
  k_heap s !! (a + PAGE_BLOCK_SIZE) = None →
  memset_frame a o s = Ok (tt, upd_heap <[a := o]> s).
Proof.
  intros H. unfold memset_frame, modify. do 2 f_equal. unfold upd_heap. f_equal.
  apply map_eq. intros i. rewrite lookup_alter. case_decide as E; [|done].
  subst i. rewrite lookup_insert_ne by (unfold PAGE_BLOCK_SIZE; lia). by rewrite H.
Qed.

Lemma kv_add p : 0 ≤ p < 2 ^ 31 → kv p = p + KERNBASE.
Proof.
  intros Hp. unfold kv. rewrite Z.lor_comm.
  change KERNBASE with (0x1FFFFFFFF * 2 ^ 31).
  rewrite land_disjoint_add by lia. lia.
Qed.

Lemma kv_inj p q : 0 ≤ p < 2 ^ 31 → 0 ≤ q < 2 ^ 31 → kv p = kv q → p = q.
Proof. intros Hp Hq. rewrite !kv_add by done. lia. Qed.

Lemma kv_kv p : kv (kv p) = kv p.
Proof. unfold kv. by rewrite <- Z.lor_assoc, Z.lor_diag. Qed.

Lemma kv_ge p : 0 ≤ p → KERNBASE ≤ kv p.
Proof.
  intros Hp. unfold kv. apply Z.le_trans with (Z.lor p KERNBASE); [|done].
  rewrite <- (Z.lor_0_l KERNBASE) at 1.
  apply Z.ldiff_le; [apply Z.lor_nonneg; done|].
  rewrite Z.lor_0_l. apply Z.bits_inj'. intros i Hi.
  rewrite Z.ldiff_spec, Z.lor_spec, Z.bits_0.
  destruct (Z.testbit KERNBASE i), (Z.testbit p i); done.
Qed.

(** ** A state with empty globals, the starting point of concrete runs *)
Definition blank_kst : kst :=
  KSt (Phys [] 0 0) ∅ (ProcGlobals 0 0 0 0 0 0 0 0 0) 0 0 (Cpu 0 0 0 0 0 ∅)
    (Console 0 0 0 ∅) (Tty ∅ 0 0) (FsGlobals 0 0 0 0 0 0) (Keyboard 0 0 0) [] 0.
