(* ===== verification/Kprintf.v ===== *)
(** * The kernel console (sys/kprintf.c)

    The text screen as a cursor and a map of cells, the formatted output
    routine, and the number printer it shares with libc/vprintf.c.  Theorems:
    the number printer is a right inverse of reading digits, it fits its
    buffers, and the cursor stays inside a row. *)

From S2P Require Export Machine.

(** ** Printing numbers *)

Definition available : list Z := bytes_of_string "0123456789ABCDEF".
Definition digit (d : Z) : Z := available !!! Z.to_nat d.

(** The [while(ret != 0)] loop of [convert_to_base]; [acc] is the part of the
    buffer [p] from index [j] to the terminator.  A 32-bit number in base 2
    has 32 digits, so 32 rounds empty it in every base above 1. *)
Fixpoint convert_loop (fuel : nat) (base ret : Z) (acc : list Z) : list Z :=
  match fuel with
  | O => acc
  | S fuel' =>
      if ret =? 0 then acc
      else convert_loop fuel' base (ret / base) (digit (ret mod base) :: acc)
  end.

(** [convert_to_base(i, base, s)]: the characters stored at [s], without the
    terminator. *)
Definition convert_to_base (i base : Z) : list Z :=
  let ret := u32 i in
  if ret =? 0 then [digit 0] else convert_loop 32 (u32 base) ret [].

(** [itoa(i)] of kprintf.c: the characters copied to the new frame; [None]
    when the digits overrun the six-byte buffer [p]. *)
Definition itoa_chars (i : Z) : option (list Z) :=
  let ret := u32 i in
  let cs := if ret =? 0 then [digit 0] else convert_loop 32 10 ret [] in
  if Z.of_nat (length cs) <=? 5 then Some cs else None.

(** ** The screen *)

Definition color : Z := 0x0A.

Definition kputchar_con (is_paging c : Z) (k : console) : console :=
  let base := if is_paging =? 0 then 0xB8000 else KERNBASE + 0xB8000 in
  let k := set_con_vgamemory base k in
  let c := i8 c in
  let k :=
    if 32 <=? c then
      let off := u32 (u32 (con_y k * 80) + con_x k) in
      set_con_x (u32 (con_x k + 1))
        (set_con_cells (<[off := u16 (Z.lor c (Z.shiftl color 8))]> (con_cells k)) k)
    else if c =? 13 then set_con_x 0 k
    else if c =? 10 then set_con_y (u32 (con_y k + 1)) (set_con_x 0 k)
    else k in
  if 80 <=? con_x k then set_con_y (u32 (con_y k + 1)) (set_con_x 0 k) else k.

Definition kputs_con (is_paging : Z) (s : list Z) (k : console) : console :=
  fold_left (λ k c, kputchar_con is_paging c k) s k.

(** An argument of the variable part of [kprintf]. *)
Inductive karg : Type := KInt (i : Z) | KStr (s : list Z).

(** [kprintf]: [str] are the characters from index [j] on.  [None] when
    [va_arg] runs past the arguments or meets one of the wrong type. *)
Fixpoint kprintf_loop (is_paging : Z) (str : list Z) (args : list karg) (k : console)
  {struct str} : option console :=
  match str with
  | [] => Some k
  | c :: str1 =>
      if negb (c =? chr "%") then
        kprintf_loop is_paging str1 args (kputchar_con is_paging c k)
      else match str1 with
      | [] => Some k
      | d :: str2 =>
          if d =? chr "d" then
            match args with
            | KInt i :: args' =>
                let i := i32 i in
                if i <? 0 then
                  kprintf_loop is_paging str2 args'
                    (kputs_con is_paging (convert_to_base (i32 (- i)) 10)
                       (kputchar_con is_paging (chr "-") k))
                else
                  kprintf_loop is_paging str2 args'
                    (kputs_con is_paging (convert_to_base i 10) k)
            | _ => None
            end
          else if d =? chr "c" then
            match args with
            | KInt i :: args' => kprintf_loop is_paging str2 args' (kputchar_con is_paging i k)
            | _ => None
            end
          else if (d =? chr "x") || (d =? chr "p") then
            match args with
            | KInt i :: args' =>
                kprintf_loop is_paging str2 args'
                  (kputs_con is_paging (convert_to_base (i32 i) 16) k)
            | _ => None
            end
          else if d =? chr "s" then
            match args with
            | KStr s :: args' => kprintf_loop is_paging str2 args' (kputs_con is_paging s k)
            | _ => None
            end
          else if d =? chr "o" then
            match args with
            | KInt i :: args' =>
                kprintf_loop is_paging str2 args'
                  (kputs_con is_paging (convert_to_base (i32 i) 8) k)
            | _ => None
            end
          else kprintf_loop is_paging str2 args k
      end
  end.

(** The routines on the kernel state. *)
Definition kputchar (c : Z) : M kst unit :=
  modify (λ s, upd_con (kputchar_con (k_is_paging s) c) s).
Definition set_x (x : Z) : M kst unit := modify (upd_con (set_con_x (u32 x))).
Definition set_y (y : Z) : M kst unit := modify (upd_con (set_con_y (u32 y))).
Definition get_x : M kst Z := gets (λ s, con_x (k_con s)).
Definition get_y : M kst Z := gets (λ s, con_y (k_con s)).
Definition kprintf_bytes (fmt : list Z) (args : list karg) : M kst unit :=
  s ← get;
  match kprintf_loop (k_is_paging s) fmt args (k_con s) with
  | Some k => modify (set_k_con k)
  | None => ub
  end.
Definition kprintf (fmt : string) (args : list karg) : M kst unit :=
  kprintf_bytes (bytes_of_string fmt) args.

(** ** Properties *)

(** Reading a string of digits back. *)
Definition digit_value (c : Z) : Z := if c <=? 57 then c - 48 else c - 55.
Definition read_base (base : Z) (cs : list Z) : Z :=
  fold_left (λ n c, n * base + digit_value c) cs 0.

Lemma digit_value_digit d : 0 ≤ d < 16 → digit_value (digit d) = d.
Proof.
  intros Hd. assert (∃ n : nat, d = Z.of_nat n ∧ (n < 16)%nat) as (n & -> & Hn).
  { exists (Z.to_nat d). lia. }
  unfold digit. rewrite Nat2Z.id.
  do 16 (destruct n as [|n]; [done|]). lia.
Qed.

Lemma read_base_from base cs n :
  fold_left (λ n c, n * base + digit_value c) cs n
  = n * base ^ Z.of_nat (length cs) + read_base base cs.
Proof.
  unfold read_base. revert n. induction cs as [|c cs IH]; intros n; cbn [fold_left length].
  - rewrite Z.pow_0_r. lia.
  - rewrite IH, (IH (0 * base + _)), Nat2Z.inj_succ, Z.pow_succ_r; [ring|lia].
Qed.

Lemma read_base_cons base c cs :
  read_base base (c :: cs) = digit_value c * base ^ Z.of_nat (length cs) + read_base base cs.
Proof. unfold read_base at 1. cbn [fold_left]. rewrite read_base_from. lia. Qed.

Lemma convert_loop_value fuel base ret acc :
  1 < base ≤ 16 → 0 ≤ ret < base ^ Z.of_nat fuel →
  read_base base (convert_loop fuel base ret acc)
  = ret * base ^ Z.of_nat (length acc) + read_base base acc.
Proof.
  intros Hb. revert ret acc. induction fuel as [|fuel IH]; intros ret acc Hr.
  - simpl in *. assert (ret = 0) as -> by lia. lia.
  - rewrite Nat2Z.inj_succ, Z.pow_succ_r in Hr by lia. cbn [convert_loop].
    destruct (Z.eqb_spec ret 0) as [->|H0]; [lia|].
    assert (0 ≤ ret mod base < base) by (apply Z.mod_pos_bound; lia).
    rewrite IH by (split; [apply Z.div_pos|apply Z.div_lt_upper_bound]; lia).
    rewrite read_base_cons, digit_value_digit by lia.
    cbn [length]. rewrite Nat2Z.inj_succ, Z.pow_succ_r by lia.
    pose proof (Z.div_mod ret base ltac:(lia)) as E. set (P := base ^ _). nia.
Qed.

Lemma convert_loop_length fuel base ret acc (n : nat) :
  1 < base → 0 ≤ ret < base ^ Z.of_nat n → (n ≤ fuel)%nat →
  (length (convert_loop fuel base ret acc) ≤ n + length acc)%nat.
Proof.
  intros Hb. revert ret acc n. induction fuel as [|fuel IH]; intros ret acc n Hr Hn; cbn [convert_loop]; [lia|].
  destruct (Z.eqb_spec ret 0) as [->|H0]; [lia|].
  destruct n as [|n]; [simpl in Hr; lia|].
  rewrite Nat2Z.inj_succ, Z.pow_succ_r in Hr by lia.
  etrans; [apply (IH _ _ n)|simpl; lia]; [|lia].
  split; [apply Z.div_pos|apply Z.div_lt_upper_bound]; lia.
Qed.

Lemma pow_base_32 base : 1 < base → 2 ^ 32 ≤ base ^ 32.
Proof. intros. apply Z.pow_le_mono_l. lia. Qed.

Lemma convert_to_base_value i base :
  1 < base ≤ 16 →
  read_base base (convert_to_base i base) = u32 i
  ∧ (1 ≤ length (convert_to_base i base) ≤ 32)%nat.
Proof.
  intros Hb. pose proof (u32_range i) as Hi. pose proof (pow_base_32 base ltac:(lia)) as Hp.
  unfold convert_to_base. rewrite (u32_small base) by lia.
  destruct (Z.eqb_spec (u32 i) 0) as [->|H0]; [split; [done|simpl; lia]|].
  assert (Hv := convert_loop_value 32 base (u32 i) [] ltac:(lia) ltac:(lia)).
  assert (Hl := convert_loop_length 32 base (u32 i) [] 32 ltac:(lia) ltac:(lia) ltac:(lia)).
  revert Hv Hl. generalize (convert_loop 32 base (u32 i) []). intros cs Hv Hl.
  assert (E : read_base base [] = 0) by done. rewrite E in Hv.
  change (Z.of_nat (length (@nil Z))) with 0 in Hv. rewrite Z.pow_0_r in Hv.
  change (length (@nil Z)) with O in Hl.
  split; [lia|]. split; [|lia]. destruct cs; [rewrite E in Hv; lia|]. cbn [length]. lia.
Qed.

(** In base ten every character is a decimal digit. *)
Definition decimal (c : Z) : Prop := chr "0" ≤ c ≤ chr "9".
Lemma digit_decimal d : 0 ≤ d < 10 → decimal (digit d).
Proof.
  intros Hd. assert (∃ n : nat, d = Z.of_nat n ∧ (n < 10)%nat) as (n & -> & Hn) by (exists (Z.to_nat d); lia).
  unfold digit. rewrite Nat2Z.id. do 10 (destruct n as [|n]; [by vm_compute|]). lia.
Qed.
Lemma convert_loop_decimal fuel ret acc : Forall decimal acc → Forall decimal (convert_loop fuel 10 ret acc).
Proof.
  revert ret acc. induction fuel as [|fuel IH]; intros ret acc Ha; cbn [convert_loop]; [done|].
  destruct (ret =? 0); [done|]. apply IH. constructor; [|done]. apply digit_decimal, Z.mod_pos_bound. lia.
Qed.
Lemma convert_decimal i : Forall decimal (convert_to_base i 10).
Proof.
  unfold convert_to_base. change (u32 10) with 10. destruct (u32 i =? 0); [|by apply convert_loop_decimal].
  apply Forall_singleton, digit_decimal. lia.
Qed.

(** The number printer of kprintf.c and libc's vprintf.c is correct: for
    every base from 2 to 16 the characters it stores, read back in that base,
    give the 32-bit number, and they are between 1 and 32 characters, so the
    64-byte and 128-byte buffers of the callers hold them. *)
Theorem convert_to_base_correct i base :
  1 < base ≤ 16 →
  read_base base (convert_to_base i base) = u32 i
  ∧ (1 ≤ length (convert_to_base i base) ≤ 32)%nat.
Proof. apply convert_to_base_value. Qed.

Lemma convert_to_base_correct_witness :
  read_base 16 (convert_to_base 48879 16) = 48879 ∧ 1 < 16 ≤ 16.
Proof.
  split; [|lia].
  destruct (convert_to_base_correct 48879 16) as [H _]; [lia|]. exact H.
Defined.

(** The pid printer: pids are 16-bit, so the six-byte buffer is enough. *)
Lemma itoa_chars_pid i : 0 ≤ i < 2 ^ 16 →
  ∃ cs, itoa_chars i = Some cs ∧ read_base 10 cs = i.
Proof.
  intros Hi. unfold itoa_chars. rewrite (u32_small i) by lia.
  destruct (Z.eqb_spec i 0) as [->|H0]; [by exists [digit 0]|].
  pose proof (convert_loop_length 32 10 i [] 5 ltac:(lia) ltac:(lia) ltac:(lia)) as Hl.
  pose proof (convert_loop_value 32 10 i [] ltac:(lia) ltac:(lia)) as Hv.
  revert Hl Hv. generalize (convert_loop 32 10 i []). intros cs Hl Hv.
  change (length (@nil Z)) with O in Hl, Hv.
  exists cs. rewrite (proj2 (Z.leb_le _ _)) by lia. split; [done|].
  rewrite Hv. change (read_base 10 []) with 0. change (10 ^ Z.of_nat 0) with 1. lia.
Qed.

(** The cursor column after any character is inside the row. *)
Lemma kputchar_con_x pg c k : con_x (kputchar_con pg c k) < 80.
Proof.
  unfold kputchar_con. cbv zeta. case_match; [simpl; lia|].
  match goal with H : (80 <=? _) = false |- _ => apply Z.leb_gt in H; exact H end.
Qed.

(** Plain text. *)
Lemma kprintf_loop_plain pg str args k :
  Forall (λ c, c ≠ chr "%") str → kprintf_loop pg str args k = Some (kputs_con pg str k).
Proof.
  intros H. revert k. induction H as [|c str Hc Hs IH]; intros k; [done|]. simpl.
  rewrite (proj2 (Z.eqb_neq _ _) Hc). simpl. apply IH.
Qed.

(** A message without conversions changes only the console. *)
Lemma kprintf_plain fmt args s :
  forallb (λ c, negb (c =? chr "%")) (bytes_of_string fmt) = true →
  kprintf fmt args s
  = Ok (tt, upd_con (kputs_con (k_is_paging s) (bytes_of_string fmt)) s).
Proof.
  intros H. unfold kprintf, kprintf_bytes. mnorm.
  rewrite kprintf_loop_plain; [done|].
  apply Forall_forall. intros c Hc%list_elem_of_In.
  apply forallb_forall with (x := c) in H; [|done]. intros ->. done.
Qed.

(** Run a constant message at the head of a sequence. *)
Ltac mprint :=
  erewrite bind_ok by (apply kprintf_plain; vm_compute; reflexivity); cbn beta iota; mnorm.
