(* ===== verification/PhysMem.v ===== *)
(** * The physical frame allocator (sys/phys_mmgr.c)

    Reference-counted first-fit allocation over the frame array.  The abstract
    view is the finite map from the addresses of the frames in use to their
    reference counts; the theorems show that allocation, release and sharing
    implement that map, that a frame in use is never handed out again, and what
    the boot code sets up. *)

From S2P Require Export Kprintf.

(** ** The frame array *)

Definition sizeof_page : Z := 16.
Definition zero_page : page := Page 0 0 0.

(** [free_page_list[i]]; leaving the array is undefined. *)
Definition page_at (i : Z) : M kst page :=
  s ← get;
  if 0 <=? i then of_option (pages (k_phys s) !! Z.to_nat i) else ub.
Definition set_page (i : Z) (f : page → page) : M kst unit :=
  p ← page_at i;
  modify (upd_phys (λ m, set_pages (<[Z.to_nat i := f p]> (pages m)) m)).

Definition set_free_page_list (bit_num : Z) : M kst unit := set_page bit_num (set_is_free_page 1).
Definition clear_free_page_list (bit_num : Z) : M kst unit := set_page bit_num (set_is_free_page 0).
Definition test_free_page_list (bit_num : Z) : M kst Z :=
  p ← page_at bit_num; mret (is_free_page p).

(** [free_page_list |= KERNBASE] once paging is on. *)
Definition rebase_free_page_list : M kst unit :=
  s ← get;
  when (k_is_paging s =? 1)
    (modify (upd_phys (λ m, set_free_page_list_ptr (kv (free_page_list m)) m))).

(** The loops below run [i] from its start to [number_of_pages]; the first
    argument is the number of rounds left. *)
Fixpoint first_free_loop (n : nat) (i : Z) : M kst Z :=
  match n with
  | O => kprintf (line "No free pages left -- running out of memory") [];; mret 0
  | S n' =>
      t ← test_free_page_list i;
      if negb (t =? 0) then
        p ← page_at i;
        when (reference_count p =? 0) (set_page i (set_reference_count 1));;
        first_free_loop n' (i + 1)
      else
        set_free_page_list i;;
        set_page i (λ p, set_reference_count (u32 (reference_count p + 1)) p);;
        p ← page_at i;
        mret (phys_addr_of_page p)
  end.

Definition phys_addr_of_first_free_page : M kst Z :=
  s ← get;
  if free_page_list (k_phys s) =? 0 then mret 0
  else first_free_loop (Z.to_nat (number_of_pages (k_phys s))) 0.

Definition phys_mem_alloc : M kst Z :=
  rebase_free_page_list;; phys_addr_of_first_free_page.

Fixpoint first_index_loop (n : nat) (i : Z) : M kst Z :=
  match n with
  | O => kprintf (line "No free pages left") [];; mret (-1)
  | S n' =>
      t ← test_free_page_list i;
      if negb (t =? 0) then first_index_loop n' (i + 1) else mret i
  end.

Definition get_index_of_first_free_page : M kst Z :=
  s ← get;
  if free_page_list (k_phys s) =? 0 then mret 0
  else first_index_loop (Z.to_nat (number_of_pages (k_phys s))) 0.

(** [for(i = index; i < bound; i++) set_free_page_list(i)]. *)
Fixpoint set_range (n : nat) (i : Z) : M kst unit :=
  match n with
  | O => mret tt
  | S n' => set_free_page_list i;; set_range n' (i + 1)
  end.

Definition phys_mem_alloc_more (n : Z) : M kst Z :=
  rebase_free_page_list;;
  index ← get_index_of_first_free_page;
  p ← page_at index;
  set_range (Z.to_nat (n - 1)) index;;
  mret (phys_addr_of_page p).

Fixpoint free_loop (n : nat) (i addr : Z) : M kst unit :=
  match n with
  | O => mret tt
  | S n' =>
      p ← page_at i;
      if phys_addr_of_page p =? addr then
        t ← test_free_page_list i;
        when (negb (t =? 0))
          (set_page i (λ p, set_reference_count (u32 (reference_count p - 1)) p);;
           p ← page_at i;
           when (reference_count p <=? 0) (clear_free_page_list i))
      else free_loop n' (i + 1) addr
  end.

Definition phys_mem_free (addr : Z) : M kst unit :=
  rebase_free_page_list;;
  s ← get;
  free_loop (Z.to_nat (number_of_pages (k_phys s))) 0 addr.

Fixpoint find_page_loop (n : nat) (i phys_addr : Z) : M kst (option page) :=
  match n with
  | O => mret None
  | S n' =>
      p ← page_at i;
      if phys_addr_of_page p =? phys_addr then mret (Some p)
      else find_page_loop n' (i + 1) phys_addr
  end.

(** The frame taken for [null_page] is not given back. *)
Definition get_page_from_phys_addr (phys_addr : Z) : M kst page :=
  null_page ← phys_mem_alloc;
  let null_page := kv null_page in
  memset_frame null_page (OBytes zero_bytes);;
  rebase_free_page_list;;
  s ← get;
  r ← find_page_loop (Z.to_nat (number_of_pages (k_phys s))) 0 phys_addr;
  mret (match r with Some p => p | None => zero_page end).

(** The loops of the two counter updates do not stop at the first match. *)
Fixpoint count_loop (n : nat) (i phys_addr delta : Z) : M kst unit :=
  match n with
  | O => mret tt
  | S n' =>
      p ← page_at i;
      when (phys_addr_of_page p =? phys_addr)
        (set_page i (λ p, set_reference_count (u32 (reference_count p + delta)) p));;
      count_loop n' (i + 1) phys_addr delta
  end.

Definition increment_reference_count_of_page (phys_addr : Z) : M kst unit :=
  rebase_free_page_list;;
  s ← get;
  count_loop (Z.to_nat (number_of_pages (k_phys s))) 0 phys_addr 1.

Definition decrement_reference_count_of_page (p : page) : M kst unit :=
  rebase_free_page_list;;
  s ← get;
  count_loop (Z.to_nat (number_of_pages (k_phys s))) 0 (phys_addr_of_page p) (-1).

(** ** Boot *)

Fixpoint fill_addrs (n : nat) (i : Z) : M kst unit :=
  match n with
  | O => mret tt
  | S n' =>
      s ← get;
      set_page i (set_phys_addr_of_page
        (u64 (free_page_list (k_phys s) + i32 (i * PAGE_BLOCK_SIZE))));;
      fill_addrs n' (i + 1)
  end.

Definition initialize_free_list (physbase : Z) : M kst unit :=
  modify (upd_phys (set_free_page_list_ptr physbase));;
  modify (upd_phys (λ m, set_pages (replicate (Z.to_nat (number_of_pages m)) zero_page) m));;
  s ← get;
  let n := number_of_pages (k_phys s) in
  fill_addrs (Z.to_nat n) 0;;
  let reserved := i32 (u64 (n * sizeof_page)) in
  let num_pages_reserved := reserved ÷ 4096 in
  set_range (Z.to_nat num_pages_reserved) 0.

Fixpoint count_pages (n : nat) (acc : Z) : Z :=
  match n with
  | O => acc
  | S n' => count_pages n' (u64 (acc + 1))
  end.

Definition define_free_list (phys_start phys_end : Z) : M kst unit :=
  let bound := u64 (phys_end - (phys_start + 0x1000)) / PAGE_BLOCK_SIZE in
  modify (upd_phys (set_number_of_pages (count_pages (Z.to_nat bound) 0)));;
  initialize_free_list (phys_start + 0x1000).

Definition initialize_tarfs_sb : M kst unit :=
  s ← get;
  let reserved := u64 (number_of_pages (k_phys s) * sizeof_page) in
  let num_pages_reserved := reserved / 4096 in
  modify (upd_fs (set_tarfs_sb (u64 (0x31E000 + num_pages_reserved * 0x1000))));;
  index ← get_index_of_first_free_page;
  set_free_page_list index.

Definition initialize_dentry_cache : M kst unit :=
  a ← phys_mem_alloc;
  modify (upd_fs (set_dentry_cache_array a));;
  s ← get;
  let a := if k_is_paging s =? 0 then a else kv a in
  modify (upd_fs (set_dentry_cache_array a));;
  memset_frame (kv a) (ODcache zero_dcache).

(** ** Running the loops

    [with_pages l] replaces the contents of the frame array. *)

Definition with_pages (l : list page) (s : kst) : kst := upd_phys (set_pages l) s.
Definition the_pages (s : kst) : list page := pages (k_phys s).

Lemma page_at_ok (n : nat) p s :
  the_pages s !! n = Some p → page_at (Z.of_nat n) s = Ok (p, s).
Proof.
  intros H. unfold page_at. mnorm.
  rewrite (proj2 (Z.leb_le 0 _)), Nat2Z.id by lia. unfold the_pages in H. by rewrite H.
Qed.

Lemma set_page_ok (n : nat) f p s :
  the_pages s !! n = Some p →
  set_page (Z.of_nat n) f s = Ok (tt, with_pages (<[n := f p]> (the_pages s)) s).
Proof.
  intros H. unfold set_page. mstep (page_at_ok n p s H). by rewrite Nat2Z.id.
Qed.

Lemma test_ok (n : nat) p s :
  the_pages s !! n = Some p → test_free_page_list (Z.of_nat n) s = Ok (is_free_page p, s).
Proof. intros H. unfold test_free_page_list. by mstep (page_at_ok n p s H). Qed.

Lemma the_pages_with l s : the_pages (with_pages l s) = l.
Proof. done. Qed.
Lemma with_pages_twice l l' s : with_pages l (with_pages l' s) = with_pages l s.
Proof. done. Qed.
Lemma with_pages_same s : with_pages (the_pages s) s = s.
Proof. by destruct s as [[] ? ? ? ? ? ? ? ? ? ?]. Qed.
#[export] Hint Rewrite the_pages_with with_pages_twice : kmonad.

Lemma lookup_mid {A} (pre suf : list A) (x : A) : (pre ++ x :: suf) !! length pre = Some x.
Proof. by rewrite list_lookup_middle. Qed.
Lemma insert_mid {A} (pre suf : list A) (x y : A) :
  <[length pre := y]> (pre ++ x :: suf) = pre ++ y :: suf.
Proof. by rewrite insert_app_r_alt, Nat.sub_diag by lia. Qed.
Lemma snoc_mid {A} (pre suf : list A) (x : A) : pre ++ x :: suf = (pre ++ [x]) ++ suf.
Proof. by rewrite <- app_assoc. Qed.
Lemma len_snoc {A} (pre : list A) (x : A) :
  Z.of_nat (length pre) + 1 = Z.of_nat (length (pre ++ [x])).
Proof. rewrite length_app. simpl. lia. Qed.

Definition used (p : page) : bool := negb (is_free_page p =? 0).

(** What the scan of [phys_addr_of_first_free_page] does to the array. *)
Definition settle (p : page) : page :=
  if reference_count p =? 0 then set_reference_count 1 p else p.
Definition take_page (p : page) : page :=
  set_reference_count (u32 (reference_count p + 1)) (set_is_free_page 1 p).
Fixpoint scan (l : list page) : list page * Z :=
  match l with
  | [] => ([], 0)
  | p :: l' =>
      if used p then (settle p :: (scan l').1, (scan l').2)
      else (take_page p :: l', phys_addr_of_page p)
  end.

(** Equality up to what is on the screen. *)
Definition same_but_console (s s' : kst) : Prop := ∃ k, s' = set_k_con k s.
Lemma sbc_refl s : same_but_console s s.
Proof. exists (k_con s). by destruct s. Qed.
Lemma sbc_phys s s' : same_but_console s s' → k_phys s' = k_phys s.
Proof. by intros [k ->]. Qed.
Lemma sbc_heap s s' : same_but_console s s' → k_heap s' = k_heap s.
Proof. by intros [k ->]. Qed.
#[export] Hint Resolve sbc_refl : kernel.

Lemma first_free_loop_scan suf pre s :
  the_pages s = pre ++ suf →
  ∃ s', first_free_loop (length suf) (Z.of_nat (length pre)) s = Ok ((scan suf).2, s')
        ∧ same_but_console (with_pages (pre ++ (scan suf).1) s) s'.
Proof.
  revert pre s. induction suf as [|p suf IH]; intros pre s Hs; cbn [first_free_loop length scan].
  { mprint. eexists. split; [done|].
    rewrite app_nil_r in *. cbn [fst]. rewrite <- Hs, with_pages_same. by eexists. }
  assert (Hl : the_pages s !! length pre = Some p) by (rewrite Hs; apply lookup_mid).
  mstep (test_ok _ _ _ Hl). unfold used. destruct (is_free_page p =? 0); cbn [negb].
  - mstep (set_page_ok _ (set_is_free_page 1) _ _ Hl). rewrite Hs, insert_mid.
    set (s1 := with_pages _ s).
    assert (H1 : the_pages s1 !! length pre = Some (set_is_free_page 1 p)) by apply lookup_mid.
    mstep (set_page_ok _ (λ p, set_reference_count (u32 (reference_count p + 1)) p) _ _ H1).
    unfold s1. mnorm. rewrite insert_mid.
    erewrite bind_ok; [|apply page_at_ok, lookup_mid].
    eexists. split; [done|]. apply sbc_refl.
  - mstep (page_at_ok _ _ _ Hl).
    assert (∃ s1, when (reference_count p =? 0)
              (set_page (Z.of_nat (length pre)) (set_reference_count 1)) s = Ok (tt, s1)
              ∧ s1 = with_pages (pre ++ settle p :: suf) s) as (s1 & E & ->).
    { unfold settle, when. destruct (reference_count p =? 0).
      - rewrite (set_page_ok _ _ _ _ Hl), Hs, insert_mid. eauto.
      - rewrite <- Hs, with_pages_same. eauto. }
    mstep E. rewrite (len_snoc pre (settle p)).
    destruct (IH (pre ++ [settle p]) (with_pages (pre ++ settle p :: suf) s)) as (s' & E' & Hs').
    { rewrite the_pages_with. apply snoc_mid. }
    exists s'. split; [exact E'|]. cbn [fst]. by rewrite snoc_mid.
Qed.

(** ** The layout invariant

    The array has [number_of_pages] entries, entry [i] stands for the frame at
    [base + 4096 * i], everything lies below 2 GiB (where [p | KERNBASE] is
    [p + KERNBASE]), a frame is in use with a positive count or free with
    count 0. *)
Record phys_wf (base : Z) (m : phys_mgr) : Prop := {
  wf_len : number_of_pages m = Z.of_nat (length (pages m));
  wf_ptr : 0 < free_page_list m;
  wf_base : 0 < base ∧ base mod 4096 = 0;
  wf_top : base + 4096 * (number_of_pages m + 1) ≤ 2 ^ 31;
  wf_addr : ∀ i p, pages m !! i = Some p → phys_addr_of_page p = base + 4096 * Z.of_nat i;
}.
Record counts_ok (m : phys_mgr) : Prop := {
  co_used : ∀ p, p ∈ pages m → used p = true → 1 ≤ reference_count p < 2 ^ 32;
  co_free : ∀ p, p ∈ pages m → used p = false → reference_count p = 0;
}.

Definition rebased (s : kst) : kst :=
  if k_is_paging s =? 1 then
    upd_phys (λ m, set_free_page_list_ptr (kv (free_page_list m)) m) s
  else s.
Lemma rebase_ok s : rebase_free_page_list s = Ok (tt, rebased s).
Proof.
  unfold rebase_free_page_list, rebased. mnorm. by destruct (k_is_paging s =? 1).
Qed.
Lemma rebased_pages s : the_pages (rebased s) = the_pages s.
Proof. unfold rebased. by destruct (_ =? _). Qed.
Lemma rebased_number s : number_of_pages (k_phys (rebased s)) = number_of_pages (k_phys s).
Proof. unfold rebased. by destruct (_ =? _). Qed.
Lemma rebased_heap s : k_heap (rebased s) = k_heap s.
Proof. unfold rebased. by destruct (_ =? _). Qed.
Lemma rebased_with_pages l s : with_pages l (rebased s) = rebased (with_pages l s).
Proof. unfold rebased. cbn. by destruct (_ =? _). Qed.

Lemma kv_pos p : 0 < p → 0 < kv p.
Proof. intros H. pose proof (kv_ge p ltac:(lia)). unfold KERNBASE in *. lia. Qed.

Lemma rebased_wf base s : phys_wf base (k_phys s) → phys_wf base (k_phys (rebased s)).
Proof.
  intros [? ? ? ? ?]. unfold rebased. destruct (_ =? _); [|by constructor].
  constructor; try done. cbn. by apply kv_pos.
Qed.

Lemma phys_wf_ptr_neq base m : phys_wf base m → (free_page_list m =? 0) = false.
Proof. intros [_ H _ _ _]. apply Z.eqb_neq. lia. Qed.

(** Allocation runs, and is [scan]. *)
Lemma phys_mem_alloc_scan base s :
  phys_wf base (k_phys s) →
  ∃ s', phys_mem_alloc s = Ok ((scan (the_pages s)).2, s')
        ∧ same_but_console (rebased (with_pages (scan (the_pages s)).1 s)) s'.
Proof.
  intros Hwf. unfold phys_mem_alloc. mstep (rebase_ok s).
  pose proof (rebased_wf _ _ Hwf) as Hwf'.
  unfold phys_addr_of_first_free_page. mnorm. rewrite (phys_wf_ptr_neq _ _ Hwf').
  rewrite rebased_number, (wf_len _ _ Hwf), Nat2Z.id.
  destruct (first_free_loop_scan (the_pages s) [] (rebased s)) as (s' & E & Hs').
  { apply rebased_pages. }
  exists s'. split; [exact E|]. by rewrite <- rebased_with_pages.
Qed.

(** Release and counter updates on the array. *)
Definition release_page (p : page) : page :=
  let p' := set_reference_count (u32 (reference_count p - 1)) p in
  if reference_count p' <=? 0 then set_is_free_page 0 p' else p'.
Fixpoint release (a : Z) (l : list page) : list page :=
  match l with
  | [] => []
  | p :: l' =>
      if phys_addr_of_page p =? a then (if used p then release_page p else p) :: l'
      else p :: release a l'
  end.
Definition adjust_page (a d : Z) (p : page) : page :=
  if phys_addr_of_page p =? a then set_reference_count (u32 (reference_count p + d)) p else p.

Lemma free_loop_release a suf pre s :
  the_pages s = pre ++ suf →
  free_loop (length suf) (Z.of_nat (length pre)) a s
  = Ok (tt, with_pages (pre ++ release a suf) s).
Proof.
  revert pre s. induction suf as [|p suf IH]; intros pre s Hs; cbn [free_loop length release].
  { by rewrite <- Hs, with_pages_same. }
  assert (Hl : the_pages s !! length pre = Some p) by (rewrite Hs; apply lookup_mid).
  mstep (page_at_ok _ _ _ Hl). destruct (phys_addr_of_page p =? a).
  - mstep (test_ok _ _ _ Hl). unfold used. destruct (is_free_page p =? 0); cbn [negb when].
    { by rewrite <- Hs, with_pages_same. }
    mstep (set_page_ok _ (λ p, set_reference_count (u32 (reference_count p - 1)) p) _ _ Hl).
    rewrite Hs, insert_mid. set (p' := set_reference_count _ p). set (s1 := with_pages _ s).
    assert (H1 : the_pages s1 !! length pre = Some p') by apply lookup_mid.
    mstep (page_at_ok _ _ _ H1). unfold release_page. fold p'.
    destruct (reference_count p' <=? 0); cbn [when]; [|done].
    unfold clear_free_page_list. rewrite (set_page_ok _ _ _ _ H1). unfold s1. mnorm.
    by rewrite insert_mid.
  - rewrite (len_snoc pre p), (IH (pre ++ [p])) by (by rewrite Hs, snoc_mid).
    by rewrite <- snoc_mid.
Qed.

Lemma count_loop_adjust a d suf pre s :
  the_pages s = pre ++ suf →
  count_loop (length suf) (Z.of_nat (length pre)) a d s
  = Ok (tt, with_pages (pre ++ (adjust_page a d <$> suf)) s).
Proof.
  revert pre s. induction suf as [|p suf IH]; intros pre s Hs; cbn [count_loop length fmap list_fmap].
  { by rewrite <- Hs, with_pages_same. }
  assert (Hl : the_pages s !! length pre = Some p) by (rewrite Hs; apply lookup_mid).
  mstep (page_at_ok _ _ _ Hl).
  assert (E : when (phys_addr_of_page p =? a)
      (set_page (Z.of_nat (length pre)) (λ p, set_reference_count (u32 (reference_count p + d)) p)) s
      = Ok (tt, with_pages (pre ++ adjust_page a d p :: suf) s)).
  { unfold adjust_page, when. destruct (_ =? a).
    - by rewrite (set_page_ok _ _ _ _ Hl), Hs, insert_mid.
    - by rewrite <- Hs, with_pages_same. }
  mstep E. rewrite (len_snoc pre (adjust_page a d p)), IH by (mnorm; apply snoc_mid).
  mnorm. by rewrite <- snoc_mid.
Qed.

Lemma phys_mem_free_release base a s :
  phys_wf base (k_phys s) →
  phys_mem_free a s = Ok (tt, rebased (with_pages (release a (the_pages s)) s)).
Proof.
  intros Hwf. unfold phys_mem_free. mstep (rebase_ok s).
  rewrite rebased_number, (wf_len _ _ Hwf), Nat2Z.id.
  etrans; [exact (free_loop_release a (the_pages s) [] (rebased s) (rebased_pages s))|].
  by rewrite rebased_with_pages.
Qed.

Lemma increment_adjust base a s :
  phys_wf base (k_phys s) →
  increment_reference_count_of_page a s
  = Ok (tt, rebased (with_pages (adjust_page a 1 <$> the_pages s) s)).
Proof.
  intros Hwf. unfold increment_reference_count_of_page. mstep (rebase_ok s).
  rewrite rebased_number, (wf_len _ _ Hwf), Nat2Z.id.
  etrans; [exact (count_loop_adjust a 1 (the_pages s) [] (rebased s) (rebased_pages s))|].
  by rewrite rebased_with_pages.
Qed.

(** ** The abstract allocator

    The frames in use with their reference counts. *)
Fixpoint abs_pages (l : list page) : gmap Z Z :=
  match l with
  | [] => ∅
  | p :: l' =>
      if used p then <[phys_addr_of_page p := reference_count p]> (abs_pages l')
      else abs_pages l'
  end.
Fixpoint addrs (l : list page) : list Z :=
  match l with [] => [] | p :: l' => phys_addr_of_page p :: addrs l' end.

Lemma abs_pages_not_in a l : a ∉ addrs l → abs_pages l !! a = None.
Proof.
  induction l as [|p l IH]; cbn; [done|]. intros [Hne Hn]%not_elem_of_cons.
  destruct (used p); [|by apply IH]. rewrite lookup_insert_ne by done. by apply IH.
Qed.

Lemma addrs_scan l : addrs (scan l).1 = addrs l.
Proof.
  induction l as [|p l IH]; [done|]. cbn. destruct (used p); [|done]. cbn.
  rewrite IH. unfold settle. by destruct (_ =? _).
Qed.
Lemma addrs_release a l : addrs (release a l) = addrs l.
Proof.
  induction l as [|p l IH]; [done|]. cbn. destruct (_ =? a); cbn; [|by rewrite IH].
  destruct (used p); [|done]. unfold release_page. by destruct (_ <=? _).
Qed.
Lemma addrs_adjust a d (l : list page) : addrs (adjust_page a d <$> l) = addrs l.
Proof.
  induction l as [|p l IH]; [done|]. cbn. rewrite IH. unfold adjust_page. by destruct (_ =? _).
Qed.

Definition counts_list (l : list page) : Prop :=
  Forall (λ p, if used p then 1 ≤ reference_count p < 2 ^ 32 else reference_count p = 0) l.

(** First fit: the frame found, and the map after it is taken. *)
Lemma scan_some l :
  NoDup (addrs l) → counts_list l → existsb (λ p, negb (used p)) l = true →
  let a := (scan l).2 in
  a ∈ addrs l ∧ abs_pages l !! a = None ∧ abs_pages (scan l).1 = <[a := 1]> (abs_pages l)
  ∧ counts_list (scan l).1
  ∧ ∃ pre p post, l = pre ++ p :: post ∧ a = phys_addr_of_page p ∧ Forall (λ q, used q = true) pre.
Proof.
  induction l as [|p l IH]; cbn; [done|]. intros [Hnotin Hnd]%NoDup_cons Hc He.
  apply Forall_cons in Hc as [Hp Hc]. destruct (used p) eqn:Eu; cbn in *.
  - destruct (IH Hnd Hc He) as (Hin & Hnone & Habs & Hcs & pre & q & post & -> & Ha & Hpre).
    assert (Hne : phys_addr_of_page p ≠ (scan (pre ++ q :: post)).2) by (intros Heq; rewrite Heq in Hnotin; done).
    assert (Hset : settle p = p) by (unfold settle; rewrite (proj2 (Z.eqb_neq _ _)) by lia; done).
    rewrite Hset, Eu, Habs. split_and!.
    + by right.
    + by rewrite lookup_insert_ne.
    + by rewrite insert_insert_ne.
    + constructor; [by rewrite Eu|done].
    + exists (p :: pre), q, post. split_and!; [done..|]. by constructor.
  - unfold take_page. rewrite Hp. cbn. split_and!.
    + by left.
    + by apply abs_pages_not_in.
    + done.
    + constructor; [cbn; rewrite u32_small; lia|done].
    + exists [], p, l. by split_and!.
Qed.

Lemma scan_none l :
  counts_list l → existsb (λ p, negb (used p)) l = false → scan l = (l, 0).
Proof.
  induction l as [|p l IH]; cbn; [done|]. intros [Hp Hc]%Forall_cons He.
  destruct (used p); cbn in *; [|done]. rewrite IH by done. cbn.
  unfold settle. rewrite (proj2 (Z.eqb_neq _ _)) by lia. done.
Qed.

Lemma release_absent a l : abs_pages l !! a = None → NoDup (addrs l) → release a l = l.
Proof.
  induction l as [|p l IH]; cbn; [done|]. intros Ha [Hn Hnd]%NoDup_cons.
  destruct (Z.eqb_spec (phys_addr_of_page p) a) as [<-|Hne].
  - destruct (used p); [|done]. by rewrite lookup_insert_eq in Ha.
  - rewrite IH; [done| |done]. destruct (used p); [by rewrite lookup_insert_ne in Ha|done].
Qed.

Lemma release_present a c l :
  NoDup (addrs l) → counts_list l → abs_pages l !! a = Some c →
  abs_pages (release a l) = (if c =? 1 then delete a (abs_pages l) else <[a := c - 1]> (abs_pages l))
  ∧ counts_list (release a l) ∧ 1 ≤ c.
Proof.
  induction l as [|p l IH]; cbn; [done|]. intros [Hn Hnd]%NoDup_cons [Hp Hc]%Forall_cons Ha.
  destruct (Z.eqb_spec (phys_addr_of_page p) a) as [<-|Hne].
  - destruct (used p) eqn:Eu; [|by rewrite (abs_pages_not_in _ _ Hn) in Ha].
    rewrite lookup_insert_eq in Ha. injection Ha as <-.
    unfold release_page. cbn. rewrite u32_small by lia.
    destruct (Z.eqb_spec (reference_count p) 1) as [E1|E1].
    + rewrite (proj2 (Z.leb_le _ _)) by lia. cbn. split_and!; [|constructor; [cbn; lia|done]|lia].
      rewrite delete_insert_eq, delete_id; [done|]. by apply abs_pages_not_in.
    + rewrite (proj2 (Z.leb_gt _ _)) by lia. unfold used in *. cbn. rewrite Eu.
      split_and!; [by rewrite insert_insert_eq|constructor; [unfold used; cbn; rewrite Eu; lia|done]|lia].
  - destruct (used p) eqn:Eu; cbn [abs_pages]; rewrite ?Eu.
    + rewrite lookup_insert_ne in Ha by done. destruct (IH Hnd Hc Ha) as (E & Hc' & H1).
      rewrite E. split_and!; [|constructor; [by rewrite Eu|done]|done].
      destruct (c =? 1); [by rewrite delete_insert_ne|by rewrite insert_insert_ne].
    + destruct (IH Hnd Hc Ha) as (E & Hc' & H1).
      split_and!; [done|constructor; [by rewrite Eu|done]|done].
Qed.

Lemma adjust_absent a d (l : list page) : a ∉ addrs l → adjust_page a d <$> l = l.
Proof.
  induction l as [|p l IH]; cbn; [done|]. intros [Hne Hn]%not_elem_of_cons.
  rewrite IH by done. unfold adjust_page. by rewrite (proj2 (Z.eqb_neq _ _)).
Qed.

Lemma adjust_present a c d (l : list page) :
  NoDup (addrs l) → counts_list l → abs_pages l !! a = Some c → 1 ≤ c + d < 2 ^ 32 →
  abs_pages (adjust_page a d <$> l) = <[a := c + d]> (abs_pages l)
  ∧ counts_list (adjust_page a d <$> l).
Proof.
  induction l as [|p l IH]; cbn; [done|]. intros [Hn Hnd]%NoDup_cons [Hp Hc]%Forall_cons Ha Hlt.
  destruct (Z.eqb_spec (phys_addr_of_page p) a) as [<-|Hne].
  - assert (Ep : adjust_page (phys_addr_of_page p) d p
                 = set_reference_count (u32 (reference_count p + d)) p)
      by (unfold adjust_page; by rewrite Z.eqb_refl).
    rewrite Ep. destruct (used p) eqn:Eu; [|by rewrite (abs_pages_not_in _ _ Hn) in Ha].
    rewrite lookup_insert_eq in Ha. injection Ha as <-.
    rewrite adjust_absent by done. unfold used in *. cbn. rewrite Eu, u32_small by lia.
    split; [by rewrite insert_insert_eq|]. constructor; [unfold used; cbn; rewrite Eu, ?u32_small; lia|done].
  - assert (Ep : adjust_page a d p = p)
      by (unfold adjust_page; by rewrite (proj2 (Z.eqb_neq _ _))).
    rewrite Ep. destruct (used p) eqn:Eu.
    + rewrite lookup_insert_ne in Ha by done. destruct (IH Hnd Hc Ha Hlt) as (E & Hc').
      rewrite E. split; [by rewrite insert_insert_ne|]. constructor; [by rewrite Eu|done].
    + destruct (IH Hnd Hc Ha Hlt) as (E & Hc'). split; [done|]. constructor; [by rewrite Eu|done].
Qed.

(** A frame in use has a positive count. *)
Lemma counts_pos l a c : counts_list l → abs_pages l !! a = Some c → 1 ≤ c < 2 ^ 32.
Proof.
  induction l as [|p l IH]; cbn; [done|]. intros [Hp Hc]%Forall_cons. destruct (used p).
  - rewrite lookup_insert. case_decide; [|by apply IH]. by intros [= <-].
  - by apply IH.
Qed.

(** ** The invariant and the refinement *)

Definition phys_inv (base : Z) (s : kst) : Prop :=
  phys_wf base (k_phys s) ∧ counts_list (the_pages s).

Lemma addrs_lookup l i : addrs l !! i = phys_addr_of_page <$> l !! i.
Proof. revert i. induction l as [|p l IH]; intros [|i]; cbn; [done..|apply IH]. Qed.
Lemma length_addrs l : length (addrs l) = length l.
Proof. induction l; cbn; congruence. Qed.

Lemma phys_wf_nodup base m : phys_wf base m → NoDup (addrs (pages m)).
Proof.
  intros Hwf. apply NoDup_alt. intros i j a.
  rewrite !addrs_lookup, !fmap_Some. intros (p & Hp & ->) (q & Hq & E).
  rewrite (wf_addr _ _ Hwf _ _ Hp), (wf_addr _ _ Hwf _ _ Hq) in E. lia.
Qed.

Lemma phys_wf_pages base m l :
  phys_wf base m → addrs l = addrs (pages m) → phys_wf base (set_pages l m).
Proof.
  intros [Hl Hp Hb Ht Ha] E. constructor; cbn; try done.
  - by rewrite Hl, <- (length_addrs l), E, length_addrs.
  - intros i p Hi. assert (addrs l !! i = Some (phys_addr_of_page p)) as H by (by rewrite addrs_lookup, Hi).
    rewrite E, addrs_lookup in H. apply fmap_Some in H as (q & Hq & ->). eauto.
Qed.

Lemma inv_after base l s s' :
  phys_wf base (k_phys s) → addrs l = addrs (the_pages s) → counts_list l →
  same_but_console (rebased (with_pages l s)) s' →
  phys_inv base s' ∧ the_pages s' = l ∧ k_heap s' = k_heap s.
Proof.
  intros Hwf E Hc [k ->]. unfold phys_inv, the_pages in *. cbn.
  change (pages (k_phys (rebased (with_pages l s)))) with (the_pages (rebased (with_pages l s))).
  rewrite rebased_pages, rebased_heap. split_and!; try done.
  apply rebased_wf. by apply phys_wf_pages.
Qed.

Lemma abs_pages_in p l : NoDup (addrs l) → p ∈ l → used p = true →
  abs_pages l !! phys_addr_of_page p = Some (reference_count p).
Proof.
  intros Hnd Hin Hu. induction l as [|q l IH]; [by apply elem_of_nil in Hin|]. cbn in *.
  apply NoDup_cons in Hnd as [Hn Hnd]. apply elem_of_cons in Hin as [<-|Hin].
  - by rewrite Hu, lookup_insert_eq.
  - assert (phys_addr_of_page p ∈ addrs l).
    { apply list_elem_of_lookup in Hin as [i Hi]. apply list_elem_of_lookup. exists i.
      by rewrite addrs_lookup, Hi. }
    destruct (used q); [|by apply IH]. rewrite lookup_insert_ne by congruence. by apply IH.
Qed.

(** The operations other components use, and what the abstract map does. *)
Inductive phys_op : Type := PAlloc | PFree (a : Z) | PShare (a : Z).
Definition run_phys_op (o : phys_op) : M kst Z :=
  match o with
  | PAlloc => phys_mem_alloc
  | PFree a => phys_mem_free a;; mret 0
  | PShare a => increment_reference_count_of_page a;; mret 0
  end.

Inductive spec_step (frames : list Z) (m : gmap Z Z) : phys_op → Z → gmap Z Z → Prop :=
| spec_alloc a : a ∈ frames → m !! a = None → (∀ b, b ∈ frames → m !! b = None → a ≤ b) →
    spec_step frames m PAlloc a (<[a := 1]> m)
| spec_full : (∀ b, b ∈ frames → is_Some (m !! b)) → spec_step frames m PAlloc 0 m
| spec_free_last a : m !! a = Some 1 → spec_step frames m (PFree a) 0 (delete a m)
| spec_free_shared a c : m !! a = Some c → 1 < c →
    spec_step frames m (PFree a) 0 (<[a := c - 1]> m)
| spec_free_absent a : m !! a = None → spec_step frames m (PFree a) 0 m
| spec_share a c : m !! a = Some c → c + 1 < 2 ^ 32 →
    spec_step frames m (PShare a) 0 (<[a := c + 1]> m)
| spec_share_absent a : a ∉ frames → spec_step frames m (PShare a) 0 m.

(** Sharing is for frames in use with room in the 32-bit counter, or for
    addresses that are no frame at all. *)
Definition op_allowed (frames : list Z) (m : gmap Z Z) (o : phys_op) : Prop :=
  match o with
  | PShare a => a ∉ frames ∨ ∃ c, m !! a = Some c ∧ c + 1 < 2 ^ 32
  | _ => True
  end.

Lemma alloc_refines base s :
  phys_inv base s →
  ∃ r s', phys_mem_alloc s = Ok (r, s') ∧ phys_inv base s' ∧ k_heap s' = k_heap s
    ∧ addrs (the_pages s') = addrs (the_pages s)
    ∧ spec_step (addrs (the_pages s)) (abs_pages (the_pages s)) PAlloc r (abs_pages (the_pages s')).
Proof.
  intros [Hwf Hc]. pose proof (phys_wf_nodup _ _ Hwf) as Hnd. fold (the_pages s) in Hnd.
  destruct (phys_mem_alloc_scan base s Hwf) as (s' & E & Hs').
  destruct (existsb (λ p, negb (used p)) (the_pages s)) eqn:He.
  - destruct (scan_some _ Hnd Hc He) as (Hin & Hnone & Habs & Hcs & pre & p & post & Hl & Ha & Hpre).
    destruct (inv_after _ _ _ _ Hwf (addrs_scan _) Hcs Hs') as (Hinv & Hp & Hh).
    exists (scan (the_pages s)).2, s'. split_and!; [done..|by rewrite Hp, addrs_scan|].
    rewrite Hp, Habs. apply spec_alloc; [done..|].
    intros b Hb Hbn. apply list_elem_of_lookup in Hb as [j Hj].
    rewrite addrs_lookup in Hj. apply fmap_Some in Hj as (q & Hq & ->).
    assert (Hpi : the_pages s !! length pre = Some p) by (rewrite Hl; apply lookup_mid).
    rewrite Ha, (wf_addr _ _ Hwf _ _ Hpi), (wf_addr _ _ Hwf _ _ Hq).
    destruct (decide (length pre ≤ j)%nat); [lia|]. exfalso.
    rewrite (abs_pages_in q (the_pages s)) in Hbn; [done|done|by eapply list_elem_of_lookup_2|].
    rewrite Hl, lookup_app_l in Hq by lia. by eapply Forall_lookup_1 in Hpre.
  - rewrite (scan_none _ Hc He) in *. cbn in *.
    destruct (inv_after _ _ _ _ Hwf eq_refl Hc Hs') as (Hinv & Hp & Hh).
    exists 0, s'. split_and!; [done..|by rewrite Hp|]. rewrite Hp. apply spec_full.
    intros b Hb. apply list_elem_of_lookup in Hb as [j Hj].
    rewrite addrs_lookup in Hj. apply fmap_Some in Hj as (q & Hq & ->).
    apply list_elem_of_lookup_2 in Hq. exists (reference_count q). apply abs_pages_in; [done..|].
    destruct (used q) eqn:Eu; [done|]. exfalso.
    assert (existsb (λ p, negb (used p)) (the_pages s) = true); [|congruence].
    apply existsb_exists. exists q. split; [by apply list_elem_of_In|by rewrite Eu].
Qed.

(** C1: the frame allocator implements the abstract reference-count map: from
    any state that satisfies the layout and count invariant, every allowed
    allocation, release or sharing returns, preserves the invariant, leaves
    the kernel structures alone, and takes exactly the step of the abstract
    allocator (first fit on allocation, a release keeps a shared frame, the
    last release makes it available, an address that is no frame in use is
    ignored). *)
Theorem phys_refinement base s o :
  phys_inv base s →
  op_allowed (addrs (the_pages s)) (abs_pages (the_pages s)) o →
  ∃ r s', run_phys_op o s = Ok (r, s') ∧ phys_inv base s' ∧ k_heap s' = k_heap s
    ∧ addrs (the_pages s') = addrs (the_pages s)
    ∧ spec_step (addrs (the_pages s)) (abs_pages (the_pages s)) o r (abs_pages (the_pages s')).
Proof.
  intros Hinv Hok. destruct o as [|a|a]; [by apply alloc_refines|..];
  destruct Hinv as [Hwf Hc]; pose proof (phys_wf_nodup _ _ Hwf) as Hnd; fold (the_pages s) in Hnd.
  - cbn [run_phys_op]. rewrite (bind_ok _ _ _ _ _ (phys_mem_free_release base a s Hwf)).
    eexists 0, _. split; [done|]. destruct (abs_pages (the_pages s) !! a) as [c|] eqn:Ea.
    + destruct (release_present a c _ Hnd Hc Ea) as (Habs & Hc' & H1).
      destruct (inv_after _ _ _ _ Hwf (addrs_release a _) Hc' (sbc_refl _)) as (Hinv & Hp & Hh).
      split_and!; [done..|by rewrite Hp, addrs_release|]. rewrite Hp, Habs.
      destruct (Z.eqb_spec c 1) as [->|]; [by constructor|]. constructor; [done|lia].
    + rewrite (release_absent _ _ Ea Hnd).
      destruct (inv_after _ _ _ _ Hwf eq_refl Hc (sbc_refl _)) as (Hinv & Hp & Hh).
      split_and!; [done..|by rewrite Hp|]. rewrite Hp. by constructor.
  - cbn [run_phys_op]. rewrite (bind_ok _ _ _ _ _ (increment_adjust base a s Hwf)).
    eexists 0, _. split; [done|]. destruct Hok as [Hn|(c & Ea & Hlt)].
    + rewrite (adjust_absent _ _ _ Hn).
      destruct (inv_after _ _ _ _ Hwf eq_refl Hc (sbc_refl _)) as (Hinv & Hp & Hh).
      split_and!; [done..|by rewrite Hp|]. rewrite Hp. by constructor.
    + destruct (adjust_present a c 1 _ Hnd Hc Ea) as (Habs & Hc'); [pose proof (counts_pos _ _ _ Hc Ea); lia|].
      destruct (inv_after _ _ _ _ Hwf (addrs_adjust a 1 _) Hc' (sbc_refl _)) as (Hinv & Hp & Hh).
      split_and!; [done..|by rewrite Hp, addrs_adjust|]. rewrite Hp, Habs. by constructor.
Qed.

(** A three-frame machine, the first frame in use. *)
Definition small_phys : kst :=
  upd_phys (λ _, Phys [Page 0x400000 1 1; Page 0x401000 0 0; Page 0x402000 0 0] 3 0x400000) blank_kst.

Lemma small_phys_inv : phys_inv 0x400000 small_phys.
Proof.
  split; [constructor; cbn; try lia|].
  - done.
  - intros [|[|[|i]]] p; cbn; intros [= <-]; done.
  - repeat constructor; done.
Qed.

Lemma phys_refinement_witness :
  ∃ r s', run_phys_op PAlloc small_phys = Ok (r, s') ∧ phys_inv 0x400000 s' ∧ r = 0x401000.
Proof.
  destruct (phys_refinement 0x400000 small_phys PAlloc small_phys_inv I)
    as (r & s' & E & Hinv & _).
  exists r, s'. split; [exact E|]. split; [exact Hinv|].
  vm_compute in E. congruence.
Defined.

Lemma spec_alloc_det frames m r1 m1 r2 m2 :
  Forall (λ a, a ≠ 0) frames →
  spec_step frames m PAlloc r1 m1 → spec_step frames m PAlloc r2 m2 → r1 = r2 ∧ m1 = m2.
Proof.
  intros Hnz H1 H2.
  inversion H1 as [a Ha Hna Hma|Hfull| | | | |]; inversion H2 as [b Hb Hnb Hmb|Hfull'| | | | |]; subst; try done.
  - assert (r1 = r2) as -> by (apply Z.le_antisymm; auto). done.
  - destruct (Hfull' r1) as [? ?]; [done|congruence].
  - destruct (Hfull r2) as [? ?]; [done|congruence].
Qed.

Lemma addrs_nonzero base s : phys_wf base (k_phys s) → Forall (λ a, a ≠ 0) (addrs (the_pages s)).
Proof.
  intros Hwf. apply Forall_lookup. intros i a. rewrite addrs_lookup, fmap_Some.
  intros (p & Hp & ->). rewrite (wf_addr _ _ Hwf _ _ Hp). pose proof (wf_base _ _ Hwf). lia.
Qed.

(** Releasing a frame that was just allocated makes it the next frame
    handed out: allocate, release, allocate returns the same address both
    times and the same set of frames in use. *)
Theorem alloc_free_alloc base s a s1 s2 b s3 :
  phys_inv base s →
  phys_mem_alloc s = Ok (a, s1) → a ≠ 0 →
  phys_mem_free a s1 = Ok (tt, s2) → phys_mem_alloc s2 = Ok (b, s3) →
  b = a ∧ abs_pages (the_pages s2) = abs_pages (the_pages s)
  ∧ abs_pages (the_pages s3) = abs_pages (the_pages s1).
Proof.
  intros Hinv E1 Ha E2 E3.
  destruct (alloc_refines base s Hinv) as (a' & s1' & E & Hinv1 & _ & Hf1 & Hs1).
  rewrite E1 in E. injection E as <- <-.
  destruct (phys_refinement base s1 (PFree a) Hinv1 I) as (r & s2' & E & Hinv2 & _ & Hf2 & Hs2).
  cbn in E. rewrite (bind_ok _ _ _ _ _ E2) in E. injection E as <- <-.
  destruct (alloc_refines base s2 Hinv2) as (b' & s3' & E & _ & _ & _ & Hs3).
  rewrite E3 in E. injection E as <- <-.
  assert (abs_pages (the_pages s2) = abs_pages (the_pages s)) as E.
  { assert (abs_pages (the_pages s1) = <[a := 1]> (abs_pages (the_pages s))
            ∧ abs_pages (the_pages s) !! a = None) as [E4 E5]
      by (inversion Hs1; subst; (done || congruence)).
    assert (Hl : abs_pages (the_pages s1) !! a = Some 1) by (rewrite E4; apply lookup_insert_eq).
    revert Hs2. generalize (abs_pages (the_pages s2)). intros m2 Hs2.
    inversion Hs2 as [| |x Hx|x c Hx Hc|x Hx| |]; subst; rewrite Hl in Hx; simplify_eq.
    by rewrite E4, delete_insert_eq, delete_id. }
  rewrite E, Hf2, Hf1 in Hs3.
  destruct (spec_alloc_det _ _ _ _ _ _ (addrs_nonzero _ _ (proj1 Hinv)) Hs1 Hs3) as [-> ->].
  done.
Qed.

Lemma alloc_free_alloc_witness :
  ∃ s1 s2 s3, phys_mem_alloc small_phys = Ok (0x401000, s1)
    ∧ phys_mem_free 0x401000 s1 = Ok (tt, s2) ∧ phys_mem_alloc s2 = Ok (0x401000, s3)
    ∧ abs_pages (the_pages s3) = abs_pages (the_pages s1).
Proof.
  eexists _, _, _. split; [vm_compute; reflexivity|]. split; [vm_compute; reflexivity|].
  split; [vm_compute; reflexivity|].
  eapply (alloc_free_alloc 0x400000 small_phys 0x401000 _ _ 0x401000 _ small_phys_inv);
    [vm_compute; reflexivity|done|vm_compute; reflexivity|vm_compute; reflexivity].
Defined.

Lemma free_kv base s p :
  phys_inv base s → 0 ≤ p → phys_mem_free (kv p) s = Ok (tt, rebased s).
Proof.
  intros [Hwf Hc] Hp. rewrite (phys_mem_free_release base _ s Hwf).
  pose proof (phys_wf_nodup _ _ Hwf) as Hnd. fold (the_pages s) in Hnd.
  rewrite release_absent; [by rewrite with_pages_same|apply abs_pages_not_in|done].
  intros Hin. apply list_elem_of_lookup in Hin as [i Hi]. rewrite addrs_lookup in Hi.
  apply fmap_Some in Hi as (q & Hq & E). rewrite (wf_addr _ _ Hwf _ _ Hq) in E.
  pose proof (kv_ge p Hp). pose proof (lookup_lt_Some _ _ _ Hq). pose proof (wf_top _ _ Hwf).
  pose proof (wf_len _ _ Hwf). unfold the_pages, KERNBASE in *. lia.
Qed.

Lemma rebased_inv base s : phys_inv base s → phys_inv base (rebased s).
Proof. intros [Hwf Hc]. split; [by apply rebased_wf|by rewrite rebased_pages]. Qed.

(** Releasing by kernel virtual address releases nothing.  The callers
    pass the pointer they use, [p | KERNBASE]; no frame has such an address,
    so the frame stays in use with its count unchanged. *)
Theorem free_by_kernel_address_is_lost base s p :
  phys_inv base s → 0 ≤ p →
  ∃ s', phys_mem_free (kv p) s = Ok (tt, s') ∧ the_pages s' = the_pages s ∧ k_heap s' = k_heap s.
Proof.
  intros Hinv Hp. rewrite (free_kv base s p Hinv Hp).
  eexists. split; [done|]. by rewrite rebased_pages, rebased_heap.
Qed.

Lemma free_by_kernel_address_is_lost_witness :
  ∃ s', phys_mem_free (kv 0x400000) small_phys = Ok (tt, s') ∧ the_pages s' = the_pages small_phys.
Proof.
  destruct (free_by_kernel_address_is_lost 0x400000 small_phys 0x400000 small_phys_inv ltac:(lia))
    as (s' & E & H & _). exists s'. exact (conj E H).
Defined.

(** ** Boot *)

Lemma fill_addrs_ok n i s :
  (i + n ≤ length (the_pages s))%nat →
  ∃ l, fill_addrs n (Z.of_nat i) s = Ok (tt, with_pages l s)
    ∧ ∀ j, l !! j = (λ p, if decide (i ≤ j < i + n)%nat
        then set_phys_addr_of_page
               (u64 (free_page_list (k_phys s) + i32 (Z.of_nat j * PAGE_BLOCK_SIZE))) p
        else p) <$> the_pages s !! j.
Proof.
  revert i s. induction n as [|n IH]; intros i s Hn; cbn [fill_addrs].
  { exists (the_pages s). rewrite with_pages_same. split; [done|]. intros j.
    destruct (the_pages s !! j); [|done]. cbn. by rewrite decide_False by lia. }
  destruct (lookup_lt_is_Some_2 (the_pages s) i) as [p Hp]; [lia|].
  mnorm. mstep (set_page_ok _ (set_phys_addr_of_page (u64 (free_page_list (k_phys s) + i32 (Z.of_nat i * PAGE_BLOCK_SIZE)))) _ _ Hp).
  replace (Z.of_nat i + 1) with (Z.of_nat (S i)) by lia.
  match goal with |- context [fill_addrs n _ ?x] => destruct (IH (S i) x) as (l & E & Hl) end.
  { mnorm. rewrite length_insert. lia. }
  exists l. split; [exact E|]. intros j. rewrite Hl. mnorm.
  destruct (decide (i = j)) as [->|Hne].
  - rewrite list_lookup_insert_eq by lia. rewrite Hp. cbn.
    by rewrite decide_False, decide_True by lia.
  - rewrite list_lookup_insert_ne by done. destruct (the_pages s !! j); [|done]. cbn.
    f_equal. do 2 case_decide; done || lia.
Qed.

Lemma set_range_ok n i s :
  (i + n ≤ length (the_pages s))%nat →
  ∃ l, set_range n (Z.of_nat i) s = Ok (tt, with_pages l s)
    ∧ ∀ j, l !! j = (λ p, if decide (i ≤ j < i + n)%nat then set_is_free_page 1 p else p)
                      <$> the_pages s !! j.
Proof.
  revert i s. induction n as [|n IH]; intros i s Hn; cbn [set_range].
  { exists (the_pages s). rewrite with_pages_same. split; [done|]. intros j.
    destruct (the_pages s !! j); [|done]. cbn. by rewrite decide_False by lia. }
  destruct (lookup_lt_is_Some_2 (the_pages s) i) as [p Hp]; [lia|].
  mstep (set_page_ok _ (set_is_free_page 1) _ _ Hp).
  replace (Z.of_nat i + 1) with (Z.of_nat (S i)) by lia.
  match goal with |- context [set_range n _ ?x] => destruct (IH (S i) x) as (l & E & Hl) end.
  { mnorm. rewrite length_insert. lia. }
  exists l. split; [exact E|]. intros j. rewrite Hl. mnorm.
  destruct (decide (i = j)) as [->|Hne].
  - rewrite list_lookup_insert_eq by lia. rewrite Hp. cbn.
    by rewrite decide_False, decide_True by lia.
  - rewrite list_lookup_insert_ne by done. destruct (the_pages s !! j); [|done]. cbn.
    f_equal. do 2 case_decide; done || lia.
Qed.

Lemma count_pages_eq n acc : 0 ≤ acc → acc + Z.of_nat n < 2 ^ 64 → count_pages n acc = acc + Z.of_nat n.
Proof.
  revert acc. induction n as [|n IH]; intros acc H1 H2; cbn [count_pages]; [lia|].
  rewrite u64_small by lia. rewrite IH; lia.
Qed.

(** Frame [i] after boot. *)
Definition boot_page (base n i : Z) : page :=
  Page (base + 4096 * i) 0 (if i <? n / 256 then 1 else 0).

Lemma boot_fill base n s :
  0 ≤ n < 2 ^ 19 → 0 ≤ base → base + 4096 * n < 2 ^ 31 →
  number_of_pages (k_phys s) = n →
  ∃ s', initialize_free_list base s = Ok (tt, s')
    ∧ number_of_pages (k_phys s') = n ∧ free_page_list (k_phys s') = base
    ∧ length (the_pages s') = Z.to_nat n ∧ k_heap s' = k_heap s ∧ k_fs s' = k_fs s
    ∧ ∀ i : nat, (Z.of_nat i < n) → the_pages s' !! i = Some (boot_page base n (Z.of_nat i)).
Proof.
  intros Hn Hb Ht Hs. unfold initialize_free_list. mnorm.
  set (s1 := upd_phys _ (upd_phys _ s)).
  assert (Hp1 : the_pages s1 = replicate (Z.to_nat n) zero_page) by (unfold s1; cbn; by rewrite Hs).
  assert (Hn1 : number_of_pages (k_phys s1) = n) by (by rewrite <- Hs).
  rewrite Hn1.
  destruct (fill_addrs_ok (Z.to_nat n) 0 s1) as (l & E & Hl).
  { rewrite Hp1, length_replicate. lia. }
  change (Z.of_nat 0) with 0 in E. mstep E.
  assert (Hlen : length l = Z.to_nat n).
  { apply Nat.le_antisymm.
    - apply lookup_ge_None. rewrite Hl, Hp1, lookup_replicate_2_ge || rewrite Hl, Hp1.
      by rewrite (proj2 (lookup_ge_None (replicate _ _) _)) by (rewrite length_replicate; lia).
    - destruct (decide (Z.to_nat n ≤ length l)%nat); [done|].
      assert (l !! length l = None) as HN by (apply lookup_ge_None; lia).
      rewrite Hl, Hp1, lookup_replicate_2 in HN by lia. done. }
  rewrite u64_small, i32_small by (unfold sizeof_page; lia).
  assert (Eq : n * sizeof_page ÷ 4096 = n / 256).
  { unfold sizeof_page. rewrite Z.quot_div_nonneg by lia.
    change 4096 with (16 * 256). rewrite (Z.mul_comm n), Z.div_mul_cancel_l by lia. done. }
  rewrite Eq.
  assert (n / 256 ≤ n) by (apply Z.div_le_upper_bound; lia).
  destruct (set_range_ok (Z.to_nat (n / 256)) 0 (with_pages l s1)) as (l' & E' & Hl').
  { mnorm. lia. }
  change (Z.of_nat 0) with 0 in E'. rewrite E'. mnorm. eexists. split; [done|].
  split; [done|]. split; [done|]. rewrite the_pages_with. split.
  { rewrite <- Hlen. apply Nat.le_antisymm.
    - apply lookup_ge_None. rewrite Hl'. mnorm. by rewrite (proj2 (lookup_ge_None l _)).
    - destruct (decide (length l ≤ length l')%nat); [done|].
      assert (l' !! length l' = None) as HN by (apply lookup_ge_None; lia).
      rewrite Hl' in HN. apply fmap_None, lookup_ge_None in HN. rewrite the_pages_with in HN. lia. }
  split; [done|]. split; [done|].
  intros i Hi. rewrite Hl'. mnorm. rewrite Hl, Hp1, lookup_replicate_2 by lia.
  cbn [fmap option_fmap option_map]. change (free_page_list (k_phys s1)) with base.
  rewrite i32_small, u64_small by (unfold PAGE_BLOCK_SIZE; lia).
  unfold boot_page, PAGE_BLOCK_SIZE.
  destruct (Z.ltb_spec (Z.of_nat i) (n / 256)); repeat case_decide; try lia;
    unfold set_is_free_page, set_phys_addr_of_page; cbn; do 2 f_equal; lia.
Qed.

(** Boot sets up a well-formed allocator: [define_free_list] returns, the
    array describes the [n] frames between [phys_start + 4096] and [phys_end],
    frame [i] at [base + 4096 * i] with count 0, and exactly the first
    [n / 256] of them are marked in use. *)
Theorem define_free_list_ok phys_start phys_end s :
  0 ≤ phys_start → phys_start mod 4096 = 0 →
  phys_start + 0x1000 ≤ phys_end → phys_end ≤ 2 ^ 31 - 4096 →
  let base := phys_start + 0x1000 in
  let n := (phys_end - base) / 4096 in
  ∃ s', define_free_list phys_start phys_end s = Ok (tt, s')
    ∧ phys_wf base (k_phys s') ∧ number_of_pages (k_phys s') = n
    ∧ k_heap s' = k_heap s
    ∧ ∀ i : nat, (Z.of_nat i < n) → the_pages s' !! i = Some (boot_page base n (Z.of_nat i)).
Proof.
  intros H0 Hal Hle Htop base n.
  assert (Hn : 0 ≤ n < 2 ^ 19).
  { split; [apply Z.div_pos; unfold base; lia|apply Z.div_lt_upper_bound; unfold base; lia]. }
  assert (Hn' : 4096 * n ≤ phys_end - base) by (apply Z.mul_div_le; lia).
  unfold define_free_list. rewrite u64_small by lia. mnorm. fold base.
  change PAGE_BLOCK_SIZE with 4096. fold n. rewrite count_pages_eq by lia.
  match goal with |- context [initialize_free_list base ?x] =>
    destruct (boot_fill base n x) as (s' & E & Hnum & Hptr & Hlen & Hh & _ & Hp) end;
    [done|unfold base; lia|lia|cbn; lia|].
  exists s'. split_and!; try done. constructor.
  - rewrite Hnum. unfold the_pages in Hlen. rewrite Hlen. lia.
  - rewrite Hptr. unfold base. lia.
  - split; [unfold base; lia|]. unfold base. rewrite <- Z.add_mod_idemp_l, Hal by lia. done.
  - rewrite Hnum. lia.
  - intros i p Hi. pose proof (lookup_lt_Some _ _ _ Hi) as Hlt. unfold the_pages in *.
    rewrite Hp in Hi by lia. by injection Hi as <-.
Qed.

Lemma define_free_list_ok_witness :
  ∃ s', define_free_list 0x31D000 0x31F000 blank_kst = Ok (tt, s')
    ∧ phys_wf 0x31E000 (k_phys s') ∧ number_of_pages (k_phys s') = 1.
Proof.
  destruct (define_free_list_ok 0x31D000 0x31F000 blank_kst) as (s' & E & Hwf & Hn & _);
    [lia|done|lia|lia|].
  exists s'. split; [exact E|]. split; [exact Hwf|exact Hn].
Defined.

Lemma first_index_loop_found pre p suf s :
  the_pages s = pre ++ p :: suf → Forall (λ q, used q = true) pre → used p = false →
  ∀ pre0, pre = pre0 ++ drop (length pre0) pre →
  first_index_loop (length (drop (length pre0) pre ++ p :: suf)) (Z.of_nat (length pre0)) s
  = Ok (Z.of_nat (length pre), s).
Proof.
  intros Hs Hpre Hp pre0. remember (drop (length pre0) pre) as d eqn:Hd. clear Hd.
  revert pre0. induction d as [|q d IH]; intros pre0 E; cbn [first_index_loop length app].
  - rewrite app_nil_r in E. subst pre0.
    assert (Hl : the_pages s !! length pre = Some p) by (rewrite Hs; apply lookup_mid).
    mstep (test_ok _ _ _ Hl). unfold used in Hp. rewrite Hp. done.
  - assert (Hl : the_pages s !! length pre0 = Some q).
    { rewrite Hs, E, <- app_assoc. apply lookup_mid. }
    mstep (test_ok _ _ _ Hl).
    assert (Hq : used q = true) by (eapply Forall_forall in Hpre; [exact Hpre|]; rewrite E; set_solver).
    unfold used in Hq. rewrite Hq, (len_snoc pre0 q). apply IH. by rewrite <- app_assoc.
Qed.

(** C33: the superblock is placed inside the frame array.  With the loader's
    first free byte at 0x31D000 (the address [initialize_tarfs_sb] has
    hard-coded as 0x31E000 - 4096) and memory up to 0x5000000 as [boot] passes
    it, the array ends at or after the address chosen for the superblock: the
    reservation rounds [n * sizeof(page) / 4096] down. *)
Theorem superblock_inside_frame_array s :
  ∃ s1 s2, define_free_list 0x31D000 0x5000000 s = Ok (tt, s1)
    ∧ initialize_tarfs_sb s1 = Ok (tt, s2)
    ∧ free_page_list (k_phys s1) ≤ tarfs_sb (k_fs s2)
    ∧ tarfs_sb (k_fs s2)
      < free_page_list (k_phys s1) + number_of_pages (k_phys s1) * sizeof_page.
Proof.
  unfold define_free_list.
  change (u64 (0x5000000 - (0x31D000 + 0x1000)) / PAGE_BLOCK_SIZE) with 19682.
  remember 19682 as n eqn:Hn. rewrite count_pages_eq by lia. mnorm.
  match goal with |- context [initialize_free_list _ ?x] =>
    destruct (boot_fill 0x31E000 n x) as (s1 & E & Hnum & Hptr & Hlen & _ & _ & Hp) end;
    [lia..|cbn; lia|].
  exists s1. change (0x31D000 + 0x1000) with 0x31E000.
  unfold initialize_tarfs_sb. mnorm. rewrite Hnum, Hptr.
  match goal with |- context [upd_fs ?f s1] => set (s2 := upd_fs f s1) end.
  assert (Hp2 : the_pages s2 = the_pages s1) by done.
  set (pre := take 76 (the_pages s1)). set (suf := drop 77 (the_pages s1)).
  assert (Hsp : the_pages s2 = pre ++ boot_page 0x31E000 n 76 :: suf).
  { rewrite Hp2. rewrite <- (take_drop_middle _ 76 (boot_page 0x31E000 n 76)); [done|].
    apply (Hp 76%nat). lia. }
  assert (Hpl : length pre = 76%nat) by (unfold pre; rewrite length_take; lia).
  assert (H76 : n / 256 = 76) by (by rewrite Hn).
  assert (Hpre : Forall (λ q, used q = true) pre).
  { apply Forall_lookup. intros i q Hi. pose proof (lookup_lt_Some _ _ _ Hi).
    unfold pre in Hi. rewrite lookup_take in Hi. case_decide; [|done].
    rewrite Hp in Hi by lia. injection Hi as <-. unfold used, boot_page. cbn [is_free_page].
    by rewrite H76, (proj2 (Z.ltb_lt _ _)) by lia. }
  assert (Hu76 : used (boot_page 0x31E000 n 76) = false) by (unfold used, boot_page; by rewrite H76).
  assert (E3 : get_index_of_first_free_page s2 = Ok (Z.of_nat (length pre), s2)).
  { unfold get_index_of_first_free_page. mnorm.
    change (k_phys s2) with (k_phys s1). rewrite Hptr, Hnum, <- Hlen, <- Hp2, Hsp.
    exact (first_index_loop_found pre _ suf s2 Hsp Hpre Hu76 [] eq_refl). }
  mstep E3.
  assert (Hl76 : the_pages s2 !! length pre = Some (boot_page 0x31E000 n 76)) by (rewrite Hsp; apply lookup_mid).
  unfold set_free_page_list. rewrite (set_page_ok _ (set_is_free_page 1) _ _ Hl76).
  eexists. split; [exact E|]. split; [done|].
  unfold s2. cbn [k_fs with_pages upd_phys set_k_phys upd_fs set_k_fs tarfs_sb set_tarfs_sb].
  unfold sizeof_page. rewrite (u64_small (n * 16)) by lia.
  assert (Hq : n * 16 / 4096 = 76) by (by rewrite Hn). rewrite Hq, u64_small; lia.
Qed.

(** ** The allocation frontier

    Until a frame is really released (which the kernel does for no structure
    it reaches through [KERNBASE]) the frames in use are a prefix of the array
    and the frames after it hold nothing.  [frontier base k] is that
    situation with [k] frames in use; it makes every allocation predictable
    and the byte [my_memset] writes past a fresh frame harmless. *)

Definition frame_at (base j : Z) : Z := base + 4096 * j.
Definition n_frames (s : kst) : Z := number_of_pages (k_phys s).

Record frontier (base k : Z) (s : kst) : Prop := {
  fr_inv : phys_inv base s;
  fr_range : 0 ≤ k ≤ n_frames s;
  fr_used : ∀ j, 0 ≤ j < n_frames s →
    (is_Some (abs_pages (the_pages s) !! frame_at base j) ↔ j < k);
  fr_clean : ∀ j, k ≤ j ≤ n_frames s → k_heap s !! kv (frame_at base j) = None;
}.

(** Only the allocator and the screen differ. *)
Definition same_but_phys (s s' : kst) : Prop := ∃ m c, s' = set_k_con c (set_k_phys m s).

Lemma addrs_elem base s a : phys_wf base (k_phys s) →
  a ∈ addrs (the_pages s) ↔ ∃ j, 0 ≤ j < n_frames s ∧ a = frame_at base j.
Proof.
  intros Hwf. unfold n_frames. rewrite (wf_len _ _ Hwf), list_elem_of_lookup. unfold the_pages.
  split.
  - intros [i Hi]. rewrite addrs_lookup in Hi. apply fmap_Some in Hi as (p & Hp & ->).
    exists (Z.of_nat i). pose proof (lookup_lt_Some _ _ _ Hp).
    split; [lia|]. by rewrite (wf_addr _ _ Hwf _ _ Hp).
  - intros (j & Hj & ->). exists (Z.to_nat j).
    destruct (lookup_lt_is_Some_2 (pages (k_phys s)) (Z.to_nat j)) as [p Hp]; [lia|].
    rewrite addrs_lookup, Hp. cbn. f_equal. rewrite (wf_addr _ _ Hwf _ _ Hp). unfold frame_at. lia.
Qed.

Lemma n_frames_addrs base s s' : phys_inv base s → phys_inv base s' →
  addrs (the_pages s') = addrs (the_pages s) → n_frames s' = n_frames s.
Proof.
  intros [H1 _] [H2 _] E. unfold n_frames. rewrite (wf_len _ _ H1), (wf_len _ _ H2).
  rewrite <- !length_addrs. unfold the_pages in E. by rewrite E.
Qed.

Lemma rebased_shape s : same_but_phys s (rebased s).
Proof.
  unfold rebased. destruct (_ =? _).
  - exists (set_free_page_list_ptr (kv (free_page_list (k_phys s))) (k_phys s)), (k_con s). by destruct s.
  - exists (k_phys s), (k_con s). by destruct s.
Qed.

Lemma alloc_shape base s r s' : phys_wf base (k_phys s) → phys_mem_alloc s = Ok (r, s') → same_but_phys s s'.
Proof.
  intros Hwf E. destruct (phys_mem_alloc_scan base s Hwf) as (s1 & E1 & [c ->]).
  rewrite E in E1. injection E1 as _ ->.
  destruct (rebased_shape (with_pages (scan (the_pages s)).1 s)) as (m & c' & ->).
  exists m, c. by destruct s.
Qed.

Lemma alloc_frontier base k s :
  frontier base k s → k < n_frames s →
  ∃ s', phys_mem_alloc s = Ok (frame_at base k, s') ∧ frontier base (k + 1) s'
    ∧ k_heap s' = k_heap s ∧ n_frames s' = n_frames s ∧ same_but_phys s s'.
Proof.
  intros [Hinv Hr Hu Hc] Hk.
  destruct (alloc_refines base s Hinv) as (r & s' & E & Hinv' & Hh & Ha & Hs).
  pose proof (n_frames_addrs _ _ _ Hinv Hinv' Ha) as Hn.
  pose proof (addrs_elem base s (frame_at base k) (proj1 Hinv)) as Hel.
  assert (Hkin : frame_at base k ∈ addrs (the_pages s)) by (apply Hel; exists k; lia).
  assert (Hknone : abs_pages (the_pages s) !! frame_at base k = None).
  { apply eq_None_not_Some. intros H. apply Hu in H; lia. }
  assert (r = frame_at base k ∧ abs_pages (the_pages s') = <[r := 1]> (abs_pages (the_pages s))) as [-> Habs].
  { inversion Hs as [a Hin Hnone Hmin E1 E2|Hfull| | | | |]; subst.
    - split; [|done]. specialize (Hmin _ Hkin Hknone).
      apply (addrs_elem base s _ (proj1 Hinv)) in Hin as (j & Hj & ->).
      destruct (decide (j < k)) as [Hlt|]; [|unfold frame_at in *; lia].
      apply Hu in Hlt as [? ?]; [congruence|done].
    - destruct (Hfull _ Hkin) as [? ?]. congruence. }
  exists s'. split; [done|]. split; [|split_and!; try done; by eapply alloc_shape; [apply Hinv|]].
  constructor; [done|lia|..].
  - intros j Hj. rewrite Habs, Hn in *. rewrite lookup_insert. case_decide as Ej.
    + unfold frame_at in Ej. split; [lia|]. intros _. by eexists.
    + rewrite Hu by lia. unfold frame_at in Ej. split; [lia|]. intros. assert (j ≠ k) by (intros ->; done). lia.
  - intros j Hj. rewrite Hh. apply Hc. lia.
Qed.

(** Writing structures at frames in use keeps the frontier. *)
Lemma frontier_heap base k s f :
  frontier base k s →
  (∀ j, k ≤ j ≤ n_frames s → f (k_heap s) !! kv (frame_at base j) = None) →
  frontier base k (upd_heap f s).
Proof. intros [Hinv Hr Hu Hc] Hf. by constructor. Qed.

Lemma frame_range base k s j : frontier base k s → 0 ≤ j ≤ n_frames s →
  0 < frame_at base j < 2 ^ 31 ∧ frame_at base j mod 4096 = 0.
Proof.
  intros [[Hwf _] _ _ _] Hj. pose proof (wf_base _ _ Hwf) as [Hb Hm].
  pose proof (wf_top _ _ Hwf). unfold frame_at, n_frames in *.
  split; [lia|]. rewrite Z.add_mod, (Z.mul_comm 4096), Z.mod_mul, Z.add_0_r, Z.mod_mod by lia. done.
Qed.

Lemma frame_next base j : 0 ≤ frame_at base j → frame_at base j + 4096 < 2 ^ 31 →
  kv (frame_at base j) + PAGE_BLOCK_SIZE = kv (frame_at base (j + 1)).
Proof. intros. rewrite !kv_add by (unfold frame_at in *; lia). unfold frame_at, PAGE_BLOCK_SIZE. lia. Qed.

Lemma frame_inj base k s i j : frontier base k s → 0 ≤ i ≤ n_frames s → 0 ≤ j ≤ n_frames s →
  kv (frame_at base i) = kv (frame_at base j) → i = j.
Proof.
  intros H Hi Hj E. pose proof (frame_range _ _ _ _ H Hi). pose proof (frame_range _ _ _ _ H Hj).
  apply kv_inj in E; unfold frame_at in *; lia.
Qed.

(** ** Concrete machines

    [machine k n h]: [n] frames from 0x400000 on, the first [k] of them in use,
    and the store [h]. *)

Definition mpage (k : nat) (i : nat) : page :=
  let u := if (i <? k)%nat then 1 else 0 in Page (0x400000 + 4096 * Z.of_nat i) u u.
Definition machine (k n : nat) (h : gmap Z obj) : kst :=
  upd_heap (λ _, h)
    (upd_phys (λ _, Phys (mpage k <$> seq 0 n) (Z.of_nat n) 0x400000) blank_kst).

Lemma abs_pages_free p l : NoDup (addrs l) → p ∈ l → used p = false →
  abs_pages l !! phys_addr_of_page p = None.
Proof.
  intros Hnd Hin Hu. induction l as [|q l IH]; [done|]. cbn in *.
  apply NoDup_cons in Hnd as [Hn Hnd]. apply elem_of_cons in Hin as [<-|Hin].
  - rewrite Hu. by apply abs_pages_not_in.
  - assert (phys_addr_of_page p ∈ addrs l).
    { apply list_elem_of_lookup in Hin as [i Hi]. apply list_elem_of_lookup. exists i.
      by rewrite addrs_lookup, Hi. }
    destruct (used q); [|by apply IH]. rewrite lookup_insert_ne by congruence. by apply IH.
Qed.

Lemma mpage_used k i : used (mpage k i) = true ↔ (i < k)%nat.
Proof. unfold used, mpage. rewrite <- Nat.ltb_lt. by destruct (i <? k)%nat. Qed.

Lemma machine_lookup k n h i p :
  the_pages (machine k n h) !! i = Some p ↔ (i < n)%nat ∧ p = mpage k i.
Proof.
  change (the_pages (machine k n h)) with (mpage k <$> seq 0 n).
  rewrite list_lookup_fmap, fmap_Some. split.
  - intros (j & Hj & ->). apply lookup_seq in Hj as [-> ?]. by split.
  - intros [Hi ->]. exists i. split; [|done]. by apply lookup_seq.
Qed.

Lemma machine_inv k n h : (n ≤ 1000)%nat → phys_inv 0x400000 (machine k n h).
Proof.
  intros Hn. split; [constructor|].
  - cbn. by rewrite length_fmap, length_seq.
  - done.
  - done.
  - cbn -[Z.mul Z.add]. lia.
  - intros i p Hp. apply machine_lookup in Hp as [_ ->]. done.
  - apply Forall_lookup. intros i p Hp. apply machine_lookup in Hp as [_ ->].
    unfold mpage, used. by destruct (i <? k)%nat.
Qed.

Lemma machine_frontier k n h :
  (k ≤ n ≤ 1000)%nat →
  (∀ j, (k ≤ j ≤ n)%nat → h !! kv (frame_at 0x400000 (Z.of_nat j)) = None) →
  frontier 0x400000 (Z.of_nat k) (machine k n h).
Proof.
  intros Hn Hh. pose proof (machine_inv k n h ltac:(lia)) as Hinv.
  constructor; [done|cbn; lia|..].
  - intros j Hj. change (n_frames (machine k n h)) with (Z.of_nat n) in Hj.
    pose proof (phys_wf_nodup _ _ (proj1 Hinv)) as Hnd.
    fold (the_pages (machine k n h)) in Hnd.
    assert (Hp : the_pages (machine k n h) !! Z.to_nat j = Some (mpage k (Z.to_nat j)))
      by (apply machine_lookup; split; [lia|done]).
    assert (E : frame_at 0x400000 j = phys_addr_of_page (mpage k (Z.to_nat j)))
      by (unfold mpage, frame_at; cbn -[Z.mul Z.add]; lia).
    destruct (used (mpage k (Z.to_nat j))) eqn:Hu.
    + rewrite E, (abs_pages_in (mpage k (Z.to_nat j))); [|done|by eapply list_elem_of_lookup_2|done].
      split; [|by eexists]. intros _. apply mpage_used in Hu. lia.
    + split; [|intros Hlt; rewrite (proj2 (mpage_used _ _)) in Hu by lia; done].
      intros [c Hc]. exfalso. rewrite E in Hc. by rewrite (abs_pages_free _ _ Hnd (list_elem_of_lookup_2 _ _ _ Hp) Hu) in Hc.
  - intros j Hj. change (n_frames (machine k n h)) with (Z.of_nat n) in Hj.
    replace j with (Z.of_nat (Z.to_nat j)) by lia. apply Hh. lia.
Qed.
