(* ===== verification/VirtMem.v ===== *)
(** * Four-level paging (sys/virt_mmgr.c)

    Page tables are frames of 512 64-bit entries in the store.  The file
    models the index and entry arithmetic, the walk, the mapping operation, the
    flag update of fork, the table copy, the release of an address space and
    the kernel mapping set up at boot.  [mmu_lookup] is the lookup of the
    processor, with present bits and rights; [translate] the address a page has
    for the walk of the kernel. *)

From S2P Require Export PhysMem.

(** ** Entries *)

Definition PMLE_PRESENT : Z := 0x1.
Definition PMLE_READWRITE : Z := 0x2.
Definition PDPTE_PRESENT : Z := 0x1.
Definition PDPTE_READWRITE : Z := 0x2.
Definition PDE_PRESENT : Z := 0x1.
Definition PDE_READWRITE : Z := 0x2.
Definition PTE_PRESENT : Z := 0x1.
Definition PTE_READWRITE : Z := 0x2.
Definition PTE_USERSUPERVISOR : Z := 0x4.
Definition PMLE_PDPTE_ADDRESS : Z := 0x000FFFFFFFFFF000.
Definition PDPTE_PDT_ADDRESS : Z := 0x000FFFFFFFFFF000.
Definition PDE_PT_ADDRESS : Z := 0x000FFFFFFFFFF000.
Definition PTE_PHYS_ADDR : Z := 0x000FFFFFFFFFF000.

Definition get_index_of_pml4 (virt_addr : Z) : Z := u16 (Z.land (Z.shiftr virt_addr 39) 0x1FF).
Definition get_index_of_pdpt (virt_addr : Z) : Z := u16 (Z.land (Z.shiftr virt_addr 30) 0x1FF).
Definition get_index_of_pdt (virt_addr : Z) : Z := u16 (Z.land (Z.shiftr virt_addr 21) 0x1FF).
Definition get_index_of_pt (virt_addr : Z) : Z := u16 (Z.land (Z.shiftr virt_addr 12) 0x1FF).

(** The entry is passed by value. *)
Definition get_physical_address_of_pdpt_from_pml (e : Z) : Z := Z.land e PMLE_PDPTE_ADDRESS.
Definition get_physical_address_of_pdt_from_pdpt (e : Z) : Z := Z.land e PDPTE_PDT_ADDRESS.
Definition get_physical_address_of_pt_from_pdt (e : Z) : Z := Z.land e PDE_PT_ADDRESS.
Definition get_physical_address_of_page_from_pt (e : Z) : Z := Z.land e PTE_PHYS_ADDR.

Definition present (e : Z) : bool := Z.land e 1 =? 1.

(** [table->entry[i]] through the kernel virtual address of the table. *)
Definition entry_get (tbl i : Z) : M kst Z :=
  t ← load as_table tbl; of_option (t !! Z.to_nat i).
Definition entry_set (tbl i e : Z) : M kst unit :=
  t ← load as_table tbl;
  if (Z.to_nat i <? length t)%nat then store tbl (OTable (<[Z.to_nat i := e]> t)) else ub.

(** ** Registers *)

Definition get_pml4 : M kst Z := gets k_pml4.
Definition set_pml4 (phys_addr : Z) : M kst unit := modify (upd_cpu (set_cr3 phys_addr)).
Definition get_kpa (virt_addr : Z) : Z := Z.land (not64 KERNBASE) virt_addr.

(** ** The walk *)

Definition walk_pml4 (cr3 virt_addr : Z) : M kst Z :=
  pml_entry ← entry_get (kv cr3) (get_index_of_pml4 virt_addr);
  if negb (present pml_entry) then mret (u64 (-1)) else
  let pdpt := get_physical_address_of_pdpt_from_pml pml_entry in
  pdpt_entry ← entry_get (kv pdpt) (get_index_of_pdpt virt_addr);
  if negb (present pdpt_entry) then mret (u64 (-1)) else
  let pdt := get_physical_address_of_pdt_from_pdpt pdpt_entry in
  pdt_entry ← entry_get (kv pdt) (get_index_of_pdt virt_addr);
  if negb (present pdt_entry) then mret (u64 (-1)) else
  let pt := get_physical_address_of_pt_from_pdt pdt_entry in
  pt_entry ← entry_get (kv pt) (get_index_of_pt virt_addr);
  mret (get_physical_address_of_page_from_pt pt_entry).

Definition find_page_from_virt (addr cr3 : Z) : M kst page :=
  phys_addr ← walk_pml4 cr3 addr;
  get_page_from_phys_addr phys_addr.

(** ** Mapping *)

(** One level of [map_virtual_address_to_physical_address]: the table below
    entry [i] of the table at [tbl], created and linked with [flags] when the
    entry is not present.  The three levels of the source differ only in the
    names of equal masks. *)
Definition next_table (tbl i flags : Z) : M kst Z :=
  e ← entry_get tbl i;
  when (negb (present e))
    (new ← phys_mem_alloc;
     memset_frame (kv new) (OTable zero_table);;
     e ← entry_get tbl i;
     entry_set tbl i (Z.lor (Z.land e (not64 PMLE_PDPTE_ADDRESS)) new);;
     e ← entry_get tbl i;
     entry_set tbl i (Z.lor e flags));;
  e ← entry_get tbl i;
  mret (get_physical_address_of_pdpt_from_pml e).

Definition map_virtual_address_to_physical_address (virt_addr phys_addr flags cr3 is_reference : Z)
    : M kst unit :=
  if negb (Z.land virt_addr 4095 =? 0) then mret tt else
  if negb (Z.land phys_addr 4095 =? 0) then mret tt else
  pdpt ← next_table (kv cr3) (get_index_of_pml4 virt_addr) flags;
  pdt ← next_table (kv pdpt) (get_index_of_pdpt virt_addr) flags;
  pt ← next_table (kv pdt) (get_index_of_pdt virt_addr) flags;
  when (is_reference =? 0)
    (e ← entry_get (kv pt) (get_index_of_pt virt_addr);
     entry_set (kv pt) (get_index_of_pt virt_addr)
       (Z.lor (Z.land e (not64 PTE_PHYS_ADDR)) phys_addr);;
     e ← entry_get (kv pt) (get_index_of_pt virt_addr);
     entry_set (kv pt) (get_index_of_pt virt_addr) (Z.lor e flags));;
  set_pml4 cr3.

(** ** Flags *)

(** One upper level of [change_flags_in_parent_page_tables]: [None] is the
    early return on an entry that is not present. *)
Definition or_flags (tbl i flags : Z) : M kst (option Z) :=
  e ← entry_get tbl i;
  if negb (present e) then mret None else
  entry_set tbl i (Z.lor e flags);;
  e ← entry_get tbl i;
  mret (Some (get_physical_address_of_pdpt_from_pml e)).

Definition change_flags_in_parent_page_tables (virt cr3 flags : Z) : M kst Z :=
  o ← or_flags (kv cr3) (get_index_of_pml4 virt) flags;
  match o with None => mret 0 | Some pdpt =>
  o ← or_flags (kv pdpt) (get_index_of_pdpt virt) flags;
  match o with None => mret 0 | Some pdt =>
  o ← or_flags (kv pdt) (get_index_of_pdt virt) flags;
  match o with None => mret 0 | Some pt =>
  e ← entry_get (kv pt) (get_index_of_pt virt);
  entry_set (kv pt) (get_index_of_pt virt) (Z.lor e flags);;
  set_pml4 cr3;;
  mret 0
  end end end.

(** ** Copying tables *)

(** The loop [for(; i < 512; i++)] of a level: [n] rounds are left, [deeper]
    is the recursive call one level down ([None] at the last level).  Every
    entry of the new table is assigned before anything reads it, so its
    contents on allocation do not matter. *)
Fixpoint copy_entries (deeper : option (Z → M kst Z)) (n : nat) (i src dst : Z) : M kst unit :=
  match n with
  | O => mret tt
  | S n' =>
      e ← entry_get src i;
      entry_set dst i e;;
      match deeper with
      | Some rec =>
          e ← entry_get src i;
          when (negb (e =? 0))
            (e ← entry_get src i;
             rec (get_physical_address_of_pdpt_from_pml e);; mret tt)
      | None => mret tt
      end;;
      copy_entries deeper n' (i + 1) src dst
  end.

Definition copy_table (deeper : option (Z → M kst Z)) (page_table_address : Z) : M kst Z :=
  copy ← phys_mem_alloc;
  let copy := kv copy in
  store copy (OTable zero_table);;
  copy_entries deeper 512 0 (kv page_table_address) copy;;
  mret copy.

(** The result is the new top table at level 4 and 0 ([~KERNBASE & NULL]) at
    the levels below. *)
Definition copy_level1 (a : Z) : M kst Z := copy_table None a;; mret (get_kpa 0).
Definition copy_level2 (a : Z) : M kst Z := copy_table (Some copy_level1) a;; mret (get_kpa 0).
Definition copy_level3 (a : Z) : M kst Z := copy_table (Some copy_level2) a;; mret (get_kpa 0).
Definition copy_page_tables (page_table_address level : Z) : M kst Z :=
  if level =? 4 then
    copy_pml4 ← copy_table (Some copy_level3) page_table_address; mret (get_kpa copy_pml4)
  else if level =? 3 then copy_level3 page_table_address
  else if level =? 2 then copy_level2 page_table_address
  else if level =? 1 then copy_level1 page_table_address
  else kprintf (line "wrong level") [];; mret (u64 (-1)).

(** ** Releasing an address space *)

(** The loop of [free_page_range] at one level; [addr] survives from round to
    round as in the source.  [visit] says which nonzero entries are entered
    and [enter] what is done with the address found. *)
Fixpoint free_entries (visit : Z → bool) (enter : Z → M kst Z) (n : nat) (i tbl addr : Z) : M kst unit :=
  match n with
  | O => mret tt
  | S n' =>
      e ← entry_get tbl i;
      addr ← (if negb (e =? 0) then
                if visit e then enter (Z.land e PMLE_PDPTE_ADDRESS) else mret addr
              else mret addr);
      when (negb (addr =? 0)) (phys_mem_free (kv addr));;
      free_entries visit enter n' (i + 1) tbl addr
  end.

Definition free_level1 (pt : Z) : M kst unit :=
  free_entries (λ e, negb (present e)) (λ a, let a := kv a in phys_mem_free a;; mret a) 512 0 (kv pt) 0.
Definition free_level2 (pdt : Z) : M kst unit :=
  free_entries (λ e, negb (present e)) (λ a, free_level1 a;; mret a) 512 0 (kv pdt) 0.
Definition free_level3 (pdpt : Z) : M kst unit :=
  free_entries present (λ a, free_level2 a;; mret a) 512 0 (kv pdpt) 0.
Definition free_page_range (level pml4 : Z) : M kst unit :=
  if level =? 4 then free_entries present (λ a, free_level3 a;; mret a) 512 0 (kv pml4) 0
  else if level =? 3 then free_level3 pml4
  else if level =? 2 then free_level2 pml4
  else if level =? 1 then free_level1 pml4
  else kprintf (line "wrong level value") [].

(** ** The kernel mapping *)

(** The loops that fill a page table: [n] rounds from index [i]. *)
Fixpoint fill_pt (n : nat) (tbl virt phys : Z) : M kst unit :=
  match n with
  | O => mret tt
  | S n' =>
      let page := Z.lor (Z.lor 0 PTE_PRESENT) PTE_READWRITE in
      let page := Z.lor (Z.land page (not64 PTE_PHYS_ADDR)) phys in
      entry_set tbl (get_index_of_pt virt) page;;
      fill_pt n' tbl (u64 (virt + 4096)) (u64 (phys + 4096))
  end.

(** [*e = ( *e & ~ADDRESS) | next; *e |= PRESENT; *e |= READWRITE]. *)
Definition link_table (tbl i next : Z) : M kst unit :=
  e ← entry_get tbl i;
  entry_set tbl i (Z.lor (Z.land e (not64 PDE_PT_ADDRESS)) next);;
  e ← entry_get tbl i;
  entry_set tbl i (Z.lor e PDE_PRESENT);;
  e ← entry_get tbl i;
  entry_set tbl i (Z.lor e PDE_READWRITE).

(** [p = phys_mem_alloc(); if(!p) return; my_memset(p, 0, 4096)]. *)
Definition boot_table : M kst (option Z) :=
  p ← phys_mem_alloc;
  if p =? 0 then mret None else
  memset_frame (kv p) (OTable zero_table);; mret (Some p).

Definition init_setup_virtual_memory : M kst unit :=
  o ← boot_table; match o with None => mret tt | Some pt =>
  o ← boot_table; match o with None => mret tt | Some pt2 =>
  o ← boot_table; match o with None => mret tt | Some pt3 =>
  o ← boot_table; match o with None => mret tt | Some pdt =>
  o ← boot_table; match o with None => mret tt | Some pdpt =>
  p ← phys_mem_alloc;
  modify (set_k_pml4 p);;
  if p =? 0 then mret tt else
  memset_frame (kv p) (OTable zero_table);;
  fill_pt 512 (kv pt) 0xFFFFFFFF80200000 0x200000;;
  link_table (kv pdt) (get_index_of_pdt 0xFFFFFFFF80200000) pt;;
  link_table (kv pdpt) (get_index_of_pdpt 0xFFFFFFFF80200000) pdt;;
  link_table (kv p) (get_index_of_pml4 0xFFFFFFFF80200000) pdpt;;
  set_pml4 p;;
  modify (set_k_is_paging 1);;
  fill_pt 512 (kv pt2) 0xFFFFFFFF80000000 0x0;;
  link_table (kv pdt) (get_index_of_pdt 0xFFFFFFFF80000000) pt2;;
  fill_pt 512 (kv pt3) 0xFFFFFFFF80400000 0x400000;;
  link_table (kv pdt) (get_index_of_pdt 0xFFFFFFFF80400000) pt3
  end end end end end.

(** ** Entry arithmetic *)

Definition ADDR : Z := 0x000FFFFFFFFFF000.
Lemma addr_bit i : 0 ≤ i → Z.testbit ADDR i = (12 <=? i) && (i <? 52).
Proof.
  intros Hi. change ADDR with (Z.shiftl (Z.ones 40) 12). rewrite Z.shiftl_spec by done.
  destruct (Z.leb_spec 12 i); cbn [andb].
  - rewrite Z.testbit_ones_nonneg by lia. apply eq_true_iff_eq. rewrite !Z.ltb_lt. lia.
  - by rewrite Z.testbit_neg_r by lia.
Qed.

Lemma not64_bit a i : 0 ≤ i < 64 → Z.testbit (not64 a) i = negb (Z.testbit a i).
Proof. intros Hi. unfold not64, u64. rewrite Z.mod_pow2_bits_low by lia. by rewrite Z.lnot_spec by lia. Qed.

Lemma aligned_bit f i : f mod 4096 = 0 → 0 ≤ i < 12 → Z.testbit f i = false.
Proof.
  intros Hf Hi. rewrite <- (Z.mod_pow2_bits_low f 12 i) by lia. change (2 ^ 12) with 4096.
  rewrite Hf. apply Z.bits_0.
Qed.

(** Linking: the address written is the address read back, and the flags are
    those given on top of the old non-address bits. *)
Lemma entry_addr e f flags :
  0 ≤ f < 2 ^ 52 → f mod 4096 = 0 → 0 ≤ flags < 4096 →
  Z.land (Z.lor (Z.lor (Z.land e (not64 ADDR)) f) flags) ADDR = f.
Proof.
  intros Hf Ha Hfl. apply Z.bits_inj'. intros i Hi.
  rewrite Z.land_spec, !Z.lor_spec, Z.land_spec, (addr_bit i) by done.
  destruct (Z.leb_spec 12 i); [|rewrite (aligned_bit f i) by lia; by rewrite andb_false_r].
  destruct (Z.ltb_spec i 52).
  - rewrite not64_bit, addr_bit by lia.
    rewrite (testbit_high flags 12 i) by lia.
    rewrite (proj2 (Z.leb_le 12 i)), (proj2 (Z.ltb_lt i 52)) by lia. cbn.
    by rewrite andb_false_r, orb_false_r, andb_true_r.
  - rewrite (testbit_high f 52 i) by lia. by rewrite andb_false_r.
Qed.

Lemma land1_bit a : Z.land a 1 = Z.b2z (Z.testbit a 0).
Proof. rewrite Z.bit0_odd. change 1 with (Z.ones 1). rewrite Z.land_ones by lia. apply Zmod_odd. Qed.
Lemma present_bit e : present e = Z.testbit e 0.
Proof. unfold present. rewrite land1_bit. by destruct (Z.testbit e 0). Qed.

Lemma entry_present e flags : present flags = true → present (Z.lor e flags) = true.
Proof. rewrite !present_bit, Z.lor_spec. intros ->. by rewrite orb_true_r. Qed.

Lemma index_range v n : 0 ≤ u16 (Z.land (Z.shiftr v n) 0x1FF) < 512.
Proof.
  change 0x1FF with (Z.ones 9). rewrite Z.land_ones by lia.
  pose proof (Z.mod_pos_bound (Z.shiftr v n) (2 ^ 9) ltac:(lia)).
  unfold u16. rewrite Z.mod_small by lia. lia.
Qed.

Lemma index_eq v n : 0 ≤ n → u16 (Z.land (Z.shiftr v n) 0x1FF) = (v / 2 ^ n) mod 512.
Proof.
  intros Hn. change 0x1FF with (Z.ones 9). rewrite Z.land_ones, Z.shiftr_div_pow2 by lia.
  unfold u16. apply Z.mod_small. pose proof (Z.mod_pos_bound (v / 2 ^ n) 512 ltac:(lia)). lia.
Qed.

(** The path of a virtual address, as the processor takes it apart: bits
    39-47, 30-38 and 21-29 select an entry of the three upper tables, bits
    12-20 one of the page table, bits 12-47 number the page. *)
Definition path (v : Z) : list Z := [(v / 2 ^ 39) mod 512; (v / 2 ^ 30) mod 512; (v / 2 ^ 21) mod 512].
Definition pt_index (v : Z) : Z := (v / 2 ^ 12) mod 512.
Definition page_number (v : Z) : Z := (v / 4096) mod 2 ^ 36.

(** The index functions of the code select the same entries. *)
Lemma path_code v : path v = [get_index_of_pml4 v; get_index_of_pdpt v; get_index_of_pdt v].
Proof. unfold path, get_index_of_pml4, get_index_of_pdpt, get_index_of_pdt. by rewrite !index_eq by lia. Qed.
Lemma pt_index_code v : get_index_of_pt v = pt_index v.
Proof. unfold pt_index, get_index_of_pt. by rewrite index_eq by lia. Qed.
Lemma pt_index_range v : 0 ≤ pt_index v < 512.
Proof. rewrite <- pt_index_code. apply index_range. Qed.

Lemma path_inj v w :
  path v = path w → pt_index v = pt_index w → page_number v = page_number w.
Proof.
  unfold path, pt_index, page_number. intros [= E1 E2 E3] E4.
  assert (H : ∀ x, (x / 4096) mod 2 ^ 36
     = ((x / 2 ^ 39) mod 512) * 2 ^ 27 + ((x / 2 ^ 30) mod 512) * 2 ^ 18
       + ((x / 2 ^ 21) mod 512) * 2 ^ 9 + (x / 2 ^ 12) mod 512).
  { intros x. change 4096 with (2 ^ 12).
    replace (x / 2 ^ 39) with (x / 2 ^ 12 / 2 ^ 27) by (rewrite Z.div_div by lia; f_equal; lia).
    replace (x / 2 ^ 30) with (x / 2 ^ 12 / 2 ^ 18) by (rewrite Z.div_div by lia; f_equal; lia).
    replace (x / 2 ^ 21) with (x / 2 ^ 12 / 2 ^ 9) by (rewrite Z.div_div by lia; f_equal; lia).
    generalize (x / 2 ^ 12). intros y.
    Z.div_mod_to_equations. lia. }
  by rewrite !H, E1, E2, E3, E4.
Qed.

Lemma page_number_path v w :
  page_number v = page_number w → path v = path w ∧ pt_index v = pt_index w.
Proof.
  unfold path, pt_index, page_number. intros E.
  assert (H : ∀ x n, 0 ≤ n ≤ 27 →
     (x / 2 ^ (12 + n)) mod 512 = (((x / 4096) mod 2 ^ 36) / 2 ^ n) mod 512).
  { intros x n Hn. rewrite Z.pow_add_r, <- Z.div_div by lia. change (2 ^ 12) with 4096.
    generalize (x / 4096). intros y. apply Z.bits_inj'. intros i Hi. change 512 with (2 ^ 9).
    destruct (Z_lt_le_dec i 9).
    - rewrite !Z.mod_pow2_bits_low by lia.
      rewrite !Z.div_pow2_bits by lia. by rewrite Z.mod_pow2_bits_low by lia.
    - by rewrite !Z.mod_pow2_bits_high by lia. }
  pose proof (H v 27 ltac:(lia)) as A1. pose proof (H w 27 ltac:(lia)) as B1.
  pose proof (H v 18 ltac:(lia)) as A2. pose proof (H w 18 ltac:(lia)) as B2.
  pose proof (H v 9 ltac:(lia)) as A3. pose proof (H w 9 ltac:(lia)) as B3.
  pose proof (H v 0 ltac:(lia)) as A4. pose proof (H w 0 ltac:(lia)) as B4.
  change (12 + 27) with 39 in *. change (12 + 18) with 30 in *.
  change (12 + 9) with 21 in *. change (12 + 0) with 12 in *.
  by rewrite A1, B1, A2, B2, A3, B3, A4, B4, E.
Qed.

(** ** The tree of tables

    [node h r p] is the table reached from the root [r] along the indices
    [p]. *)

Definition tget (h : gmap Z obj) (a i : Z) : option Z :=
  match h !! kv a with
  | Some (OTable t) => t !! Z.to_nat i
  | _ => None
  end.
Definition child (h : gmap Z obj) (a i : Z) : option Z :=
  e ← tget h a i; if present e then Some (Z.land e ADDR) else None.
Definition node (h : gmap Z obj) (r : Z) (p : list Z) : option Z :=
  foldl (λ o i, a ← o; child h a i) (Some r) p.
Definition pte (h : gmap Z obj) (a i : Z) : option Z :=
  e ← tget h a i; let p := Z.land e ADDR in if p =? 0 then None else Some p.

(** Where a virtual address is mapped, in the sense of [walk_pml4]: the frame
    named by the last-level entry, present or not.  The abstract view of an
    address space as the kernel keeps it. *)
Definition translate (h : gmap Z obj) (r v : Z) : option Z :=
  a ← node h r (path v); pte h a (pt_index v).

(** The last-level entry of an address, and its value when there is none. *)
Definition leaf_entry (h : gmap Z obj) (r v : Z) : option Z :=
  a ← node h r (path v); tget h a (pt_index v).
Definition leaf_word (h : gmap Z obj) (r v : Z) : Z := default 0 (leaf_entry h r v).

(** What the processor makes of the tables.  A walk stops at an entry whose
    present bit is clear; the access rights (bit 1 write, bit 2 user, and bit
    0) are those that every entry passed grants.  No entry of this kernel has
    the page-size bit, so every walk has four steps. *)
Definition hw_step (h : gmap Z obj) (st : option Z * Z) (i : Z) : option Z * Z :=
  match st.1 with
  | Some a =>
      match tget h a i with
      | Some e => if Z.testbit e 0 then (Some (Z.land e ADDR), Z.land st.2 e) else (None, st.2)
      | None => (None, st.2)
      end
  | None => (None, st.2)
  end.
Definition hw_walk (h : gmap Z obj) (r : Z) (p : list Z) : option Z * Z := foldl (hw_step h) (Some r, 7) p.

(** The physical address an access to [v] reaches, with the rights. *)
Definition mmu_lookup (h : gmap Z obj) (r v : Z) : option (Z * Z) :=
  let st := hw_walk h r (path v ++ [pt_index v]) in
  a ← st.1; Some (a + v mod 4096, st.2).

(** The rights granted by the upper tables there are on the way to [v]. *)
Definition table_rights (h : gmap Z obj) (r v : Z) : Z := (hw_walk h r (path v)).2.

Definition is_frame (a : Z) : Prop := 0 < a < 2 ^ 31 ∧ a mod 4096 = 0.
Definition is_table (h : gmap Z obj) (a : Z) : Prop :=
  ∃ t, h !! kv a = Some (OTable t) ∧ length t = 512%nat.

(** Every reachable table is a full frame of entries, and no table is
    reachable along two paths. *)
Definition valid_path (p : list Z) : Prop :=
  (length p ≤ 3)%nat ∧ Forall (λ j, 0 ≤ j < 512) p.
Record tree_wf (h : gmap Z obj) (r : Z) : Prop := {
  tw_table : ∀ p a, valid_path p → node h r p = Some a → is_frame a ∧ is_table h a;
  tw_inj : ∀ p q a, valid_path p → valid_path q →
             node h r p = Some a → node h r q = Some a → p = q;
}.
Lemma valid_nil : valid_path [].
Proof. split; [simpl; lia|constructor]. Qed.
Lemma valid_snoc p i : valid_path p → (length p ≤ 2)%nat → 0 ≤ i < 512 → valid_path (p ++ [i]).
Proof.
  intros [_ Hf] Hl Hi. split; [rewrite length_app; simpl; lia|].
  apply Forall_app. split; [done|]. by apply Forall_singleton.
Qed.
Lemma valid_prefix p i : valid_path (p ++ [i]) → valid_path p ∧ (length p ≤ 2)%nat ∧ 0 ≤ i < 512.
Proof.
  intros [Hl Hf]. apply Forall_app in Hf as [Hf Hi]. apply Forall_cons in Hi as [Hi _].
  rewrite length_app in Hl. simpl in Hl.
  split; [split; [lia|done]|]. split; [lia|exact Hi].
Qed.
Lemma valid_path_of v : valid_path (path v).
Proof. rewrite path_code. split; [simpl; lia|]. repeat constructor; apply index_range. Qed.
Lemma valid_path_1 v : valid_path [get_index_of_pml4 v].
Proof. split; [simpl; lia|]. repeat constructor; apply index_range. Qed.
Lemma valid_path_2 v : valid_path [get_index_of_pml4 v; get_index_of_pdpt v].
Proof. split; [simpl; lia|]. repeat constructor; apply index_range. Qed.
#[export] Hint Resolve valid_nil valid_path_of valid_path_1 valid_path_2 index_range pt_index_range : kernel.

Lemma node_snoc h r p i : node h r (p ++ [i]) = (a ← node h r p; child h a i).
Proof. unfold node. by rewrite foldl_app. Qed.

Lemma hw_walk_snoc h r p i : hw_walk h r (p ++ [i]) = hw_step h (hw_walk h r p) i.
Proof. unfold hw_walk. by rewrite foldl_app. Qed.
Lemma hw_step_fst h st i : (hw_step h st i).1 = (a ← st.1; child h a i).
Proof.
  unfold hw_step, child. destruct st as [[a|] rt]; [|done]. cbn [fst snd mbind option_bind]. destruct (tget h a i) as [e|]; [|done]. cbn [mbind option_bind].
  rewrite present_bit. by destruct (Z.testbit e 0).
Qed.
Lemma hw_walk_node h r p : (hw_walk h r p).1 = node h r p.
Proof. induction p as [|i p IH] using rev_ind; [done|]. by rewrite hw_walk_snoc, node_snoc, hw_step_fst, IH. Qed.
(** Only bits 0 to 2 are rights. *)
Lemma hw_walk_mask h r p b : 3 ≤ b → Z.testbit (hw_walk h r p).2 b = false.
Proof.
  intros Hb. induction p as [|i p IH] using rev_ind; [apply (testbit_high 7 3); lia|].
  rewrite hw_walk_snoc. unfold hw_step. destruct ((hw_walk h r p).1) as [a|]; [|done].
  destruct (tget h a i) as [e|]; [|done]. destruct (Z.testbit e 0); [|done]. cbn. by rewrite Z.land_spec, IH.
Qed.
Lemma translate_leaf h r v :
  translate h r v = (e ← leaf_entry h r v; if Z.land e ADDR =? 0 then None else Some (Z.land e ADDR)).
Proof. unfold translate, leaf_entry. by destruct (node h r (path v)). Qed.
Lemma mmu_lookup_leaf h r v :
  mmu_lookup h r v = (e ← leaf_entry h r v;
    if Z.testbit e 0 then Some (Z.land e ADDR + v mod 4096, Z.land (table_rights h r v) e) else None).
Proof.
  unfold mmu_lookup, leaf_entry, table_rights. rewrite hw_walk_snoc, <- hw_walk_node. unfold hw_step.
  destruct (hw_walk h r (path v)) as [[a|] rt]; [|done]. cbn [fst snd mbind option_bind].
  destruct (tget h a (pt_index v)) as [e|]; [|done]. cbn [mbind option_bind]. by destruct (Z.testbit e 0).
Qed.

Lemma tget_table h a i t : h !! kv a = Some (OTable t) → tget h a i = t !! Z.to_nat i.
Proof. unfold tget. by intros ->. Qed.

Lemma tget_some h a i :
  is_table h a → 0 ≤ i < 512 → ∃ e t, tget h a i = Some e ∧ h !! kv a = Some (OTable t)
    ∧ length t = 512%nat ∧ t !! Z.to_nat i = Some e.
Proof.
  intros (t & Ht & Hl) Hi. destruct (lookup_lt_is_Some_2 t (Z.to_nat i)) as [e He]; [lia|].
  exists e, t. split_and!; try done. by rewrite (tget_table _ _ _ _ Ht).
Qed.

Lemma entry_get_ok a i e s : tget (k_heap s) a i = Some e → entry_get (kv a) i s = Ok (e, s).
Proof.
  unfold tget, entry_get. intros H. destruct (k_heap s !! kv a) as [o|] eqn:Eo; [|done].
  destruct o; try done.
  mstep (load_some as_table _ _ t _ Eo eq_refl). by rewrite H.
Qed.

Lemma entry_set_ok a i e t s :
  k_heap s !! kv a = Some (OTable t) → (Z.to_nat i < length t)%nat →
  entry_set (kv a) i e s = Ok (tt, upd_heap <[kv a := OTable (<[Z.to_nat i := e]> t)]> s).
Proof.
  intros H Hi. unfold entry_set. mstep (load_some as_table (kv a) (OTable t) t s H eq_refl).
  by rewrite (proj2 (Nat.ltb_lt _ _) Hi).
Qed.

Lemma walk_correct cr3 v s :
  tree_wf (k_heap s) cr3 →
  ∃ w, walk_pml4 cr3 v s = Ok (w, s)
    ∧ translate (k_heap s) cr3 v = (if (w =? u64 (-1)) || (w =? 0) then None else Some w)
    ∧ (∀ e, leaf_entry (k_heap s) cr3 v = Some e → w = Z.land e ADDR).
Proof.
  intros Hwf. unfold walk_pml4, translate, leaf_entry.
  assert (Hlt : ∀ e, (Z.land e ADDR =? u64 (-1)) = false).
  { intros e. apply Z.eqb_neq. intros E.
    assert (Z.testbit (Z.land e ADDR) 0 = Z.testbit (u64 (-1)) 0) as H by (by rewrite E).
    rewrite Z.land_spec in H. change (Z.testbit ADDR 0) with false in H.
    by rewrite andb_false_r in H. }
  destruct (tget_some (k_heap s) cr3 (get_index_of_pml4 v)) as (e4 & t4 & H4 & _);
    [apply (tw_table _ _ Hwf [] cr3 valid_nil eq_refl)|apply index_range|].
  mstep (entry_get_ok _ _ _ _ H4).
  assert (N1 : node (k_heap s) cr3 [get_index_of_pml4 v]
               = if present e4 then Some (Z.land e4 ADDR) else None) by (cbn; unfold child; by rewrite H4).
  rewrite path_code.
  change [get_index_of_pml4 v; get_index_of_pdpt v; get_index_of_pdt v]
    with (([get_index_of_pml4 v] ++ [get_index_of_pdpt v]) ++ [get_index_of_pdt v]).
  destruct (present e4); cbn [negb]; [|by rewrite !node_snoc, N1; eexists].
  destruct (tget_some (k_heap s) (Z.land e4 ADDR) (get_index_of_pdpt v)) as (e3 & t3 & H3 & _);
    [exact (proj2 (tw_table _ _ Hwf _ _ (valid_path_1 v) N1))|apply index_range|].
  mstep (entry_get_ok _ _ _ _ H3).
  assert (N2 : node (k_heap s) cr3 ([get_index_of_pml4 v] ++ [get_index_of_pdpt v])
               = if present e3 then Some (Z.land e3 ADDR) else None).
  { rewrite node_snoc, N1. cbn. unfold child. by rewrite H3. }
  destruct (present e3); cbn [negb]; [|by rewrite node_snoc, N2; eexists].
  destruct (tget_some (k_heap s) (Z.land e3 ADDR) (get_index_of_pdt v)) as (e2 & t2 & H2 & _);
    [exact (proj2 (tw_table _ _ Hwf _ _ (valid_path_2 v) N2))|apply index_range|].
  mstep (entry_get_ok _ _ _ _ H2).
  assert (N3 : node (k_heap s) cr3 (([get_index_of_pml4 v] ++ [get_index_of_pdpt v]) ++ [get_index_of_pdt v])
               = if present e2 then Some (Z.land e2 ADDR) else None).
  { rewrite node_snoc, N2. cbn. unfold child. by rewrite H2. }
  destruct (present e2); cbn [negb]; [|by rewrite N3; eexists].
  destruct (tget_some (k_heap s) (Z.land e2 ADDR) (get_index_of_pt v)) as (e1 & t1 & H1 & _);
    [refine (proj2 (tw_table _ _ Hwf _ _ (valid_path_of v) _)); by rewrite path_code|apply index_range|].
  mstep (entry_get_ok _ _ _ _ H1). eexists. split; [done|]. rewrite N3.
  cbn [mbind option_bind]. unfold pte. rewrite <- pt_index_code, H1. cbn [mbind option_bind].
  unfold get_physical_address_of_page_from_pt. change PTE_PHYS_ADDR with ADDR. rewrite Hlt.
  split; [done|]. by intros e [= ->].
Qed.

(** C32: the walk agrees with the processor.  On a well-formed tree
    [walk_pml4] returns without changing the state.  When the processor reaches
    a physical address from [v], by the bits 39-47, 30-38, 21-29 and 12-20 of
    [v] and the present entries they select, the walk returns the frame of that
    address.  In general it returns the frame named by the last-level entry; the
    two values it uses for "not mapped" are -1 (a missing table) and 0 (an entry
    without an address). *)
Theorem walk_translates cr3 v s :
  tree_wf (k_heap s) cr3 →
  ∃ w, walk_pml4 cr3 v s = Ok (w, s)
    ∧ (∀ pa rt, mmu_lookup (k_heap s) cr3 v = Some (pa, rt) → w = pa - v mod 4096)
    ∧ translate (k_heap s) cr3 v = (if (w =? u64 (-1)) || (w =? 0) then None else Some w).
Proof.
  intros Hwf. destruct (walk_correct cr3 v s Hwf) as (w & E & Ht & Hl).
  exists w. split; [done|]. split; [|done]. intros pa rt H. rewrite mmu_lookup_leaf in H.
  destruct (leaf_entry (k_heap s) cr3 v) as [e|]; [|done]. cbn [mbind option_bind] in H.
  rewrite (Hl e eq_refl). destruct (Z.testbit e 0); [|done]. injection H as <- _. lia.
Qed.

(** ** Linking an empty table below a node *)

Lemma tget_insert_eq h a i t :
  tget (<[kv a := OTable t]> h) a i = t !! Z.to_nat i.
Proof. unfold tget. by rewrite lookup_insert_eq. Qed.
Lemma tget_insert_ne h a b o i :
  kv a ≠ kv b → tget (<[kv b := o]> h) a i = tget h a i.
Proof. intros H. unfold tget. by rewrite lookup_insert_ne by congruence. Qed.

Lemma tget_zero h f i : 0 ≤ i < 512 → tget (<[kv f := OTable zero_table]> h) f i = Some 0.
Proof. intros Hi. rewrite tget_insert_eq. apply lookup_replicate_2. lia. Qed.

Lemma tget_nonneg_index h a i e :
  is_table h a → tget h a i = Some e → (Z.to_nat i < 512)%nat.
Proof. intros (t & Ht & Hl) H. rewrite (tget_table _ _ _ _ Ht) in H. apply lookup_lt_Some in H. lia. Qed.

Section link.
Context (h : gmap Z obj) (r : Z) (p : list Z) (a i f e : Z) (t : list Z).
Hypothesis Hwf : tree_wf h r.
Hypothesis Hp : (length p ≤ 2)%nat.
Hypothesis Hpv : valid_path p.
Hypothesis Hn : node h r p = Some a.
Hypothesis Ha : h !! kv a = Some (OTable t).
Hypothesis Hi : 0 ≤ i < 512.
Hypothesis Habs : child h a i = None.
Hypothesis Hf : is_frame f.
Hypothesis Hfresh : h !! kv f = None.
Hypothesis He : present e = true.
Hypothesis Hef : Z.land e ADDR = f.

Let h' := <[kv a := OTable (<[Z.to_nat i := e]> t)]> (<[kv f := OTable zero_table]> h).

Lemma link_len : length t = 512%nat.
Proof.
  destruct (tw_table _ _ Hwf p a) as [_ (t' & Ht & Hl)]; [done..|]. congruence.
Qed.

Lemma link_frame_a : is_frame a.
Proof. by apply (tw_table _ _ Hwf p a). Qed.

Lemma link_ne x : is_frame x → x ≠ f → kv x ≠ kv f.
Proof. intros Hx Hne E. apply kv_inj in E; [done|..]; unfold is_frame in *; lia. Qed.

Lemma link_node_ne q x : valid_path q → node h r q = Some x → is_frame x ∧ kv x ≠ kv f.
Proof.
  intros Hq Hx. destruct (tw_table _ _ Hwf q x Hq Hx) as [Hfr (t' & Ht & _)].
  split; [done|]. intros E. rewrite E, Hfresh in Ht. done.
Qed.

Lemma link_ne_af : kv a ≠ kv f.
Proof. by apply (link_node_ne p a). Qed.

Lemma link_child q x j : valid_path q → node h r q = Some x → 0 ≤ j →
  child h' x j = if decide (q = p ∧ j = i) then Some f else child h x j.
Proof.
  intros Hq Hx Hj. destruct (link_node_ne q x Hq Hx) as [Hxf Hne]. unfold child.
  destruct (decide (kv x = kv a)) as [E|Hxa].
  - apply kv_inj in E; [|pose proof link_frame_a; unfold is_frame in *; lia..]. subst x.
    assert (q = p) as -> by (by apply (tw_inj _ _ Hwf q p a)).
    unfold h'. rewrite tget_insert_eq. destruct (decide (p = p ∧ j = i)) as [[_ ->]|Hji].
    + rewrite list_lookup_insert_eq by (rewrite link_len; lia). cbn. by rewrite He, Hef.
    + rewrite list_lookup_insert_ne by (intros E; apply Hji; split; [done|lia]).
      by rewrite (tget_table _ _ _ _ Ha).
  - unfold h'. rewrite !tget_insert_ne by done.
    rewrite decide_False; [done|]. intros [-> _]. congruence.
Qed.

Lemma link_node q : valid_path q →
  node h' r q = if decide (q = p ++ [i]) then Some f else node h r q.
Proof.
  induction q as [|j q IH] using rev_ind; intros Hq.
  { rewrite decide_False; [done|]. by destruct p. }
  apply valid_prefix in Hq as (Hqv & Hql & Hj). rewrite !node_snoc, IH by done.
  destruct (decide (q = p ++ [i])) as [->|Hne].
  - rewrite node_snoc, Hn. cbn [mbind option_bind]. rewrite Habs. cbn [mbind option_bind].
    rewrite decide_False by (intros E; apply (f_equal length) in E; rewrite !length_app in E; simpl in E; lia).
    unfold child, h'. rewrite tget_insert_ne by (intros E; by apply link_ne_af).
    by rewrite tget_zero by done.
  - destruct (node h r q) as [x|] eqn:Ex; cbn [mbind option_bind].
    + rewrite (link_child q x j Hqv Ex ltac:(lia)).
      destruct (decide (q = p ∧ j = i)) as [[-> ->]|Hji]; [by rewrite decide_True|].
      rewrite decide_False; [done|]. intros [-> ->]%app_inj_tail. by apply Hji.
    + rewrite decide_False; [done|]. intros [-> ->]%app_inj_tail. congruence.
Qed.

Lemma link_is_table x : is_frame x → is_table h x ∨ x = f → is_table h' x.
Proof.
  intros Hx Hor. unfold is_table, h'. destruct (decide (kv a = kv x)) as [E|Hxa].
  - rewrite <- E, lookup_insert_eq. eexists. split; [done|]. rewrite length_insert. apply link_len.
  - rewrite lookup_insert_ne by done. destruct (decide (kv f = kv x)) as [E|Hxf].
    + rewrite <- E, lookup_insert_eq. eexists. split; [done|]. apply length_replicate.
    + rewrite lookup_insert_ne by done. destruct Hor as [(t' & Ht & Hl)| ->]; [eauto|done].
Qed.

Lemma link_wf : tree_wf h' r.
Proof.
  constructor.
  - intros q x Hq. rewrite link_node by done. destruct (decide _) as [->|].
    + intros [= <-]. split; [done|]. apply link_is_table; [done|by right].
    + intros Hx. destruct (tw_table _ _ Hwf q x Hq Hx). split; [done|].
      apply link_is_table; [done|by left].
  - intros q q' x Hq Hq'. rewrite !link_node by done.
    do 2 destruct (decide _) as [->|]; try done.
    + intros [= <-] Hx. by destruct (link_node_ne _ _ Hq' Hx).
    + intros Hx [= <-]. by destruct (link_node_ne _ _ Hq Hx).
    + by apply (tw_inj _ _ Hwf).
Qed.

Lemma link_mono q x : valid_path q → node h r q = Some x → node h' r q = Some x.
Proof.
  intros Hq Hx. rewrite link_node by done. destruct (decide _) as [->|]; [|done].
  rewrite node_snoc, Hn in Hx. cbn [mbind option_bind] in Hx. congruence.
Qed.

Lemma link_new : node h' r (p ++ [i]) = Some f.
Proof. rewrite link_node by (by apply valid_snoc). by rewrite decide_True. Qed.

Lemma link_translate v : translate h' r v = translate h r v.
Proof.
  unfold translate. rewrite link_node by apply valid_path_of.
  destruct (decide (path v = p ++ [i])) as [E|Hne].
  - rewrite E, node_snoc, Hn. cbn [mbind option_bind]. rewrite Habs. cbn [mbind option_bind].
    unfold pte, h'. rewrite tget_insert_ne by (intros E'; by apply link_ne_af).
    by rewrite tget_zero by apply pt_index_range.
  - destruct (node h r (path v)) as [x|] eqn:Hx; [|done]. cbn [mbind option_bind].
    destruct (link_node_ne _ _ (valid_path_of v) Hx) as [Hxf Hxne].
    unfold pte, h'. rewrite !tget_insert_ne; [done|done|]. intros E.
    apply kv_inj in E; [|pose proof link_frame_a; unfold is_frame in *; lia..]. subst x.
    pose proof (tw_inj _ _ Hwf _ _ _ (valid_path_of v) Hpv Hx Hn) as E'.
    rewrite <- E' in Hp. simpl in Hp. lia.
Qed.

(** No other entry changes. *)
Lemma link_tget q x j : valid_path q → node h r q = Some x → 0 ≤ j → ¬ (q = p ∧ j = i) → tget h' x j = tget h x j.
Proof.
  intros Hq Hx Hj Hne. destruct (link_node_ne q x Hq Hx) as [Hxf Hxne]. unfold h'.
  destruct (decide (kv x = kv a)) as [E|Hxa]; [|by rewrite !tget_insert_ne].
  apply kv_inj in E; [|pose proof link_frame_a; unfold is_frame in *; lia..]. subst x.
  assert (q = p) as -> by (by apply (tw_inj _ _ Hwf q p a)).
  rewrite tget_insert_eq, list_lookup_insert_ne by (intros E; apply Hne; split; [done|lia]).
  by rewrite (tget_table _ _ _ _ Ha).
Qed.

(** A walk through tables that were there is not affected. *)
Lemma link_walk q x : valid_path q → node h r q = Some x → hw_walk h' r q = hw_walk h r q.
Proof.
  revert x. induction q as [|j q IH] using rev_ind; intros x Hq Hx; [done|].
  apply valid_prefix in Hq as (Hqv & Hql & Hj). rewrite node_snoc in Hx.
  destruct (node h r q) as [y|] eqn:Ey; [|done]. cbn [mbind option_bind] in Hx.
  rewrite !hw_walk_snoc, (IH y Hqv eq_refl). unfold hw_step. rewrite hw_walk_node, Ey.
  rewrite (link_tget q y j); [done..|lia|]. intros [-> ->]. congruence.
Qed.

(** The new entry grants [flags]: so does the way through it. *)
Lemma link_rights flags q : valid_path q → Z.land e flags = flags →
  Z.land (hw_walk h' r q).2 flags = Z.land (hw_walk h r q).2 flags.
Proof.
  intros Hq Hfl. induction q as [|j q IH] using rev_ind; [done|].
  apply valid_prefix in Hq as (Hqv & Hql & Hj). specialize (IH Hqv).
  rewrite !hw_walk_snoc. unfold hw_step. rewrite !hw_walk_node, link_node by done.
  destruct (decide (q = p ++ [i])) as [->|Hne].
  - rewrite node_snoc, Hn. cbn [mbind option_bind]. rewrite Habs.
    unfold h' at 1 2. rewrite tget_insert_ne by (intros E; by apply link_ne_af). by rewrite tget_zero.
  - destruct (node h r q) as [x|] eqn:Ex; [|done].
    destruct (decide (q = p ∧ j = i)) as [[-> ->]|Hji].
    + assert (x = a) as -> by congruence.
      assert (Htop : tget h' a i = Some e).
      { unfold h'. rewrite tget_insert_eq. apply list_lookup_insert_eq. rewrite link_len. lia. }
      rewrite Htop. rewrite present_bit in He. rewrite He. cbn [snd].
      rewrite <- Z.land_assoc, Hfl, IH. destruct (tget h a i) as [e0|] eqn:E0; [|done].
      unfold child in Habs. rewrite E0 in Habs. cbn [mbind option_bind] in Habs. rewrite present_bit in Habs.
      by destruct (Z.testbit e0 0).
    + rewrite (link_tget q x j) by (done || lia). destruct (tget h x j) as [e0|]; [|done].
      destruct (Z.testbit e0 0); [|done]. cbn [snd].
      rewrite (Z.land_comm _ e0), (Z.land_comm _ e0), <- !Z.land_assoc. by rewrite IH.
Qed.

Lemma link_leaf v : leaf_word h' r v = leaf_word h r v ∧ mmu_lookup h' r v = mmu_lookup h r v.
Proof.
  rewrite !mmu_lookup_leaf. unfold leaf_word, leaf_entry, table_rights.
  rewrite link_node by apply valid_path_of. destruct (decide (path v = p ++ [i])) as [E|Hne].
  - rewrite E, (node_snoc h), Hn. cbn [mbind option_bind]. rewrite Habs. cbn [mbind option_bind].
    assert (tget h' f (pt_index v) = Some 0) as ->; [|done].
    unfold h'. rewrite tget_insert_ne by (intros E'; by apply link_ne_af). apply tget_zero, pt_index_range.
  - destruct (node h r (path v)) as [x|] eqn:Hx; [|done]. cbn [mbind option_bind].
    rewrite (link_tget (path v) x), (link_walk _ x) by first
      [done|apply valid_path_of|apply pt_index_range|intros [E _]; rewrite <- E in Hp; simpl in Hp; lia]. done.
Qed.
End link.

(** ** Writing a last-level entry *)

Section leaf.
Context (h : gmap Z obj) (r : Z) (p : list Z) (a i e : Z) (t : list Z).
Hypothesis Hwf : tree_wf h r.
Hypothesis Hp : length p = 3%nat.
Hypothesis Hpv : valid_path p.
Hypothesis Hn : node h r p = Some a.
Hypothesis Ha : h !! kv a = Some (OTable t).
Hypothesis Hi : 0 ≤ i < 512.

Let h' := <[kv a := OTable (<[Z.to_nat i := e]> t)]> h.

Lemma leaf_len : length t = 512%nat.
Proof. destruct (tw_table _ _ Hwf p a) as [_ (t' & Ht & Hl)]; [done..|]. congruence. Qed.

Lemma leaf_same q x : valid_path q → node h r q = Some x → kv x = kv a → x = a ∧ q = p.
Proof.
  intros Hq Hx E. destruct (tw_table _ _ Hwf q x Hq Hx) as [Hxf _].
  destruct (tw_table _ _ Hwf p a Hpv Hn) as [Haf _].
  apply kv_inj in E; [|unfold is_frame in *; lia..]. subst x. split; [done|].
  by apply (tw_inj _ _ Hwf q p a).
Qed.

Lemma leaf_node q : valid_path q → node h' r q = node h r q.
Proof.
  induction q as [|j q IH] using rev_ind; intros Hq; [done|].
  apply valid_prefix in Hq as (Hqv & Hql & Hj). rewrite !node_snoc, IH by done.
  destruct (node h r q) as [x|] eqn:Ex; [|done]. cbn [mbind option_bind].
  unfold child, h'. rewrite tget_insert_ne; [done|]. intros E.
  destruct (leaf_same q x Hqv Ex E) as [_ ->]. lia.
Qed.

Lemma leaf_wf : tree_wf h' r.
Proof.
  constructor.
  - intros q x Hq. rewrite leaf_node by done. intros Hx.
    destruct (tw_table _ _ Hwf q x Hq Hx) as [Hxf (t' & Ht & Hl)]. split; [done|].
    unfold is_table, h'. destruct (decide (kv a = kv x)) as [E|Hne].
    + rewrite <- E, lookup_insert_eq. eexists. split; [done|]. rewrite length_insert. apply leaf_len.
    + rewrite lookup_insert_ne by done. eauto.
  - intros q q' x Hq Hq'. rewrite !leaf_node by done. by apply (tw_inj _ _ Hwf).
Qed.

Lemma leaf_translate v :
  translate h' r v
  = if decide (path v = p ∧ pt_index v = i)
    then (if Z.land e ADDR =? 0 then None else Some (Z.land e ADDR))
    else translate h r v.
Proof.
  unfold translate. rewrite leaf_node by apply valid_path_of.
  destruct (node h r (path v)) as [x|] eqn:Hx; cbn [mbind option_bind].
  - unfold pte, h'. destruct (decide (kv x = kv a)) as [E|Hne].
    + destruct (leaf_same _ _ (valid_path_of v) Hx E) as [-> Epath].
      rewrite tget_insert_eq. destruct (decide (pt_index v = i)) as [Ei|Hni].
      * rewrite (decide_True (P := path v = p ∧ pt_index v = i)) by done.
        by rewrite Ei, list_lookup_insert_eq by (rewrite leaf_len; lia).
      * rewrite (decide_False (P := path v = p ∧ pt_index v = i)) by (by intros [_ ?]).
        pose proof (pt_index_range v).
        rewrite list_lookup_insert_ne by lia. by rewrite (tget_table _ _ _ _ Ha).
    + rewrite tget_insert_ne by done. rewrite decide_False; [done|].
      intros [E _]. rewrite E, Hn in Hx. congruence.
  - rewrite decide_False; [done|]. intros [E _]. rewrite E in Hx. congruence.
Qed.

Lemma leaf_walk q : valid_path q → hw_walk h' r q = hw_walk h r q.
Proof.
  induction q as [|j q IH] using rev_ind; intros Hq; [done|].
  apply valid_prefix in Hq as (Hqv & Hql & Hj). rewrite !hw_walk_snoc, IH by done. unfold hw_step.
  rewrite hw_walk_node. destruct (node h r q) as [x|] eqn:Ex; [|done].
  unfold h'. rewrite tget_insert_ne; [done|]. intros E.
  destruct (leaf_same q x Hqv Ex E) as [_ ->]. lia.
Qed.

Lemma leaf_entry_set v :
  leaf_entry h' r v = if decide (path v = p ∧ pt_index v = i) then Some e else leaf_entry h r v.
Proof.
  unfold leaf_entry. rewrite leaf_node by apply valid_path_of.
  destruct (node h r (path v)) as [x|] eqn:Hx; cbn [mbind option_bind].
  - destruct (decide (kv x = kv a)) as [E|Hne].
    + destruct (leaf_same _ _ (valid_path_of v) Hx E) as [-> Epath]. unfold h'. rewrite tget_insert_eq.
      case_decide as Ei; [rewrite (proj2 Ei); apply list_lookup_insert_eq; rewrite leaf_len; lia|].
      pose proof (pt_index_range v). rewrite list_lookup_insert_ne by (intros E2; apply Ei; split; [done|lia]).
      by rewrite (tget_table _ _ _ _ Ha).
    + unfold h'. rewrite tget_insert_ne by done. rewrite decide_False; [done|].
      intros [E _]. rewrite E, Hn in Hx. congruence.
  - rewrite decide_False; [done|]. intros [E _]. rewrite E in Hx. congruence.
Qed.

(** The processor's view of the page whose entry is written. *)
Lemma leaf_lookup v : Z.testbit e 0 = true →
  mmu_lookup h' r v = if decide (path v = p ∧ pt_index v = i)
    then Some (Z.land e ADDR + v mod 4096, Z.land (hw_walk h r p).2 e) else mmu_lookup h r v.
Proof.
  intros Hb. rewrite !mmu_lookup_leaf, leaf_entry_set. unfold table_rights. rewrite leaf_walk by apply valid_path_of.
  case_decide as E; [|done]. cbn [mbind option_bind]. by rewrite Hb, (proj1 E).
Qed.
End leaf.

Lemma wf_kv_ne h r p q a b : tree_wf h r → valid_path p → valid_path q → node h r p = Some a → node h r q = Some b →
  p ≠ q → kv a ≠ kv b.
Proof.
  intros Hwf Hp Hq Ha Hb Hne E. destruct (tw_table _ _ Hwf _ _ Hp Ha) as [[? _] _].
  destruct (tw_table _ _ Hwf _ _ Hq Hb) as [[? _] _]. apply kv_inj in E; [|lia..]. subst b.
  by apply Hne, (tw_inj _ _ Hwf p q a).
Qed.

(** A table written at [p] is not passed on the way to tables no deeper. *)
Lemma walk_insert h r p a t q : tree_wf h r → valid_path p → node h r p = Some a →
  valid_path q → (length q ≤ length p)%nat → hw_walk (<[kv a := OTable t]> h) r q = hw_walk h r q.
Proof.
  intros Hwf Hpv Hn. induction q as [|j q IH] using rev_ind; intros Hq Hl; [done|].
  rewrite length_app in Hl. simpl in Hl.
  apply valid_prefix in Hq as (Hqv & Hql & Hj). rewrite !hw_walk_snoc, IH by (done || lia). unfold hw_step.
  rewrite hw_walk_node. destruct (node h r q) as [x|] eqn:Ex; [|done].
  rewrite tget_insert_ne; [done|]. apply (wf_kv_ne h r q p); [done..|]. intros ->. lia.
Qed.
(** A walk that has stopped stays where it is. *)
Lemma hw_walk_stopped h r p q : node h r p = None → hw_walk h r (p ++ q) = hw_walk h r p.
Proof.
  rewrite <- hw_walk_node. intros Hn. induction q as [|j q IH] using rev_ind; [by rewrite app_nil_r|].
  rewrite app_assoc, hw_walk_snoc, IH. unfold hw_step. rewrite Hn. rewrite <- Hn. by destruct (hw_walk h r p).
Qed.
(** Two addresses of a page have the same entry. *)
Lemma leaf_entry_page h r v w : page_number v = page_number w → leaf_entry h r v = leaf_entry h r w.
Proof. intros [E1 E2]%page_number_path. unfold leaf_entry. by rewrite E1, E2. Qed.

(** ** The mapping operation *)

(** Only memory, the allocator and the screen differ. *)
Definition same_but_mem (s s' : kst) : Prop :=
  ∃ m h c, s' = set_k_con c (set_k_heap h (set_k_phys m s)).
Lemma sbm_refl s : same_but_mem s s.
Proof. exists (k_phys s), (k_heap s), (k_con s). by destruct s. Qed.
Lemma sbm_trans s1 s2 s3 : same_but_mem s1 s2 → same_but_mem s2 s3 → same_but_mem s1 s3.
Proof. intros (m & h & c & ->) (m' & h' & c' & ->). by exists m', h', c'. Qed.
Lemma sbm_phys s s' : same_but_phys s s' → same_but_mem s s'.
Proof. intros (m & c & ->). exists m, (k_heap s), c. by destruct s. Qed.
Lemma sbm_heap s f : same_but_mem s (upd_heap f s).
Proof. exists (k_phys s), (f (k_heap s)), (k_con s). by destruct s. Qed.
#[export] Hint Resolve sbm_refl sbm_phys sbm_heap : kernel.

(** Objects that are not tables stay what they are. *)
Definition keeps_objects (h h' : gmap Z obj) : Prop :=
  ∀ x o, h !! x = Some o → (∀ t, o ≠ OTable t) → h' !! x = Some o.
Lemma keeps_refl h : keeps_objects h h.
Proof. by intros x o. Qed.
Lemma keeps_trans h1 h2 h3 : keeps_objects h1 h2 → keeps_objects h2 h3 → keeps_objects h1 h3.
Proof. intros H1 H2 x o Hx Ho. auto. Qed.
Lemma keeps_insert h x t t' : h !! x = Some (OTable t) → keeps_objects h (<[x := OTable t']> h).
Proof.
  intros Hx y o Hy Ho. destruct (decide (x = y)) as [->|Hne]; [|by rewrite lookup_insert_ne].
  rewrite Hx in Hy. by injection Hy as <-; destruct (Ho t).
Qed.
Lemma keeps_fresh h x o' : h !! x = None → keeps_objects h (<[x := o']> h).
Proof. intros Hx y o Hy _. by rewrite lookup_insert_ne by congruence. Qed.
#[export] Hint Resolve keeps_refl keeps_trans : kernel.

(** An address that holds no table of the tree. *)
Definition outside (h : gmap Z obj) (r x : Z) : Prop := ∀ q y, valid_path q → node h r q = Some y → x ≠ kv y.
(** Only the tables of the tree change, and a new table is a new object. *)
Record tree_local (r : Z) (h h' : gmap Z obj) : Prop := {
  tl_keeps : ∀ x o, h !! x = Some o → outside h r x → h' !! x = Some o;
  tl_new : ∀ q y, valid_path q → node h' r q = Some y → node h r q = Some y ∨ h !! kv y = None
}.
Lemma tree_local_refl r h : tree_local r h h.
Proof. constructor; [done|]. intros. by left. Qed.
Lemma tree_local_outside r h h' x o : tree_local r h h' → h !! x = Some o → outside h r x → outside h' r x.
Proof. intros [_ Hn] Hx Ho q y Hq Hy ->. destruct (Hn q y Hq Hy) as [H|H]; [by apply (Ho q y)|congruence]. Qed.
Lemma tree_local_trans r h1 h2 h3 : tree_local r h1 h2 → tree_local r h2 h3 → (∀ x, is_Some (h1 !! x) → is_Some (h2 !! x)) →
  tree_local r h1 h3.
Proof.
  intros H1 H2 Hd. constructor.
  - intros x o Hx Ho. apply (tl_keeps _ _ _ H2); [by apply (tl_keeps _ _ _ H1)|]. by eapply tree_local_outside.
  - intros q y Hq Hy. destruct (tl_new _ _ _ H2 q y Hq Hy) as [H|H]; [by apply (tl_new _ _ _ H1)|].
    right. apply eq_None_not_Some. intros Hs. apply Hd in Hs as [? ?]. congruence.
Qed.

(** What every step of a mapping preserves: the tree only grows, no address
    loses or changes its translation. *)
Record grows (r : Z) (s s' : kst) : Prop := {
  gr_frames : n_frames s' = n_frames s;
  gr_shape : same_but_mem s s';
  gr_keeps : keeps_objects (k_heap s) (k_heap s');
  gr_node : ∀ q x, valid_path q → node (k_heap s) r q = Some x → node (k_heap s') r q = Some x;
  gr_translate : ∀ v, translate (k_heap s') r v = translate (k_heap s) r v;
  gr_lookup : ∀ v, mmu_lookup (k_heap s') r v = mmu_lookup (k_heap s) r v;
  gr_word : ∀ v, leaf_word (k_heap s') r v = leaf_word (k_heap s) r v;
  gr_local : tree_local r (k_heap s) (k_heap s');
  gr_dom : ∀ x, is_Some (k_heap s !! x) → is_Some (k_heap s' !! x)
}.
Lemma grows_refl r s : grows r s s.
Proof. constructor; auto using tree_local_refl with kernel. Qed.
Lemma grows_trans r s1 s2 s3 : grows r s1 s2 → grows r s2 s3 → grows r s1 s3.
Proof.
  intros [? ? ? ? HT1 HL1 HW1 ? HD1] [? ? ? ? HT2 HL2 HW2 ? HD2].
  constructor; [congruence|by eapply sbm_trans|by eapply keeps_trans|auto| | | |by eapply tree_local_trans|auto].
  - intros v. by rewrite HT2, HT1.
  - intros v. by rewrite HL2, HL1.
  - intros v. by rewrite HW2, HW1.
Qed.

Lemma is_frame_at base k s j : frontier base k s → 0 ≤ j ≤ n_frames s → is_frame (frame_at base j).
Proof. apply frame_range. Qed.

(** An object in the store is not at a frame past the frontier. *)
Lemma frontier_ne base k s j a o :
  frontier base k s → k ≤ j ≤ n_frames s → k_heap s !! a = Some o → a ≠ kv (frame_at base j).
Proof. intros Hf Hj Ha ->. by rewrite (fr_clean _ _ _ Hf j Hj) in Ha. Qed.

Lemma frontier_insert base k s a o o' :
  frontier base k s → k_heap s !! a = Some o → frontier base k (upd_heap <[a := o']> s).
Proof.
  intros Hf Ha. apply frontier_heap; [done|]. intros j Hj.
  rewrite lookup_insert_ne by (by eapply frontier_ne). by apply (fr_clean _ _ _ Hf).
Qed.

(** A fresh zeroed frame. *)
Lemma alloc_zeroed base k s o :
  frontier base k s → k < n_frames s →
  ∃ s1, phys_mem_alloc s = Ok (frame_at base k, s1)
    ∧ memset_frame (kv (frame_at base k)) o s1
      = Ok (tt, upd_heap <[kv (frame_at base k) := o]> s1)
    ∧ frontier base (k + 1) (upd_heap <[kv (frame_at base k) := o]> s1)
    ∧ k_heap s1 = k_heap s ∧ n_frames s1 = n_frames s ∧ same_but_phys s s1
    ∧ k_heap s !! kv (frame_at base k) = None.
Proof.
  intros Hf Hk. destruct (alloc_frontier base k s Hf Hk) as (s1 & E & Hf1 & Hh & Hn & Hs).
  pose proof (fr_range _ _ _ Hf).
  pose proof (frame_range _ _ _ (k + 1) Hf ltac:(lia)). pose proof (frame_range _ _ _ k Hf ltac:(lia)).
  exists s1. split_and!; try done.
  - apply memset_frame_clean. rewrite frame_next by (unfold frame_at in *; lia).
    rewrite Hh. apply (fr_clean _ _ _ Hf). lia.
  - apply frontier_heap; [done|]. intros j Hj. rewrite lookup_insert_ne.
    + by apply (fr_clean _ _ _ Hf1).
    + intros E'. apply (frame_inj _ _ _ _ _ Hf) in E'; lia.
  - apply (fr_clean _ _ _ Hf). lia.
Qed.

(** The tables on the way to an address grant what they granted of [flags]. *)
Definition keeps_rights (r flags : Z) (s s' : kst) : Prop :=
  ∀ v, Z.land (table_rights (k_heap s') r v) flags = Z.land (table_rights (k_heap s) r v) flags.
Lemma keeps_rights_trans r flags s1 s2 s3 :
  keeps_rights r flags s1 s2 → keeps_rights r flags s2 s3 → keeps_rights r flags s1 s3.
Proof. intros H1 H2 v. by rewrite H2. Qed.
Lemma entry_grants e flags : Z.land (Z.lor e flags) flags = flags.
Proof. rewrite Z.land_comm. apply Z.bits_inj'. intros i _. rewrite Z.land_spec, Z.lor_spec. by destruct (Z.testbit flags i), (Z.testbit e i). Qed.

Lemma upd_heap_twice f g s : upd_heap f (upd_heap g s) = upd_heap (f ∘ g) s.
Proof. done. Qed.

Lemma next_table_ok base k s r p a i flags :
  frontier base k s → k < n_frames s → tree_wf (k_heap s) r →
  valid_path p → (length p ≤ 2)%nat → node (k_heap s) r p = Some a → 0 ≤ i < 512 →
  present flags = true → 0 ≤ flags < 4096 →
  ∃ c k' s', next_table (kv a) i flags s = Ok (c, s')
    ∧ frontier base k' s' ∧ k ≤ k' ≤ k + 1 ∧ tree_wf (k_heap s') r
    ∧ node (k_heap s') r (p ++ [i]) = Some c ∧ grows r s s' ∧ keeps_rights r flags s s'.
Proof.
  intros Hf Hk Hwf Hpv Hp Hn Hi Hpf Hfl. unfold next_table.
  destruct (tw_table _ _ Hwf p a Hpv Hn) as [Haf Hat].
  destruct (tget_some _ _ _ Hat Hi) as (e & t & He & Ht & Hl & Hte).
  mstep (entry_get_ok _ _ _ _ He). destruct (present e) eqn:Hpe; cbn [negb when]; mnorm.
  { mstep (entry_get_ok _ _ _ _ He). exists (Z.land e ADDR), k, s. split; [done|].
    split_and!; try done; try lia; [|apply grows_refl].
    rewrite node_snoc, Hn. cbn. unfold child. by rewrite He; cbn; rewrite Hpe. }
  destruct (alloc_zeroed base k s (OTable zero_table) Hf Hk)
    as (s1 & E1 & E2 & Hf1 & Hh1 & Hn1 & Hs1 & Hfresh).
  rewrite bind_assoc. mstep E1. rewrite bind_assoc. mstep E2.
  set (f := frame_at base k) in *. set (s2 := upd_heap _ s1) in *.
  assert (Hff : is_frame f) by (apply (is_frame_at base k s); [done|split; [apply (fr_range _ _ _ Hf)|lia]]).
  assert (Hne : kv a ≠ kv f) by (intros E; rewrite E in Ht; congruence).
  assert (Ht2 : k_heap s2 !! kv a = Some (OTable t)).
  { unfold s2. cbn. rewrite lookup_insert_ne, Hh1 by done. done. }
  rewrite bind_assoc. mstep (entry_get_ok a i e s2 ltac:(by rewrite (tget_table _ _ _ _ Ht2))).
  rewrite bind_assoc.
  mstep (entry_set_ok a i (Z.lor (Z.land e (not64 ADDR)) f) t s2 Ht2 ltac:(lia)).
  set (e1 := Z.lor (Z.land e (not64 ADDR)) f).
  set (t3 := <[Z.to_nat i := e1]> t).
  set (s3 := upd_heap <[kv a := OTable t3]> s2).
  assert (Ht3 : k_heap s3 !! kv a = Some (OTable t3)) by apply lookup_insert_eq.
  assert (He3 : tget (k_heap s3) a i = Some e1).
  { rewrite (tget_table _ _ _ _ Ht3). apply list_lookup_insert_eq. lia. }
  rewrite bind_assoc. mstep (entry_get_ok a i e1 s3 He3).
  mstep (entry_set_ok a i (Z.lor e1 flags) t3 s3 Ht3 ltac:(unfold t3; rewrite length_insert; lia)).
  set (e4 := Z.lor e1 flags). set (s4 := upd_heap _ s3).
  assert (Hh4 : k_heap s4 = <[kv a := OTable (<[Z.to_nat i := e4]> t)]>
                  (<[kv f := OTable zero_table]> (k_heap s))).
  { unfold s4, s3, s2, t3. cbn. rewrite insert_insert_eq, list_insert_insert_eq, Hh1. done. }
  assert (Hef : Z.land e4 ADDR = f).
  { apply entry_addr; [unfold is_frame in Hff; lia|apply Hff|done]. }
  assert (He4 : tget (k_heap s4) a i = Some e4).
  { rewrite Hh4, tget_insert_eq. apply list_lookup_insert_eq. lia. }
  assert (Habs : child (k_heap s) a i = None) by (unfold child; rewrite He; cbn; by rewrite Hpe).
  assert (Hp4 : present e4 = true) by (by apply entry_present).
  mstep (entry_get_ok a i e4 s4 He4). exists f, (k + 1), s4. split.
  { unfold get_physical_address_of_pdpt_from_pml. change PMLE_PDPTE_ADDRESS with ADDR. by rewrite Hef. }
  split; [unfold s4, s3; eapply frontier_insert; [eapply frontier_insert; [exact Hf1|exact Ht2]|exact Ht3]|].
  split; [lia|]. rewrite Hh4. split; [by apply link_wf with p|]. split; [by apply link_new|].
  split; [|intros v; unfold table_rights; rewrite Hh4; apply link_rights with p; [..|apply entry_grants]; auto with kernel].
  constructor.
  - done.
  - eapply sbm_trans; [by apply sbm_phys|]. unfold s4, s3, s2. rewrite !upd_heap_twice. apply sbm_heap.
  - rewrite Hh4. eapply keeps_trans; [by apply (keeps_fresh _ (kv f) (OTable zero_table))|].
    apply (keeps_insert _ _ t). by rewrite lookup_insert_ne.
  - intros q x. rewrite Hh4. by apply link_mono with p.
  - intros v. rewrite Hh4. by apply link_translate with p.
  - intros v. rewrite Hh4. by apply (link_leaf _ _ p a i f).
  - intros v. rewrite Hh4. by apply (link_leaf _ _ p a i f).
  - rewrite Hh4. constructor.
    + intros x o Hx Ho. rewrite !lookup_insert_ne; [done|congruence|]. apply not_eq_sym. by apply (Ho p a).
    + intros q y Hq. erewrite link_node by done. destruct (decide _) as [->|]; [|by left]. intros [= <-]. by right.
  - intros x Hx. rewrite Hh4, !lookup_insert. repeat case_decide; done.
Qed.

Lemma change_node h r p i a : node h r p = Some a → node h r (p ++ [i]) = child h a i.
Proof. intros H. by rewrite node_snoc, H. Qed.

(** The three table steps of the mapping. *)
Lemma tables_ok base k s r v flags :
  frontier base k s → k + 3 ≤ n_frames s → tree_wf (k_heap s) r →
  present flags = true → 0 ≤ flags < 4096 →
  ∃ pdpt pdt pt k' s',
    (pdpt ← next_table (kv r) (get_index_of_pml4 v) flags;
     pdt ← next_table (kv pdpt) (get_index_of_pdpt v) flags;
     pt ← next_table (kv pdt) (get_index_of_pdt v) flags;
     mret (pdpt, pdt, pt)) s = Ok ((pdpt, pdt, pt), s')
    ∧ frontier base k' s' ∧ k ≤ k' ≤ k + 3 ∧ tree_wf (k_heap s') r
    ∧ node (k_heap s') r (path v) = Some pt ∧ grows r s s' ∧ keeps_rights r flags s s'.
Proof.
  intros Hf Hk Hwf Hpf Hfl.
  destruct (next_table_ok base k s r [] r (get_index_of_pml4 v) flags)
    as (a1 & k1 & s1 & E1 & Hf1 & Hk1 & Hwf1 & Hn1 & G1 & R1);
    [try done; try apply index_range; auto with kernel; simpl; lia..|].
  pose proof (gr_frames _ _ _ G1).
  destruct (next_table_ok base k1 s1 r [get_index_of_pml4 v] a1 (get_index_of_pdpt v) flags)
    as (a2 & k2 & s2 & E2 & Hf2 & Hk2 & Hwf2 & Hn2 & G2 & R2);
    [try done; try apply index_range; auto with kernel; simpl; lia..|].
  pose proof (gr_frames _ _ _ G2).
  destruct (next_table_ok base k2 s2 r [get_index_of_pml4 v; get_index_of_pdpt v] a2 (get_index_of_pdt v) flags)
    as (a3 & k3 & s3 & E3 & Hf3 & Hk3 & Hwf3 & Hn3 & G3 & R3);
    [try done; try apply index_range; auto with kernel; simpl; lia..|].
  exists a1, a2, a3, k3, s3. split; [mstep E1; mstep E2; by mstep E3|].
  split_and!; try done; try lia; [by rewrite path_code|..]; eauto using grows_trans, keeps_rights_trans.
Qed.

(** What mapping the page of [v] to [pa] with [flags] makes of the processor's
    view: the page is reached at [pa] with rights [rt]; of the rights asked for
    it has those that the tables already on the way grant, and no right that
    was neither asked for nor left over in the old entry; no other page
    changes. *)
Definition page_granted (r v pa flags : Z) (h h' : gmap Z obj) : Prop :=
  ∃ rt, (∀ w, mmu_lookup h' r w
              = if decide (page_number w = page_number v) then Some (pa + w mod 4096, rt) else mmu_lookup h r w)
    ∧ Z.land rt flags = Z.land (table_rights h r v) flags
    ∧ Z.ldiff rt (Z.lor flags (leaf_word h r v)) = 0.

Lemma present_set e flags : present flags = true → Z.testbit (Z.lor e flags) 0 = true.
Proof. rewrite <- present_bit. apply entry_present. Qed.
Lemma rights_bound rt e w pa flags :
  pa mod 4096 = 0 → (∀ b, 3 ≤ b → Z.testbit rt b = false) → w = e →
  Z.ldiff (Z.land rt (Z.lor (Z.lor (Z.land e (not64 PTE_PHYS_ADDR)) pa) flags)) (Z.lor flags w) = 0.
Proof.
  intros Hpa Hrt ->. apply Z.bits_inj'. intros i Hi. rewrite Z.bits_0, Z.ldiff_spec, Z.land_spec, !Z.lor_spec, Z.land_spec.
  destruct (Z_lt_le_dec i 3); [|by rewrite Hrt by done]. rewrite (aligned_bit pa i) by lia.
  by destruct (Z.testbit rt i), (Z.testbit e i), (Z.testbit flags i), (Z.testbit (not64 PTE_PHYS_ADDR) i).
Qed.

Lemma map_page_full base k s r v pa flags :
  frontier base k s → k + 3 ≤ n_frames s → tree_wf (k_heap s) r →
  present flags = true → 0 ≤ flags < 4096 →
  v mod 4096 = 0 → pa mod 4096 = 0 → 0 < pa < 2 ^ 52 →
  ∃ k' s', map_virtual_address_to_physical_address v pa flags r 0 s = Ok (tt, s')
    ∧ frontier base k' s' ∧ k ≤ k' ≤ k + 3 ∧ n_frames s' = n_frames s
    ∧ tree_wf (k_heap s') r
    ∧ (∀ w, translate (k_heap s') r w
            = if decide (page_number w = page_number v) then Some pa else translate (k_heap s) r w)
    ∧ keeps_objects (k_heap s) (k_heap s') ∧ cr3 (k_cpu s') = r ∧ k_fs s' = k_fs s
    ∧ k_proc s' = k_proc s ∧ tree_local r (k_heap s) (k_heap s') ∧ page_granted r v pa flags (k_heap s) (k_heap s').
Proof.
  intros Hf Hk Hwf Hpf Hfl Hv Hpa Hpar. unfold map_virtual_address_to_physical_address.
  change 4095 with (2 ^ 12 - 1). rewrite !land_low_mask by lia. change (2 ^ 12) with 4096.
  rewrite Hv, Hpa. cbn [negb Z.eqb].
  destruct (tables_ok base k s r v flags Hf Hk Hwf Hpf Hfl)
    as (pdpt & pdt & pt & k' & s1 & E & Hf1 & Hk1 & Hwf1 & Hn1 & G & R).
  apply bind_inv in E as (x1 & u1 & E1 & E). apply bind_inv in E as (x2 & u2 & E2 & E).
  apply bind_inv in E as (x3 & u3 & E3 & E). injection E as -> -> -> ->.
  mstep E1. mstep E2. mstep E3. cbn [when Z.eqb]. rewrite pt_index_code.
  destruct (tw_table _ _ Hwf1 _ _ (valid_path_of v) Hn1) as [Hptf Hptt].
  destruct (tget_some _ _ (pt_index v) Hptt (pt_index_range v)) as (e & t & He & Ht & Hl & Hte).
  pose proof (pt_index_range v) as Hir.
  rewrite bind_assoc. mstep (entry_get_ok _ _ _ _ He). rewrite bind_assoc.
  set (e1 := Z.lor (Z.land e (not64 PTE_PHYS_ADDR)) pa).
  mstep (entry_set_ok pt (pt_index v) e1 t s1 Ht ltac:(lia)).
  set (t2 := <[Z.to_nat (pt_index v) := e1]> t).
  set (s2 := upd_heap <[kv pt := OTable t2]> s1).
  assert (Ht2 : k_heap s2 !! kv pt = Some (OTable t2)) by apply lookup_insert_eq.
  assert (He2 : tget (k_heap s2) pt (pt_index v) = Some e1).
  { rewrite (tget_table _ _ _ _ Ht2). apply list_lookup_insert_eq. lia. }
  rewrite bind_assoc. mstep (entry_get_ok _ _ _ _ He2).
  mstep (entry_set_ok pt (pt_index v) (Z.lor e1 flags) t2 s2 Ht2
    ltac:(unfold t2; rewrite length_insert; lia)).
  set (s3 := upd_heap _ s2).
  assert (Hh3 : k_heap s3 = <[kv pt := OTable (<[Z.to_nat (pt_index v) := Z.lor e1 flags]> t)]> (k_heap s1)).
  { unfold s3, s2, t2. cbn. by rewrite insert_insert_eq, list_insert_insert_eq. }
  assert (Hf3 : frontier base k' s3).
  { unfold s3. eapply frontier_insert; [|exact Ht2]. by eapply frontier_insert. }
  eexists k', _. split; [reflexivity|]. cbn [k_heap set_k_cpu upd_cpu]. rewrite Hh3.
  split; [by destruct Hf3; constructor|].
  split; [lia|]. split; [apply (gr_frames _ _ _ G)|]. split; [apply (leaf_wf _ _ (path v) pt _ _ t); auto with kernel|].
  split; [|split; [|split; [done|split; [|split; [|split]]]]].
  - intros w. rewrite (leaf_translate _ _ (path v)) by auto with kernel.
    unfold e1. change PTE_PHYS_ADDR with ADDR. rewrite entry_addr by lia.
    rewrite (proj2 (Z.eqb_neq pa 0)) by lia.
    destruct (decide (page_number w = page_number v)) as [E|Hne].
    + rewrite decide_True; [done|]. by apply page_number_path.
    + rewrite decide_False; [apply (gr_translate _ _ _ G)|].
      intros [? ?]. by apply Hne, path_inj.
  - eapply keeps_trans; [apply (gr_keeps _ _ _ G)|]. by eapply keeps_insert.
  - destruct (gr_shape _ _ _ G) as (m & h & c & Es). change (k_fs s1 = k_fs s). by rewrite Es.
  - destruct (gr_shape _ _ _ G) as (m & h & c & Es). change (k_proc s1 = k_proc s). by rewrite Es.
  - apply (tree_local_trans _ _ (k_heap s1)); [apply (gr_local _ _ _ G)| |apply (gr_dom _ _ _ G)]. constructor.
    + intros x o Hx Ho. rewrite lookup_insert_ne; [done|]. apply not_eq_sym. by apply (Ho (path v) pt); [apply valid_path_of|].
    + intros q y Hq. rewrite (leaf_node _ _ (path v)) by auto with kernel. by left.
  - exists (Z.land (hw_walk (k_heap s1) r (path v)).2 (Z.lor e1 flags)). split; [|split].
    + intros w. rewrite (leaf_lookup _ _ (path v)) by (auto using present_set with kernel).
      unfold e1. change PTE_PHYS_ADDR with ADDR. rewrite entry_addr by lia.
      destruct (decide (page_number w = page_number v)) as [E|Hne].
      * rewrite decide_True; [done|]. by apply page_number_path.
      * rewrite decide_False; [apply (gr_lookup _ _ _ G)|]. intros [? ?]. by apply Hne, path_inj.
    + rewrite <- Z.land_assoc, entry_grants. apply R.
    + apply rights_bound; [done|apply hw_walk_mask|]. rewrite <- (gr_word _ _ _ G). unfold leaf_word, leaf_entry.
      rewrite Hn1. cbn [mbind option_bind]. by rewrite He.
Qed.

Lemma map_page_correct base k s r v pa flags :
  frontier base k s → k + 3 ≤ n_frames s → tree_wf (k_heap s) r →
  present flags = true → 0 ≤ flags < 4096 →
  v mod 4096 = 0 → pa mod 4096 = 0 → 0 < pa < 2 ^ 52 →
  ∃ k' s', map_virtual_address_to_physical_address v pa flags r 0 s = Ok (tt, s')
    ∧ frontier base k' s' ∧ k ≤ k' ≤ k + 3 ∧ n_frames s' = n_frames s
    ∧ tree_wf (k_heap s') r
    ∧ (∀ w, translate (k_heap s') r w
            = if decide (page_number w = page_number v) then Some pa else translate (k_heap s) r w)
    ∧ keeps_objects (k_heap s) (k_heap s') ∧ cr3 (k_cpu s') = r ∧ k_fs s' = k_fs s.
Proof.
  intros Hf Hk Hwf Hpf Hfl Hv Hpa Hr.
  destruct (map_page_full base k s r v pa flags Hf Hk Hwf Hpf Hfl Hv Hpa Hr) as (k' & s' & H). exists k', s'. tauto.
Qed.

(** C2: mapping a page.  On a well-formed tree with at least three frames
    left, an aligned address and a present flag word,
    [map_virtual_address_to_physical_address] returns.  Afterwards the
    processor finds every address of the page at the physical address given,
    with the rights asked for as far as the tables on the way grant them and
    with no other right that the old entry did not have; every address of
    another page is found where and as it was, and the kernel's own walk agrees.
    The tree is well-formed, at most three frames were taken, no structure
    other than a table was touched and [cr3] is loaded. *)
Theorem map_page_ok base k s r v pa flags :
  frontier base k s → k + 3 ≤ n_frames s → tree_wf (k_heap s) r →
  present flags = true → 0 ≤ flags < 4096 →
  v mod 4096 = 0 → pa mod 4096 = 0 → 0 < pa < 2 ^ 52 →
  ∃ k' s', map_virtual_address_to_physical_address v pa flags r 0 s = Ok (tt, s')
    ∧ frontier base k' s' ∧ k ≤ k' ≤ k + 3 ∧ n_frames s' = n_frames s
    ∧ tree_wf (k_heap s') r
    ∧ (∃ rt, (∀ w, mmu_lookup (k_heap s') r w
                   = if decide (page_number w = page_number v) then Some (pa + w mod 4096, rt)
                     else mmu_lookup (k_heap s) r w)
         ∧ Z.land rt flags = Z.land (table_rights (k_heap s) r v) flags
         ∧ Z.ldiff rt (Z.lor flags (leaf_word (k_heap s) r v)) = 0)
    ∧ (∀ w, translate (k_heap s') r w
            = if decide (page_number w = page_number v) then Some pa else translate (k_heap s) r w)
    ∧ keeps_objects (k_heap s) (k_heap s') ∧ cr3 (k_cpu s') = r.
Proof.
  intros Hf Hk Hwf Hpf Hfl Hv Hpa Hr.
  destruct (map_page_full base k s r v pa flags Hf Hk Hwf Hpf Hfl Hv Hpa Hr) as (k' & s' & H). exists k', s'.
  unfold page_granted in H. tauto.
Qed.

(** An address space with nothing mapped. *)
Lemma empty_node h r p :
  h !! kv r = Some (OTable zero_table) → valid_path p → p ≠ [] → node h r p = None.
Proof.
  intros H. induction p as [|i p IH] using rev_ind; intros Hv Hne; [done|].
  apply valid_prefix in Hv as (Hv & _ & Hi). rewrite node_snoc.
  destruct p as [|j p].
  - cbn. unfold child. rewrite (tget_table _ _ _ _ H). unfold zero_table.
    by rewrite lookup_replicate_2 by lia.
  - by rewrite IH.
Qed.

Lemma empty_tree_wf h r : h !! kv r = Some (OTable zero_table) → is_frame r → tree_wf h r.
Proof.
  intros H Hr.
  assert (Hnil : ∀ p a, valid_path p → node h r p = Some a → p = [] ∧ a = r).
  { intros p a Hp Hn. destruct (decide (p = [])) as [->|Hne]; [by injection Hn as ->|].
    by rewrite empty_node in Hn. }
  constructor.
  - intros p a Hp [-> ->]%Hnil; [|done]. split; [done|]. exists zero_table.
    split; [done|]. apply length_replicate.
  - intros p q a Hp Hq [-> ->]%Hnil [-> _]%Hnil; done.
Qed.

(** Five frames, the first holds an empty top-level table. *)
Definition empty_space : kst := machine 1 5 {[kv 0x400000 := OTable zero_table]}.
Lemma empty_space_frontier : frontier 0x400000 1 empty_space.
Proof.
  apply (machine_frontier 1 5); [lia|]. intros j Hj. apply lookup_insert_None. split; [done|].
  intros E. apply kv_inj in E; unfold frame_at in *; lia.
Qed.
Lemma empty_space_wf : tree_wf (k_heap empty_space) 0x400000.
Proof. apply empty_tree_wf; [apply lookup_insert_eq|]. by split; [lia|]. Qed.

(** The same with one page mapped, readable by the user at 0x601000. *)
Lemma one_page :
  ∃ k' s', map_virtual_address_to_physical_address 0x601000 0x404000 5 0x400000 0 empty_space = Ok (tt, s')
    ∧ tree_wf (k_heap s') 0x400000 ∧ frontier 0x400000 k' s'
    ∧ page_granted 0x400000 0x601000 0x404000 5 (k_heap empty_space) (k_heap s').
Proof.
  destruct (map_page_full 0x400000 1 empty_space 0x400000 0x601000 0x404000 5) as (k' & s' & H);
    [exact empty_space_frontier|done|exact empty_space_wf|done|lia|done|done|lia|].
  exists k', s'. tauto.
Qed.

Lemma walk_translates_witness :
  ∃ s', map_virtual_address_to_physical_address 0x601000 0x404000 5 0x400000 0 empty_space = Ok (tt, s')
    ∧ walk_pml4 0x400000 0x601abc s' = Ok (0x404000, s').
Proof.
  destruct one_page as (k' & s' & E & Hwf & _ & rt & Hm & _). exists s'. split; [exact E|].
  destruct (walk_translates 0x400000 0x601abc s' Hwf) as (w & Ew & Hw & _).
  rewrite Ew. by rewrite (Hw _ _ (Hm 0x601abc)).
Defined.

Lemma rights_exact rt flags x : Z.land rt flags = x → Z.ldiff rt flags = 0 → rt = x.
Proof. intros H1 H2. by rewrite <- (Z.lor_ldiff_and rt flags), H2, H1, Z.lor_0_l. Qed.

Lemma map_page_ok_witness :
  ∃ s', map_virtual_address_to_physical_address 0x601000 0x404000 5 0x400000 0 empty_space = Ok (tt, s')
    ∧ mmu_lookup (k_heap s') 0x400000 0x601abc = Some (0x404abc, 5)
    ∧ mmu_lookup (k_heap s') 0x400000 0x602000 = None.
Proof.
  destruct (map_page_ok 0x400000 1 empty_space 0x400000 0x601000 0x404000 5)
    as (k' & s' & E & _ & _ & _ & _ & (rt & Hm & R1 & R2) & _).
  - exact empty_space_frontier.
  - done.
  - exact empty_space_wf.
  - done.
  - lia.
  - done.
  - done.
  - lia.
  - exists s'. split; [exact E|]. rewrite !Hm. by rewrite (rights_exact rt 5 5 R1 R2).
Defined.

(** ** Copying an address space *)

(** Every nonzero entry leads to a table, down [d] levels. *)
Fixpoint deep (h : gmap Z obj) (d : nat) (a : Z) : Prop :=
  ∃ t, h !! kv a = Some (OTable t) ∧ length t = 512%nat
    ∧ match d with
      | O => True
      | S d' => Forall (λ e, e ≠ 0 → deep h d' (Z.land e ADDR)) t
      end.

(** The number of frames the copy takes: one per table reached. *)
Fixpoint entries_cost (c : Z → Z) (t : list Z) : Z :=
  match t with
  | [] => 0
  | e :: t' => (if e =? 0 then 0 else c (Z.land e ADDR)) + entries_cost c t'
  end.
Fixpoint cost (h : gmap Z obj) (d : nat) (a : Z) : Z :=
  1 + match d with
      | O => 0
      | S d' => match h !! kv a with
                | Some (OTable t) => entries_cost (cost h d') t
                | _ => 0
                end
      end.

Lemma entries_cost_nonneg c t : (∀ a, 0 ≤ c a) → 0 ≤ entries_cost c t.
Proof. intros Hc. induction t as [|e t IH]; cbn; [lia|]. pose proof (Hc (Z.land e ADDR)). destruct (e =? 0); lia. Qed.
Lemma cost_pos h d a : 1 ≤ cost h d a.
Proof.
  revert a. induction d as [|d IH]; intros a; cbn -[Z.add]; [lia|].
  destruct (h !! kv a) as [[]|]; try lia.
  pose proof (entries_cost_nonneg (cost h d) t ltac:(intros x; specialize (IH x); lia)). lia.
Qed.
Lemma entries_cost_ext (c c' : Z → Z) t :
  Forall (λ e, e ≠ 0 → c (Z.land e ADDR) = c' (Z.land e ADDR)) t → entries_cost c t = entries_cost c' t.
Proof.
  induction 1 as [|e t He Ht IH]; cbn; [done|]. rewrite IH. f_equal.
  destruct (Z.eqb_spec e 0); [done|]. by apply He.
Qed.
Lemma deep_mono h h' d a : h ⊆ h' → deep h d a → deep h' d a ∧ cost h' d a = cost h d a.
Proof.
  intros Hs. revert a. induction d as [|d IH]; intros a (t & Ht & Hl & Hd).
  { split; [|done]. exists t. split_and!; [by eapply lookup_weaken|done|done]. }
  assert (Ht' : h' !! kv a = Some (OTable t)) by (by eapply lookup_weaken).
  split.
  - exists t. split_and!; [done..|]. eapply Forall_impl; [exact Hd|]. cbn. intros e He Hne. apply IH, He, Hne.
  - cbn -[Z.add]. rewrite Ht, Ht'. f_equal. apply entries_cost_ext.
    eapply Forall_impl; [exact Hd|]. cbn. intros e He Hne. apply IH, He, Hne.
Qed.

Section copy.
Context (base : Z).

(** What a copy of the table at [a] promises, from any later store. *)
Definition copy_spec (m : Z → M kst Z) (d : nat) : Prop :=
  ∀ a k s, frontier base k s → deep (k_heap s) d a → k + cost (k_heap s) d a ≤ n_frames s →
  ∃ r s', m a s = Ok (r, s') ∧ frontier base (k + cost (k_heap s) d a) s'
    ∧ k_heap s ⊆ k_heap s' ∧ n_frames s' = n_frames s ∧ same_but_mem s s'.

Definition sub_cost (h : gmap Z obj) (deeper : option nat) (t : list Z) : Z :=
  match deeper with Some d => entries_cost (cost h d) t | None => 0 end.

Lemma sub_cost_cons h dp e t :
  sub_cost h dp (e :: t)
  = match dp with Some d => if e =? 0 then 0 else cost h d (Z.land e ADDR) | None => 0 end + sub_cost h dp t.
Proof. by destruct dp. Qed.
Lemma sub_cost_nonneg h dp t : 0 ≤ sub_cost h dp t.
Proof. destruct dp; cbn; [|lia]. apply entries_cost_nonneg. intros x. pose proof (cost_pos h n x). lia. Qed.

Lemma copy_entries_ok (deeper : option (Z → M kst Z)) (dp : option nat) h0 src f t :
  match deeper, dp with Some m, Some d => copy_spec m d | None, None => True | _, _ => False end →
  h0 !! kv src = Some (OTable t) → h0 !! kv f = None → length t = 512%nat →
  (∀ d, dp = Some d → Forall (λ e, e ≠ 0 → deep h0 d (Z.land e ADDR)) t) →
  ∀ n i k s, (i + n = 512)%nat → frontier base k s → h0 ⊆ k_heap s →
    k_heap s !! kv f = Some (OTable (take i t ++ replicate n 0)) →
    k + sub_cost h0 dp (drop i t) ≤ n_frames s →
  ∃ s', copy_entries deeper n (Z.of_nat i) (kv src) (kv f) s = Ok (tt, s')
    ∧ frontier base (k + sub_cost h0 dp (drop i t)) s' ∧ h0 ⊆ k_heap s'
    ∧ k_heap s' !! kv f = Some (OTable t) ∧ n_frames s' = n_frames s ∧ same_but_mem s s'.
Proof.
  intros Hdeep Hsrc Hf Hlen Hd. induction n as [|n IH]; intros i k s Hin Hfr Hsub Hdst Hk.
  { exists s. cbn [copy_entries]. assert (i = 512%nat) as -> by lia.
    rewrite drop_ge, take_ge, app_nil_r in * by lia.
    replace (k + sub_cost h0 dp []) with k by (destruct dp; cbn; lia).
    split_and!; auto with kernel. }
  destruct (lookup_lt_is_Some_2 t i) as [e He]; [lia|].
  rewrite (drop_S _ _ _ He), sub_cost_cons in *. cbn [copy_entries].
  assert (Hs : k_heap s !! kv src = Some (OTable t)) by exact (lookup_weaken h0 _ _ _ Hsrc Hsub).
  assert (Hget : ∀ u, k_heap u !! kv src = Some (OTable t) → tget (k_heap u) src (Z.of_nat i) = Some e).
  { intros u Hu. rewrite (tget_table _ _ _ _ Hu). by rewrite Nat2Z.id. }
  mstep (entry_get_ok _ _ _ _ (Hget _ Hs)).
  mstep (entry_set_ok f (Z.of_nat i) e _ s Hdst
    ltac:(rewrite length_app, length_take, length_replicate; lia)).
  rewrite Nat2Z.id.
  assert (Hins : <[i := e]> (take i t ++ replicate (S n) 0) = take (S i) t ++ replicate n 0).
  { rewrite (take_S_r _ _ _ He). rewrite insert_app_r_alt by (rewrite length_take; lia).
    rewrite length_take, Nat.min_l, Nat.sub_diag by lia. cbn. by rewrite <- app_assoc. }
  rewrite Hins. set (s1 := upd_heap _ s).
  assert (Hfr1 : frontier base k s1) by (by eapply frontier_insert).
  assert (Hsub1 : h0 ⊆ k_heap s1).
  { apply insert_subseteq_r; [done|]. done. }
  assert (Hdst1 : k_heap s1 !! kv f = Some (OTable (take (S i) t ++ replicate n 0))) by apply lookup_insert_eq.
  assert (Hs1 : k_heap s1 !! kv src = Some (OTable t)) by exact (lookup_weaken h0 _ _ _ Hsrc Hsub1).
  assert (Hstep : ∃ s2,
    match deeper with
    | Some rec => e ← entry_get (kv src) (Z.of_nat i);
        when (negb (e =? 0)) (e ← entry_get (kv src) (Z.of_nat i);
          rec (get_physical_address_of_pdpt_from_pml e);; mret tt)
    | None => mret tt end s1 = Ok (tt, s2)
    ∧ frontier base (k + match dp with Some d => if e =? 0 then 0 else cost h0 d (Z.land e ADDR) | None => 0 end) s2
    ∧ k_heap s1 ⊆ k_heap s2 ∧ n_frames s2 = n_frames s ∧ same_but_mem s s2).
  { destruct deeper as [rec|], dp as [d|]; try done.
    2:{ exists s1. rewrite Z.add_0_r. split_and!; try done. exact (sbm_heap s _). }
    mstep (entry_get_ok _ _ _ _ (Hget _ Hs1)). destruct (Z.eqb_spec e 0) as [_|Hne]; cbn [negb when].
    { exists s1. rewrite Z.add_0_r. split_and!; try done. exact (sbm_heap s _). }
    mstep (entry_get_ok _ _ _ _ (Hget _ Hs1)).
    pose proof (Forall_lookup_1 _ _ _ _ (Hd d eq_refl) He Hne) as Hde.
    destruct (deep_mono _ _ _ _ Hsub1 Hde) as [Hde1 Hc1].
    destruct (Hdeep (Z.land e ADDR) k s1 Hfr1 Hde1) as (r & s2 & E & Hf2 & Hh2 & Hn2 & Hs2).
    { rewrite Hc1. change (n_frames s1) with (n_frames s).
      pose proof (sub_cost_nonneg h0 (Some d) (drop (S i) t)). lia. }
    change (get_physical_address_of_pdpt_from_pml e) with (Z.land e ADDR).
    exists s2. mstep E. rewrite Hc1 in Hf2. by split_and!. }
  destruct Hstep as (s2 & E2 & Hf2 & Hh2 & Hn2 & Hs2). mstep E2.
  edestruct (IH (S i)) as (s3 & E3 & Hf3 & Hh3 & Hd3 & Hn3 & Hs3).
  - lia.
  - exact Hf2.
  - by transitivity (k_heap s1).
  - exact (lookup_weaken _ _ _ _ Hdst1 Hh2).
  - rewrite Hn2. lia.
  - exists s3. replace (Z.of_nat i + 1) with (Z.of_nat (S i)) by lia.
    rewrite Z.add_assoc. split_and!; try done; [congruence|]. by eapply sbm_trans.
Qed.

Lemma copy_table_ok deeper dp :
  match deeper, dp with Some m, Some d => copy_spec m d | None, None => True | _, _ => False end →
  ∀ a k s, frontier base k s →
    deep (k_heap s) (match dp with Some d => S d | None => O end) a →
    k + cost (k_heap s) (match dp with Some d => S d | None => O end) a ≤ n_frames s →
  ∃ s', copy_table deeper a s = Ok (kv (frame_at base k), s')
    ∧ frontier base (k + cost (k_heap s) (match dp with Some d => S d | None => O end) a) s'
    ∧ k_heap s ⊆ k_heap s' ∧ k_heap s' !! kv (frame_at base k) = k_heap s !! kv a
    ∧ n_frames s' = n_frames s ∧ same_but_mem s s'.
Proof.
  intros Hdeep a k s Hf Hd Hk. unfold copy_table.
  assert (∃ t, k_heap s !! kv a = Some (OTable t) ∧ length t = 512%nat
    ∧ (∀ d, dp = Some d → Forall (λ e, e ≠ 0 → deep (k_heap s) d (Z.land e ADDR)) t)
    ∧ cost (k_heap s) (match dp with Some d => S d | None => O end) a = 1 + sub_cost (k_heap s) dp t)
    as (t & Ht & Hl & Hall & Hc).
  { destruct dp as [d|]; destruct Hd as (t & Ht & Hl & Hd); exists t; split_and!; try done.
    - intros d' [= ->]. done.
    - cbn -[Z.add]. by rewrite Ht. }
  rewrite Hc in *. pose proof (sub_cost_nonneg (k_heap s) dp t).
  destruct (alloc_zeroed base k s (OTable zero_table) Hf ltac:(lia))
    as (s1 & E1 & _ & Hf1 & Hh1 & Hn1 & Hs1 & Hfresh).
  mstep E1. unfold store. mnorm. set (s2 := upd_heap _ s1).
  assert (Hh2 : k_heap s2 = <[kv (frame_at base k) := OTable zero_table]> (k_heap s))
    by (unfold s2; cbn; by rewrite Hh1).
  edestruct (copy_entries_ok deeper dp (k_heap s) a (frame_at base k) t Hdeep Ht Hfresh Hl Hall 512 0)
    as (s3 & E3 & Hf3 & Hh3 & Hd3 & Hn3 & Hs3); [done|exact Hf1|..].
  - fold s2. rewrite Hh2. by apply insert_subseteq.
  - fold s2. rewrite Hh2. apply lookup_insert_eq.
  - fold s2. change (n_frames s2) with (n_frames s1). rewrite drop_0. lia.
  - exists s3. change (Z.of_nat 0) with 0 in E3. fold s2 in E3. mstep E3.
    rewrite drop_0, <- Z.add_assoc in Hf3.
    split_and!; try done; [congruence|transitivity (n_frames s1); done|].
    eapply sbm_trans; [by apply sbm_phys|]. eapply sbm_trans; [apply sbm_heap|exact Hs3].
Qed.

Lemma copy_level1_ok : copy_spec copy_level1 0.
Proof.
  intros a k s Hf Hd Hk. destruct (copy_table_ok None None I a k s Hf Hd Hk) as (s' & E & Hf' & Hh & _ & H).
  unfold copy_level1. eexists _, s'. mstep E. by split_and!; try apply H.
Qed.
Lemma copy_level2_ok : copy_spec copy_level2 1.
Proof.
  intros a k s Hf Hd Hk.
  destruct (copy_table_ok (Some copy_level1) (Some O) copy_level1_ok a k s Hf Hd Hk) as (s' & E & Hf' & Hh & _ & H).
  unfold copy_level2. eexists _, s'. mstep E. by split_and!; try apply H.
Qed.
Lemma copy_level3_ok : copy_spec copy_level3 2.
Proof.
  intros a k s Hf Hd Hk.
  destruct (copy_table_ok (Some copy_level2) (Some 1%nat) copy_level2_ok a k s Hf Hd Hk) as (s' & E & Hf' & Hh & _ & H).
  unfold copy_level3. eexists _, s'. mstep E. by split_and!; try apply H.
Qed.
End copy.

(** Nodes and translations survive in a larger store, and two roots with the
    same entries give the same address space. *)
Lemma tget_weaken h h' a i e : h ⊆ h' → tget h a i = Some e → tget h' a i = Some e.
Proof.
  intros Hs. unfold tget. destruct (h !! kv a) as [o|] eqn:E; [|done].
  by rewrite (lookup_weaken _ _ _ _ E Hs).
Qed.
Lemma tget_deep h h' d a i : h ⊆ h' → deep h d a → tget h' a i = tget h a i.
Proof.
  intros Hs Hd. destruct d; destruct Hd as (t & Ht & _);
  by rewrite (tget_table _ _ _ _ Ht), (tget_table h' _ _ t) by (by eapply lookup_weaken).
Qed.
Lemma deep_child h d a i x : deep h (S d) a → 0 ≤ i → child h a i = Some x → deep h d x.
Proof.
  intros (t & Ht & Hl & Hd) Hi. unfold child. rewrite (tget_table _ _ _ _ Ht).
  destruct (t !! Z.to_nat i) as [e|] eqn:He; cbn; [|done].
  destruct (present e) eqn:Hp; [|done]. intros [= <-].
  refine (Forall_lookup_1 _ _ _ _ Hd He _). by intros ->.
Qed.

Section same_root.
Context (h h' : gmap Z obj) (r c : Z).
Hypothesis Hs : h ⊆ h'.
Hypothesis Hd : deep h 3 r.
Hypothesis Hc : h' !! kv c = h !! kv r.

Lemma same_root_tget i : tget h' c i = tget h r i.
Proof. unfold tget. by rewrite Hc. Qed.

Lemma same_root_translate v : translate h' c v = translate h r v ∧ translate h' r v = translate h r v.
Proof.
  assert (Hr : ∀ i, child h' r i = child h r i) by (intros i; unfold child; by rewrite (tget_deep h h' 3)).
  assert (Hcr : ∀ i, child h' c i = child h r i) by (intros i; unfold child; by rewrite same_root_tget).
  unfold translate, node. rewrite path_code. cbn [foldl mbind option_bind]. rewrite Hr, Hcr.
  destruct (child h r (get_index_of_pml4 v)) as [a1|] eqn:E1; [|done]. cbn [mbind option_bind].
  pose proof (deep_child _ _ _ _ _ Hd (proj1 (index_range v 39)) E1) as D1.
  assert (child h' a1 (get_index_of_pdpt v) = child h a1 (get_index_of_pdpt v)) as ->
    by (unfold child; by rewrite (tget_deep h h' 2)).
  destruct (child h a1 (get_index_of_pdpt v)) as [a2|] eqn:E2; [|done]. cbn [mbind option_bind].
  pose proof (deep_child _ _ _ _ _ D1 (proj1 (index_range v 30)) E2) as D2.
  assert (child h' a2 (get_index_of_pdt v) = child h a2 (get_index_of_pdt v)) as ->
    by (unfold child; by rewrite (tget_deep h h' 1)).
  destruct (child h a2 (get_index_of_pdt v)) as [a3|] eqn:E3; [|done]. cbn [mbind option_bind].
  pose proof (deep_child _ _ _ _ _ D2 (proj1 (index_range v 21)) E3) as D3.
  unfold pte. by rewrite (tget_deep h h' 0).
Qed.

(** Below a table whose nonzero entries lead to tables, the walk of the
    processor is the same in the larger store. *)
Lemma deep_walk d a p rt : deep h d a → Forall (λ j, 0 ≤ j) p → (length p ≤ S d)%nat →
  foldl (hw_step h') (Some a, rt) p = foldl (hw_step h) (Some a, rt) p.
Proof.
  revert d a rt. induction p as [|i p IH]; intros d a rt Hda Hp Hl; [done|].
  apply Forall_cons in Hp as [Hi Hp]. cbn [foldl]. unfold hw_step at 2 4. cbn [fst snd].
  rewrite (tget_deep h h' d) by done.
  assert (Hnone : ∀ g rt, foldl (hw_step g) (None, rt) p = (None, rt)) by (intros g; clear; induction p; done).
  destruct (tget h a i) as [e|] eqn:E; [|by rewrite !Hnone].
  destruct (Z.testbit e 0) eqn:B; [|by rewrite !Hnone].
  destruct d as [|d]; [destruct p; [done|simpl in Hl; lia]|].
  apply (IH d); [|done|simpl in Hl; lia]. apply (deep_child h d a i); [done..|].
  unfold child. rewrite E. cbn [mbind option_bind]. by rewrite present_bit, B.
Qed.
Lemma same_root_lookup v : mmu_lookup h' c v = mmu_lookup h r v ∧ mmu_lookup h' r v = mmu_lookup h r v.
Proof.
  assert (Hp : Forall (λ j, 0 ≤ j) (path v ++ [pt_index v])).
  { apply Forall_app. split; [|constructor; [apply pt_index_range|constructor]].
    eapply Forall_impl; [apply valid_path_of|]. cbn. lia. }
  assert (H' : ∀ rt, foldl (hw_step h') (Some r, rt) (path v ++ [pt_index v]) = foldl (hw_step h) (Some r, rt) (path v ++ [pt_index v]))
    by (intros rt; apply (deep_walk 3); done).
  unfold mmu_lookup, hw_walk. rewrite H'. split; [|done]. rewrite <- H'.
  unfold path. cbn [app foldl]. unfold hw_step at 4 8 12 16. cbn [fst snd].
  by rewrite same_root_tget, (tget_deep h h' 3).
Qed.
End same_root.

Lemma get_kpa_kv f : is_frame f → get_kpa (kv f) = f.
Proof.
  intros [Hf _]. unfold get_kpa. apply Z.bits_inj'. intros i Hi.
  rewrite Z.land_spec. unfold kv. rewrite Z.lor_spec.
  destruct (Z_lt_le_dec i 64).
  - rewrite not64_bit by lia. destruct (Z_lt_le_dec i 31).
    + assert (Z.testbit KERNBASE i = false) as ->.
      { change KERNBASE with (0x1FFFFFFFF * 2 ^ 31). by apply Z.mul_pow2_bits_low. }
      by rewrite orb_false_r.
    + rewrite (testbit_high f 31 i) by lia. destruct (Z.testbit KERNBASE i); done.
  - rewrite (testbit_high f 31 i) by lia.
    rewrite (testbit_high (not64 KERNBASE) 64 i) by (unfold not64; pose proof (u64_range (Z.lnot KERNBASE)); lia). done.
Qed.

(** C30: the address space made for a child by fork.  When every nonzero entry
    of the parent's tables leads to a table and there are as many frames as
    tables, [copy_page_tables(r, 4)] returns a new top-level table under which
    the processor finds every address where and with the rights it does under
    the parent's, and the kernel's walk likewise; the parent's view and every
    existing object are unchanged. *)
Theorem copy_page_tables_same_space base k s r :
  frontier base k s → deep (k_heap s) 3 r → k + cost (k_heap s) 3 r ≤ n_frames s →
  ∃ c s', copy_page_tables r 4 s = Ok (c, s')
    ∧ c = frame_at base k ∧ k_heap s !! kv c = None
    ∧ frontier base (k + cost (k_heap s) 3 r) s' ∧ k_heap s ⊆ k_heap s'
    ∧ ∀ v, translate (k_heap s') c v = translate (k_heap s) r v
         ∧ translate (k_heap s') r v = translate (k_heap s) r v
         ∧ mmu_lookup (k_heap s') c v = mmu_lookup (k_heap s) r v
         ∧ mmu_lookup (k_heap s') r v = mmu_lookup (k_heap s) r v.
Proof.
  intros Hf Hd Hk. pose proof (cost_pos (k_heap s) 3 r). pose proof (fr_range _ _ _ Hf).
  destruct (copy_table_ok base (Some copy_level3) (Some 2%nat) (copy_level3_ok base) r k s Hf Hd Hk)
    as (s' & E & Hf' & Hh & Hc & _ & _).
  unfold copy_page_tables. cbn [Z.eqb Pos.eqb]. exists (frame_at base k), s'. mstep E.
  split; [rewrite get_kpa_kv; [done|apply (is_frame_at base k s); [done|lia]]|].
  split_and!; try done.
  - apply (fr_clean _ _ _ Hf). lia.
  - intros v. destruct (same_root_translate (k_heap s) (k_heap s') r (frame_at base k) Hh Hd Hc v).
    by destruct (same_root_lookup (k_heap s) (k_heap s') r (frame_at base k) Hh Hd Hc v).
Qed.

Lemma empty_deep h d r : h !! kv r = Some (OTable zero_table) → deep h d r.
Proof.
  intros H. destruct d; exists zero_table; (split_and!; [done|apply length_replicate|]); [done|].
  apply Forall_replicate. done.
Qed.

Lemma deep_insert h d a i x :
  h !! kv a = Some (OTable (<[i := x]> zero_table)) → deep h d (Z.land x ADDR) → deep h (S d) a.
Proof.
  intros H Hx. exists (<[i := x]> zero_table). split; [done|].
  split; [rewrite length_insert; apply length_replicate|]. apply Forall_insert; [|done]. by apply Forall_replicate.
Qed.
Lemma deep_last h a t : h !! kv a = Some (OTable t) → length t = 512%nat → deep h 0 a.
Proof. intros. by exists t. Qed.

(** Twelve frames, the first four the tables of a space with one writable user
    page at 0x1000, mapped to 0x409000. *)
Definition small_space : kst :=
  machine 4 12 (<[kv 0x400000 := OTable (<[0%nat := 0x401007]> zero_table)]>
    (<[kv 0x401000 := OTable (<[0%nat := 0x402007]> zero_table)]>
      (<[kv 0x402000 := OTable (<[0%nat := 0x403007]> zero_table)]>
        {[kv 0x403000 := OTable (<[1%nat := 0x409007]> zero_table)]}))).
Lemma small_space_frontier : frontier 0x400000 4 small_space.
Proof.
  apply (machine_frontier 4 12); [lia|]. intros j Hj.
  rewrite !lookup_insert_ne, lookup_singleton_ne; [done|..]; intros E; apply kv_inj in E; unfold frame_at in *; lia.
Qed.

Lemma copy_page_tables_same_space_witness :
  ∃ c s', copy_page_tables 0x400000 4 small_space = Ok (c, s')
    ∧ c = 0x404000 ∧ translate (k_heap s') c 0x1abc = Some 0x409000
    ∧ mmu_lookup (k_heap s') c 0x1abc = Some (0x409abc, 7) ∧ mmu_lookup (k_heap s') c 0x2abc = None.
Proof.
  destruct (copy_page_tables_same_space 0x400000 4 small_space 0x400000) as (c & s' & E & Hc & _ & _ & _ & Ht).
  - exact small_space_frontier.
  - apply (deep_insert _ _ _ 0 0x401007); [reflexivity|]. apply (deep_insert _ _ _ 0 0x402007); [reflexivity|].
    apply (deep_insert _ _ _ 0 0x403007); [reflexivity|]. apply (deep_last _ _ (<[1%nat := 0x409007]> zero_table)); reflexivity.
  - vm_compute. discriminate.
  - exists c, s'. split; [exact E|]. split; [exact Hc|].
    destruct (Ht 0x1abc) as (-> & _ & -> & _). destruct (Ht 0x2abc) as (_ & _ & -> & _). vm_compute. repeat split.
Defined.

(** ** The kernel mapping *)

Lemma boot_table_ok base k s :
  frontier base k s → k < n_frames s →
  ∃ s1, boot_table s = Ok (Some (frame_at base k), upd_heap <[kv (frame_at base k) := OTable zero_table]> s1)
    ∧ frontier base (k + 1) (upd_heap <[kv (frame_at base k) := OTable zero_table]> s1)
    ∧ k_heap s1 = k_heap s ∧ n_frames s1 = n_frames s ∧ k_is_paging s1 = k_is_paging s.
Proof.
  intros Hf Hk. destruct (alloc_zeroed base k s (OTable zero_table) Hf Hk)
    as (s1 & E1 & E2 & Hf1 & Hh & Hn & (m & c & Hs) & _).
  pose proof (fr_range _ _ _ Hf). pose proof (frame_range _ _ _ k Hf ltac:(lia)).
  exists s1. unfold boot_table. mstep E1. rewrite (proj2 (Z.eqb_neq _ _)) by lia. mstep E2.
  split_and!; try done. by rewrite Hs.
Qed.

Definition kpte (phys : Z) : Z := Z.lor 3 phys.

Lemma kpte_eq phys :
  Z.lor (Z.land (Z.lor (Z.lor 0 PTE_PRESENT) PTE_READWRITE) (not64 PTE_PHYS_ADDR)) phys = kpte phys.
Proof. done. Qed.
Lemma kpte_addr phys : 0 ≤ phys < 2 ^ 52 → phys mod 4096 = 0 → Z.land (kpte phys) ADDR = phys.
Proof.
  intros Hp Hm. rewrite <- (entry_addr 0 phys 3) at 2 by lia. f_equal. unfold kpte.
  rewrite Z.land_0_l, Z.lor_0_l. apply Z.lor_comm.
Qed.

Lemma pt_index_step V i : V mod 2 ^ 21 = 0 → 0 ≤ i < 512 → get_index_of_pt (V + 4096 * i) = i.
Proof.
  intros HV Hi. unfold get_index_of_pt. rewrite index_eq by lia. change (2 ^ 12) with 4096.
  rewrite (Z.mul_comm 4096), Z.div_add by lia.
  apply Z.mod_divide in HV as [q ->]; [|lia].
  replace (q * 2 ^ 21) with (q * 512 * 4096) by lia. rewrite Z.div_mul by lia.
  rewrite Z.add_comm, Z.mod_add by lia. by apply Z.mod_small.
Qed.

(** The loop fills entries [i..511] with consecutive frames. *)
Lemma fill_pt_ok a V P n i t s :
  (i + n = 512)%nat → V mod 2 ^ 21 = 0 → 0 ≤ V → V + 2 ^ 21 < 2 ^ 64 → 0 ≤ P → P + 2 ^ 21 < 2 ^ 64 →
  k_heap s !! kv a = Some (OTable t) → length t = 512%nat →
  ∃ t', fill_pt n (kv a) (V + 4096 * Z.of_nat i) (P + 4096 * Z.of_nat i) s
        = Ok (tt, upd_heap <[kv a := OTable t']> s)
    ∧ length t' = 512%nat
    ∧ ∀ j, (j < 512)%nat →
        t' !! j = if (j <? i)%nat then t !! j else Some (kpte (P + 4096 * Z.of_nat j)).
Proof.
  intros Hin HV HV0 HV1 HP0 HP1. revert i t s Hin.
  induction n as [|n IH]; intros i t s Hin Ht Hl; cbn [fill_pt].
  { exists t. split; [|split; [done|]].
    - unfold mret, M_ret. do 2 f_equal. unfold upd_heap. rewrite insert_id by done. by destruct s.
    - intros j Hj. by rewrite (proj2 (Nat.ltb_lt _ _)) by lia. }
  rewrite pt_index_step, kpte_eq by lia.
  mstep (entry_set_ok a (Z.of_nat i) (kpte (P + 4096 * Z.of_nat i)) t s Ht ltac:(lia)).
  rewrite !u64_small by lia.
  replace (V + 4096 * Z.of_nat i + 4096) with (V + 4096 * Z.of_nat (S i)) by lia.
  replace (P + 4096 * Z.of_nat i + 4096) with (P + 4096 * Z.of_nat (S i)) by lia.
  rewrite Nat2Z.id.
  destruct (IH (S i) (<[i := kpte (P + 4096 * Z.of_nat i)]> t)
              (upd_heap <[kv a := OTable (<[i := kpte (P + 4096 * Z.of_nat i)]> t)]> s))
    as (t' & E & Hl' & Ht'); [lia|apply lookup_insert_eq|by rewrite length_insert|].
  exists t'. split; [rewrite E, upd_heap_twice; do 2 f_equal; unfold upd_heap, compose; by rewrite insert_insert_eq|].
  split; [done|]. intros j Hj. rewrite Ht' by done.
  destruct (Nat.ltb_spec j (S i)), (Nat.ltb_spec j i); try lia; try done.
  - by rewrite list_lookup_insert_ne by lia.
  - assert (j = i) as -> by lia. rewrite list_lookup_insert_eq by lia. done.
Qed.

Definition klink (next : Z) : Z := Z.lor (Z.lor (Z.lor (Z.land 0 (not64 ADDR)) next) 1) 2.

Lemma klink_addr f : is_frame f → Z.land (klink f) ADDR = f ∧ present (klink f) = true.
Proof.
  intros Hf. split.
  - unfold klink. rewrite <- (Z.lor_assoc _ 1 2). apply entry_addr; [unfold is_frame in Hf; lia|apply Hf|done].
  - rewrite present_bit. unfold klink. rewrite !Z.lor_spec.
    change (Z.testbit 1 0) with true. by rewrite orb_true_r.
Qed.

Lemma klink_bit f : is_frame f → Z.testbit (klink f) 0 = true.
Proof. intros Hf. rewrite <- present_bit. by apply klink_addr. Qed.
Lemma klink_rights m f : is_frame f → 0 ≤ m < 8 → Z.land m (klink f) = Z.land m 3.
Proof.
  intros [_ Hf] Hm. apply Z.bits_inj'. intros i Hi. rewrite !Z.land_spec.
  destruct (Z_lt_le_dec i 3); [|by rewrite (testbit_high m 3 i) by lia]. f_equal. unfold klink.
  rewrite !Z.lor_spec, Z.land_0_l, Z.bits_0, (aligned_bit f i) by lia.
  by assert (i = 0 ∨ i = 1 ∨ i = 2) as [->|[->| ->]] by lia.
Qed.
Lemma kpte_bit p : Z.testbit (kpte p) 0 = true.
Proof. unfold kpte. by rewrite Z.lor_spec. Qed.
Lemma kpte_rights p : Z.land 3 (kpte p) = 3.
Proof. unfold kpte. rewrite Z.land_comm, Z.lor_comm. apply entry_grants. Qed.

Lemma link_table_ok a i next t s :
  k_heap s !! kv a = Some (OTable t) → length t = 512%nat → 0 ≤ i < 512 → t !! Z.to_nat i = Some 0 →
  link_table (kv a) i next s
  = Ok (tt, upd_heap <[kv a := OTable (<[Z.to_nat i := klink next]> t)]> s).
Proof.
  intros Ht Hl Hi Hz. unfold link_table.
  mstep (entry_get_ok a i 0 s ltac:(by rewrite (tget_table _ _ _ _ Ht))).
  set (e1 := Z.lor (Z.land 0 (not64 PDE_PT_ADDRESS)) next).
  mstep (entry_set_ok a i e1 t s Ht ltac:(lia)).
  set (t1 := <[Z.to_nat i := e1]> t). set (s1 := upd_heap _ s).
  assert (H1 : k_heap s1 !! kv a = Some (OTable t1)) by apply lookup_insert_eq.
  assert (G1 : tget (k_heap s1) a i = Some e1).
  { rewrite (tget_table _ _ _ _ H1). apply list_lookup_insert_eq. lia. }
  mstep (entry_get_ok _ _ _ _ G1).
  mstep (entry_set_ok a i (Z.lor e1 PDE_PRESENT) t1 s1 H1 ltac:(unfold t1; rewrite length_insert; lia)).
  set (t2 := <[Z.to_nat i := Z.lor e1 PDE_PRESENT]> t1). set (s2 := upd_heap _ s1).
  assert (H2 : k_heap s2 !! kv a = Some (OTable t2)) by apply lookup_insert_eq.
  assert (G2 : tget (k_heap s2) a i = Some (Z.lor e1 PDE_PRESENT)).
  { rewrite (tget_table _ _ _ _ H2). apply list_lookup_insert_eq. unfold t1. rewrite length_insert. lia. }
  mstep (entry_get_ok _ _ _ _ G2).
  rewrite (entry_set_ok a i _ t2 s2 H2) by (unfold t2, t1; rewrite !length_insert; lia).
  do 2 f_equal. unfold s2, s1. rewrite !upd_heap_twice. unfold upd_heap, compose.
  rewrite !insert_insert_eq. unfold t2, t1. by rewrite !list_insert_insert_eq.
Qed.

(** The tree built at boot: frames [f 0..2] are the page tables, [f 3] the
    directory, [f 4] the pointer table and [f 5] the top. *)
Section kernel_tree.
Context (h : gmap Z obj) (f : Z → Z) (g : Z → list Z).
Hypothesis Hf : ∀ j, 0 ≤ j < 6 → is_frame (f j).
Hypothesis Hinj : ∀ i j, 0 ≤ i < 6 → 0 ≤ j < 6 → f i = f j → i = j.
Hypothesis Hh : ∀ j, 0 ≤ j < 6 → h !! kv (f j) = Some (OTable (g j)).
Hypothesis Hlen : ∀ j, 0 ≤ j < 6 → length (g j) = 512%nat.
Hypothesis H5 : g 5 = <[511%nat := klink (f 4)]> zero_table.
Hypothesis H4 : g 4 = <[510%nat := klink (f 3)]> zero_table.
Hypothesis H3 : g 3 = <[2%nat := klink (f 2)]> (<[0%nat := klink (f 1)]> (<[1%nat := klink (f 0)]> zero_table)).
Hypothesis Hpt : ∀ x, 0 ≤ x < 3 → ∀ i, (i < 512)%nat →
  g x !! i = Some (kpte ((if x =? 0 then 0x200000 else if x =? 1 then 0 else 0x400000) + 4096 * Z.of_nat i)).

Lemma zero_at i : (i < 512)%nat → zero_table !! i = Some 0.
Proof. intros. unfold zero_table. by rewrite lookup_replicate_2. Qed.

Lemma one_child x i c j : 0 ≤ x < 6 → 0 ≤ c < 6 → (i < 512)%nat → 0 ≤ j < 512 →
  g x = <[i := klink (f c)]> zero_table →
  child h (f x) j = if j =? Z.of_nat i then Some (f c) else None.
Proof.
  intros Hx Hc Hi Hj Hg. unfold child. rewrite (tget_table _ _ _ _ (Hh x Hx)), Hg.
  destruct (Z.eqb_spec j (Z.of_nat i)) as [E|Hne].
  - assert (Z.to_nat j = i) as -> by lia.
    rewrite list_lookup_insert_eq by (unfold zero_table; by rewrite length_replicate). cbn.
    by destruct (klink_addr (f c) (Hf c Hc)) as [-> ->].
  - rewrite list_lookup_insert_ne by lia. by rewrite zero_at by lia.
Qed.

Lemma child5 j : 0 ≤ j < 512 → child h (f 5) j = if j =? 511 then Some (f 4) else None.
Proof.
  intros Hj. rewrite (one_child 5 511 4); try done; lia.
Qed.
Lemma child4 j : 0 ≤ j < 512 → child h (f 4) j = if j =? 510 then Some (f 3) else None.
Proof.
  intros Hj. rewrite (one_child 4 510 3); try done; lia.
Qed.
Lemma child3 j : 0 ≤ j < 512 →
  child h (f 3) j = if j =? 0 then Some (f 1) else if j =? 1 then Some (f 0)
                    else if j =? 2 then Some (f 2) else None.
Proof.
  intros Hj. unfold child. rewrite (tget_table _ _ _ _ (Hh 3 ltac:(lia))), H3.
  destruct (klink_addr (f 0) (Hf 0 ltac:(lia))), (klink_addr (f 1) (Hf 1 ltac:(lia))),
    (klink_addr (f 2) (Hf 2 ltac:(lia))).
  assert (Hz : length zero_table = 512%nat) by apply length_replicate.
  destruct (Z.eqb_spec j 0) as [->|]; [|destruct (Z.eqb_spec j 1) as [->|]; [|destruct (Z.eqb_spec j 2) as [->|]]];
  repeat (rewrite list_lookup_insert_ne by lia);
  repeat (rewrite list_lookup_insert_eq by (rewrite ?length_insert, Hz; lia)); cbn [mbind option_bind];
  try by rewrite zero_at by lia.
  all: match goal with |- (if present ?e then _ else _) = _ => destruct (present e); congruence end.
Qed.

Lemma walk_none (p : list Z) : foldl (λ o i, a ← o; child h a i) None p = None.
Proof. by induction p. Qed.

Lemma kernel_node p x : valid_path p → node h (f 5) p = Some x →
  ∃ j, x = f j ∧ 0 ≤ j < 6 ∧ p = (if j =? 5 then [] else if j =? 4 then [511] else if j =? 3 then [511; 510]
    else [511; 510; if j =? 0 then 1 else if j =? 1 then 0 else 2]).
Proof.
  intros [Hl Hp]. unfold node.
  destruct p as [|a p]; cbn [foldl mbind option_bind].
  { intros [= <-]. exists 5. done. }
  apply Forall_cons in Hp as [Ha Hp]. rewrite child5 by done.
  destruct (Z.eqb_spec a 511) as [->|]; [|cbn [mbind option_bind]; by rewrite walk_none].
  destruct p as [|b p]; cbn [foldl mbind option_bind].
  { intros [= <-]. exists 4. done. }
  apply Forall_cons in Hp as [Hb Hp]. rewrite child4 by done.
  destruct (Z.eqb_spec b 510) as [->|]; [|cbn [mbind option_bind]; by rewrite walk_none].
  destruct p as [|c p]; cbn [foldl mbind option_bind].
  { intros [= <-]. exists 3. done. }
  apply Forall_cons in Hp as [Hc Hp]. rewrite child3 by done.
  destruct p; [|simpl in Hl; lia]. cbn [foldl].
  destruct (Z.eqb_spec c 0) as [->|]; [intros [= <-]; by exists 1|].
  destruct (Z.eqb_spec c 1) as [->|]; [intros [= <-]; by exists 0|].
  destruct (Z.eqb_spec c 2) as [->|]; [intros [= <-]; by exists 2|done].
Qed.

Lemma kernel_tree_wf : tree_wf h (f 5).
Proof.
  constructor.
  - intros p a Hp (j & -> & Hj & _)%kernel_node; [|done]. split; [by apply Hf|].
    exists (g j). split; [by apply Hh|by apply Hlen].
  - intros p q a Hp Hq (i & -> & Hi & ->)%kernel_node (j & E & Hj & ->)%kernel_node; [|done..].
    apply Hinj in E; [by subst j|done..].
Qed.

Lemma kernel_pte x w : 0 ≤ x < 3 → tget h (f x) (pt_index w)
  = Some (kpte ((if x =? 0 then 0x200000 else if x =? 1 then 0 else 0x400000) + 4096 * pt_index w)).
Proof.
  intros Hx. rewrite (tget_table _ _ _ _ (Hh x ltac:(lia))). pose proof (pt_index_range w) as Hi.
  rewrite Hpt by lia. by rewrite Z2Nat.id by lia.
Qed.

Lemma kernel_indices w : 0 ≤ w < 2 ^ 31 →
  ((KERNBASE + w) / 2 ^ 39) mod 512 = 511 ∧ ((KERNBASE + w) / 2 ^ 30) mod 512 = 510 + w / 2 ^ 30
  ∧ ((KERNBASE + w) / 2 ^ 21) mod 512 = (w / 2 ^ 21) mod 512 ∧ pt_index (KERNBASE + w) = (w / 2 ^ 12) mod 512.
Proof. intros Hw. unfold pt_index, KERNBASE. split_and!; Z.div_mod_to_equations; lia. Qed.

(** The kernel half of the address space: 6 MiB of memory at KERNBASE. *)
Lemma kernel_leaf w : 0 ≤ w < 2 ^ 31 →
  leaf_entry h (f 5) (KERNBASE + w) = if w <? 0x600000 then Some (kpte (4096 * (w / 4096))) else None.
Proof.
  intros Hw. unfold leaf_entry, node, path. cbn [foldl mbind option_bind].
  pose proof (kernel_indices w Hw) as (I4 & I3 & I2 & I1).
  rewrite I4, I3, I2, child5 by lia. cbn [Z.eqb Pos.eqb mbind option_bind].
  assert (0 ≤ w / 2 ^ 30 ≤ 1) by (Z.div_mod_to_equations; lia).
  rewrite child4 by lia. destruct (Z.eqb_spec (510 + w / 2 ^ 30) 510) as [E|Hne].
  2:{ cbn. destruct (Z.ltb_spec w 0x600000); [|done]. exfalso. apply Hne. rewrite Z.div_small; lia. }
  assert (w < 2 ^ 30) by (Z.div_mod_to_equations; lia). cbn [mbind option_bind].
  assert (0 ≤ w / 2 ^ 21 < 512) by (Z.div_mod_to_equations; lia).
  rewrite (Z.mod_small (w / 2 ^ 21)) by done. rewrite child3 by done.
  destruct (Z.eqb_spec (w / 2 ^ 21) 0) as [E2|N0];
    [|destruct (Z.eqb_spec (w / 2 ^ 21) 1) as [E2|N1];
      [|destruct (Z.eqb_spec (w / 2 ^ 21) 2) as [E2|N2]]]; cbn [mbind option_bind].
  4:{ destruct (Z.ltb_spec w 0x600000); [|done].
      exfalso. clear E I1 I2 I3 I4. Z.div_mod_to_equations; lia. }
  all: rewrite kernel_pte by lia; cbn [Z.eqb Pos.eqb]; rewrite I1; clear E I1 I2 I3 I4;
    destruct (Z.ltb_spec w 0x600000); [|exfalso; Z.div_mod_to_equations; lia];
    do 2 f_equal; change (2 ^ 12) with 4096; Z.div_mod_to_equations; lia.
Qed.

Lemma kernel_entry3 c : 0 ≤ c < 3 → ∃ x, 0 ≤ x < 3 ∧ tget h (f 3) c = Some (klink (f x)).
Proof.
  intros Hc. rewrite (tget_table _ _ _ _ (Hh 3 ltac:(lia))), H3.
  assert (c = 0 ∨ c = 1 ∨ c = 2) as [->|[->| ->]] by lia; [exists 1|exists 0|exists 2]; (split; [lia|reflexivity]).
Qed.
Lemma kernel_hw_step x c i m : 0 ≤ x < 6 → 0 ≤ c < 6 → tget h (f x) i = Some (klink (f c)) → 0 ≤ m < 8 →
  hw_step h (Some (f x), m) i = (Some (f c), Z.land m 3).
Proof.
  intros Hx Hc E Hm. unfold hw_step. cbn [fst snd]. rewrite E, klink_bit, klink_rights by (done || by apply Hf).
  by rewrite (proj1 (klink_addr _ (Hf c Hc))).
Qed.
Lemma kernel_rights w : 0 ≤ w < 0x600000 → table_rights h (f 5) (KERNBASE + w) = 3.
Proof.
  intros Hw. pose proof (kernel_indices w ltac:(lia)) as (I4 & I3 & I2 & _).
  rewrite (Z.div_small w (2 ^ 30)) in I3 by lia.
  assert (0 ≤ w / 2 ^ 21 < 3) as Hc by (clear I4 I3 I2; Z.div_mod_to_equations; lia).
  rewrite (Z.mod_small (w / 2 ^ 21)) in I2 by lia. destruct (kernel_entry3 _ Hc) as (x & Hx & Ex).
  unfold table_rights, hw_walk, path. rewrite I4, I3, I2. cbn [foldl].
  assert (E5 : tget h (f 5) 511 = Some (klink (f 4))) by (by rewrite (tget_table _ _ _ _ (Hh 5 ltac:(lia))), H5).
  assert (E4 : tget h (f 4) 510 = Some (klink (f 3))) by (by rewrite (tget_table _ _ _ _ (Hh 4 ltac:(lia))), H4).
  rewrite (kernel_hw_step 5 4) by (done || lia). change (510 + 0) with 510. rewrite (kernel_hw_step 4 3) by done.
  by rewrite (kernel_hw_step 3 x) by (done || lia).
Qed.

Lemma kernel_translate w : 0 ≤ w < 2 ^ 31 →
  translate h (f 5) (KERNBASE + w)
  = if (4096 <=? w) && (w <? 0x600000) then Some (4096 * (w / 4096)) else None.
Proof.
  intros Hw. rewrite translate_leaf, kernel_leaf by done. destruct (Z.ltb_spec w 0x600000); [|by rewrite andb_false_r].
  cbn [mbind option_bind]. rewrite kpte_addr by (Z.div_mod_to_equations; lia).
  destruct (Z.leb_spec 4096 w), (Z.eqb_spec (4096 * (w / 4096)) 0); cbn [andb]; try done; exfalso; Z.div_mod_to_equations; lia.
Qed.

Lemma kernel_lookup w : 0 ≤ w < 2 ^ 31 →
  mmu_lookup h (f 5) (KERNBASE + w) = if w <? 0x600000 then Some (w, 3) else None.
Proof.
  intros Hw. rewrite mmu_lookup_leaf, kernel_leaf by done. destruct (Z.ltb_spec w 0x600000); [|done].
  cbn [mbind option_bind]. rewrite kpte_bit, kernel_rights, kpte_rights, kpte_addr by (lia || Z.div_mod_to_equations; lia).
  do 2 f_equal. unfold KERNBASE. Z.div_mod_to_equations; lia.
Qed.
End kernel_tree.

(** The tables at frames [k .. k + m - 1] are given by [g]. *)
Definition tabs (base k m : Z) (s : kst) (g : Z → list Z) : Prop :=
  ∀ j, 0 ≤ j < m → k_heap s !! kv (frame_at base (k + j)) = Some (OTable (g j)).
Definition upd_fun (g : Z → list Z) (j : Z) (t : list Z) : Z → list Z :=
  λ x, if x =? j then t else g x.

Section boot_run.
Context (base k : Z).

Lemma tabs_upd m s g j t k0 s0 :
  frontier base k0 s0 → 0 ≤ k → k + m ≤ n_frames s0 →
  tabs base k m s g → 0 ≤ j < m →
  tabs base k m (upd_heap <[kv (frame_at base (k + j)) := OTable t]> s) (upd_fun g j t).
Proof.
  intros Hf Hk Hm Ht Hj x Hx. cbn. unfold upd_fun. destruct (Z.eqb_spec x j) as [->|Hne].
  - apply lookup_insert_eq.
  - rewrite lookup_insert_ne; [by apply Ht|]. intros E.
    apply (frame_inj _ _ _ _ _ Hf) in E; lia.
Qed.

(** A zeroed table appended. *)
Lemma tabs_snoc m s s1 g k0 s0 :
  frontier base k0 s0 → 0 ≤ k → k + m < n_frames s0 → 0 ≤ m →
  tabs base k m s g → k_heap s1 = k_heap s →
  tabs base k (m + 1) (upd_heap <[kv (frame_at base (k + m)) := OTable zero_table]> s1)
    (upd_fun g m zero_table).
Proof.
  intros Hf Hk Hm Hm0 Ht Hh x Hx. cbn. unfold upd_fun. destruct (Z.eqb_spec x m) as [->|Hne].
  - apply lookup_insert_eq.
  - rewrite lookup_insert_ne, Hh by (intros E; apply (frame_inj _ _ _ _ _ Hf) in E; lia).
    apply Ht. lia.
Qed.

(** A state of the second half of the boot code: six tables, only memory
    behind [s]. *)
Lemma fill_step s j V P g :
  frontier base (k + 6) s → 0 ≤ k → tabs base k 6 s g → 0 ≤ j < 6 → length (g j) = 512%nat →
  V mod 2 ^ 21 = 0 → 0 ≤ V → V + 2 ^ 21 < 2 ^ 64 → 0 ≤ P → P + 2 ^ 21 < 2 ^ 64 →
  ∃ t' s', fill_pt 512 (kv (frame_at base (k + j))) V P s = Ok (tt, s')
    ∧ frontier base (k + 6) s' ∧ tabs base k 6 s' (upd_fun g j t') ∧ length t' = 512%nat
    ∧ (∀ i, (i < 512)%nat → t' !! i = Some (kpte (P + 4096 * Z.of_nat i)))
    ∧ s' = upd_heap <[kv (frame_at base (k + j)) := OTable t']> s.
Proof.
  intros Hf Hk Ht Hj Hl HV HV0 HV1 HP0 HP1.
  destruct (fill_pt_ok (frame_at base (k + j)) V P 512 0 (g j) s) as (t' & E & Hl' & Ht'); try done.
  { by apply Ht. }
  rewrite !Z.mul_0_r, !Z.add_0_r in E.
  exists t'. eexists. split; [exact E|]. split; [by eapply frontier_insert; [|apply Ht]|].
  split; [eapply tabs_upd; try done; apply (fr_range _ _ _ Hf)|]. split; [done|]. split; [|done].
  intros i Hi. by rewrite Ht'.
Qed.

Lemma link_step s j i c g :
  frontier base (k + 6) s → 0 ≤ k → tabs base k 6 s g → 0 ≤ j < 6 → length (g j) = 512%nat →
  0 ≤ i < 512 → g j !! Z.to_nat i = Some 0 →
  ∃ s', link_table (kv (frame_at base (k + j))) i c s = Ok (tt, s')
    ∧ frontier base (k + 6) s' ∧ tabs base k 6 s' (upd_fun g j (<[Z.to_nat i := klink c]> (g j)))
    ∧ s' = upd_heap <[kv (frame_at base (k + j)) := OTable (<[Z.to_nat i := klink c]> (g j))]> s.
Proof.
  intros Hf Hk Ht Hj Hl Hi Hz. eexists. split; [by apply link_table_ok; [apply Ht|..]|].
  split; [by eapply frontier_insert; [|apply Ht]|]. split; [|done].
  eapply tabs_upd; try done. apply (fr_range _ _ _ Hf).
Qed.
End boot_run.

Lemma boot_step base k m s g :
  frontier base (k + m) s → 0 ≤ k → 0 ≤ m → k + m < n_frames s → tabs base k m s g →
  ∃ s', boot_table s = Ok (Some (frame_at base (k + m)), s')
    ∧ frontier base (k + (m + 1)) s' ∧ n_frames s' = n_frames s
    ∧ tabs base k (m + 1) s' (upd_fun g m zero_table).
Proof.
  intros Hf Hk Hm Hlt Ht. destruct (boot_table_ok base (k + m) s Hf Hlt) as (s1 & E & Hf1 & Hh & Hn & _).
  eexists. split; [exact E|]. rewrite Z.add_assoc. split; [done|]. split; [exact Hn|].
  by apply (tabs_snoc base k m s s1 g (k + m) s).
Qed.

(** C29: the kernel mapping set up at boot.  With six frames left,
    [init_setup_virtual_memory] returns with paging on, the new tree loaded in
    [cr3] and well-formed; the processor finds the addresses from KERNBASE up
    to KERNBASE + 6 MiB at the physical address below them, writable and not
    for the user, and no other address of the kernel half. *)
Theorem init_setup_virtual_memory_ok base k s :
  frontier base k s → k + 6 ≤ n_frames s →
  ∃ s', init_setup_virtual_memory s = Ok (tt, s')
    ∧ k_is_paging s' = 1 ∧ cr3 (k_cpu s') = k_pml4 s' ∧ k_pml4 s' = frame_at base (k + 5)
    ∧ frontier base (k + 6) s' ∧ tree_wf (k_heap s') (k_pml4 s')
    ∧ ∀ w, 0 ≤ w < 2 ^ 31 →
        mmu_lookup (k_heap s') (k_pml4 s') (KERNBASE + w) = (if w <? 0x600000 then Some (w, 3) else None)
        ∧ translate (k_heap s') (k_pml4 s') (KERNBASE + w)
          = if (4096 <=? w) && (w <? 0x600000) then Some (4096 * (w / 4096)) else None.
Proof.
  intros Hf Hk. pose proof (fr_range _ _ _ Hf) as [Hk0 _].
  assert (Hz : length zero_table = 512%nat) by apply length_replicate.
  unfold init_setup_virtual_memory.
  rewrite <- (Z.add_0_r k) in Hf.
  destruct (boot_step base k 0 s (λ _, []) Hf Hk0 ltac:(lia) ltac:(lia)) as (s1 & E1 & F1 & N1 & T1); [intros j Hj; lia|].
  destruct (boot_step base k 1 s1 _ F1 Hk0 ltac:(lia) ltac:(lia) T1) as (s2 & E2 & F2 & N2 & T2).
  destruct (boot_step base k 2 s2 _ F2 Hk0 ltac:(lia) ltac:(lia) T2) as (s3 & E3 & F3 & N3 & T3).
  destruct (boot_step base k 3 s3 _ F3 Hk0 ltac:(lia) ltac:(lia) T3) as (s4 & E4 & F4 & N4 & T4).
  destruct (boot_step base k 4 s4 _ F4 Hk0 ltac:(lia) ltac:(lia) T4) as (s5 & E5 & F5 & N5 & T5).
  mstep E1. mstep E2. mstep E3. mstep E4. mstep E5. change (4 + 1) with 5 in *. clear E1 E2 E3 E4 E5.
  destruct (alloc_zeroed base (k + 5) s5 (OTable zero_table) F5 ltac:(lia))
    as (s6 & E6 & M6 & F6 & H6 & N6 & _ & _).
  mstep E6. pose proof (frame_range _ _ _ (k + 5) F5 ltac:(lia)) as [Hp5 _].
  pose proof (frame_range _ _ _ (k + 6) F5 ltac:(lia)) as [Hp6 _].
  rewrite (proj2 (Z.eqb_neq _ _)) by lia.
  assert (C6 : k_heap (set_k_pml4 (frame_at base (k + 5)) s6) !! (kv (frame_at base (k + 5)) + PAGE_BLOCK_SIZE) = None).
  { rewrite frame_next by (unfold frame_at in *; lia). cbn. rewrite H6. apply (fr_clean _ _ _ F5). lia. }
  mstep (memset_frame_clean _ (OTable zero_table) _ C6).
  set (s7 := upd_heap _ (set_k_pml4 _ s6)).
  assert (T7 : tabs base k 6 s7 _) by (eapply (tabs_snoc base k 5 s5 (set_k_pml4 _ s6)); [exact F5|lia|lia|lia|exact T5|exact H6]).
  assert (F7 : frontier base (k + 6) s7).
  { rewrite <- Z.add_assoc in F6. destruct F6. by constructor. }
  set (g7 := upd_fun _ 5 _) in T7.
  destruct (fill_step base k s7 0 0xFFFFFFFF80200000 0x200000 g7 F7 Hk0 T7)
    as (t0 & s8 & E8 & F8 & T8 & L8 & P8 & S8); [done || lia..|].
  mstep E8.
  destruct (link_step base k s8 3 (get_index_of_pdt 0xFFFFFFFF80200000) (frame_at base (k + 0)) _ F8 Hk0 T8)
    as (s9 & E9 & F9 & T9 & S9); [done || lia..|]. mstep E9.
  destruct (link_step base k s9 4 (get_index_of_pdpt 0xFFFFFFFF80200000) (frame_at base (k + 3)) _ F9 Hk0 T9)
    as (s10 & E10 & F10 & T10 & S10); [done || lia..|]. mstep E10.
  destruct (link_step base k s10 5 (get_index_of_pml4 0xFFFFFFFF80200000) (frame_at base (k + 4)) _ F10 Hk0 T10)
    as (s11 & E11 & F11 & T11 & S11); [done || lia..|]. mstep E11.
  unfold set_pml4. mnorm.
  set (s12 := set_k_is_paging 1 _).
  assert (F12 : frontier base (k + 6) s12) by (destruct F11; by constructor).
  destruct (fill_step base k s12 1 0xFFFFFFFF80000000 0 _ F12 Hk0 T11)
    as (t1 & s13 & E13 & F13 & T13 & L13 & P13 & S13); [done || lia..|]. mstep E13.
  destruct (link_step base k s13 3 (get_index_of_pdt 0xFFFFFFFF80000000) (frame_at base (k + 1)) _ F13 Hk0 T13)
    as (s14 & E14 & F14 & T14 & S14); [done || lia..|]. mstep E14.
  destruct (fill_step base k s14 2 0xFFFFFFFF80400000 0x400000 _ F14 Hk0 T14)
    as (t2 & s15 & E15 & F15 & T15 & L15 & P15 & S15); [done || lia..|]. mstep E15.
  destruct (link_step base k s15 3 (get_index_of_pdt 0xFFFFFFFF80400000) (frame_at base (k + 2)) _ F15 Hk0 T15)
    as (s16 & E16 & F16 & T16 & S16); [done || lia..|].
  exists s16. split; [exact E16|].
  assert (Hg : k_is_paging s16 = 1 ∧ cr3 (k_cpu s16) = frame_at base (k + 5) ∧ k_pml4 s16 = frame_at base (k + 5))
    by (rewrite S16, S15, S14, S13; unfold s12; rewrite S11, S10, S9, S8; done).
  destruct Hg as (-> & -> & ->). set (G := upd_fun _ 3 _) in T16.
  assert (Hfr : ∀ j, 0 ≤ j < 6 → is_frame (frame_at base (k + j)))
    by (intros j Hj; apply (is_frame_at base (k + 5) s5); [done|lia]).
  assert (Hin : ∀ i j, 0 ≤ i < 6 → 0 ≤ j < 6 → frame_at base (k + i) = frame_at base (k + j) → i = j)
    by (unfold frame_at; lia).
  assert (Hgl : ∀ j, 0 ≤ j < 6 → length (G j) = 512%nat).
  { intros j Hj. assert (j = 0 ∨ j = 1 ∨ j = 2 ∨ j = 3 ∨ j = 4 ∨ j = 5) as Hc by lia.
    destruct Hc as [->|[->|[->|[->|[->| ->]]]]]; [exact L8|exact L13|exact L15|reflexivity..]. }
  assert (Hpt : ∀ x, 0 ≤ x < 3 → ∀ i, (i < 512)%nat →
    G x !! i = Some (kpte ((if x =? 0 then 0x200000 else if x =? 1 then 0 else 0x400000) + 4096 * Z.of_nat i))).
  { intros x Hx. assert (x = 0 ∨ x = 1 ∨ x = 2) as Hc by lia.
    destruct Hc as [->|[->| ->]]; [exact P8|exact P13|exact P15]. }
  split_and!; try done.
  - by apply (kernel_tree_wf (k_heap s16) (λ j, frame_at base (k + j)) G).
  - intros w Hw. split; [by apply (kernel_lookup (k_heap s16) (λ j, frame_at base (k + j)) G)|].
    by apply (kernel_translate (k_heap s16) (λ j, frame_at base (k + j)) G).
Qed.

Lemma init_setup_virtual_memory_ok_witness :
  ∃ s', init_setup_virtual_memory (machine 0 8 ∅) = Ok (tt, s')
    ∧ mmu_lookup (k_heap s') (k_pml4 s') (KERNBASE + 0x123) = Some (0x123, 3)
    ∧ mmu_lookup (k_heap s') (k_pml4 s') (KERNBASE + 0x5ff123) = Some (0x5ff123, 3)
    ∧ mmu_lookup (k_heap s') (k_pml4 s') (KERNBASE + 0x600000) = None.
Proof.
  destruct (init_setup_virtual_memory_ok 0x400000 0 (machine 0 8 ∅)) as (s' & E & _ & _ & _ & _ & _ & Ht).
  - apply (machine_frontier 0 8); [lia|]. intros j Hj. apply lookup_empty.
  - done.
  - exists s'. split; [exact E|].
    split; [exact (proj1 (Ht 0x123 ltac:(lia)))|split; [exact (proj1 (Ht 0x5ff123 ltac:(lia)))|exact (proj1 (Ht 0x600000 ltac:(lia)))]].
Defined.

(** ** Releasing an address space *)

(** Nothing but the form of the pointer to the frame array differs. *)
Definition quiet (base : Z) (s s' : kst) : Prop :=
  phys_inv base s' ∧ the_pages s' = the_pages s ∧ k_heap s' = k_heap s.
Lemma quiet_refl base s : phys_inv base s → quiet base s s.
Proof. done. Qed.
Lemma quiet_trans base s1 s2 s3 : quiet base s1 s2 → quiet base s2 s3 → quiet base s1 s3.
Proof. intros (? & E1 & E2) (? & E3 & E4). split_and!; [done|congruence..]. Qed.
Lemma quiet_free base s p :
  phys_inv base s → 0 ≤ p → ∃ s', phys_mem_free (kv p) s = Ok (tt, s') ∧ quiet base s s'.
Proof.
  intros Hinv Hp. exists (rebased s). split; [by apply (free_kv base)|].
  split_and!; [by apply rebased_inv|apply rebased_pages|apply rebased_heap].
Qed.

Definition quiet_spec (base : Z) (enter : Z → M kst Z) (ok : gmap Z obj → Z → Prop) : Prop :=
  ∀ a s, 0 ≤ a → phys_inv base s → ok (k_heap s) a →
  ∃ r s', enter a s = Ok (r, s') ∧ 0 ≤ r ∧ quiet base s s'.

Lemma land_addr_nonneg e : 0 ≤ Z.land e ADDR.
Proof. apply Z.land_nonneg. by right. Qed.

Lemma free_entries_quiet base visit enter ok tbl t :
  quiet_spec base enter ok → length t = 512%nat →
  ∀ n i addr s, (i + n = 512)%nat → 0 ≤ addr → phys_inv base s →
    k_heap s !! kv tbl = Some (OTable t) → Forall (λ e, e ≠ 0 → ok (k_heap s) (Z.land e ADDR)) t →
  ∃ s', free_entries visit enter n (Z.of_nat i) (kv tbl) addr s = Ok (tt, s') ∧ quiet base s s'.
Proof.
  intros Henter Hl. induction n as [|n IH]; intros i addr s Hin Ha Hinv Ht Hall; cbn [free_entries].
  { exists s. split; [done|by apply quiet_refl]. }
  destruct (lookup_lt_is_Some_2 t i) as [e He]; [lia|].
  mstep (entry_get_ok tbl (Z.of_nat i) e s ltac:(by rewrite (tget_table _ _ _ _ Ht), Nat2Z.id)).
  assert (∃ addr' s1, (if negb (e =? 0) then if visit e then enter (Z.land e PMLE_PDPTE_ADDRESS) else mret addr
            else mret addr) s = Ok (addr', s1) ∧ 0 ≤ addr' ∧ quiet base s s1) as (addr' & s1 & E1 & Ha' & Q1).
  { destruct (Z.eqb_spec e 0); [|destruct (visit e)]; cbn [negb];
      [by eexists _, _; split_and!| |by eexists _, _; split_and!].
    apply Henter; [apply land_addr_nonneg|done|]. by apply (Forall_lookup_1 _ _ _ _ Hall He). }
  mstep E1.
  assert (∃ s2, when (negb (addr' =? 0)) (phys_mem_free (kv addr')) s1 = Ok (tt, s2) ∧ quiet base s1 s2)
    as (s2 & E2 & Q2).
  { destruct (addr' =? 0); cbn [negb when]; [exists s1; split; [done|]; apply quiet_refl, Q1|].
    apply quiet_free; [apply Q1|done]. }
  mstep E2. pose proof (quiet_trans _ _ _ _ Q1 Q2) as Q. destruct Q as (Hi2 & Hp2 & Hh2).
  destruct (IH (S i) addr' s2) as (s3 & E3 & Q3); [lia|done|done|by rewrite Hh2|by rewrite Hh2|].
  exists s3. replace (Z.of_nat i + 1) with (Z.of_nat (S i)) by lia. split; [done|].
  by eapply quiet_trans; [|exact Q3].
Qed.

Lemma free_level_quiet base visit enter (d : nat) :
  quiet_spec base enter (λ h a, match d with O => True | S d' => deep h d' a end) →
  ∀ a s, phys_inv base s → deep (k_heap s) d a →
  ∃ s', free_entries visit enter 512 0 (kv a) 0 s = Ok (tt, s') ∧ quiet base s s'.
Proof.
  intros He a s Hinv Hd. destruct d as [|d]; destruct Hd as (t & Ht & Hl & Hd).
  - apply (free_entries_quiet base visit enter _ a t He Hl 512 0); try done. by apply Forall_true.
  - by apply (free_entries_quiet base visit enter _ a t He Hl 512 0).
Qed.

Lemma enter_quiet base (m : Z → M kst unit) (d : nat) :
  (∀ a s, phys_inv base s → deep (k_heap s) d a → ∃ s', m a s = Ok (tt, s') ∧ quiet base s s') →
  quiet_spec base (λ a, m a;; mret a) (λ h a, deep h d a).
Proof.
  intros Hm a s Ha Hinv Hd. destruct (Hm a s Hinv Hd) as (s' & E & Q).
  exists a, s'. split; [by mstep E|]. done.
Qed.

Lemma free_level1_quiet base a s :
  phys_inv base s → deep (k_heap s) 0 a → ∃ s', free_level1 a s = Ok (tt, s') ∧ quiet base s s'.
Proof.
  intros Hinv0 Hd. unfold free_level1. refine (free_level_quiet base _ _ O _ a s Hinv0 Hd).
  intros x u Hx Hinv _.
  destruct (quiet_free base u x Hinv Hx) as (s' & E & Q). exists (kv x), s'.
  split; [by mstep E|]. split; [|done]. pose proof (kv_ge x Hx). unfold KERNBASE in *. lia.
Qed.
Lemma free_level2_quiet base a s :
  phys_inv base s → deep (k_heap s) 1 a → ∃ s', free_level2 a s = Ok (tt, s') ∧ quiet base s s'.
Proof.
  intros Hinv Hd. unfold free_level2. refine (free_level_quiet base _ _ 1 _ a s Hinv Hd).
  apply enter_quiet, free_level1_quiet.
Qed.
Lemma free_level3_quiet base a s :
  phys_inv base s → deep (k_heap s) 2 a → ∃ s', free_level3 a s = Ok (tt, s') ∧ quiet base s s'.
Proof.
  intros Hinv Hd. unfold free_level3. refine (free_level_quiet base _ _ 2 _ a s Hinv Hd).
  apply enter_quiet, free_level2_quiet.
Qed.

(** Releasing an address space releases no frame.  [free_page_range]
    returns on every tree whose nonzero entries lead to tables, and leaves
    every frame's state and count as it was: each release it makes is by
    kernel virtual address. *)
Theorem free_page_range_frees_nothing base s r :
  phys_inv base s → deep (k_heap s) 3 r →
  ∃ s', free_page_range 4 r s = Ok (tt, s') ∧ the_pages s' = the_pages s ∧ k_heap s' = k_heap s.
Proof.
  intros Hinv Hd.
  destruct (free_level_quiet base present (λ a, free_level3 a;; mret a) 3) with r s as (s' & E & Q).
  - apply enter_quiet, free_level3_quiet.
  - done.
  - done.
  - exists s'. split; [exact E|]. apply Q.
Qed.

Lemma free_page_range_frees_nothing_witness :
  ∃ s', free_page_range 4 0x400000 empty_space = Ok (tt, s') ∧ the_pages s' = the_pages empty_space.
Proof.
  destruct (free_page_range_frees_nothing 0x400000 empty_space 0x400000) as (s' & E & H & _).
  - apply machine_inv. lia.
  - apply empty_deep. apply lookup_insert_eq.
  - exists s'. exact (conj E H).
Defined.
