(* ===== verification/Chain.v ===== *)
(** * Linked lists in the store

    The queues, the process lists and the list of memory areas are singly
    linked through a field of a structure.  [seg nxt a l b] says that
    following [nxt] from [a] visits the nodes [l] and arrives at [b]; a
    [chain] arrives at NULL.  Loops over such lists run with a fuel of one
    more than the number of structures in the store: a walk that does not
    change the store and makes more steps than that visits a node twice and
    never ends. *)

From S2P Require Export Machine.

Section chain.
Context (nxt : Z → option Z).

Inductive seg : Z → list Z → Z → Prop :=
| seg_nil a : seg a [] a
| seg_cons a b l c : a ≠ 0 → nxt a = Some b → seg b l c → seg a (a :: l) c.

Definition chain (a : Z) (l : list Z) : Prop := seg a l 0.

Lemma seg_app a l1 l2 c : seg a (l1 ++ l2) c ↔ ∃ b, seg a l1 b ∧ seg b l2 c.
Proof.
  split.
  - revert a. induction l1 as [|x l1 IH]; intros a H; simpl in *.
    + exists a. split; [constructor|done].
    + inversion H as [|? b ? ? Ha Hn Hs]; subst. destruct (IH _ Hs) as (m & H1 & H2).
      exists m. split; [by econstructor|done].
  - intros (b & H1 & H2). induction H1; [done|]. simpl. econstructor; eauto.
Qed.

Lemma seg_in a l c x : seg a l c → x ∈ l → x ≠ 0 ∧ is_Some (nxt x).
Proof.
  induction 1 as [|a b l c Ha Hn _ IH]; intros Hx; [by apply elem_of_nil in Hx|].
  apply elem_of_cons in Hx as [->|Hx]; [|by apply IH]. split; [done|by eexists].
Qed.

Lemma chain_zero l : chain 0 l → l = [].
Proof. by inversion 1. Qed.
Lemma chain_head a l : chain a l → a ≠ 0 → ∃ l', l = a :: l'.
Proof. inversion 1; [done|]. eauto. Qed.
Lemma chain_cons a l : chain a (a :: l) → a ≠ 0 ∧ ∃ b, nxt a = Some b ∧ chain b l.
Proof. inversion 1; subst. eauto. Qed.
Lemma chain_cons_inv a x l : chain a (x :: l) → a = x ∧ x ≠ 0 ∧ ∃ b, nxt x = Some b ∧ chain b l.
Proof. inversion 1; subst. eauto 6. Qed.

Lemma chain_det a l l' : chain a l → chain a l' → l = l'.
Proof.
  unfold chain. intros H. remember 0 as z eqn:Hz in H at 1. revert l'.
  induction H as [|a b l c Ha Hn Hs IH]; intros l' H'; subst.
  - symmetry. by apply chain_zero.
  - inversion H' as [|? ? ? ? ? Hn' Hs']; subst; [done|]. f_equal. apply IH; [done|]. congruence.
Qed.

Lemma chain_nodup a l : chain a l → NoDup l.
Proof.
  revert a. induction l as [|x l IH]; intros a H; [constructor|].
  pose proof (chain_cons_inv _ _ _ H) as (-> & Hx & b & Hn & Hs).
  constructor; [|by eapply IH]. intros (l1 & l2 & ->)%list_elem_of_split.
  apply seg_app in Hs as (m & _ & H2).
  pose proof (chain_cons_inv _ _ _ H2) as (-> & _).
  pose proof (chain_det _ _ _ H H2) as E. apply (f_equal length) in E.
  simpl in E. rewrite length_app in E. simpl in E. lia.
Qed.
End chain.

Lemma seg_ext nxt nxt' a l c : seg nxt a l c → (∀ x, x ∈ l → nxt' x = nxt x) → seg nxt' a l c.
Proof.
  induction 1 as [|a b l c Ha Hn Hs IH]; intros He; [constructor|].
  econstructor; [done| |].
  - rewrite He by set_solver. exact Hn.
  - apply IH. set_solver.
Qed.
Lemma chain_ext nxt nxt' a l : chain nxt a l → (∀ x, x ∈ l → nxt' x = nxt x) → chain nxt' a l.
Proof. apply seg_ext. Qed.

(** Updating the link of one node. *)
Definition relink (nxt : Z → option Z) (x b : Z) : Z → option Z :=
  λ y, if decide (y = x) then Some b else nxt y.

Lemma relink_other nxt x b a l : chain nxt a l → x ∉ l → chain (relink nxt x b) a l.
Proof.
  intros H Hx. eapply chain_ext; [exact H|]. intros y Hy. unfold relink.
  rewrite decide_False; [done|]. by intros ->.
Qed.

(** Appending: the last node is linked to a new node that ends the list. *)
Lemma relink_append nxt a l x c :
  chain nxt a (l ++ [x]) → c ≠ 0 → c ∉ l ++ [x] →
  chain (relink (relink nxt x c) c 0) a (l ++ [x; c]).
Proof.
  intros H Hc Hn. pose proof (chain_nodup _ _ _ H) as Hnd.
  apply seg_app in H as (m & H1 & H2).
  pose proof (chain_cons_inv _ _ _ _ H2) as (-> & Hx & _).
  apply NoDup_app in Hnd as (_ & Hxl & _).
  apply seg_app. exists x. split.
  - eapply seg_ext; [exact H1|]. intros y Hy. unfold relink.
    rewrite !decide_False; [done|..]; intros ->.
    + by apply (Hxl x Hy), list_elem_of_singleton.
    + apply Hn. apply elem_of_app. by left.
  - assert (x ≠ c) by (intros ->; apply Hn; set_solver).
    apply seg_cons with c; [done|unfold relink; by rewrite decide_False, decide_True|].
    apply seg_cons with 0; [done|unfold relink; by rewrite decide_True|constructor].
Qed.

(** Prepending. *)
Lemma relink_front nxt a l c : chain nxt a l → c ≠ 0 → c ∉ l → chain (relink nxt c a) c (c :: l).
Proof.
  intros H Hc Hn. apply seg_cons with a; [done|unfold relink; by rewrite decide_True|].
  by apply relink_other.
Qed.

(** Unlinking the node after [x]. *)
Lemma relink_skip nxt a l1 x y l2 b :
  chain nxt a (l1 ++ x :: y :: l2) → nxt y = Some b →
  chain (relink nxt x b) a (l1 ++ x :: l2).
Proof.
  intros H Hy. pose proof (chain_nodup _ _ _ H) as Hnd.
  apply seg_app in H as (m & H1 & H2).
  pose proof (chain_cons_inv _ _ _ _ H2) as (-> & Hx & m2 & Hn2 & H3).
  pose proof (chain_cons_inv _ _ _ _ H3) as (-> & Hy0 & m3 & Hn3 & H4).
  assert (m3 = b) as -> by congruence.
  apply NoDup_app in Hnd as (_ & Hxl & Hnd2). apply NoDup_cons in Hnd2 as [Hx2 _].
  apply seg_app. exists x. split.
  - eapply seg_ext; [exact H1|]. intros z Hz. unfold relink. rewrite decide_False; [done|].
    intros ->. apply (Hxl x Hz). set_solver.
  - apply seg_cons with b; [done|unfold relink; by rewrite decide_True|].
    apply relink_other; [exact H4|]. set_solver.
Qed.

(** ** Fuel *)

Definition fuel : M kst nat := gets (λ s, S (size (k_heap s))).

Lemma chain_length nxt a l (h : gmap Z obj) :
  chain nxt a l → (∀ x, is_Some (nxt x) → is_Some (h !! x)) → (length l ≤ size h)%nat.
Proof.
  intros H Hd. pose proof (chain_nodup _ _ _ H) as Hnd.
  rewrite <- (size_list_to_set (C := gset Z) l Hnd), <- size_dom.
  apply subseteq_size. intros x Hx. apply elem_of_list_to_set in Hx.
  apply elem_of_dom, Hd. by eapply seg_in.
Qed.

(** [while(p->next != NULL) p = p->next;] *)
Fixpoint last_node (next : Z → M kst Z) (n : nat) (p : Z) : M kst Z :=
  match n with
  | O => timeout
  | S n' => q ← next p; if q =? 0 then mret p else last_node next n' q
  end.

Lemma last_node_ok nxt next a l x n s :
  (∀ y b, nxt y = Some b → next y s = Ok (b, s)) →
  chain nxt a (l ++ [x]) → (length l < n)%nat → last_node next n a s = Ok (x, s).
Proof.
  intros Hnext. revert a n. induction l as [|y l IH]; intros a n H Hn;
    (destruct n as [|n]; [lia|]); cbn [last_node].
  - apply chain_cons_inv in H as (-> & Hx & b & Hb & H0). mstep (Hnext _ _ Hb).
    inversion H0; subst. done.
  - cbn in H. apply chain_cons_inv in H as (-> & Hx & b & Hb & H0). mstep (Hnext _ _ Hb).
    destruct (Z.eqb_spec b 0) as [->|Hne].
    { apply chain_zero in H0. by destruct l. }
    apply IH; [done|]. simpl in Hn. lia.
Qed.
