(* ===== verification/Queue.v ===== *)
(** * Scheduler queues (sys/queue.c)

    The four queues are global [struct queue_type]s whose [processes] field
    heads a list of process descriptors linked by [next_in_queue] (their
    [flags] field is set to 0 and never read).  A queue refines a list of
    process addresses. *)

From S2P Require Export Chain.

(** ** Model *)

(** [struct queue_type *]: which of the four globals. *)
Inductive queue : Type := RunQ | BlockedQ | SleepingQ | WaitingQ.
#[global] Instance queue_eq_dec : EqDecision queue.
Proof. solve_decision. Defined.

Definition processes (q : queue) (g : proc_globals) : Z :=
  match q with
  | RunQ => run_queue g
  | BlockedQ => blocked_queue g
  | SleepingQ => sleeping_queue g
  | WaitingQ => waiting_queue g
  end.
Definition set_processes (q : queue) (v : Z) (g : proc_globals) : proc_globals :=
  match q with
  | RunQ => set_run_queue v g
  | BlockedQ => set_blocked_queue v g
  | SleepingQ => set_sleeping_queue v g
  | WaitingQ => set_waiting_queue v g
  end.
Definition q_head (q : queue) : M kst Z := gets (λ s, processes q (k_proc s)).
Definition set_q_head (q : queue) (v : Z) : M kst unit := modify (upd_proc (set_processes q v)).

Definition next_in_queue (p : Z) : M kst Z := c ← load as_pcb p; mret (p_next_in_queue c).
Definition set_next (p v : Z) : M kst unit := update_pcb p (set_p_next_in_queue v).
Definition pid_of (p : Z) : M kst Z := c ← load as_pcb p; mret (p_pid c).

Definition init_scheduler_queues : M kst unit :=
  set_q_head RunQ NULL;; set_q_head BlockedQ NULL;; set_q_head SleepingQ NULL;; set_q_head WaitingQ NULL.

Definition add_process_to_queue_front (q : queue) (curr : Z) : M kst unit :=
  h ← q_head q;
  if h =? NULL then set_q_head q curr;; set_next curr NULL
  else set_q_head q curr;; set_next curr h.

Definition add_process_to_queue (q : queue) (curr : Z) : M kst unit :=
  h ← q_head q;
  if h =? NULL then set_q_head q curr;; set_next curr NULL
  else
    n ← fuel;
    p ← last_node next_in_queue n h;
    set_next p curr;;
    set_next curr NULL.

(** The loop of [remove_process_from_queue]: nothing in it moves along the
    list. *)
Fixpoint remove_loop (n : nat) (q : queue) (curr : Z) : M kst unit :=
  match n with
  | O => timeout
  | S n' =>
      h ← q_head q;
      nx ← next_in_queue h;
      if nx =? NULL then mret tt else
      h ← q_head q;
      nx ← next_in_queue h;
      a ← pid_of nx;
      b ← pid_of curr;
      if a =? b then
        h ← q_head q;
        nx ← next_in_queue h;
        nn ← next_in_queue nx;
        set_next h nn
      else remove_loop n' q curr
  end.

Definition remove_process_from_queue (q : queue) (curr : Z) : M kst unit :=
  h ← q_head q;
  if h =? NULL then mret tt else
  a ← pid_of h;
  b ← pid_of curr;
  if a =? b then
    nx ← next_in_queue h;
    set_q_head q nx
  else
    n ← fuel;
    remove_loop n q curr.

Definition select_first_process_from_queue (q : queue) : M kst Z :=
  h ← q_head q;
  if h =? NULL then mret NULL else mret h.

Definition remove_first_process_from_queue (q : queue) : M kst Z :=
  h ← q_head q;
  if h =? NULL then mret NULL else
  remove_process_from_queue q h;; mret h.

(** ** The abstract queue *)

Definition get_pcb (s : kst) (a : Z) : option pcb := k_heap s !! a ≫= as_pcb.
Definition qnxt (s : kst) (a : Z) : option Z := p_next_in_queue <$> get_pcb s a.
Definition pid_at (s : kst) (a : Z) : option Z := p_pid <$> get_pcb s a.
Definition queue_is (s : kst) (q : queue) (l : list Z) : Prop :=
  chain (qnxt s) (processes q (k_proc s)) l.

Lemma get_pcb_heap s a p : get_pcb s a = Some p → k_heap s !! a = Some (OPcb p).
Proof.
  unfold get_pcb. destruct (k_heap s !! a) as [o|]; [|done]. cbn.
  destruct o; try done. by intros [= ->].
Qed.
Lemma load_pcb s a p : get_pcb s a = Some p → load as_pcb a s = Ok (p, s).
Proof. intros H. by apply load_ok. Qed.
Lemma qnxt_pcb s a b : qnxt s a = Some b → ∃ p, get_pcb s a = Some p ∧ p_next_in_queue p = b.
Proof. unfold qnxt. rewrite fmap_Some. intros (p & Hp & ->). eauto. Qed.
Lemma next_in_queue_ok s a b : qnxt s a = Some b → next_in_queue a s = Ok (b, s).
Proof. intros (p & Hp & <-)%qnxt_pcb. unfold next_in_queue. by mstep (load_pcb _ _ _ Hp). Qed.
Lemma pid_of_ok s a i : pid_at s a = Some i → pid_of a s = Ok (i, s).
Proof.
  unfold pid_at. rewrite fmap_Some. intros (p & Hp & ->). unfold pid_of. by mstep (load_pcb _ _ _ Hp).
Qed.

(** The state after [p->next_in_queue = v]. *)
Definition with_next (a v : Z) (p : pcb) (s : kst) : kst :=
  upd_heap <[a := OPcb (set_p_next_in_queue v p)]> s.
Lemma set_next_ok s a v p : get_pcb s a = Some p → set_next a v s = Ok (tt, with_next a v p s).
Proof. intros H. unfold set_next, update_pcb. by rewrite (update_ok _ _ _ _ p _ _ (get_pcb_heap _ _ _ H)). Qed.
Lemma get_pcb_insert s a p b :
  get_pcb (upd_heap <[a := OPcb p]> s) b = if decide (b = a) then Some p else get_pcb s b.
Proof.
  unfold get_pcb. cbn. destruct (decide (b = a)) as [->|Hne].
  - by rewrite lookup_insert_eq.
  - by rewrite lookup_insert_ne.
Qed.
Lemma qnxt_with_next s a v p b : qnxt (with_next a v p s) b = relink (qnxt s) a v b.
Proof. unfold qnxt, with_next, relink. rewrite get_pcb_insert. by destruct (decide (b = a)). Qed.
Lemma pid_with_next s a v p b : get_pcb s a = Some p → pid_at (with_next a v p s) b = pid_at s b.
Proof.
  intros H. unfold pid_at, with_next. rewrite get_pcb_insert. destruct (decide (b = a)) as [->|]; [|done].
  by rewrite H.
Qed.
Lemma queue_set_head s q v q' :
  processes q' (set_processes q v (k_proc s)) = if decide (q' = q) then v else processes q' (k_proc s).
Proof. by destruct q, q'. Qed.

Lemma qnxt_live s x : is_Some (qnxt s x) → is_Some (k_heap s !! x).
Proof. intros [b (p & Hp%get_pcb_heap & _)%qnxt_pcb]. by eexists. Qed.

Lemma queue_fuel s q l : queue_is s q l → (length l ≤ size (k_heap s))%nat.
Proof. intros H. eapply chain_length; [exact H|apply qnxt_live]. Qed.

(** A queue other than the ones touched keeps its list. *)
Lemma queue_with_next s a v p q l : queue_is s q l → a ∉ l → queue_is (with_next a v p s) q l.
Proof.
  intros H Hn. eapply chain_ext; [exact (relink_other _ a v _ _ H Hn)|].
  intros x _. apply qnxt_with_next.
Qed.
Lemma queue_upd_head s q v q' l :
  queue_is s q' l → q' ≠ q → queue_is (upd_proc (set_processes q v) s) q' l.
Proof. intros H Hne. unfold queue_is. cbn. rewrite queue_set_head, decide_False by done. exact H. Qed.
Lemma queue_new_head s q v l : chain (qnxt s) v l → queue_is (upd_proc (set_processes q v) s) q l.
Proof. intros H. unfold queue_is. cbn. by rewrite queue_set_head, decide_True. Qed.

(** ** What queue operations leave alone *)

Definition forget_next (p : pcb) : pcb := set_p_next_in_queue 0 p.

Record queue_frame (s s' : kst) : Prop := {
  qf_pcb : ∀ a, forget_next <$> get_pcb s' a = forget_next <$> get_pcb s a;
  qf_heap : ∀ a o, k_heap s !! a = Some o → as_pcb o = None → k_heap s' !! a = Some o;
  qf_rest : ∃ h r b sl w, s' = set_k_heap h (upd_proc (λ g,
      set_run_queue r (set_blocked_queue b (set_sleeping_queue sl (set_waiting_queue w g)))) s);
}.

(** The witness of [qf_rest] read off the resulting state. *)
Ltac queue_rest :=
  match goal with |- ∃ h r b sl w, ?t = _ =>
    exists (k_heap t), (run_queue (k_proc t)), (blocked_queue (k_proc t)),
      (sleeping_queue (k_proc t)), (waiting_queue (k_proc t)) end;
  match goal with s : kst |- _ => by destruct s as [? ? [] ? ? ? ? ? ? ? ?] end.

Lemma qf_refl s : queue_frame s s.
Proof. constructor; [done..|]. queue_rest. Qed.
Lemma qf_trans s1 s2 s3 : queue_frame s1 s2 → queue_frame s2 s3 → queue_frame s1 s3.
Proof.
  intros [A1 A2 A3] [B1 B2 B3]. constructor.
  - intros a. by rewrite B1, A1.
  - intros a o H1 H2. by apply B2; [apply A2|].
  - destruct A3 as (h & r & b & sl & w & ->), B3 as (h' & r' & b' & sl' & w' & ->).
    by exists h', r', b', sl', w'.
Qed.
Lemma qf_next s a v p : get_pcb s a = Some p → queue_frame s (with_next a v p s).
Proof.
  intros H. constructor.
  - intros b. unfold with_next. rewrite get_pcb_insert. destruct (decide (b = a)) as [->|]; [|done]. by rewrite H.
  - intros b o Hb Ho. unfold with_next. cbn. rewrite lookup_insert_ne; [done|].
    intros ->. apply get_pcb_heap in H. rewrite H in Hb. by injection Hb as <-.
  - queue_rest.
Qed.
Lemma qf_head s q v : queue_frame s (upd_proc (set_processes q v) s).
Proof. constructor; [done..|]. destruct q; queue_rest. Qed.
#[export] Hint Resolve qf_refl qf_next qf_head : kernel.

Lemma qf_get s s' a p : queue_frame s s' → get_pcb s a = Some p →
  ∃ n, get_pcb s' a = Some (set_p_next_in_queue n p).
Proof.
  intros [H _ _] Hp. specialize (H a). rewrite Hp in H. destruct (get_pcb s' a) as [p'|]; [|done].
  apply (inj Some) in H. exists (p_next_in_queue p'). f_equal.
  transitivity (set_p_next_in_queue (p_next_in_queue p') (forget_next p')); [by destruct p'|by rewrite H].
Qed.
Lemma qf_pid s s' a : queue_frame s s' → pid_at s' a = pid_at s a.
Proof.
  intros [H _ _]. specialize (H a). unfold pid_at. destruct (get_pcb s' a) as [p'|], (get_pcb s a) as [p|];
    try done. apply (inj Some) in H. cbn. f_equal. exact (f_equal p_pid H).
Qed.
Lemma qf_current s s' : queue_frame s s' →
  current (k_proc s') = current (k_proc s) ∧ allproc (k_proc s') = allproc (k_proc s)
  ∧ zombproc (k_proc s') = zombproc (k_proc s) ∧ idle_task (k_proc s') = idle_task (k_proc s)
  ∧ k_phys s' = k_phys s.
Proof. by intros [_ _ (h & r & b & sl & w & ->)]. Qed.

(** ** The refinement

    The four queues hold disjoint lists of processes. *)

Definition queues_are (s : kst) (f : queue → list Z) : Prop :=
  (∀ q, queue_is s q (f q)) ∧ ∀ q q' x, q ≠ q' → x ∈ f q → x ∉ f q'.
Definition qupd (f : queue → list Z) (q : queue) (l : list Z) : queue → list Z :=
  λ q', if decide (q' = q) then l else f q'.

Lemma qupd_same f q l : qupd f q l q = l.
Proof. unfold qupd. by rewrite decide_True. Qed.
Lemma qupd_other f q l q' : q' ≠ q → qupd f q l q' = f q'.
Proof. intros H. unfold qupd. by rewrite decide_False. Qed.

(** Relinking nodes that other queues do not hold. *)
Lemma queues_upd s s' f q l :
  queues_are s f → queue_is s' q l →
  (∀ q', q' ≠ q → queue_is s' q' (f q')) →
  (∀ x q', x ∈ l → q' ≠ q → x ∉ f q') →
  queues_are s' (qupd f q l).
Proof.
  intros [Hq Hd] Hl Ho Hn. split.
  - intros q'. unfold qupd. destruct (decide (q' = q)) as [->|Hne]; [done|by apply Ho].
  - intros q1 q2 x Hne. unfold qupd.
    destruct (decide (q1 = q)) as [->|H1], (decide (q2 = q)) as [->|H2]; try done.
    + intros Hx. by apply Hn.
    + intros Hx Hxl. by apply (Hn x q1 Hxl).
    + by apply Hd.
Qed.

Section ops.
Context (s : kst) (f : queue → list Z) (q : queue) (c : Z) (p : pcb).
Hypothesis Hq : queues_are s f.
Hypothesis Hc : get_pcb s c = Some p.
Hypothesis Hc0 : c ≠ 0.
Hypothesis Hfree : ∀ q', c ∉ f q'.

Lemma add_front_ok :
  ∃ s', add_process_to_queue_front q c s = Ok (tt, s')
    ∧ queues_are s' (qupd f q (c :: f q)) ∧ queue_frame s s'.
Proof.
  unfold add_process_to_queue_front, q_head. mnorm. set (hd := processes q (k_proc s)).
  set (s1 := upd_proc (set_processes q c) s).
  assert (Hc1 : get_pcb s1 c = Some p) by exact Hc.
  exists (with_next c hd p s1). split; [|split].
  - destruct (Z.eqb_spec hd NULL) as [E|]; unfold set_q_head; mnorm.
    + rewrite E. exact (set_next_ok s1 c NULL p Hc1).
    + exact (set_next_ok s1 c hd p Hc1).
  - eapply queues_upd; [exact Hq|..].
    + unfold queue_is. cbn. rewrite queue_set_head, decide_True by done.
      eapply chain_ext; [exact (relink_front _ _ _ c (proj1 Hq q) Hc0 (Hfree q))|].
      intros x _. rewrite qnxt_with_next. done.
    + intros q' Hne. apply queue_with_next; [|apply Hfree]. apply queue_upd_head; [apply (proj1 Hq)|done].
    + intros x q' Hx Hne. apply elem_of_cons in Hx as [->|Hx]; [apply Hfree|].
      by apply (proj2 Hq q q').
  - eapply qf_trans; [apply qf_head|]. by apply qf_next.
Qed.

Lemma add_back_ok :
  ∃ s', add_process_to_queue q c s = Ok (tt, s')
    ∧ queues_are s' (qupd f q (f q ++ [c])) ∧ queue_frame s s'.
Proof.
  unfold add_process_to_queue, q_head. mnorm.
  pose proof (proj1 Hq q) as Hql. destruct (Z.eqb_spec (processes q (k_proc s)) NULL) as [E|Hne].
  - destruct add_front_ok as (s' & E' & Hs' & Hf').
    unfold add_process_to_queue_front, q_head in E'. revert E'. mnorm. rewrite E, Z.eqb_refl. intros E'.
    unfold queue_is in Hql. rewrite E in Hql. apply chain_zero in Hql. rewrite Hql in *.
    exists s'. by split_and!.
  - assert (∃ l x, f q = l ++ [x]) as (l & x & El).
    { destruct (f q) as [|y l'] eqn:Ef using rev_ind; [|by exists l', y].
      inversion Hql. by destruct Hne. }
    unfold fuel. mnorm. rewrite El in Hql.
    pose proof (queue_fuel s q _ Hql) as Hlen. rewrite length_app in Hlen. simpl in Hlen.
    mstep (last_node_ok _ next_in_queue _ l x (S (size (k_heap s))) s (next_in_queue_ok s) Hql ltac:(lia)).
    assert (∃ px, get_pcb s x = Some px) as [px Hx].
    { destruct (seg_in _ _ _ _ x Hql) as [_ [b (px & Hpx & _)%qnxt_pcb]]; [set_solver|eauto]. }
    mstep (set_next_ok _ _ c _ Hx). set (s1 := with_next x c px s).
    assert (Hxc : c ≠ x) by (intros ->; apply (Hfree q); rewrite El; set_solver).
    assert (Hc1 : get_pcb s1 c = Some p) by (unfold s1, with_next; by rewrite get_pcb_insert, decide_False).
    rewrite (set_next_ok _ _ NULL _ Hc1). eexists. split; [done|].
    split; [|eapply qf_trans; apply qf_next; eassumption].
    rewrite El. eapply queues_upd; [exact Hq|..].
    + rewrite <- app_assoc. cbn [app]. eapply chain_ext;
        [apply (relink_append _ _ l x c Hql Hc0); rewrite <- El; apply Hfree|].
      intros y _. rewrite qnxt_with_next. unfold relink. destruct (decide (y = c)); [done|].
      unfold s1. by rewrite qnxt_with_next.
    + intros q' Hne'. apply queue_with_next; [|apply Hfree]. apply queue_with_next; [apply (proj1 Hq)|].
      apply (proj2 Hq q); [done|]. rewrite El. set_solver.
    + intros y q' Hy Hne'. apply elem_of_app in Hy as [Hy|Hy%list_elem_of_singleton].
      * apply (proj2 Hq q); [done|]. by rewrite El.
      * subst y. apply Hfree.
Qed.
End ops.

(** Removal by pid, on lists: it looks at the first two processes; [None] is
    a search that never ends. *)
Definition q_remove (pid : Z → option Z) (i : Z) (l : list Z) : option (list Z) :=
  match l with
  | [] => Some []
  | h :: t =>
      if decide (pid h = Some i) then Some t else
      match t with
      | [] => Some [h]
      | x :: t' => if decide (pid x = Some i) then Some (h :: t') else None
      end
  end.

Lemma q_head_ok s q : q_head q s = Ok (processes q (k_proc s), s).
Proof. done. Qed.

Section remove.
Context (s : kst) (f : queue → list Z) (q : queue) (c i : Z).
Hypothesis Hq : queues_are s f.
Hypothesis Hc : pid_at s c = Some i.

Lemma queue_pid x q' : x ∈ f q' → ∃ j, pid_at s x = Some j.
Proof.
  intros Hx. destruct (seg_in _ _ _ _ x (proj1 Hq q') Hx) as [_ [b (px & Hpx & _)%qnxt_pcb]].
  exists (p_pid px). unfold pid_at. by rewrite Hpx.
Qed.

(** One round of the loop on a list of at least two. *)
Lemma remove_loop_step n h x t b : f q = h :: x :: t → qnxt s x = Some b →
  remove_loop (S n) q c s
  = if decide (pid_at s x = Some i) then set_next h b s else remove_loop n q c s.
Proof.
  intros Ef Hx. pose proof (proj1 Hq q) as Hql. rewrite Ef in Hql.
  pose proof (chain_cons_inv _ _ _ _ Hql) as (Eh & Hh0 & m & Hm & H2).
  pose proof (chain_cons_inv _ _ _ _ H2) as (-> & Hx0 & _).
  destruct (queue_pid x q ltac:(rewrite Ef; set_solver)) as [j Hj].
  cbn [remove_loop]. mstep (q_head_ok s q). rewrite Eh.
  mstep (next_in_queue_ok _ _ _ Hm). rewrite (proj2 (Z.eqb_neq x NULL) Hx0).
  mstep (q_head_ok s q). rewrite Eh. mstep (next_in_queue_ok _ _ _ Hm).
  mstep (pid_of_ok _ _ _ Hj). mstep (pid_of_ok _ _ _ Hc). rewrite Hj.
  destruct (Z.eqb_spec j i) as [->|Hne].
  - rewrite decide_True by done. mstep (q_head_ok s q). rewrite Eh.
    mstep (next_in_queue_ok _ _ _ Hm). by mstep (next_in_queue_ok _ _ _ Hx).
  - by rewrite decide_False by congruence.
Qed.

Lemma remove_loop_diverges h x t n : f q = h :: x :: t → pid_at s x ≠ Some i →
  remove_loop n q c s = Timeout.
Proof.
  intros Ef Hx. pose proof (proj1 Hq q) as Hql. rewrite Ef in Hql.
  destruct (seg_in _ _ _ _ x Hql) as [_ [b Hb]]; [set_solver|].
  induction n as [|n IH]; [done|]. rewrite (remove_loop_step n h x t b Ef Hb).
  by rewrite decide_False.
Qed.

(** The rest of a list may replace it. *)
Lemma queues_sub s' l :
  queue_frame s s' → (∀ x, x ∈ l → x ∈ f q) → queue_is s' q l →
  (∀ q', q' ≠ q → queue_is s' q' (f q')) → queues_are s' (qupd f q l).
Proof.
  intros Hf Hl Hql Ho. apply (queues_upd s); try done.
  intros x q' Hx Hne. apply (proj2 Hq q q'); [done|by apply Hl].
Qed.

Lemma remove_ok :
  match q_remove (pid_at s) i (f q) with
  | Some l => ∃ s', remove_process_from_queue q c s = Ok (tt, s')
                ∧ queues_are s' (qupd f q l) ∧ queue_frame s s'
  | None => remove_process_from_queue q c s = Timeout ∧ ∀ n, remove_loop n q c s = Timeout
  end.
Proof.
  pose proof (proj1 Hq q) as Hql. unfold remove_process_from_queue. mnorm.
  rewrite (bind_ok _ _ _ _ _ (q_head_ok s q)).
  destruct (f q) as [|h t] eqn:Ef; cbn [q_remove].
  { assert (processes q (k_proc s) = 0) as -> by (by inversion Hql). cbn [Z.eqb NULL]. exists s. split; [done|].
    split; [|apply qf_refl]. apply queues_sub; [apply qf_refl|set_solver|by rewrite <- Ef; apply Hq|].
    intros q' _. apply Hq. }
  pose proof (chain_cons_inv _ _ _ _ Hql) as (Eh & Hh0 & m & Hm & H2). rewrite Eh.
  rewrite (proj2 (Z.eqb_neq h NULL) Hh0).
  destruct (queue_pid h q ltac:(rewrite Ef; set_solver)) as [j Hj].
  mstep (pid_of_ok _ _ _ Hj). mstep (pid_of_ok _ _ _ Hc). rewrite Hj.
  destruct (Z.eqb_spec j i) as [->|Hne].
  { rewrite decide_True by done. mstep (next_in_queue_ok _ _ _ Hm). unfold set_q_head.
    eexists. split; [done|]. split; [|apply qf_head].
    apply queues_sub; [apply qf_head|rewrite Ef; set_solver|by apply queue_new_head|].
    intros q' Hne. apply queue_upd_head; [apply Hq|done]. }
  rewrite decide_False by congruence. unfold fuel. mnorm.
  destruct t as [|x t].
  { assert (m = 0) as -> by (by inversion H2). cbn [remove_loop]. mstep (q_head_ok s q). rewrite Eh.
    mstep (next_in_queue_ok _ _ _ Hm). exists s. split; [done|]. split; [|apply qf_refl].
    apply queues_sub; [apply qf_refl|rewrite Ef; set_solver|by rewrite <- Ef; apply Hq|].
    intros q' _. apply Hq. }
  pose proof (chain_cons_inv _ _ _ _ H2) as (-> & Hx0 & b & Hb & H3).
  destruct (decide (pid_at s x = Some i)) as [Hp|Hp].
  2:{ split; [|intros n]; by apply (remove_loop_diverges h x t). }
  rewrite (remove_loop_step _ h x t b Ef Hb), decide_True by done.
  destruct (qnxt_pcb _ _ _ Hm) as (ph & Hph & _). rewrite (set_next_ok _ _ b _ Hph).
  eexists. split; [done|]. split; [|by apply qf_next].
  apply queues_sub; [by apply qf_next|rewrite Ef; set_solver|..].
  - eapply chain_ext; [exact (relink_skip _ _ [] h x t b Hql Hb)|]. intros y _. apply qnxt_with_next.
  - intros q' Hne'. apply queue_with_next; [apply Hq|]. apply (proj2 Hq q); [done|]. rewrite Ef. set_solver.
Qed.
End remove.

(** The first process or NULL. *)
Definition first (l : list Z) : Z := match l with [] => NULL | x :: _ => x end.

Lemma queue_head s f q : queues_are s f → processes q (k_proc s) = first (f q).
Proof.
  intros [H _]. specialize (H q). unfold queue_is in H. destruct (f q) as [|x l]; [by inversion H|].
  by apply chain_cons_inv in H as (-> & _).
Qed.

Lemma select_first_ok s f q : queues_are s f →
  select_first_process_from_queue q s = Ok (first (f q), s).
Proof.
  intros H. unfold select_first_process_from_queue. mstep (q_head_ok s q).
  rewrite (queue_head s f q H). by destruct (Z.eqb_spec (first (f q)) NULL) as [->|].
Qed.

Lemma qupd_id s f q : queues_are s f → queues_are s (qupd f q (f q)).
Proof.
  intros Hq. apply (queues_upd s); [done|apply Hq|intros; apply Hq|].
  intros x q' Hx Hne. by apply (proj2 Hq q q').
Qed.

Lemma remove_first_ok s f q : queues_are s f →
  ∃ s', remove_first_process_from_queue q s = Ok (first (f q), s')
    ∧ queues_are s' (qupd f q (tail (f q))) ∧ queue_frame s s'.
Proof.
  intros Hq. unfold remove_first_process_from_queue. mstep (q_head_ok s q).
  rewrite (queue_head s f q Hq). destruct (f q) as [|h t] eqn:Ef; cbn [first tail].
  - exists s. split; [done|]. split; [|apply qf_refl]. rewrite <- Ef. by apply qupd_id.
  - pose proof (proj1 Hq q) as Hql. rewrite Ef in Hql.
    apply chain_cons_inv in Hql as (_ & Hh & _). rewrite (proj2 (Z.eqb_neq h NULL) Hh).
    destruct (queue_pid s f Hq h q) as [i Hi]; [rewrite Ef; set_solver|].
    pose proof (remove_ok s f q h i Hq Hi) as Hr. rewrite Ef in Hr. cbn [q_remove] in Hr.
    rewrite decide_True in Hr by done. destruct Hr as (s' & E & Hs' & Hf). exists s'.
    split; [by mstep E|]. done.
Qed.

Inductive queue_op : Type :=
| QAdd (q : queue) (c : Z)
| QFront (q : queue) (c : Z)
| QRemove (q : queue) (c : Z)
| QSelect (q : queue)
| QTake (q : queue).
Definition run_queue_op (o : queue_op) : M kst Z :=
  match o with
  | QAdd q c => add_process_to_queue q c;; mret 0
  | QFront q c => add_process_to_queue_front q c;; mret 0
  | QRemove q c => remove_process_from_queue q c;; mret 0
  | QSelect q => select_first_process_from_queue q
  | QTake q => remove_first_process_from_queue q
  end.

(** The abstract operations; [None] does not return. *)
Definition abs_queue_op (pid : Z → option Z) (f : queue → list Z) (o : queue_op)
    : option (Z * (queue → list Z)) :=
  match o with
  | QAdd q c => Some (0, qupd f q (f q ++ [c]))
  | QFront q c => Some (0, qupd f q (c :: f q))
  | QRemove q c => i ← pid c; l ← q_remove pid i (f q); Some (0, qupd f q l)
  | QSelect q => Some (first (f q), f)
  | QTake q => Some (first (f q), qupd f q (tail (f q)))
  end.
Definition queue_op_ok (s : kst) (f : queue → list Z) (o : queue_op) : Prop :=
  match o with
  | QAdd _ c | QFront _ c => c ≠ 0 ∧ is_Some (get_pcb s c) ∧ ∀ q, c ∉ f q
  | QRemove _ c => is_Some (get_pcb s c)
  | _ => True
  end.

(** C17: the queues implement lists of processes.  While the four queues hold
    disjoint lists, adding at either end, selecting and taking the first
    process return, do what they say on the list, keep the other queues and
    every field of every process except its link; removal by pid returns
    exactly when the process is among the first two or the queue has fewer
    than two entries, and otherwise does not return. *)
Theorem queue_refinement s f o :
  queues_are s f → queue_op_ok s f o →
  match abs_queue_op (pid_at s) f o with
  | Some (r, f') => ∃ s', run_queue_op o s = Ok (r, s') ∧ queues_are s' f' ∧ queue_frame s s'
  | None => run_queue_op o s = Timeout
  end.
Proof.
  intros Hq Hok. destruct o as [q c|q c|q c|q|q]; cbn [abs_queue_op run_queue_op].
  - destruct Hok as (Hc0 & [p Hp] & Hf).
    destruct (add_back_ok s f q c p Hq Hp Hc0 Hf) as (s' & E & H). exists s'. by mstep E.
  - destruct Hok as (Hc0 & [p Hp] & Hf).
    destruct (add_front_ok s f q c p Hq Hp Hc0 Hf) as (s' & E & H). exists s'. by mstep E.
  - destruct Hok as [p Hp]. assert (Hi : pid_at s c = Some (p_pid p)) by (unfold pid_at; by rewrite Hp).
    rewrite Hi. cbn [mbind option_bind]. pose proof (remove_ok s f q c _ Hq Hi) as Hr.
    destruct (q_remove (pid_at s) (p_pid p) (f q)) as [l|]; cbn [mbind option_bind].
    + destruct Hr as (s' & E & H). exists s'. by mstep E.
    + destruct Hr as [E _]. by rewrite (bind_timeout _ _ _ E).
  - exists s. split; [by apply select_first_ok|]. split; [done|apply qf_refl].
  - by apply remove_first_ok.
Qed.

(** ** First in, first out *)

Fixpoint add_all (q : queue) (cs : list Z) : M kst unit :=
  match cs with [] => mret tt | c :: cs' => add_process_to_queue q c;; add_all q cs' end.
Fixpoint take_all (n : nat) (q : queue) : M kst (list Z) :=
  match n with
  | O => mret []
  | S n' => c ← remove_first_process_from_queue q; l ← take_all n' q; mret (c :: l)
  end.

Lemma qupd_qupd f q l l' q' : qupd (qupd f q l) q l' q' = qupd f q l' q'.
Proof. unfold qupd. by destruct (decide (q' = q)). Qed.
Lemma queues_ext s f f' : queues_are s f → (∀ q, f' q = f q) → queues_are s f'.
Proof.
  intros [H1 H2] E. split; [intros q; rewrite E; apply H1|]. intros q q' x. rewrite !E. apply H2.
Qed.

Lemma add_all_ok q cs s f :
  queues_are s f → NoDup cs → (∀ c, c ∈ cs → c ≠ 0 ∧ is_Some (get_pcb s c) ∧ ∀ q', c ∉ f q') →
  ∃ s', add_all q cs s = Ok (tt, s') ∧ queues_are s' (qupd f q (f q ++ cs)) ∧ queue_frame s s'.
Proof.
  revert s f. induction cs as [|c cs IH]; intros s f Hq Hnd Hcs; cbn [add_all].
  { exists s. split; [done|]. split; [|apply qf_refl]. rewrite app_nil_r. by apply qupd_id. }
  apply NoDup_cons in Hnd as [Hc Hnd]. destruct (Hcs c) as (Hc0 & [p Hp] & Hcf); [set_solver|].
  destruct (add_back_ok s f q c p Hq Hp Hc0 Hcf) as (s1 & E1 & Hq1 & F1).
  destruct (IH s1 (qupd f q (f q ++ [c]))) as (s2 & E2 & Hq2 & F2); [done|done|..].
  { intros d Hd. destruct (Hcs d) as (Hd0 & [pd Hpd] & Hdf); [set_solver|].
    split; [done|]. split; [destruct (qf_get _ _ _ _ F1 Hpd); by eexists|].
    intros q'. unfold qupd. destruct (decide (q' = q)); [|apply Hdf].
    rewrite elem_of_app. intros [H|H%list_elem_of_singleton]; [by apply (Hdf q)|by subst]. }
  exists s2. split; [by mstep E1|]. split; [|by eapply qf_trans].
  eapply queues_ext; [exact Hq2|]. intros q'. rewrite qupd_same, qupd_qupd, <- app_assoc. done.
Qed.

Lemma take_all_ok q l s f :
  queues_are s f → f q = l →
  ∃ s', take_all (length l) q s = Ok (l, s') ∧ queues_are s' (qupd f q []) ∧ queue_frame s s'.
Proof.
  revert s f. induction l as [|c l IH]; intros s f Hq Ef; cbn [take_all length].
  { exists s. split; [done|]. split; [|apply qf_refl]. rewrite <- Ef. by apply qupd_id. }
  destruct (remove_first_ok s f q Hq) as (s1 & E1 & Hq1 & F1). rewrite Ef in E1, Hq1. cbn [first tail] in *.
  destruct (IH s1 _ Hq1 (qupd_same _ _ _)) as (s2 & E2 & Hq2 & F2).
  exists s2. split; [mstep E1; by mstep E2|]. split; [|by eapply qf_trans].
  eapply queues_ext; [exact Hq2|]. intros q'. by rewrite qupd_qupd.
Qed.

(** A queue is first in, first out: processes added to an empty queue are
    taken out in the order they were added, and the queue is empty again. *)
Theorem queue_fifo q cs s f :
  queues_are s f → f q = [] → NoDup cs →
  (∀ c, c ∈ cs → c ≠ 0 ∧ is_Some (get_pcb s c) ∧ ∀ q', c ∉ f q') →
  ∃ s', (add_all q cs;; take_all (length cs) q) s = Ok (cs, s') ∧ queues_are s' f ∧ queue_frame s s'.
Proof.
  intros Hq Ef Hnd Hcs. destruct (add_all_ok q cs s f Hq Hnd Hcs) as (s1 & E1 & Hq1 & F1).
  rewrite Ef in Hq1. cbn [app] in Hq1.
  destruct (take_all_ok q cs s1 _ Hq1 (qupd_same _ _ _)) as (s2 & E2 & Hq2 & F2).
  exists s2. split; [by mstep E1|]. split; [|by eapply qf_trans].
  eapply queues_ext; [exact Hq2|]. intros q'. rewrite qupd_qupd. unfold qupd.
  by destruct (decide (q' = q)) as [->|].
Qed.

(** ** Concrete queues *)

Definition mk_proc (pid next : Z) : pcb :=
  set_p_pid pid (set_p_next_in_queue next (set_p_process_state NORMAL (set_p_on_rq 1 zero_pcb))).
(** Processes 1, 2 and 3 in the run queue, process 4 in no queue. *)
Definition three_queued : kst :=
  upd_proc (set_run_queue 0x1000) (upd_heap (λ _, list_to_map
    [(0x1000, OPcb (mk_proc 1 0x2000)); (0x2000, OPcb (mk_proc 2 0x3000));
     (0x3000, OPcb (mk_proc 3 0)); (0x4000, OPcb (mk_proc 4 0))]) blank_kst).
Definition three_lists (q : queue) : list Z :=
  match q with RunQ => [0x1000; 0x2000; 0x3000] | _ => [] end.

Lemma three_queued_are : queues_are three_queued three_lists.
Proof.
  split.
  - intros []; cbn [three_lists]; try constructor.
    do 3 (eapply seg_cons; [done|vm_compute; reflexivity|]). constructor.
  - intros [] [] x Hne; cbn; set_solver.
Qed.

Lemma queue_refinement_witness :
  run_queue_op (QRemove RunQ 0x3000) three_queued = Timeout
  ∧ ∃ s', run_queue_op (QAdd RunQ 0x4000) three_queued = Ok (0, s')
      ∧ queue_is s' RunQ [0x1000; 0x2000; 0x3000; 0x4000].
Proof.
  split.
  - refine (queue_refinement three_queued three_lists (QRemove RunQ 0x3000) three_queued_are _).
    vm_compute. by eexists.
  - destruct (queue_refinement three_queued three_lists (QAdd RunQ 0x4000) three_queued_are)
      as (s' & E & Hq & _).
    + split; [done|]. split; [vm_compute; by eexists|]. intros []; cbn; set_solver.
    + exists s'. split; [exact E|]. exact (proj1 Hq RunQ).
Defined.

Lemma queue_fifo_witness :
  ∃ s', (add_all BlockedQ [0x4000];; take_all 1 BlockedQ) three_queued = Ok ([0x4000], s').
Proof.
  destruct (queue_fifo BlockedQ [0x4000] three_queued three_lists three_queued_are eq_refl)
    as (s' & E & _).
  - apply NoDup_singleton.
  - intros c Hc%list_elem_of_singleton. subst c. split; [done|].
    split; [vm_compute; by eexists|]. intros []; cbn; set_solver.
  - exists s'. exact E.
Defined.
