(* ===== verification/ProcList.v ===== *)
(** * Process lists (sys/process.c, the list routines)

    [allproc], [zombproc] and the child lists are singly linked lists of
    [struct proc_list] nodes, one frame each.  The routines for [allproc] and
    [zombproc] have the same bodies; they are modelled once, by list. *)

From S2P Require Export Queue VirtMem.

(** ** Model *)

Inductive plist : Type := AllProc | ZombProc.
#[global] Instance plist_eq_dec : EqDecision plist.
Proof. solve_decision. Defined.
Definition pl_head (w : plist) (g : proc_globals) : Z :=
  match w with AllProc => allproc g | ZombProc => zombproc g end.
Definition set_pl_head (w : plist) (v : Z) (g : proc_globals) : proc_globals :=
  match w with AllProc => set_allproc v g | ZombProc => set_zombproc v g end.

Definition node_next (a : Z) : M kst Z := c ← load as_proc_list a; mret (pl_next c).
Definition node_process (a : Z) : M kst Z := c ← load as_proc_list a; mret (pl_process c).
Definition set_node_next (a v : Z) : M kst unit := update_proc_list a (set_pl_next v).

(** The value -1 as a [uint32_t]. *)
Definition ENOMEM : Z := u32 (-1).

(** The common body of [insert_allproc] and [insert_zombproc]. *)
Definition insert_plist (w : plist) (process : Z) : M kst Z :=
  if process =? NULL then mret ENOMEM else
  new ← phys_mem_alloc;
  if new =? NULL then mret ENOMEM else
  let new := kv new in
  store new (OProcList (ProcList process NULL));;
  h ← gets (λ s, pl_head w (k_proc s));
  if h =? NULL then modify (upd_proc (set_pl_head w new));; mret 0 else
  n ← fuel;
  temp ← last_node node_next n h;
  set_node_next temp new;;
  mret 0.
Definition insert_allproc (process : Z) : M kst Z := insert_plist AllProc process.
Definition insert_zombproc (process : Z) : M kst Z := insert_plist ZombProc process.

(** The loop over the nodes after the test of the first one. *)
Fixpoint delete_loop (n : nat) (prev temp process : Z) : M kst Z :=
  match n with
  | O => timeout
  | S n' =>
      nx ← node_next temp;
      if nx =? NULL then
        set_node_next prev NULL;;
        phys_mem_free temp;;
        mret 0
      else
        currp ← node_process temp;
        a ← pid_of currp;
        b ← pid_of process;
        if a =? b then
          nx ← node_next temp;
          set_node_next prev nx;;
          phys_mem_free temp;;
          mret 0
        else
          nx ← node_next temp;
          delete_loop n' temp nx process
  end.

Definition delete_plist (w : plist) (process : Z) : M kst Z :=
  if process =? NULL then mret ENOMEM else
  h ← gets (λ s, pl_head w (k_proc s));
  if h =? NULL then mret 0 else
  p ← node_process h;
  a ← pid_of p;
  b ← pid_of process;
  if a =? b then
    nx ← node_next h;
    modify (upd_proc (set_pl_head w nx));;
    phys_mem_free h;;
    mret 0
  else
    n ← fuel;
    delete_loop n h h process.
Definition delete_from_allproc (process : Z) : M kst Z := delete_plist AllProc process.
Definition delete_from_zombproc (process : Z) : M kst Z := delete_plist ZombProc process.

(** [pchildren] is passed by value: the assignment of the new node to it when
    it is NULL is lost. *)
Definition insert_into_pchildren (pchildren process : Z) : M kst Z :=
  if process =? NULL then mret ENOMEM else
  new ← phys_mem_alloc;
  if new =? NULL then mret ENOMEM else
  let new := kv new in
  store new (OProcList (ProcList process NULL));;
  if pchildren =? NULL then mret 0 else
  n ← fuel;
  temp ← last_node node_next n pchildren;
  set_node_next temp new;;
  mret 0.

Fixpoint find_pid_loop (n : nat) (node pid : Z) : M kst Z :=
  match n with
  | O => timeout
  | S n' =>
      if node =? NULL then kprintf (line "process has already been killed") [];; mret NULL else
      process ← node_process node;
      if process =? NULL then kprintf (line "process has already been killed") [];; mret NULL else
      i ← pid_of process;
      if i =? pid then mret process else
      nx ← node_next node;
      find_pid_loop n' nx pid
  end.
Definition get_process_descriptor_from_pid (pid : Z) : M kst Z :=
  n ← fuel;
  h ← gets (λ s, allproc (k_proc s));
  find_pid_loop (S n) h pid.

Definition get_current_process : M kst Z := gets (λ s, current (k_proc s)).

Definition switch_to_user_cr3 : M kst unit :=
  curr ← get_current_process;
  c ← load as_pcb curr;
  m ← load as_mm (p_mm c);
  set_pml4 (mm_cr3 m).

(** The fields are written one by one on a fresh frame; all five are. *)
Definition init_mm : M kst Z :=
  new ← phys_mem_alloc;
  let new := kv new in
  p ← get_pml4;
  store new (OMm (Mm NULL 0 NULL 0 p));;
  mret new.

Definition reparent_process_to_init (process : Z) : M kst unit :=
  h ← gets (λ s, allproc (k_proc s));
  when (h =? NULL) (kprintf (line "init task undefined") []);;
  init_task ← node_process h;
  update_pcb process (set_p_pptr init_task);;
  c ← load as_pcb init_task;
  err ← insert_into_pchildren (p_cptr c) process;
  when (i32 err <? 0) (kprintf (line "undefined error while reparenting process to init") []).

(** Freed with the kernel addresses, see [free_by_kernel_address_is_lost]. *)
Definition release_task (dead_task : Z) : M kst unit :=
  c ← load as_pcb dead_task;
  phys_mem_free (p_kstack c);;
  phys_mem_free dead_task.

Definition do_wait_thread (child : Z) : M kst Z :=
  c ← load as_pcb child;
  if decide (p_process_state c = DEAD ∧ p_thread_state c = STOPPED) then mret 0
  else if decide (p_process_state c = ZOMBIE ∧ p_thread_state c = STOPPED) then
    update_pcb child (set_p_process_state DEAD);;
    c ← load as_pcb child;
    let retval := p_pid c in
    delete_from_zombproc child;;
    release_task child;;
    mret retval
  else mret 0.

Definition get_pid : M kst Z :=
  modify (upd_proc (λ g, set_last_pid (u32 (last_pid g + 1)) g));;
  s ← get;
  mret (u16 (last_pid (k_proc s))).

(** ** The abstract lists *)

Definition get_node (s : kst) (a : Z) : option proc_list := k_heap s !! a ≫= as_proc_list.
Definition lnxt (s : kst) (a : Z) : option Z := pl_next <$> get_node s a.
Definition lproc (s : kst) (a : Z) : option Z := pl_process <$> get_node s a.

(** The list headed by [a] has the nodes [l], all at kernel addresses. *)
Definition nodes_are (s : kst) (a : Z) (l : list Z) : Prop :=
  chain (lnxt s) a l ∧ Forall (λ x, KERNBASE ≤ x) l.

(** The pid of the process a node stands for. *)
Definition node_pid (s : kst) (a : Z) : option Z := p ← lproc s a; pid_at s p.

Lemma get_node_heap s a c : get_node s a = Some c → k_heap s !! a = Some (OProcList c).
Proof.
  unfold get_node. destruct (k_heap s !! a) as [o|]; [|done]. cbn. destruct o; try done. by intros [= ->].
Qed.
Lemma node_next_ok s a b : lnxt s a = Some b → node_next a s = Ok (b, s).
Proof.
  unfold lnxt. rewrite fmap_Some. intros (c & Hc & ->). unfold node_next.
  by mstep (load_ok as_proc_list _ _ _ Hc).
Qed.
Lemma node_process_ok s a p : lproc s a = Some p → node_process a s = Ok (p, s).
Proof.
  unfold lproc. rewrite fmap_Some. intros (c & Hc & ->). unfold node_process.
  by mstep (load_ok as_proc_list _ _ _ Hc).
Qed.
Lemma node_pid_ok s a i : node_pid s a = Some i →
  ∃ p, node_process a s = Ok (p, s) ∧ pid_of p s = Ok (i, s).
Proof.
  unfold node_pid. intros (p & Hp & Hi)%bind_Some. exists p.
  split; [by apply node_process_ok|by apply pid_of_ok].
Qed.
Lemma lnxt_live s x : is_Some (lnxt s x) → is_Some (k_heap s !! x).
Proof. unfold lnxt. intros [b (c & Hc%get_node_heap & _)%fmap_Some]. by eexists. Qed.
Lemma nodes_fuel s a l : nodes_are s a l → (length l ≤ size (k_heap s))%nat.
Proof. intros [H _]. eapply chain_length; [exact H|apply lnxt_live]. Qed.
Lemma nodes_node s a l x : nodes_are s a l → x ∈ l → ∃ c, get_node s x = Some c.
Proof.
  intros [H _] Hx. destruct (seg_in _ _ _ _ _ H Hx) as [_ [b Hb]].
  unfold lnxt in Hb. apply fmap_Some in Hb as (c & Hc & _). eauto.
Qed.

(** The state after [a->next = v]. *)
Definition with_node_next (a v : Z) (c : proc_list) (s : kst) : kst :=
  upd_heap <[a := OProcList (set_pl_next v c)]> s.
Lemma set_node_next_ok s a v c : get_node s a = Some c →
  set_node_next a v s = Ok (tt, with_node_next a v c s).
Proof.
  intros H. unfold set_node_next, update_proc_list.
  by rewrite (update_ok _ _ _ _ c _ _ (get_node_heap _ _ _ H)).
Qed.
Lemma get_node_insert s a c b :
  get_node (upd_heap <[a := OProcList c]> s) b = if decide (b = a) then Some c else get_node s b.
Proof.
  unfold get_node. cbn. destruct (decide (b = a)) as [->|Hne].
  - by rewrite lookup_insert_eq.
  - by rewrite lookup_insert_ne.
Qed.
Lemma lnxt_with s a v c b : lnxt (with_node_next a v c s) b = relink (lnxt s) a v b.
Proof. unfold lnxt, with_node_next, relink. rewrite get_node_insert. by destruct (decide (b = a)). Qed.
Lemma get_pcb_node s a o b : get_node s a ≠ None ∨ k_heap s !! a = None → as_pcb o = None →
  get_pcb (upd_heap <[a := o]> s) b = get_pcb s b.
Proof.
  intros Ha Ho. unfold get_pcb. cbn. destruct (decide (b = a)) as [->|Hne].
  - rewrite lookup_insert_eq. cbn. rewrite Ho. destruct Ha as [Ha| ->]; [|done].
    destruct (get_node s a) as [c|] eqn:E; [|done]. by rewrite (get_node_heap _ _ _ E).
  - by rewrite lookup_insert_ne.
Qed.

(** What an insertion or deletion leaves alone: all processes and every
    object that is not a list node. *)
Record plist_frame (s s' : kst) : Prop := {
  pf_pcb : ∀ a, get_pcb s' a = get_pcb s a;
  pf_heap : ∀ a o, k_heap s !! a = Some o → as_proc_list o = None → k_heap s' !! a = Some o;
  pf_proc : ∀ a p, lproc s a = Some p → lproc s' a = Some p;
}.
Lemma pf_trans s1 s2 s3 : plist_frame s1 s2 → plist_frame s2 s3 → plist_frame s1 s3.
Proof. intros [? ? ?] [? ? ?]. constructor; [congruence|eauto..]. Qed.
Lemma pf_same s s' : k_heap s' = k_heap s → plist_frame s s'.
Proof. intros E. unfold get_pcb, lproc, get_node. constructor; unfold get_pcb, lproc, get_node; by rewrite E. Qed.
Lemma pf_link s a v c : get_node s a = Some c → plist_frame s (with_node_next a v c s).
Proof.
  intros H. constructor.
  - intros b. apply get_pcb_node; [left; congruence|done].
  - intros b o Hb Ho. unfold with_node_next. cbn. rewrite lookup_insert_ne; [done|]. intros ->.
    rewrite (get_node_heap _ _ _ H) in Hb. by injection Hb as <-.
  - intros b p. unfold lproc, with_node_next. rewrite get_node_insert.
    destruct (decide (b = a)) as [->|]; [|done]. by rewrite H.
Qed.
Lemma pf_new s a c : k_heap s !! a = None → plist_frame s (upd_heap <[a := OProcList c]> s).
Proof.
  intros H. constructor.
  - intros b. apply get_pcb_node; [by right|done].
  - intros b o Hb _. cbn. by rewrite lookup_insert_ne by congruence.
  - intros b p Hb. unfold lproc in *. rewrite get_node_insert. destruct (decide (b = a)) as [->|]; [|done].
    unfold get_node in Hb. by rewrite H in Hb.
Qed.
Lemma pf_pid s s' a : plist_frame s s' → pid_at s' a = pid_at s a.
Proof. intros [H _ _]. unfold pid_at. by rewrite H. Qed.
Lemma pf_node_pid s s' a i : plist_frame s s' → node_pid s a = Some i → node_pid s' a = Some i.
Proof.
  intros F. unfold node_pid. intros (p & Hp & Hi)%bind_Some.
  rewrite (pf_proc _ _ F _ _ Hp). cbn. by rewrite (pf_pid _ _ _ F).
Qed.

(** ** Insertion *)

Lemma nodes_fresh s a c h l : nodes_are s h l → k_heap s !! a = None →
  nodes_are (upd_heap <[a := OProcList c]> s) h l.
Proof.
  intros [H Hk] Ha. split; [|done]. eapply chain_ext; [exact H|]. intros x Hx.
  unfold lnxt. rewrite get_node_insert. rewrite decide_False; [done|]. intros ->.
  destruct (nodes_node s h l a (conj H Hk) Hx) as [c' Hc']. apply get_node_heap in Hc'. congruence.
Qed.
Lemma nodes_fresh_not_in s a h l : nodes_are s h l → k_heap s !! a = None → a ∉ l.
Proof.
  intros H Ha Hx. destruct (nodes_node s h l a H Hx) as [c' Hc']. apply get_node_heap in Hc'. congruence.
Qed.
Lemma nodes_link s a v c h l : nodes_are s h l → a ∉ l → nodes_are (with_node_next a v c s) h l.
Proof.
  intros [H Hk] Ha. split; [|done]. eapply chain_ext; [exact (relink_other _ a v _ _ H Ha)|].
  intros x _. apply lnxt_with.
Qed.
Lemma nodes_heap s s' h l : nodes_are s h l → k_heap s' = k_heap s → nodes_are s' h l.
Proof. intros [H Hk] E. split; [|done]. eapply chain_ext; [exact H|]. intros x _. unfold lnxt, get_node. by rewrite E. Qed.

(** Appending the fresh node [new] to the list headed by [h]. *)
Section append.
Context (s : kst) (new p h : Z) (l : list Z).
Hypothesis Hfresh : k_heap s !! new = None.
Hypothesis Hnew : KERNBASE ≤ new.
Hypothesis Hl : nodes_are s h l.
Hypothesis Hne : h ≠ 0.
Let s1 := upd_heap <[new := OProcList (ProcList p NULL)]> s.

Lemma append_ok :
  ∃ s', (n ← fuel; temp ← last_node node_next n h; set_node_next temp new;; mret 0) s1 = Ok (0, s')
    ∧ nodes_are s' h (l ++ [new]) ∧ lproc s' new = Some p ∧ plist_frame s s'
    ∧ (∀ h' l', nodes_are s h' l' → (∀ x, x ∈ l → x ∉ l') → nodes_are s' h' l')
    ∧ ∃ x o', s' = upd_heap <[x := o']> s1 ∧ is_Some (k_heap s1 !! x).
Proof.
  pose proof (nodes_fresh_not_in s new h l Hl Hfresh) as Hni.
  assert (Hl1 : nodes_are s1 h l) by (by apply nodes_fresh).
  assert (∃ l0 x, l = l0 ++ [x]) as (l0 & x & ->).
  { destruct l as [|y l'] using rev_ind; [|eauto]. destruct Hl as [Hl0 _]. inversion Hl0. by subst. }
  pose proof (nodes_fuel _ _ _ Hl1) as Hlen. rewrite length_app in Hlen. cbn [length] in Hlen.
  unfold fuel. mnorm.
  mstep (last_node_ok _ node_next _ l0 x (S (size (k_heap s1))) s1 (node_next_ok s1) (proj1 Hl1) ltac:(lia)).
  destruct (nodes_node _ _ _ x Hl1) as [c Hc]; [set_solver|].
  mstep (set_node_next_ok s1 x new c Hc). eexists. split; [done|].
  assert (Hxn : x ≠ new) by (intros ->; set_solver).
  assert (Hs1 : get_node s1 new = Some (ProcList p NULL)).
  { unfold s1. by rewrite get_node_insert, decide_True. }
  split_and!.
  - split; [|apply Forall_app; split; [apply Hl|by constructor]].
    rewrite <- app_assoc. cbn [app].
    eapply chain_ext; [apply (relink_append _ _ _ _ new (proj1 Hl1)); [unfold KERNBASE in *; lia|done]|].
    intros y _. rewrite lnxt_with. unfold relink. destruct (decide (y = new)) as [->|]; [|done].
    rewrite decide_False by done. unfold lnxt. by rewrite Hs1.
  - unfold lproc, with_node_next. rewrite get_node_insert, decide_False by done. by rewrite Hs1.
  - eapply pf_trans; [by apply pf_new|]. by apply pf_link.
  - intros h' l' Hl' Hd. apply nodes_link; [by apply nodes_fresh|]. apply Hd. set_solver.
  - exists x. eexists. split; [reflexivity|]. apply get_node_heap in Hc. by eexists.
Qed.
End append.

Lemma kv_kern f : is_frame f → KERNBASE ≤ kv f.
Proof. intros [H _]. apply kv_ge. lia. Qed.

Lemma pl_head_set w v g w' : pl_head w' (set_pl_head w v g) = if decide (w' = w) then v else pl_head w' g.
Proof. by destruct w, w'. Qed.

(** While frames are left, [insert_allproc] and
    [insert_zombproc] of a process return 0 and append one node for it; the
    processes, the other structures and every other list are untouched. *)
Lemma insert_plist_ok base k s w process l :
  frontier base k s → k < n_frames s → process ≠ 0 →
  nodes_are s (pl_head w (k_proc s)) l →
  let new := kv (frame_at base k) in
  ∃ s', insert_plist w process s = Ok (0, s')
    ∧ nodes_are s' (pl_head w (k_proc s')) (l ++ [new]) ∧ lproc s' new = Some process
    ∧ frontier base (k + 1) s' ∧ plist_frame s s'
    ∧ (∀ w', w' ≠ w → pl_head w' (k_proc s') = pl_head w' (k_proc s))
    ∧ ∀ h' l', nodes_are s h' l' → (∀ x, x ∈ l → x ∉ l') → nodes_are s' h' l'.
Proof.
  intros Hf Hk Hp Hl new. unfold insert_plist. rewrite (proj2 (Z.eqb_neq process NULL) Hp).
  destruct (alloc_zeroed base k s (OProcList (ProcList process NULL)) Hf Hk)
    as (s1 & E1 & _ & Hf1 & Hh & Hn & (m & c & Hs1) & Hfresh).
  pose proof (fr_range _ _ _ Hf) as Hr.
  pose proof (is_frame_at _ _ _ k Hf ltac:(lia)) as Hfr.
  mstep E1. rewrite (proj2 (Z.eqb_neq (frame_at base k) NULL)) by (unfold is_frame, NULL in *; lia).
  fold new in Hfresh, Hf1 |- *. unfold store. mnorm. set (s2 := upd_heap _ s1) in *.
  assert (Hhead : ∀ w', pl_head w' (k_proc s2) = pl_head w' (k_proc s)) by (unfold s2; by rewrite Hs1).
  assert (Hfresh1 : k_heap s1 !! new = None) by (by rewrite Hh).
  assert (Hl1 : nodes_are s1 (pl_head w (k_proc s)) l) by (by eapply nodes_heap).
  pose proof (kv_kern _ Hfr) as Hkern. fold new in Hkern.
  rewrite Hhead. destruct (Z.eqb_spec (pl_head w (k_proc s)) NULL) as [E0|Hne].
  - assert (l = []) as -> by (destruct Hl as [Hl _]; rewrite E0 in Hl; by apply chain_zero in Hl).
    eexists. split; [done|]. cbn [app]. split.
    { unfold upd_proc. cbn [k_proc set_k_proc]. rewrite pl_head_set, decide_True by done.
      apply (nodes_heap s2); [|done]. split; [|by constructor]. apply seg_cons with 0; [unfold KERNBASE in *; lia| |constructor].
      unfold lnxt, s2. by rewrite get_node_insert, decide_True. }
    split; [change (lproc s2 new = Some process); unfold lproc, s2; by rewrite get_node_insert, decide_True|].
    split; [by destruct Hf1; constructor|].
    split; [eapply pf_trans; [by apply (pf_same s s1)|]; eapply pf_trans; [by apply (pf_new s1)|by apply (pf_same s2)]|].
    split; [intros w' Hw; unfold upd_proc; cbn [k_proc set_k_proc]; by rewrite pl_head_set, decide_False, Hhead|].
    intros h' l' Hl' _. apply nodes_heap with s2; [|done]. apply nodes_fresh; [by eapply nodes_heap|done].
  - destruct (append_ok s1 new process (pl_head w (k_proc s)) l Hfresh1 Hkern Hl1 Hne)
      as (s' & E & Hl' & Hlp & Hfr' & Ho & x & o' & Hs' & [o Hx]).
    exists s'. split; [exact E|].
    assert (Hhead' : ∀ w', pl_head w' (k_proc s') = pl_head w' (k_proc s)) by (rewrite Hs'; exact Hhead).
    rewrite Hhead'. split_and!; try done.
    + rewrite Hs'. by eapply frontier_insert.
    + eapply pf_trans; [by apply (pf_same s s1)|done].
    + intros h' l' Hl2 Hd. apply Ho; [by eapply nodes_heap|done].
Qed.

(** ** Search *)

Lemma find_loop_ok pid l : ∀ n h s, nodes_are s h l → (length l < n)%nat →
  (∀ x, x ∈ l → ∃ p i, lproc s x = Some p ∧ p ≠ 0 ∧ pid_at s p = Some i) →
  ∃ s', find_pid_loop n h pid s
     = Ok (default NULL (x ← list_find (λ x, node_pid s x = Some pid) l; lproc s x.2), s')
   ∧ same_but_console s s'.
Proof.
  induction l as [|x l IH]; intros n h s [Hc Hk] Hn Hp; (destruct n as [|n]; [lia|]); cbn [find_pid_loop].
  { assert (h = 0) as -> by (by inversion Hc). cbn [Z.eqb NULL]. mprint. by eexists; split; [done|eexists]. }
  pose proof (chain_cons_inv _ _ _ _ Hc) as (-> & Hx0 & b & Hb & Hc').
  rewrite (proj2 (Z.eqb_neq x NULL) Hx0).
  destruct (Hp x) as (p & i & Hlp & Hp0 & Hi); [set_solver|].
  mstep (node_process_ok _ _ _ Hlp). rewrite (proj2 (Z.eqb_neq p NULL) Hp0).
  mstep (pid_of_ok _ _ _ Hi).
  assert (Hnp : node_pid s x = Some i) by (unfold node_pid; by rewrite Hlp).
  cbn [list_find]. destruct (Z.eqb_spec i pid) as [->|Hne].
  - exists s. rewrite decide_True by done. cbn. rewrite Hlp. split; [done|apply sbc_refl].
  - rewrite decide_False by congruence. mstep (node_next_ok _ _ _ Hb).
    apply Forall_cons in Hk as [_ Hk].
    destruct (IH n b s (conj Hc' Hk)) as (s' & E & Hs'); [simpl in Hn; lia|intros y Hy; apply Hp; set_solver|].
    exists s'. split; [|done]. rewrite E. do 2 f_equal.
    destruct (list_find _ l) as [[j y]|]; done.
Qed.

(** Every node stands for a process. *)
Definition nodes_live (s : kst) (l : list Z) : Prop :=
  ∀ x, x ∈ l → ∃ p i, lproc s x = Some p ∧ p ≠ 0 ∧ pid_at s p = Some i.
Lemma nodes_live_frame s s' l : plist_frame s s' → nodes_live s l → nodes_live s' l.
Proof.
  intros F H x Hx. destruct (H x Hx) as (p & i & H1 & H2 & H3). exists p, i.
  split_and!; [by apply (pf_proc _ _ F)|done|by rewrite (pf_pid _ _ _ F)].
Qed.

Lemma lookup_pid_ok pid s l : nodes_are s (allproc (k_proc s)) l → nodes_live s l →
  ∃ s', get_process_descriptor_from_pid pid s
     = Ok (default NULL (x ← list_find (λ x, node_pid s x = Some pid) l; lproc s x.2), s')
   ∧ same_but_console s s'.
Proof.
  intros Hl Hp. unfold get_process_descriptor_from_pid, fuel. mnorm.
  apply find_loop_ok; [done| |done]. pose proof (nodes_fuel _ _ _ Hl). lia.
Qed.

(** A process inserted in [allproc] is the one found under its pid, when
    no process before it has that pid; and no other answer changes. *)
Theorem insert_then_find base k s process i l :
  frontier base k s → k < n_frames s → process ≠ 0 → pid_at s process = Some i →
  nodes_are s (allproc (k_proc s)) l → nodes_live s l →
  (∀ x, x ∈ l → node_pid s x ≠ Some i) →
  ∃ s1 s2, insert_allproc process s = Ok (0, s1)
    ∧ get_process_descriptor_from_pid i s1 = Ok (process, s2)
    ∧ ∀ j, j ≠ i → ∃ r s3 s4,
        get_process_descriptor_from_pid j s = Ok (r, s3)
        ∧ get_process_descriptor_from_pid j s1 = Ok (r, s4).
Proof.
  intros Hf Hk Hp Hi Hl Hlive Hfresh.
  destruct (insert_plist_ok base k s AllProc process l Hf Hk Hp Hl)
    as (s1 & E1 & Hl1 & Hlp & _ & F & _).
  set (new := kv (frame_at base k)) in *. cbn [pl_head] in Hl1.
  assert (Hnew : node_pid s1 new = Some i) by (unfold node_pid; rewrite Hlp; cbn; by rewrite (pf_pid _ _ _ F)).
  assert (Hlive1 : nodes_live s1 (l ++ [new])).
  { intros x [Hx|Hx%list_elem_of_singleton]%elem_of_app; [by apply (nodes_live_frame s s1 l F Hlive)|].
    subst x. exists process, i. by rewrite (pf_pid _ _ _ F). }
  assert (Hsame : ∀ x j, x ∈ l → (node_pid s1 x = Some j ↔ node_pid s x = Some j)).
  { intros x j Hx. destruct (Hlive x Hx) as (p & i' & H1 & H2 & H3).
    assert (node_pid s x = Some i') as E by (unfold node_pid; by rewrite H1).
    by rewrite E, (pf_node_pid _ _ _ _ F E). }
  assert (Hfind : ∀ j, list_find (λ x, node_pid s1 x = Some j) l = list_find (λ x, node_pid s x = Some j) l).
  { intros j. clear - Hsame. induction l as [|x l IH]; [done|]. cbn.
    rewrite IH by (intros; apply Hsame; set_solver).
    destruct (decide (node_pid s x = Some j)) as [H|H].
    - by rewrite decide_True by (apply Hsame; [set_solver|done]).
    - by rewrite decide_False by (rewrite Hsame; [done|set_solver]). }
  assert (Happ : ∀ j, list_find (λ x, node_pid s1 x = Some j) (l ++ [new])
    = match list_find (λ x, node_pid s1 x = Some j) l with
      | Some y => Some y
      | None => if decide (i = j) then Some (length l, new) else None end).
  { intros j. clear - Hnew. induction l as [|x l IH]; cbn.
    - rewrite Hnew. destruct (decide (i = j)) as [->|]; [by rewrite decide_True|by rewrite decide_False by congruence].
    - destruct (decide (node_pid s1 x = Some j)); [done|]. rewrite IH.
      destruct (list_find _ l) as [[]|]; [done|]. by destruct (decide (i = j)). }
  destruct (lookup_pid_ok i s1 _ Hl1 Hlive1) as (s2 & E2 & _).
  exists s1, s2. split; [exact E1|]. split.
  - rewrite E2, Happ, Hfind.
    assert (list_find (λ x, node_pid s x = Some i) l = None) as ->.
    { apply list_find_None. by apply Forall_forall. }
    rewrite decide_True by done. cbn. by rewrite Hlp.
  - intros j Hj. destruct (lookup_pid_ok j s l Hl Hlive) as (s3 & E3 & _).
    destruct (lookup_pid_ok j s1 _ Hl1 Hlive1) as (s4 & E4 & _).
    eexists _, s3, s4. split; [exact E3|]. rewrite E4, Happ, Hfind. do 2 f_equal.
    destruct (list_find _ l) as [[n x]|] eqn:Ef; [|by rewrite decide_False].
    cbn. f_equal. apply list_find_Some in Ef as (Hx & _).
    destruct (Hlive x) as (p & i' & H1 & _); [by eapply list_elem_of_lookup_2|].
    by rewrite H1, (pf_proc _ _ F _ _ H1).
Qed.

(** ** Deletion *)

(** What the loop does after the first node: it stops at the first match
    before the last node, and otherwise drops the last node unseen. *)
Fixpoint del_tail (pid : Z → option Z) (i : Z) (l : list Z) : list Z :=
  match l with
  | [] => []
  | y :: t =>
      match t with
      | [] => []
      | _ :: _ => if decide (pid y = Some i) then t else y :: del_tail pid i t
      end
  end.
Definition del_node (pid : Z → option Z) (i : Z) (l : list Z) : list Z :=
  match l with
  | [] => []
  | x :: t => if decide (pid x = Some i) then t else x :: del_tail pid i t
  end.

Lemma free_high base s a : phys_inv base s → 2 ^ 31 ≤ a → phys_mem_free a s = Ok (tt, rebased s).
Proof.
  intros [Hwf Hc] Ha. rewrite (phys_mem_free_release base _ s Hwf).
  pose proof (phys_wf_nodup _ _ Hwf) as Hnd. fold (the_pages s) in Hnd.
  rewrite release_absent; [by rewrite with_pages_same|apply abs_pages_not_in|done].
  intros (j & Hj & ->)%(addrs_elem base s _ Hwf). pose proof (wf_top _ _ Hwf).
  unfold frame_at, n_frames in *. lia.
Qed.
Lemma rebased_frontier base k s : frontier base k s → frontier base k (rebased s).
Proof.
  intros [Hinv Hr Hu Hc]. constructor; [by apply rebased_inv|..]; unfold n_frames in *;
  rewrite ?rebased_number, ?rebased_pages, ?rebased_heap; done.
Qed.
Lemma nodes_rebased s h l : nodes_are s h l → nodes_are (rebased s) h l.
Proof. intros H. by apply (nodes_heap s); [|apply rebased_heap]. Qed.
Lemma pf_rebased s : plist_frame s (rebased s).
Proof. apply pf_same, rebased_heap. Qed.

Lemma lnxt_rebased s y : lnxt (rebased s) y = lnxt s y.
Proof. unfold lnxt, get_node. by rewrite rebased_heap. Qed.

(** Unlinking [y] and releasing it. *)
Lemma unlink_ok base k s h l1 x y t v :
  frontier base k s → nodes_are s h (l1 ++ x :: y :: t) → lnxt s y = Some v →
  ∃ s', (set_node_next x v;; phys_mem_free y;; mret 0) s = Ok (0, s')
    ∧ nodes_are s' h (l1 ++ x :: t) ∧ frontier base k s' ∧ plist_frame s s'
    ∧ k_proc s' = k_proc s ∧ n_frames s' = n_frames s ∧ ∀ y', y' ≠ x → lnxt s' y' = lnxt s y'.
Proof.
  intros Hf Hl Hv. destruct (nodes_node _ _ _ x Hl) as [c Hc]; [set_solver|].
  mstep (set_node_next_ok s x v c Hc).
  set (s1 := with_node_next x v c s).
  assert (Hf1 : frontier base k s1) by (apply get_node_heap in Hc; by eapply frontier_insert).
  assert (Hy : KERNBASE ≤ y).
  { destruct Hl as [_ H]. apply Forall_app in H as [_ H]. apply Forall_cons in H as [_ H].
    by apply Forall_cons in H as [H _]. }
  mstep (free_high base s1 y (fr_inv _ _ _ Hf1) ltac:(unfold KERNBASE in *; lia)).
  exists (rebased s1). split; [done|]. split_and!.
  - apply nodes_rebased. split.
    + eapply chain_ext; [exact (relink_skip _ _ l1 x y t v (proj1 Hl) Hv)|]. intros z _. apply lnxt_with.
    + destruct Hl as [_ H]. apply Forall_app in H as [H1 H]. apply Forall_cons in H as [Hx H].
      apply Forall_cons in H as [_ H]. apply Forall_app. split; [done|by constructor].
  - by apply rebased_frontier.
  - eapply pf_trans; [by apply pf_link|apply pf_rebased].
  - unfold rebased. by destruct (_ =? _).
  - unfold n_frames. by rewrite rebased_number.
  - intros y' Hy'. rewrite lnxt_rebased. unfold s1. rewrite lnxt_with. unfold relink. by rewrite decide_False.
Qed.

Lemma delete_loop_ok base k s h process i t : ∀ l1 x y n,
  frontier base k s → nodes_are s h (l1 ++ x :: y :: t) → nodes_live s (l1 ++ x :: y :: t) →
  pid_at s process = Some i → (length t < n)%nat →
  ∃ s', delete_loop n x y process s = Ok (0, s')
    ∧ nodes_are s' h (l1 ++ x :: del_tail (node_pid s) i (y :: t))
    ∧ frontier base k s' ∧ plist_frame s s' ∧ k_proc s' = k_proc s ∧ n_frames s' = n_frames s
    ∧ ∀ y', y' ∉ l1 ++ x :: y :: t ∨ y' ≠ x ∧ node_pid s y' = Some i → lnxt s' y' = lnxt s y'.
Proof.
  induction t as [|z t IH]; intros l1 x y n Hf Hl Hlive Hi Hn; (destruct n as [|n]; [lia|]);
    cbn [delete_loop];
    pose proof (proj1 (seg_app _ _ _ _ _) (proj1 Hl)) as (m & H1 & H2);
    pose proof (chain_cons_inv _ _ _ _ H2) as (-> & _ & m2 & _ & H3);
    pose proof (chain_cons_inv _ _ _ _ H3) as (-> & _ & b & Hb & H4).
  - assert (b = 0) as -> by (by inversion H4). mstep (node_next_ok _ _ _ Hb).
    change (0 =? NULL) with true. cbv iota.
    destruct (unlink_ok base k s h l1 x y [] 0 Hf Hl Hb) as (s' & E & ? & ? & ? & ? & ? & Hk).
    exists s'. split_and!; [exact E|done..|]. intros y' Hy'. apply Hk. set_solver.
  - pose proof (chain_cons_inv _ _ _ _ H4) as (-> & Hz0 & _).
    mstep (node_next_ok _ _ _ Hb). rewrite (proj2 (Z.eqb_neq z NULL) Hz0).
    destruct (Hlive y) as (p & j & Hlp & _ & Hj); [set_solver|].
    mstep (node_process_ok _ _ _ Hlp). mstep (pid_of_ok _ _ _ Hj). mstep (pid_of_ok _ _ _ Hi).
    assert (Hnp : node_pid s y = Some j) by (unfold node_pid; by rewrite Hlp).
    cbn [del_tail]. destruct (Z.eqb_spec j i) as [->|Hne].
    + rewrite decide_True by done. mstep (node_next_ok _ _ _ Hb).
      destruct (unlink_ok base k s h l1 x y (z :: t) z Hf Hl Hb) as (s' & E & ? & ? & ? & ? & ? & Hk).
      exists s'. split_and!; [exact E|done..|]. intros y' Hy'. apply Hk. set_solver.
    + rewrite decide_False by congruence. mstep (node_next_ok _ _ _ Hb).
      destruct (IH (l1 ++ [x]) y z n) as (s' & E & Hl' & ? & ? & ? & ? & Hk); rewrite <- ?app_assoc; try done; [simpl in Hn; lia|].
      exists s'. rewrite <- app_assoc in Hl'. split_and!; [exact E|done..|]. intros y' Hy'. apply Hk.
      rewrite <- app_assoc. destruct Hy' as [Hy'|[Hy' Hy2]]; [by left|]. right. split; [|done]. intros ->. congruence.
Qed.

Lemma delete_plist_ok base k s w process i l :
  frontier base k s → process ≠ 0 → pid_at s process = Some i →
  nodes_are s (pl_head w (k_proc s)) l → nodes_live s l →
  ∃ s', delete_plist w process s = Ok (0, s')
    ∧ nodes_are s' (pl_head w (k_proc s')) (del_node (node_pid s) i l)
    ∧ frontier base k s' ∧ plist_frame s s' ∧ n_frames s' = n_frames s
    ∧ (∀ w', w' ≠ w → pl_head w' (k_proc s') = pl_head w' (k_proc s))
    ∧ ∀ y', y' ∉ l ∨ node_pid s y' = Some i → lnxt s' y' = lnxt s y'.
Proof.
  intros Hf Hp Hi Hl Hlive. unfold delete_plist. rewrite (proj2 (Z.eqb_neq process NULL) Hp). mnorm.
  destruct l as [|x l].
  { destruct Hl as [Hc _]. assert (pl_head w (k_proc s) = 0) as E by (by inversion Hc). rewrite E.
    exists s. split; [done|]. rewrite E. split; [split; [constructor|done]|]. split; [done|].
    split; [by apply pf_same|done]. }
  pose proof (chain_cons_inv _ _ _ _ (proj1 Hl)) as (Eh & Hx0 & b & Hb & Hc). rewrite Eh.
  rewrite (proj2 (Z.eqb_neq x NULL) Hx0).
  destruct (Hlive x) as (p & j & Hlp & _ & Hj); [set_solver|].
  mstep (node_process_ok _ _ _ Hlp). mstep (pid_of_ok _ _ _ Hj). mstep (pid_of_ok _ _ _ Hi).
  assert (Hnp : node_pid s x = Some j) by (unfold node_pid; by rewrite Hlp).
  cbn [del_node]. destruct (Z.eqb_spec j i) as [->|Hne].
  - rewrite decide_True by done. mstep (node_next_ok _ _ _ Hb).
    assert (Hk : KERNBASE ≤ x) by (by destruct Hl as [_ [H _]%Forall_cons]).
    set (s1 := upd_proc (set_pl_head w b) s).
    assert (Hf1 : frontier base k s1) by (by destruct Hf; constructor).
    mstep (free_high base s1 x (fr_inv _ _ _ Hf1) ltac:(unfold KERNBASE in *; lia)).
    exists (rebased s1). split; [done|].
    assert (k_proc (rebased s1) = set_pl_head w b (k_proc s)) as -> by (unfold rebased; by destruct (_ =? _)).
    rewrite pl_head_set, decide_True by done. split; [|split; [by apply rebased_frontier|split; [|split; [|split]]]].
    + apply nodes_rebased. apply (nodes_heap s); [|done]. split; [done|]. by destruct Hl as [_ [_ H]%Forall_cons].
    + eapply pf_trans; [by apply (pf_same s s1)|apply pf_rebased].
    + unfold n_frames. by rewrite rebased_number.
    + intros w' Hw. by rewrite pl_head_set, decide_False.
    + intros y' _. by rewrite lnxt_rebased.
  - rewrite decide_False by congruence. unfold fuel. mnorm.
    pose proof (nodes_fuel _ _ _ Hl) as Hlen. simpl in Hlen.
    destruct l as [|y l]; cbn [delete_loop].
    + assert (b = 0) as -> by (by inversion Hc). mstep (node_next_ok _ _ _ Hb).
      destruct (nodes_node _ _ _ x Hl) as [c Hcx]; [set_solver|].
      change (0 =? NULL) with true. cbv iota. mstep (set_node_next_ok s x NULL c Hcx).
      assert (Hcn : pl_next c = 0) by (unfold lnxt in Hb; rewrite Hcx in Hb; by injection Hb).
      assert (with_node_next x NULL c s = s) as ->.
      { unfold with_node_next, upd_heap. rewrite insert_id; [by destruct s|].
        rewrite (get_node_heap _ _ _ Hcx). destruct c. cbn in Hcn. by subst. }
      assert (Hk : KERNBASE ≤ x) by (by destruct Hl as [_ [H _]%Forall_cons]).
      mstep (free_high base s x (fr_inv _ _ _ Hf) ltac:(unfold KERNBASE in *; lia)).
      exists (rebased s). split; [done|].
      assert (k_proc (rebased s) = k_proc s) as -> by (unfold rebased; by destruct (_ =? _)).
      split; [by apply nodes_rebased|]. split; [by apply rebased_frontier|]. split; [apply pf_rebased|].
      split; [unfold n_frames; by rewrite rebased_number|]. split; [done|]. intros y' _. apply lnxt_rebased.
    + pose proof (chain_cons_inv _ _ _ _ Hc) as (-> & Hy0 & _).
      mstep (node_next_ok _ _ _ Hb). rewrite (proj2 (Z.eqb_neq y NULL) Hy0).
      mstep (node_process_ok _ _ _ Hlp). mstep (pid_of_ok _ _ _ Hj). mstep (pid_of_ok _ _ _ Hi).
      rewrite (proj2 (Z.eqb_neq j i) Hne). mstep (node_next_ok _ _ _ Hb). rewrite Eh in Hl.
      destruct (delete_loop_ok base k s x process i l [] x y (size (k_heap s)))
        as (s' & E & Hl' & Hf' & F & Hp' & ? & Hk); [done|done|done|done|simpl in Hlen; lia|].
      exists s'. split; [exact E|]. rewrite Hp', Eh. split_and!; try done.
      intros y' [Hy'|Hy']; apply Hk; [by left|right]. split; [|done]. intros ->. congruence.
Qed.

Lemma del_tail_in pid i l1 x l2 :
  pid x = Some i → (∀ y, y ∈ l1 → pid y ≠ Some i) → del_tail pid i (l1 ++ x :: l2) = l1 ++ l2.
Proof.
  intros Hx. induction l1 as [|y l1 IH]; intros Hl; cbn.
  - destruct l2; [done|]. by rewrite decide_True.
  - rewrite decide_False by (apply Hl; set_solver). rewrite IH by (intros; apply Hl; set_solver).
    by destruct (l1 ++ x :: l2) eqn:E; [destruct l1|].
Qed.

Lemma del_node_in pid i l1 x l2 :
  pid x = Some i → (∀ y, y ∈ l1 → pid y ≠ Some i) → del_node pid i (l1 ++ x :: l2) = l1 ++ l2.
Proof.
  intros Hx Hl1. destruct l1 as [|y l1]; cbn [del_node app]; [by rewrite decide_True|].
  rewrite decide_False by (apply Hl1; set_solver). f_equal. apply del_tail_in; [done|].
  intros; apply Hl1; set_solver.
Qed.

(** Deletion of a listed process.  [delete_from_allproc] and
    [delete_from_zombproc] return 0 and remove exactly the first node whose
    process has the pid of the argument; the other nodes keep their order, and
    no process or other structure changes. *)
Theorem delete_removes_listed base k s w process i l1 x l2 :
  frontier base k s → process ≠ 0 → pid_at s process = Some i →
  nodes_are s (pl_head w (k_proc s)) (l1 ++ x :: l2) → nodes_live s (l1 ++ x :: l2) →
  node_pid s x = Some i → (∀ y, y ∈ l1 → node_pid s y ≠ Some i) →
  ∃ s', delete_plist w process s = Ok (0, s')
    ∧ nodes_are s' (pl_head w (k_proc s')) (l1 ++ l2) ∧ frontier base k s' ∧ plist_frame s s'.
Proof.
  intros Hf Hp Hi Hl Hlive Hx Hl1.
  destruct (delete_plist_ok base k s w process i _ Hf Hp Hi Hl Hlive) as (s' & E & Hl' & Hf' & F & _).
  exists s'. split; [exact E|]. split; [|done].
  by rewrite del_node_in in Hl'.
Qed.

(** Deletion of a process that is not listed drops the last process of
    the list, whatever it is. *)
Theorem delete_unlisted_drops_last base k s w process i l y :
  frontier base k s → process ≠ 0 → pid_at s process = Some i → l ≠ [] →
  nodes_are s (pl_head w (k_proc s)) (l ++ [y]) → nodes_live s (l ++ [y]) →
  (∀ x, x ∈ l ++ [y] → node_pid s x ≠ Some i) →
  ∃ s', delete_plist w process s = Ok (0, s') ∧ nodes_are s' (pl_head w (k_proc s')) l.
Proof.
  intros Hf Hp Hi Hne Hl Hlive Hno.
  destruct (delete_plist_ok base k s w process i _ Hf Hp Hi Hl Hlive) as (s' & E & Hl' & _).
  exists s'. split; [exact E|].
  replace l with (del_node (node_pid s) i (l ++ [y])); [done|].
  destruct l as [|x l]; [done|]. cbn [del_node app].
  rewrite decide_False by (apply Hno; set_solver). f_equal.
  assert (∀ z, z ∈ l → node_pid s z ≠ Some i) as Hn by (intros z Hz; apply Hno; set_solver).
  clear -Hn. induction l as [|z l IH]; [done|]. cbn.
  rewrite decide_False by (apply Hn; set_solver). rewrite IH by (intros; apply Hn; set_solver).
  by destruct (l ++ [y]) eqn:E; [destruct l|].
Qed.

(** ** A concrete table: processes 1, 2 and 3 listed in [allproc], process 4
    not listed. *)

Definition fr (j : Z) : Z := kv (frame_at 0x400000 j).
Definition proc_machine : kst :=
  upd_proc (set_allproc (fr 4)) (machine 7 9 (list_to_map
    [(fr 0, OPcb (mk_proc 1 0)); (fr 1, OPcb (mk_proc 2 0)); (fr 2, OPcb (mk_proc 3 0));
     (fr 3, OPcb (mk_proc 4 0));
     (fr 4, OProcList (ProcList (fr 0) (fr 5))); (fr 5, OProcList (ProcList (fr 1) (fr 6)));
     (fr 6, OProcList (ProcList (fr 2) 0))])).

Lemma proc_machine_frontier : frontier 0x400000 7 proc_machine.
Proof.
  cut (frontier 0x400000 7 (set_k_proc (k_proc blank_kst) proc_machine)).
  { intros []. by constructor. }
  apply (machine_frontier 7 9); [lia|]. intros j Hj.
  assert (j = 7 ∨ j = 8 ∨ j = 9)%nat as [->|[->| ->]] by lia; vm_compute; reflexivity.
Qed.
Lemma proc_machine_nodes : nodes_are proc_machine (allproc (k_proc proc_machine)) [fr 4; fr 5; fr 6].
Proof.
  split.
  - do 3 (eapply seg_cons; [done|vm_compute; reflexivity|]). constructor.
  - by repeat constructor.
Qed.
Lemma proc_machine_live : nodes_live proc_machine [fr 4; fr 5; fr 6].
Proof.
  intros x Hx. assert (x = fr 4 ∨ x = fr 5 ∨ x = fr 6) as [->|[->| ->]] by set_solver;
    (eexists _, _; split_and!; [vm_compute; reflexivity|done|vm_compute; reflexivity]).
Qed.

Lemma insert_then_find_witness :
  ∃ s1 s2, insert_allproc (fr 3) proc_machine = Ok (0, s1)
    ∧ get_process_descriptor_from_pid 4 s1 = Ok (fr 3, s2).
Proof.
  destruct (insert_then_find 0x400000 7 proc_machine (fr 3) 4 [fr 4; fr 5; fr 6])
    as (s1 & s2 & E1 & E2 & _).
  - exact proc_machine_frontier.
  - done.
  - done.
  - vm_compute. reflexivity.
  - exact proc_machine_nodes.
  - exact proc_machine_live.
  - intros x Hx. assert (x = fr 4 ∨ x = fr 5 ∨ x = fr 6) as [->|[->| ->]] by set_solver;
      vm_compute; discriminate.
  - exists s1, s2. exact (conj E1 E2).
Defined.

Lemma delete_removes_listed_witness :
  ∃ s', delete_plist AllProc (fr 1) proc_machine = Ok (0, s')
    ∧ nodes_are s' (pl_head AllProc (k_proc s')) [fr 4; fr 6].
Proof.
  destruct (delete_removes_listed 0x400000 7 proc_machine AllProc (fr 1) 2 [fr 4] (fr 5) [fr 6])
    as (s' & E & Hl & _).
  - exact proc_machine_frontier.
  - done.
  - vm_compute. reflexivity.
  - exact proc_machine_nodes.
  - exact proc_machine_live.
  - vm_compute. reflexivity.
  - intros y Hy%list_elem_of_singleton. subst y. vm_compute. discriminate.
  - exists s'. exact (conj E Hl).
Defined.

Lemma delete_unlisted_drops_last_witness :
  ∃ s', delete_plist AllProc (fr 3) proc_machine = Ok (0, s')
    ∧ nodes_are s' (pl_head AllProc (k_proc s')) [fr 4; fr 5].
Proof.
  apply (delete_unlisted_drops_last 0x400000 7 proc_machine AllProc (fr 3) 4 [fr 4; fr 5] (fr 6)).
  - exact proc_machine_frontier.
  - done.
  - vm_compute. reflexivity.
  - done.
  - exact proc_machine_nodes.
  - exact proc_machine_live.
  - intros x Hx. assert (x = fr 4 ∨ x = fr 5 ∨ x = fr 6) as [->|[->| ->]] by set_solver;
      vm_compute; discriminate.
Defined.
