(* ===== verification/Util.v ===== *)
(** * Kernel utilities (sys/util.c)

    Page rounding, the octal numbers of tar headers, and the string routines.
    A pointer to bytes is the list of bytes from it on; [None] stands for a
    read or write past the end. *)

From S2P Require Export PhysMem.

(** ** Addresses *)

Definition page_round_up (addr : Z) : Z :=
  if addr <? 4096 then addr else Z.land addr (not64 0xFFF).
Definition page_round_down (addr : Z) : Z :=
  let addr := u64 (addr + 0xFFF) in Z.land addr (not64 0xFFF).
Definition page_mask (addr : Z) : Z := Z.land addr (not64 (PAGE_BLOCK_SIZE - 1)).

(** ** Bytes *)

(** [size-- > 0] on a [uint8_t]. *)
Fixpoint oct_loop (size : nat) (data : list Z) (n : Z) : option Z :=
  match size with
  | O => Some n
  | S size' =>
      match data with
      | [] => None
      | c :: data' => oct_loop size' data' (u64 (u64 (n * 8) + (c - chr "0")))
      end
  end.
Definition oct2dec (data : list Z) (size : Z) : option Z := oct_loop (Z.to_nat (u8 size)) data 0.

Fixpoint memcmp_loop (n : nat) (s1 s2 : list Z) (diff : Z) : option Z :=
  match n with
  | O => Some diff
  | S n' =>
      match s1, s2 with
      | a :: s1', b :: s2' =>
          memcmp_loop n' s1' s2' (i32 (diff + ((a - chr "0") - (b - chr "0"))))
      | _, _ => None
      end
  end.
Definition my_memcmp (s1 s2 : list Z) (n : Z) : option Z := memcmp_loop (Z.to_nat n) s1 s2 0.

(** The bytes after the call; one more than [n] is written. *)
Definition my_memset (s : list Z) (c n : Z) : option (list Z) :=
  if n =? 0 then Some s
  else if Z.of_nat (length s) <=? n then None
  else Some (replicate (Z.to_nat n) (u8 c) ++ 0 :: drop (S (Z.to_nat n)) s).

Fixpoint my_strlen (s : list Z) : option Z :=
  match s with
  | [] => None
  | c :: s' => if c =? 0 then Some 0 else n ← my_strlen s'; Some (1 + n)
  end.

Definition my_memcpy (dest src : list Z) (n : Z) : option (list Z) :=
  let n := Z.to_nat n in
  if (n <=? length dest)%nat && (n <=? length src)%nat then Some (take n src ++ drop n dest) else None.

(** The offset of the first [c] before the terminator, [Some None] when there
    is none; characters are signed. *)
Fixpoint my_strchr (cs : list Z) (c : Z) : option (option Z) :=
  match cs with
  | [] => None
  | a :: cs' =>
      if a =? 0 then Some None
      else if i8 a =? c then Some (Some 0)
      else r ← my_strchr cs' c; Some (option_map (λ i, 1 + i) r)
  end.

(** ** my_strtok

    The static variables are the string being split, the offset of [nextS] in
    it and [done]. *)
Record strtok_state : Type := Strtok { st_buf : list Z; st_next : nat; st_done : bool }.

(** [while((my_strchr(ct, *nextS) == NULL) && ( *nextS != 0)) nextS++;] *)
Fixpoint scan_token (ct rest : list Z) (i : nat) : option nat :=
  match rest with
  | [] => None
  | a :: rest' =>
      r ← my_strchr ct (i8 a);
      match r with
      | Some _ => Some i
      | None => if a =? 0 then Some i else scan_token ct rest' (S i)
      end
  end.

(** [done = ( *nextS == 0); *nextS = 0;] *)
Definition end_token (buf : list Z) (i : nat) : option strtok_state :=
  a ← buf !! i; Some (Strtok (<[i := 0]> buf) i (a =? 0)).

(** The token is returned as its offset in the string, [None] is NULL. *)
Definition my_strtok (s : option (list Z)) (ct : list Z) (st : strtok_state)
    : option (option nat * strtok_state) :=
  match s with
  | Some s =>
      a ← s !! 0%nat;
      if a =? 0 then Some (None, Strtok (st_buf st) (st_next st) true)
      else i ← scan_token ct s 0; st' ← end_token s i; Some (Some 0%nat, st')
  | None =>
      if st_done st then Some (None, st)
      else
        let i := S (st_next st) in
        j ← scan_token ct (drop i (st_buf st)) i;
        st' ← end_token (st_buf st) j; Some (Some i, st')
  end.

(** A fresh frame with both strings; nothing past the terminator is written. *)
Definition my_strcat (dest src : list Z) : M kst Z :=
  newS ← phys_mem_alloc;
  let newS := kv newS in
  d ← of_option (cstring dest);
  s ← of_option (cstring src);
  if (length d + length s <? Z.to_nat PAGE_BLOCK_SIZE)%nat
  then store newS (OBytes (d ++ s ++ [0]));; mret newS
  else ub.

(** ** Rounding *)

Lemma land_not_fff a : 0 ≤ a < 2 ^ 64 → Z.land a (not64 0xFFF) = 4096 * (a / 4096).
Proof.
  intros Ha. apply Z.bits_inj'. intros i Hi. rewrite Z.land_spec.
  replace (4096 * (a / 4096)) with (Z.shiftl (Z.shiftr a 12) 12)
    by (rewrite Z.shiftl_mul_pow2, Z.shiftr_div_pow2 by lia; change (2 ^ 12) with 4096; lia).
  rewrite Z.shiftl_spec by done. destruct (Z_lt_le_dec i 64).
  - unfold not64, u64. rewrite Z.mod_pow2_bits_low, Z.lnot_spec by lia.
    change 0xFFF with (Z.ones 12). destruct (Z_lt_le_dec i 12).
    + rewrite Z.testbit_ones_nonneg, (proj2 (Z.ltb_lt i 12)) by lia.
      by rewrite andb_false_r, Z.testbit_neg_r by lia.
    + rewrite Z.testbit_ones_nonneg, (proj2 (Z.ltb_ge i 12)), andb_true_r by lia.
      rewrite Z.shiftr_spec by lia. f_equal. lia.
  - rewrite (testbit_high a 64 i) by lia. rewrite Z.shiftr_spec by lia.
    by rewrite (testbit_high a 64 (i - 12 + 12)) by lia.
Qed.

(** Page rounding.  On a 64-bit address [page_round_up] is the start of
    the page the address lies in (addresses below 4096 are left alone), and
    [page_round_down], where it does not wrap, is the first page boundary at
    or above the address: each does what the other's name says.  [page_mask]
    is the start of the page everywhere. *)
Theorem page_rounding a :
  0 ≤ a < 2 ^ 64 →
  (4096 ≤ a → page_round_up a = 4096 * (a / 4096))
  ∧ (a < 4096 → page_round_up a = a)
  ∧ (a < 2 ^ 64 - 4096 → a ≤ page_round_down a < a + 4096 ∧ page_round_down a mod 4096 = 0)
  ∧ page_mask a = 4096 * (a / 4096).
Proof.
  intros Ha. unfold page_round_up, page_round_down, page_mask. split_and!.
  - intros H. rewrite (proj2 (Z.ltb_ge a 4096)) by done. by apply land_not_fff.
  - intros H. by rewrite (proj2 (Z.ltb_lt a 4096)).
  - intros H. rewrite u64_small by lia. rewrite land_not_fff by lia.
    split; [Z.div_mod_to_equations; lia|]. rewrite Z.mul_comm. by apply Z.mod_mul.
  - by apply land_not_fff.
Qed.

Lemma page_rounding_witness :
  page_round_up 0x1fff = 0x1000 ∧ page_round_down 0x1001 = 0x2000.
Proof.
  destruct (page_rounding 0x1fff ltac:(lia)) as (H1 & _ & _ & _).
  destruct (page_rounding 0x1001 ltac:(lia)) as (_ & _ & H2 & _).
  split; [rewrite H1 by lia; reflexivity|]. reflexivity.
Defined.

(** ** Octal numbers *)

(** The low [n] octal digits of [v], most significant first, as a tar header
    writes them. *)
Fixpoint oct_digits (n : nat) (v : Z) : list Z :=
  match n with O => [] | S n' => oct_digits n' (v / 8) ++ [chr "0" + v mod 8] end.

Lemma length_oct_digits n v : length (oct_digits n v) = n.
Proof. revert v. induction n as [|n IH]; intros v; cbn [oct_digits]; [done|]. rewrite length_app, IH. simpl. lia. Qed.

Lemma oct_loop_snoc l c r acc :
  oct_loop (S (length l)) (l ++ c :: r) acc
  = (n ← oct_loop (length l) (l ++ c :: r) acc; Some (u64 (u64 (n * 8) + (c - chr "0")))).
Proof. revert acc. induction l as [|x l IH]; intros acc; [done|]. cbn. apply IH. Qed.

Lemma oct_loop_prefix l r acc : oct_loop (length l) (l ++ r) acc = oct_loop (length l) l acc.
Proof. revert acc. induction l as [|x l IH]; intros acc; [done|]. cbn. apply IH. Qed.

Lemma oct_loop_digits n v rest :
  (n ≤ 21)%nat → 0 ≤ v < 8 ^ Z.of_nat n → oct_loop n (oct_digits n v ++ rest) 0 = Some v.
Proof.
  intros Hn. revert v rest. induction n as [|n IH]; intros v rest Hv.
  { simpl in *. f_equal. lia. }
  assert (Hb : 8 ^ Z.of_nat n ≤ 8 ^ 20) by (apply Z.pow_le_mono_r; lia).
  rewrite Nat2Z.inj_succ, Z.pow_succ_r in Hv by lia.
  pose proof (Z.div_mod v 8 ltac:(lia)). pose proof (Z.mod_pos_bound v 8 ltac:(lia)).
  assert (Hq : 0 ≤ v / 8 < 8 ^ Z.of_nat n) by (split; [apply Z.div_pos|apply Z.div_lt_upper_bound]; lia).
  cbn [oct_digits]. rewrite <- app_assoc. cbn [app].
  rewrite <- (length_oct_digits n (v / 8)) at 1. rewrite oct_loop_snoc, length_oct_digits.
  rewrite IH by lia. cbn [mbind option_bind]. f_equal.
  assert (8 ^ 20 = 1152921504606846976) as E20 by reflexivity.
  rewrite (u64_small (v / 8 * 8)) by lia. rewrite u64_small by lia. lia.
Qed.

(** The numbers of a tar header: [oct2dec] of the [n] octal digits of [v]
    is [v], whatever follows them, for every width up to 21 digits. *)
Theorem oct2dec_digits n v rest :
  (n ≤ 21)%nat → 0 ≤ v < 8 ^ Z.of_nat n →
  oct2dec (oct_digits n v ++ rest) (Z.of_nat n) = Some v.
Proof.
  intros Hn Hv. unfold oct2dec, u8. rewrite Z.mod_small, Nat2Z.id by lia. by apply oct_loop_digits.
Qed.

Lemma oct2dec_digits_witness : oct2dec (bytes_of_string "00000001750") 11 = Some 1000.
Proof. exact (oct2dec_digits 11 1000 [] ltac:(lia) ltac:(split; [lia|reflexivity])). Defined.

(** ** Comparison *)

Definition is_byte (c : Z) : Prop := 0 ≤ c < 256.
Lemma bytes_of_string_byte str : Forall is_byte (bytes_of_string str).
Proof.
  apply Forall_fmap, Forall_true. intros c. unfold is_byte. cbn.
  pose proof (Ascii.N_ascii_bounded c). lia.
Qed.

Fixpoint sum (l : list Z) : Z := match l with [] => 0 | x :: l' => x + sum l' end.

Lemma sum_perm l l' : l ≡ₚ l' → sum l = sum l'.
Proof. induction 1; simpl; lia. Qed.

Lemma memcmp_loop_sum l1 l2 d :
  length l1 = length l2 → Forall is_byte l1 → Forall is_byte l2 →
  Z.abs d + 256 * Z.of_nat (length l1) < 2 ^ 31 →
  memcmp_loop (length l1) l1 l2 d = Some (d + sum l1 - sum l2).
Proof.
  revert l2 d. induction l1 as [|a l1 IH]; intros [|b l2] d Hl H1 H2 Hd; try done.
  { cbn. f_equal. lia. }
  apply Forall_cons in H1 as [Ha H1]. apply Forall_cons in H2 as [Hb H2].
  cbn [memcmp_loop length sum]. unfold is_byte in *.
  assert (Z.of_nat (length (a :: l1)) = 1 + Z.of_nat (length l1)) as El by (simpl length; lia).
  rewrite El in Hd. rewrite i32_small by lia. rewrite IH; [f_equal; lia|by injection Hl|done|done|lia].
Qed.

(** [my_memcmp] compares sums of bytes, not the bytes: on two buffers of
    the same length up to 2^22 it returns the difference of their sums, so it
    is 0 on any two buffers with the same bytes in a different order. *)
Theorem my_memcmp_compares_sums l1 l2 :
  length l1 = length l2 → Forall is_byte l1 → Forall is_byte l2 →
  Z.of_nat (length l1) < 2 ^ 22 →
  my_memcmp l1 l2 (Z.of_nat (length l1)) = Some (sum l1 - sum l2)
  ∧ (l1 ≡ₚ l2 → my_memcmp l1 l2 (Z.of_nat (length l1)) = Some 0).
Proof.
  intros Hl H1 H2 Hn. unfold my_memcmp. rewrite Nat2Z.id, memcmp_loop_sum by (done || lia).
  split; [f_equal; lia|]. intros Hp. rewrite (sum_perm _ _ Hp). f_equal. lia.
Qed.

Lemma my_memcmp_compares_sums_witness :
  my_memcmp (bytes_of_string "ab") (bytes_of_string "ba") 2 = Some 0.
Proof.
  refine (proj2 (my_memcmp_compares_sums (bytes_of_string "ab") (bytes_of_string "ba") _ _ _ _) _);
    [reflexivity|apply bytes_of_string_byte|apply bytes_of_string_byte|reflexivity|]. apply perm_swap.
Defined.

(** ** Tokens *)

(** The pieces of a string between delimiters, empty pieces included. *)
Fixpoint split (isd : Z → bool) (l : list Z) : list (list Z) :=
  match l with
  | [] => [[]]
  | c :: l' =>
      if isd c then [] :: split isd l'
      else match split isd l' with t :: ts => (c :: t) :: ts | [] => [[c]] end
  end.

Definition is_char (c : Z) : Prop := 0 < c < 256.
Definition is_delim (ds : list Z) (a : Z) : bool := existsb (λ d, i8 d =? i8 a) ds.

Lemma i8_zero c : is_char c → i8 c ≠ 0.
Proof.
  unfold is_char, i8, signed. intros Hc. rewrite Z.mod_small by lia.
  destruct (Z.ltb_spec c (2 ^ (8 - 1))); lia.
Qed.

Lemma strchr_delims ds a : Forall is_char ds →
  ∃ r, my_strchr (ds ++ [0]) (i8 a) = Some r ∧ (is_Some r ↔ is_delim ds a = true).
Proof.
  induction 1 as [|d ds Hd _ (r & E & Hr)]; cbn.
  { exists None. split; [done|]. split; [by intros []|done]. }
  unfold is_char in Hd. rewrite (proj2 (Z.eqb_neq d 0)) by lia.
  destruct (Z.eqb_spec (i8 d) (i8 a)) as [He|Hne].
  - exists (Some 0). split; [done|]. rewrite orb_true_l. by split; [|eexists].
  - rewrite E. eexists. split; [done|]. rewrite orb_false_l, <- Hr.
    split; [intros [x Hx]; destruct r; [by eexists|done]|intros [x ->]; by eexists].
Qed.

Lemma nul_no_delim ds : Forall is_char ds → is_delim ds 0 = false.
Proof.
  intros H. apply not_true_iff_false. intros (d & Hd & He)%existsb_exists.
  apply Z.eqb_eq in He. apply list_elem_of_In in Hd. eapply Forall_forall in H; [|exact Hd].
  by apply (i8_zero d).
Qed.

Definition first_token (isd : Z → bool) (l : list Z) : list Z :=
  match split isd l with t :: _ => t | [] => [] end.
Lemma split_nonempty isd l : split isd l = first_token isd l :: tail (split isd l).
Proof.
  unfold first_token. destruct l as [|c l]; [done|]. cbn. destruct (isd c); [done|]. by destruct (split isd l).
Qed.

(** Where the scan stops: after the first piece, at a delimiter or the end. *)
Lemma scan_token_ok ds rest i : Forall is_char ds → Forall is_char rest →
  let t := first_token (is_delim ds) rest in
  scan_token (ds ++ [0]) (rest ++ [0]) i = Some (i + length t)%nat
  ∧ ((rest = t ∧ split (is_delim ds) rest = [t])
     ∨ ∃ d rest', rest = t ++ d :: rest' ∧ is_char d ∧ Forall is_char rest'
         ∧ split (is_delim ds) rest = t :: split (is_delim ds) rest').
Proof.
  intros Hds Hr. revert i. induction Hr as [|a rest Ha Hrest IH]; intros i t.
  - cbn [app scan_token]. destruct (strchr_delims ds 0 Hds) as (r & E & Hr). rewrite E. cbn [mbind option_bind].
    rewrite (nul_no_delim ds Hds) in Hr. destruct r; [by assert (false = true) by (apply Hr; by eexists)|].
    change (0 =? 0) with true. split; [f_equal; cbn; lia|]. by left.
  - cbn [app scan_token]. destruct (strchr_delims ds a Hds) as (r & E & Hr). rewrite E. cbn [mbind option_bind].
    unfold t, first_token. cbn [split]. destruct (is_delim ds a) eqn:Hd.
    + destruct (proj2 Hr eq_refl) as [x ->]. split; [f_equal; simpl; lia|]. right. by exists a, rest.
    + destruct r; [by assert (false = true) by (apply Hr; by eexists)|].
      rewrite (proj2 (Z.eqb_neq a 0)) by (unfold is_char in Ha; lia).
      destruct (IH (S i)) as [E' Hc]. rewrite (split_nonempty _ rest).
      split; [rewrite E'; f_equal; simpl; lia|].
      destruct Hc as [[E1 E2]|(d & rest' & E1 & Hcd & Hcr & E2)].
      * left. rewrite E2. split; [by rewrite E1 at 1|done].
      * right. exists d, rest'. rewrite E2. cbn [tail]. split_and!; [|done..]. by rewrite E1 at 1.
Qed.

(** Repeated calls with NULL: the tokens as C strings, up to the call that
    returns NULL; [None] when [n] calls do not suffice. *)
Fixpoint more_tokens (n : nat) (ct : list Z) (st : strtok_state) : option (list (list Z)) :=
  match n with
  | O => None
  | S n' =>
      x ← my_strtok None ct st;
      match x.1 with
      | None => Some []
      | Some off => t ← cstring (drop off (st_buf x.2)); ts ← more_tokens n' ct x.2; Some (t :: ts)
      end
  end.
Definition all_tokens (n : nat) (s ct : list Z) (st : strtok_state) : option (list (list Z)) :=
  x ← my_strtok (Some s) ct st;
  match x.1 with
  | None => Some []
  | Some off => t ← cstring (drop off (st_buf x.2)); ts ← more_tokens n ct x.2; Some (t :: ts)
  end.

Lemma char_no_nul l : Forall is_char l → no_nul l.
Proof. intros H. eapply Forall_impl; [exact H|]. unfold is_char. cbn. lia. Qed.

Lemma drop_mid {A} (pre l : list A) : drop (length pre) (pre ++ l) = l.
Proof. by rewrite drop_app_length. Qed.

(** A token that starts at [length pre], with [rest] the unread characters. *)
Lemma end_token_ok ds pre rest : Forall is_char ds → Forall is_char rest →
  let t := first_token (is_delim ds) rest in
  ∃ st', end_token (pre ++ rest ++ [0]) (length pre + length t) = Some st'
    ∧ cstring (drop (length pre) (st_buf st')) = Some t
    ∧ st_next st' = (length pre + length t)%nat
    ∧ ((st_done st' = true ∧ split (is_delim ds) rest = [t])
       ∨ ∃ rest', st_done st' = false ∧ Forall is_char rest'
           ∧ st_buf st' = (pre ++ t ++ [0]) ++ rest' ++ [0]
           ∧ (length rest' < length rest)%nat
           ∧ split (is_delim ds) rest = t :: split (is_delim ds) rest').
Proof.
  intros Hds Hr t. destruct (scan_token_ok ds rest 0 Hds Hr) as [_ Hc]. fold t in Hc. clearbody t.
  assert (Ht : no_nul t).
  { destruct Hc as [[E _]|(d & r' & E & _)]; apply char_no_nul; rewrite E in Hr; [done|].
    by apply Forall_app in Hr as [Hr _]. }
  unfold end_token. rewrite lookup_app_r, Nat.add_comm, Nat.add_sub by lia.
  destruct Hc as [[E1 E2]|(d & rest' & E1 & Hd & Hr' & E2)].
  - subst rest. rewrite list_lookup_middle by done. cbn [mbind option_bind].
    eexists. split; [done|]. cbn [st_buf st_next st_done].
    rewrite insert_app_r_alt, Nat.add_sub by lia. rewrite insert_app_r_alt, Nat.sub_diag by lia.
    cbn. split; [rewrite drop_mid; by apply cstring_app|]. split; [lia|]. by left.
  - subst rest. rewrite <- app_assoc. cbn [app]. rewrite list_lookup_middle by done. cbn [mbind option_bind].
    eexists. split; [done|]. cbn [st_buf st_next st_done].
    rewrite insert_app_r_alt, Nat.add_sub by lia. rewrite insert_app_r_alt, Nat.sub_diag by lia. cbn [insert list_insert].
    split; [rewrite drop_mid; by apply cstring_app|]. split; [lia|]. right. exists rest'. split_and!; try done.
    + apply Z.eqb_neq. unfold is_char in Hd. lia.
    + rewrite <- !app_assoc. done.
    + rewrite length_app. simpl. lia.
Qed.

Lemma more_tokens_ok ds n : ∀ pre rest st, Forall is_char ds → Forall is_char rest →
  (length rest + 1 < n)%nat → st_done st = false → pre ≠ [] → S (st_next st) = length pre →
  st_buf st = pre ++ rest ++ [0] →
  more_tokens n (ds ++ [0]) st = Some (split (is_delim ds) rest).
Proof.
  induction n as [|n IH]; intros pre rest st Hds Hr Hn Hdone Hpre Hnext Hbuf; [lia|].
  destruct (end_token_ok ds pre rest Hds Hr) as (st' & E & Hcs & Hnx & Hcase).
  destruct (scan_token_ok ds rest (length pre) Hds Hr) as [Esc _].
  cbn [more_tokens my_strtok]. rewrite Hdone, Hnext, Hbuf, drop_mid, Esc.
  cbn [mbind option_bind]. rewrite E. cbn [mbind option_bind fst snd]. rewrite Hcs. cbn [mbind option_bind].
  destruct Hcase as [[Hd Es]|(rest' & Hd & Hr' & Hb & Hlen & Es)]; rewrite Es.
  - destruct n as [|n]; [lia|]. cbn [more_tokens my_strtok]. by rewrite Hd.
  - rewrite (IH (pre ++ first_token (is_delim ds) rest ++ [0]) rest' st'); try done; [lia|by destruct pre|].
    rewrite Hnx, !length_app. simpl. lia.
Qed.

(** C27: splitting a string.  On a nonempty string and any delimiters,
    [my_strtok(s, ct)] followed by calls with NULL yields exactly the pieces of
    the string between delimiters, in order and with empty pieces, and then
    NULL; as many calls as characters plus two are enough. *)
Theorem my_strtok_splits ds cs st :
  Forall is_char ds → Forall is_char cs → cs ≠ [] →
  all_tokens (length cs + 2) (cs ++ [0]) (ds ++ [0]) st = Some (split (is_delim ds) cs).
Proof.
  intros Hds Hcs Hne.
  destruct (end_token_ok ds [] cs Hds Hcs) as (st' & E & Ht & Hnx & Hcase).
  destruct (scan_token_ok ds cs 0 Hds Hcs) as [Esc _].
  unfold all_tokens, my_strtok.
  destruct cs as [|c cs]; [done|]. cbn [app lookup list_lookup mbind option_bind].
  assert (c ≠ 0) as Hc by (apply Forall_cons in Hcs as [Hc _]; unfold is_char in Hc; lia).
  rewrite (proj2 (Z.eqb_neq c 0) Hc).
  change (c :: cs ++ [0]) with ((c :: cs) ++ [0]). rewrite Esc. cbn [mbind option_bind app length] in *.
  rewrite E. cbn [mbind option_bind fst snd]. rewrite Ht. cbn [mbind option_bind].
  destruct Hcase as [[Hd Es]|(rest' & Hd & Hr' & Hb & Hlen & Es)]; rewrite Es.
  - rewrite Nat.add_comm. cbn [Nat.add more_tokens my_strtok]. by rewrite Hd.
  - rewrite (more_tokens_ok ds _ (first_token (is_delim ds) (c :: cs) ++ [0]) rest' st'); try done.
    + simpl in Hlen. lia.
    + by destruct (first_token (is_delim ds) (c :: cs)).
    + rewrite Hnx, length_app. simpl. lia.
Qed.

Lemma my_strtok_splits_witness :
  all_tokens 8 (bytes_of_string "a//bin" ++ [0]) (bytes_of_string "/" ++ [0]) (Strtok [] 0 true)
  = Some [bytes_of_string "a"; []; bytes_of_string "bin"].
Proof.
  refine (my_strtok_splits (bytes_of_string "/") (bytes_of_string "a//bin") (Strtok [] 0 true) _ _ _);
    [..|discriminate]; apply Forall_forall; intros c Hc; unfold is_char;
    vm_compute in Hc; repeat (apply elem_of_cons in Hc as [->|Hc]; [lia|]); by apply elem_of_nil in Hc.
Defined.
