(* ===== verification/Devices.v ===== *)
(** * Devices (sys/pic.c, sys/pit.c, sys/idt.c, sys/pci.c, sys/common.c)

    Port input and output go to hardware.  The kernel's side is a trace of
    port accesses; the hardware's side is a parameter [hw] that answers a read
    of a port from the accesses made so far. *)

From S2P Require Export Kprintf.

Definition hardware : Type := list io_event → Z → Z.

Section devices.
Context (hw : hardware).

(** ** Ports (include/sys/pic.h, include/sys/pci.h) *)

Definition event (e : io_event) : M kst unit := modify (λ s, set_k_trace (e :: k_trace s) s).
Definition outb (port val : Z) : M kst unit := event (OutPort port (u8 val)).
Definition inb (port : Z) : M kst Z :=
  t ← gets k_trace; let v := u8 (hw t port) in event (InPort port v);; mret v.
Definition outbig (reg val : Z) : M kst unit := event (OutPort reg (u32 val)).
Definition inbig (reg : Z) : M kst Z :=
  t ← gets k_trace; let v := u32 (hw t reg) in event (InPort reg v);; mret v.

(** ** The interrupt controller (sys/pic.c) *)

Definition I86_PIC_MASTER_COMMAND_REGISTER : Z := 0x20.
Definition I86_PIC_SLAVE_COMMAND_REGISTER : Z := 0xA0.
Definition I86_PIC_MASTER_DATA_REGISTER : Z := 0x21.
Definition I86_PIC_SLAVE_DATA_REGISTER : Z := 0xA1.
Definition I86_PIC_END_OF_INTERRUPT : Z := 0x20.
Definition INIT_PIC_CMD_WORD : Z := 0x11.
Definition MODE_8086 : Z := 0x01.

Definition i86_initialize_pic (pic_master_base pic_slave_base : Z) : M kst unit :=
  a1 ← inb I86_PIC_MASTER_DATA_REGISTER;
  a2 ← inb I86_PIC_SLAVE_DATA_REGISTER;
  outb I86_PIC_MASTER_COMMAND_REGISTER INIT_PIC_CMD_WORD;;
  outb I86_PIC_SLAVE_COMMAND_REGISTER INIT_PIC_CMD_WORD;;
  outb I86_PIC_MASTER_DATA_REGISTER pic_master_base;;
  outb I86_PIC_SLAVE_DATA_REGISTER pic_slave_base;;
  outb I86_PIC_MASTER_DATA_REGISTER 4;;
  outb I86_PIC_SLAVE_DATA_REGISTER 2;;
  outb I86_PIC_MASTER_DATA_REGISTER MODE_8086;;
  outb I86_PIC_SLAVE_DATA_REGISTER MODE_8086;;
  outb I86_PIC_MASTER_DATA_REGISTER a1;;
  outb I86_PIC_SLAVE_DATA_REGISTER a2.

Definition i86_set_mask (irq : Z) : M kst unit :=
  if 7 <? irq then
    val ← inb I86_PIC_SLAVE_DATA_REGISTER;
    outb I86_PIC_SLAVE_DATA_REGISTER (Z.lor val (Z.shiftl 1 (irq - 8)))
  else
    val ← inb I86_PIC_MASTER_DATA_REGISTER;
    outb I86_PIC_MASTER_DATA_REGISTER (Z.lor val (Z.shiftl 1 irq)).

Definition i86_clear_mask (irq : Z) : M kst unit :=
  if 7 <? irq then
    val ← inb I86_PIC_SLAVE_DATA_REGISTER;
    outb I86_PIC_SLAVE_DATA_REGISTER (Z.land val (Z.lnot (Z.shiftl 1 (irq - 8))))
  else
    val ← inb I86_PIC_MASTER_DATA_REGISTER;
    outb I86_PIC_MASTER_DATA_REGISTER (Z.land val (Z.lnot (Z.shiftl 1 irq))).

Definition i86_read_status_regs (cmd : Z) : M kst Z :=
  outb I86_PIC_MASTER_COMMAND_REGISTER cmd;;
  outb I86_PIC_SLAVE_COMMAND_REGISTER cmd;;
  hi ← inb I86_PIC_SLAVE_COMMAND_REGISTER;
  lo ← inb I86_PIC_MASTER_COMMAND_REGISTER;
  mret (u16 (Z.lor (Z.shiftl hi 8) lo)).

Definition i86_pic_send_eoi_command (irq : Z) : M kst unit :=
  when (7 <? irq) (outb I86_PIC_SLAVE_COMMAND_REGISTER I86_PIC_END_OF_INTERRUPT);;
  outb I86_PIC_MASTER_COMMAND_REGISTER I86_PIC_END_OF_INTERRUPT.

Definition i86_pic_send_data (data picNum : Z) : M kst unit :=
  if 1 <? picNum then mret tt
  else if picNum =? 0 then outb I86_PIC_MASTER_DATA_REGISTER data
  else outb I86_PIC_SLAVE_DATA_REGISTER data.
Definition i86_pic_read_data (picNum : Z) : M kst Z :=
  if 1 <? picNum then mret 0
  else if picNum =? 0 then inb I86_PIC_MASTER_DATA_REGISTER
  else inb I86_PIC_SLAVE_DATA_REGISTER.

(** ** The timer chip (sys/pit.c) *)

Definition freq : Z := 1000.
Definition I86_PIT_DATA_REGISTER_0 : Z := 0x40.
Definition I86_PIT_DATA_REGISTER_1 : Z := 0x41.
Definition I86_PIT_DATA_REGISTER_2 : Z := 0x42.
Definition I86_PIT_COMMAND_REGISTER : Z := 0x43.
Definition INIT_PIT_CMD_WORD : Z := 0x34.

Definition i86_start_counter : M kst unit :=
  if freq =? 0 then mret tt else
  outb I86_PIT_COMMAND_REGISTER INIT_PIT_CMD_WORD;;
  let val := u16 (1193180 / freq) in
  outb I86_PIT_DATA_REGISTER_0 (Z.land val 0xff);;
  outb I86_PIT_DATA_REGISTER_0 (Z.land (Z.shiftr val 8) 0xff).
Definition i86_pit_send_data (data counterNum : Z) : M kst unit :=
  if 2 <? counterNum then mret tt
  else if counterNum =? 0 then outb I86_PIT_DATA_REGISTER_0 data
  else if counterNum =? 1 then outb I86_PIT_DATA_REGISTER_1 data
  else outb I86_PIT_DATA_REGISTER_2 data.
Definition i86_pit_read_data (counterNum : Z) : M kst Z :=
  if 2 <? counterNum then mret 0
  else if counterNum =? 0 then inb I86_PIT_DATA_REGISTER_0
  else if counterNum =? 1 then inb I86_PIT_DATA_REGISTER_1
  else inb I86_PIT_DATA_REGISTER_2.

(** ** PCI configuration space (sys/pci.c) *)

Definition ENABLE : Z := 0x80000000.
Definition PCI_CONFIG_ADDRESS : Z := 0x0CF8.
Definition PCI_CONFIG_DATA : Z := 0x0CFC.

(** [address = ENABLE; address |= bus << 16; ...], in every routine below. *)
Definition config_address (bus device function regnum : Z) : Z :=
  Z.lor (Z.lor (Z.lor (Z.lor ENABLE (Z.shiftl bus 16)) (Z.shiftl device 11))
    (Z.shiftl function 8)) (Z.land regnum 0xfc).

Definition config_read (bus device function regnum : Z) : M kst Z :=
  outbig PCI_CONFIG_ADDRESS (config_address bus device function regnum);;
  inbig PCI_CONFIG_DATA.

Definition check_header (bus device function regnum : Z) : M kst Z :=
  w ← config_read bus device function regnum; mret (u8 (Z.land (Z.shiftr w 16) 0xff)).
Definition get_base_class (bus device function regnum : Z) : M kst Z :=
  w ← config_read bus device function regnum; mret (u8 (Z.land (Z.shiftr w 24) 0xff)).
Definition get_sub_class (bus device function regnum : Z) : M kst Z :=
  w ← config_read bus device function regnum; mret (u8 (Z.land (Z.shiftr w 16) 0xff)).
Definition get_prog_if (bus device function regnum : Z) : M kst Z :=
  w ← config_read bus device function regnum; mret (u8 (Z.land (Z.shiftr w 8) 0xff)).
Definition read_bar (bus device function regnum : Z) : M kst Z :=
  w ← config_read bus device function regnum; mret (u32 (Z.land w 0xffffffff)).
Definition write_bar (bus device function regnum bar : Z) : M kst unit :=
  outbig PCI_CONFIG_ADDRESS (config_address bus device function regnum);;
  outbig PCI_CONFIG_DATA bar.
Definition read_from_config_address_register (bus device function regnum : Z) : M kst Z :=
  w ← config_read bus device function regnum;
  mret (u16 (Z.land (Z.shiftr w (Z.land regnum 2 * 8)) 0xffff)).
Definition check_vendor_id (bus device function : Z) : M kst Z :=
  read_from_config_address_register bus device function 0.

(** The disk driver behind the controller found. *)
Context (find_first_disk : Z → M kst unit).

(** The global [done] is passed and returned. *)
Definition check_function (bus device function done : Z) : M kst Z :=
  base_class ← get_base_class bus device function 8;
  sub_class ← get_sub_class bus device function 8;
  if (base_class =? 0x01) && (sub_class =? 0x06) then
    prog_if ← get_prog_if bus device function 8;
    if prog_if =? 0x01 then
      bar5 ← read_bar bus device function 36;
      kprintf (line "The bar5 value is 0x%x") [KInt bar5];;
      let bar5 := Z.shiftr bar5 2 in
      write_bar bus device function 36 bar5;;
      newbar5 ← read_bar bus device function 36;
      kprintf (line "The new bar5 is 0x%x") [KInt newbar5];;
      find_first_disk newbar5;;
      mret 1
    else mret done
  else mret done.

(** [for(function = 1; function < 8; function++)]. *)
Fixpoint function_loop (n : nat) (bus device function done : Z) : M kst Z :=
  match n with
  | O => mret done
  | S n' =>
      v ← check_vendor_id bus device function;
      done ← (if negb (v =? 0xFFFF) then check_function bus device function done else mret done);
      function_loop n' bus device (function + 1) done
  end.

Definition check_device (bus device done : Z) : M kst Z :=
  vendor_details ← check_vendor_id bus device 0;
  if vendor_details =? 0xFFFF then mret done else
  done ← check_function bus device 0 done;
  header ← check_header bus device 0 12;
  if Z.land header 0x80 =? 1 then function_loop 7 bus device 1 done else mret done.

(** [for(device=0;device<32;device++)]. *)
Fixpoint device_loop (n : nat) (bus device done : Z) : M kst Z :=
  match n with
  | O => mret done
  | S n' =>
      done ← (if done =? 0 then check_device bus device done else mret done);
      device_loop n' bus (device + 1) done
  end.

(** [uint8_t bus; for(bus=0;bus<256;bus++)]: the counter wraps. *)
Fixpoint bus_loop (fuel : nat) (bus done : Z) : M kst Z :=
  match fuel with
  | O => timeout
  | S n' =>
      if bus <? 256 then
        done ← device_loop 32 bus 0 done;
        bus_loop n' (u8 (bus + 1)) done
      else mret done
  end.
Definition check_all_buses (fuel : nat) : M kst Z := bus_loop fuel 0 0.

End devices.

(** ** The interrupt descriptor table (sys/idt.c, sys/common.c) *)

Record idtentry : Type := IdtEntry {
  offset_low : Z; selector : Z; ist : Z; type_attr : Z; offset_mid : Z; offset_high : Z; reserved : Z
}.
Definition zero_idtentry : idtentry := IdtEntry 0 0 0 0 0 0 0.
Definition MAX_IDT : nat := 256.
Definition init_idt : list idtentry := replicate MAX_IDT zero_idtentry.

Definition set_idt_func (entry base_addr code_seg access : Z) (idt : list idtentry) : list idtentry :=
  <[Z.to_nat (u8 entry) :=
     IdtEntry (u16 (Z.land base_addr 0xffff)) code_seg 0 access
       (u16 (Z.land (Z.shiftr base_addr 16) 0xffff))
       (u32 (Z.land (Z.shiftr base_addr 32) 0xffffffff)) 0]> idt.

Definition set_int_vect (int_num f : Z) (idt : list idtentry) : list idtentry :=
  set_idt_func int_num f 0x08 0x8E idt.
Definition set_int_vect_ring3 (int_num f : Z) (idt : list idtentry) : list idtentry :=
  set_idt_func int_num f 0x08 0xEE idt.

(** [for(i = 0; i <= 255; i++) set_int_vect(i, default_handler)]. *)
Fixpoint default_loop (n : nat) (i default_handler : Z) (idt : list idtentry) : list idtentry :=
  match n with
  | O => idt
  | S n' => default_loop n' (i + 1) default_handler (set_int_vect i default_handler idt)
  end.
Definition set_default_interrupts (default_handler : Z) (idt : list idtentry) : list idtentry :=
  default_loop 256 0 default_handler idt.

(** The addresses of the two interrupt wrappers are parameters. *)
Definition i86_initialize_pit (i86_pit_wrapper : Z) := set_int_vect 32 i86_pit_wrapper.
Definition i86_initialize_keyboard_interrupt (i86_keyboard_wrapper : Z) :=
  set_int_vect 33 i86_keyboard_wrapper.
Definition initialize (hw : hardware) (pit_wrapper keyboard_wrapper : Z) (idt : list idtentry)
    : M kst (list idtentry) :=
  i86_initialize_pic hw 0x20 0x28;;
  let idt := i86_initialize_pit pit_wrapper idt in
  i86_start_counter;;
  mret (i86_initialize_keyboard_interrupt keyboard_wrapper idt).

(** ** Properties *)

Lemma bus_loop_never hw disk fuel : ∀ bus dn s r s', 0 ≤ bus < 256 →
  bus_loop hw disk fuel bus dn s ≠ Ok (r, s').
Proof.
  induction fuel as [|n IH]; intros bus dn s r s' Hb; cbn [bus_loop]; [done|].
  rewrite (proj2 (Z.ltb_lt bus 256)) by lia. intros (d & s1 & _ & E)%bind_inv.
  revert E. apply IH. apply Z.mod_pos_bound. lia.
Qed.

(** The bus scan does not return: the 8-bit bus counter wraps from 255 to
    0, so no number of rounds reaches the end of the loop, whatever the
    hardware answers. *)
Theorem check_all_buses_never_returns hw disk fuel s r s' :
  check_all_buses hw disk fuel s ≠ Ok (r, s').
Proof. apply bus_loop_never. lia. Qed.

Lemma multifunction_test h : (Z.land h 0x80 =? 1) = false.
Proof.
  apply Z.eqb_neq. intros E. assert (H : Z.testbit (Z.land h 0x80) 0 = true) by (by rewrite E).
  rewrite Z.land_spec in H. change (Z.testbit 0x80 0) with false in H. by rewrite andb_false_r in H.
Qed.

(** The multi-function test never succeeds: [check_device] probes function
    0 only, on every device and for every answer of the hardware. *)
Theorem check_device_probes_function_zero_only hw disk bus device dn s :
  check_device hw disk bus device dn s
  = (v ← check_vendor_id hw bus device 0;
     if v =? 0xFFFF then mret dn else
     d ← check_function hw disk bus device 0 dn;
     check_header hw bus device 0 12;; mret d) s.
Proof.
  unfold check_device, mbind, M_bind.
  destruct (check_vendor_id hw bus device 0 s) as [[v s1]| |]; [|done..].
  destruct (v =? 0xFFFF); [done|].
  destruct (check_function hw disk bus device 0 dn s1) as [[d s2]| |]; [|done..].
  destruct (check_header hw bus device 0 12 s2) as [[h s3]| |]; [|done..].
  by rewrite multifunction_test.
Qed.

Lemma config_address_sum bus device function regnum :
  0 ≤ bus < 256 → 0 ≤ device < 32 → 0 ≤ function < 8 → 0 ≤ regnum < 256 → regnum mod 4 = 0 →
  config_address bus device function regnum
  = 2 ^ 31 + bus * 2 ^ 16 + device * 2 ^ 11 + function * 2 ^ 8 + regnum.
Proof.
  intros Hb Hd Hf Hr H4. unfold config_address, ENABLE.
  assert (Z.land regnum 0xfc = regnum) as ->.
  { apply Z.bits_inj'. intros i Hi. rewrite Z.land_spec. destruct (Z_lt_le_dec i 2).
    - rewrite <- (Z.mod_pow2_bits_low regnum 2 i) by lia. change (2 ^ 2) with 4. by rewrite H4, Z.bits_0.
    - destruct (Z_lt_le_dec i 8); [|by rewrite (testbit_high regnum 8 i) by lia].
      assert (i = 2 ∨ i = 3 ∨ i = 4 ∨ i = 5 ∨ i = 6 ∨ i = 7) as Hc by lia.
      destruct Hc as [->|[->|[->|[->|[->| ->]]]]]; apply andb_true_r. }
  rewrite !Z.shiftl_mul_pow2 by lia.
  rewrite <- !Z.lor_assoc.
  replace (function * 2 ^ 8) with (function * 2 ^ 8) by lia.
  rewrite (land_disjoint_add regnum function 8) by lia.
  rewrite (land_disjoint_add (function * 2 ^ 8 + regnum) device 11) by lia.
  rewrite (land_disjoint_add (device * 2 ^ 11 + (function * 2 ^ 8 + regnum)) bus 16) by lia.
  change 0x80000000 with (1 * 2 ^ 31).
  rewrite (land_disjoint_add _ 1 31) by lia. lia.
Qed.

(** The configuration address word: its fields are the bus, device,
    function and register it was built from, at the positions the
    CONFIG_ADDRESS register defines, with the enable bit set. *)
Theorem config_address_fields bus device function regnum :
  0 ≤ bus < 256 → 0 ≤ device < 32 → 0 ≤ function < 8 → 0 ≤ regnum < 256 → regnum mod 4 = 0 →
  let a := config_address bus device function regnum in
  a / 2 ^ 31 = 1 ∧ (a / 2 ^ 16) mod 2 ^ 8 = bus ∧ (a / 2 ^ 11) mod 2 ^ 5 = device
  ∧ (a / 2 ^ 8) mod 2 ^ 3 = function ∧ a mod 2 ^ 8 = regnum.
Proof.
  intros Hb Hd Hf Hr H4 a. unfold a. rewrite config_address_sum by done.
  clear a H4. split_and!; Z.div_mod_to_equations; lia.
Qed.
Lemma config_address_fields_witness :
  config_address 0 31 2 36 / 2 ^ 31 = 1 ∧ (config_address 0 31 2 36 / 2 ^ 11) mod 2 ^ 5 = 31.
Proof.
  destruct (config_address_fields 0 31 2 36 ltac:(lia) ltac:(lia) ltac:(lia) ltac:(lia) eq_refl)
    as (H1 & _ & H2 & _). exact (conj H1 H2).
Defined.

(** The handler address an entry holds. *)
Definition handler_of (e : idtentry) : Z :=
  offset_low e + offset_mid e * 2 ^ 16 + offset_high e * 2 ^ 32.

Lemma set_idt_entry entry base seg acc idt :
  0 ≤ base < 2 ^ 64 → 0 ≤ entry < 256 → length idt = MAX_IDT →
  ∃ e, set_idt_func entry base seg acc idt !! Z.to_nat entry = Some e
    ∧ handler_of e = base ∧ selector e = seg ∧ type_attr e = acc.
Proof.
  intros Hb He Hl. unfold set_idt_func, u8. rewrite Z.mod_small by lia.
  rewrite list_lookup_insert_eq by (rewrite Hl; unfold MAX_IDT; lia). eexists. split; [done|].
  split; [|done]. unfold handler_of. cbn [offset_low offset_mid offset_high].
  change 0xffff with (2 ^ 16 - 1). change 0xffffffff with (2 ^ 32 - 1).
  rewrite !land_low_mask, !Z.shiftr_div_pow2 by lia. unfold u16, u32.
  rewrite !Z.mod_mod by lia. Z.div_mod_to_equations. lia.
Qed.

(** Installing a handler: for every vector and 64-bit address the entry
    written holds exactly that address in its three pieces, with the kernel
    code segment and the gate type of the call, and no other entry changes. *)
Theorem set_int_vect_installs n f idt :
  0 ≤ f < 2 ^ 64 → 0 ≤ n < 256 → length idt = MAX_IDT →
  (∃ e, set_int_vect n f idt !! Z.to_nat n = Some e
     ∧ handler_of e = f ∧ selector e = 0x08 ∧ type_attr e = 0x8E)
  ∧ (∀ m, m ≠ Z.to_nat n → set_int_vect n f idt !! m = idt !! m)
  ∧ length (set_int_vect n f idt) = MAX_IDT.
Proof.
  intros Hf Hn Hl. split; [by apply set_idt_entry|]. split.
  - intros m Hm. unfold set_int_vect, set_idt_func, u8. rewrite Z.mod_small by lia.
    by apply list_lookup_insert_ne.
  - unfold set_int_vect, set_idt_func. by rewrite length_insert.
Qed.
Lemma set_int_vect_installs_witness :
  ∃ e, set_int_vect 32 0xFFFFFFFF80201234 init_idt !! 32%nat = Some e
    ∧ handler_of e = 0xFFFFFFFF80201234.
Proof.
  destruct (set_int_vect_installs 32 0xFFFFFFFF80201234 init_idt) as ((e & H1 & H2 & _) & _).
  - lia.
  - lia.
  - reflexivity.
  - exists e. exact (conj H1 H2).
Defined.

(** ** Interrupt masks *)

(** A mask register keeps the last value written to it; the documented
    behaviour of the controller's data ports after initialization. *)
Definition latches (hw : hardware) (port : Z) : Prop :=
  (∀ t v, 0 ≤ v < 256 → hw (OutPort port v :: t) port = v)
  ∧ (∀ t v, hw (InPort port v :: t) port = hw t port).
Definition mask_port (irq : Z) : Z :=
  if 7 <? irq then I86_PIC_SLAVE_DATA_REGISTER else I86_PIC_MASTER_DATA_REGISTER.
Definition mask_bit (irq : Z) : Z := if 7 <? irq then irq - 8 else irq.
Definition mask_now (hw : hardware) (port : Z) (s : kst) : Z := u8 (hw (k_trace s) port).

Lemma u8_range z : 0 ≤ u8 z < 256.
Proof. apply Z.mod_pos_bound. lia. Qed.
Lemma u8_bit z i : 0 ≤ i < 8 → Z.testbit (u8 z) i = Z.testbit z i.
Proof. intros Hi. unfold u8. apply Z.mod_pow2_bits_low; lia. Qed.

Lemma mask_ops hw irq s : 0 ≤ irq < 16 → latches hw (mask_port irq) →
  (∃ s', i86_set_mask hw irq s = Ok (tt, s')
    ∧ mask_now hw (mask_port irq) s' = u8 (Z.lor (mask_now hw (mask_port irq) s) (Z.shiftl 1 (mask_bit irq))))
  ∧ (∃ s', i86_clear_mask hw irq s = Ok (tt, s')
    ∧ mask_now hw (mask_port irq) s' = u8 (Z.land (mask_now hw (mask_port irq) s) (Z.lnot (Z.shiftl 1 (mask_bit irq))))).
Proof.
  intros Hi [Hl _]. unfold i86_set_mask, i86_clear_mask, mask_port, mask_bit, mask_now in *.
  destruct (7 <? irq); (split; eexists; (split; [reflexivity|]); cbn [k_trace set_k_trace];
    rewrite Hl by apply u8_range; unfold u8 at 1; apply Z.mod_small; apply u8_range).
Qed.

(** Interrupt masking.  With a controller whose mask register keeps what
    is written, [i86_set_mask] and [i86_clear_mask] change exactly the mask
    bit of the interrupt line, on the controller the line belongs to. *)
Theorem mask_changes_one_bit hw irq s j :
  0 ≤ irq < 16 → 0 ≤ j < 8 → latches hw (mask_port irq) →
  (∃ s', i86_set_mask hw irq s = Ok (tt, s')
    ∧ Z.testbit (mask_now hw (mask_port irq) s') j
      = if j =? mask_bit irq then true else Z.testbit (mask_now hw (mask_port irq) s) j)
  ∧ (∃ s', i86_clear_mask hw irq s = Ok (tt, s')
    ∧ Z.testbit (mask_now hw (mask_port irq) s') j
      = if j =? mask_bit irq then false else Z.testbit (mask_now hw (mask_port irq) s) j).
Proof.
  intros Hi Hj Hl. destruct (mask_ops hw irq s Hi Hl) as [(s1 & E1 & H1) (s2 & E2 & H2)].
  assert (Hbit : Z.testbit (Z.shiftl 1 (mask_bit irq)) j = (j =? mask_bit irq)).
  { assert (0 ≤ mask_bit irq) by (unfold mask_bit; destruct (Z.ltb_spec 7 irq); lia).
    rewrite Z.shiftl_1_l, Z.pow2_bits_eqb by lia. apply Z.eqb_sym. }
  split.
  - exists s1. split; [done|]. rewrite H1, u8_bit, Z.lor_spec, Hbit by done.
    destruct (j =? mask_bit irq); [apply orb_true_r|apply orb_false_r].
  - exists s2. split; [done|]. rewrite H2, u8_bit, Z.land_spec, Z.lnot_spec, Hbit by lia.
    destruct (j =? mask_bit irq); [apply andb_false_r|apply andb_true_r].
Qed.

(** A controller that answers with the last value written, 0 before. *)
Fixpoint last_written (t : list io_event) (port : Z) : Z :=
  match t with
  | [] => 0
  | OutPort p v :: t' => if p =? port then v else last_written t' port
  | InPort _ _ :: t' => last_written t' port
  end.
Lemma mask_changes_one_bit_witness :
  ∃ s', i86_set_mask last_written 1 blank_kst = Ok (tt, s')
    ∧ Z.testbit (mask_now last_written 0x21 s') 1 = true.
Proof.
  destruct (mask_changes_one_bit last_written 1 blank_kst 1) as [(s' & E & H) _].
  - lia.
  - lia.
  - split; [|intros; reflexivity]. intros t v Hv. reflexivity.
  - exists s'. exact (conj E H).
Defined.
