(* ===== verification/Layout.v ===== *)
(** * Packed structures in byte memory (include/sys/ahci.h)

    The disk driver writes structures that the controller reads, so here
    memory is bytes, and a structure is its layout: a list of fields with
    their widths in bits.  The compiler packs the fields of a packed structure
    one after the other, bit fields from the low bit of a byte on, so a field
    is a range of bits and stands at the sum of the widths before it. *)

From S2P Require Export Prelude.

(** ** Memory *)

(** An address that is not in the map holds a zero byte. *)
Abbreviation mem := (gmap Z Z).
Definition byte (m : mem) (a : Z) : Z := default 0 (m !! a).
Definition put_byte (m : mem) (a v : Z) : mem := <[a := u8 v]> m.

Fixpoint load_le (m : mem) (a : Z) (n : nat) : Z :=
  match n with
  | O => 0
  | S n' => Z.lor (Z.land (byte m a) 255) (Z.shiftl (load_le m (a + 1) n') 8)
  end.
Fixpoint store_le (m : mem) (a : Z) (n : nat) (v : Z) : mem :=
  match n with
  | O => m
  | S n' => store_le (put_byte m a v) (a + 1) n' (Z.shiftr v 8)
  end.

(** ** Fields *)

(** The bits [fd_bit], ..., [fd_bit + fd_width - 1] of memory, where bit [k] is
    bit [k mod 8] of the byte at [k / 8]. *)
Record field : Type := Field { fd_bit : Z; fd_width : Z }.

Definition span (f : field) : nat := Z.to_nat ((fd_bit f mod 8 + fd_width f + 7) / 8).
Definition load_field (m : mem) (f : field) : Z :=
  Z.land (Z.shiftr (load_le m (fd_bit f / 8) (span f)) (fd_bit f mod 8)) (Z.ones (fd_width f)).
Definition store_field (m : mem) (f : field) (v : Z) : mem :=
  let old := load_le m (fd_bit f / 8) (span f) in
  let mask := Z.shiftl (Z.ones (fd_width f)) (fd_bit f mod 8) in
  let new := Z.shiftl (Z.land v (Z.ones (fd_width f))) (fd_bit f mod 8) in
  store_le m (fd_bit f / 8) (span f) (Z.lor (Z.ldiff old mask) new).

(** ** Layouts *)

Definition layout : Type := list (string * Z).
Fixpoint offset_in (l : layout) (name : string) : option (Z * Z) :=
  match l with
  | [] => None
  | (n, w) :: l' =>
      if decide (n = name) then Some (0, w)
      else prod_map (Z.add w) id <$> offset_in l' name
  end.
Definition layout_bits (l : layout) : Z := foldr (λ f n, snd f + n) 0 l.
(** [sizeof] of a packed structure with an alignment in bytes. *)
Definition size_of (align : Z) (l : layout) : Z := (layout_bits l / 8 + align - 1) / align * align.
(** The field [name] of the structure at address [a]. *)
Definition at_ (l : layout) (a : Z) (name : string) : field :=
  match offset_in l name with
  | Some (o, w) => Field (8 * a + o) w
  | None => Field (8 * a) 0
  end.

(** ** Bits of memory *)

Definition bit (m : mem) (k : Z) : bool := Z.testbit (byte m (k / 8)) (k mod 8).

Lemma byte_put m a v b : byte (put_byte m a v) b = if decide (a = b) then u8 v else byte m b.
Proof.
  unfold byte, put_byte. rewrite lookup_insert. by case_decide.
Qed.

Lemma load_le_bits m n : ∀ a i, 0 ≤ i →
  Z.testbit (load_le m a n) i = if decide (i < 8 * Z.of_nat n) then bit m (8 * a + i) else false.
Proof.
  induction n as [|n IH]; intros a i Hi; cbn [load_le].
  { rewrite Z.bits_0. by case_decide; [lia|]. }
  change 255 with (Z.ones 8). rewrite Z.lor_spec, Z.land_spec, Z.testbit_ones_nonneg by lia.
  destruct (Z.ltb_spec i 8) as [H|H].
  - rewrite Z.shiftl_spec_low, orb_false_r, andb_true_r by lia.
    rewrite decide_True by lia. unfold bit. f_equal; [f_equal|]; Z.div_mod_to_equations; lia.
  - rewrite andb_false_r, orb_false_l, Z.shiftl_spec, IH by lia.
    repeat case_decide; try lia. unfold bit. f_equal; [f_equal|]; Z.div_mod_to_equations; lia.
Qed.

Lemma store_le_bits n : ∀ m a v k,
  bit (store_le m a n v) k
  = if decide (8 * a ≤ k < 8 * (a + Z.of_nat n)) then Z.testbit v (k - 8 * a) else bit m k.
Proof.
  induction n as [|n IH]; intros m a v k; cbn [store_le]; [by rewrite decide_False by lia|].
  rewrite IH. destruct (decide (8 * (a + 1) ≤ k < 8 * (a + 1 + Z.of_nat n))).
  - rewrite decide_True, Z.shiftr_spec by lia. f_equal. lia.
  - unfold bit at 1. rewrite byte_put. destruct (decide (a = k / 8)) as [->|E].
    + assert (8 * (k / 8) ≤ k < 8 * (k / 8) + 8) by (Z.div_mod_to_equations; lia).
      rewrite decide_True by lia. unfold u8. rewrite Z.mod_pow2_bits_low by (Z.div_mod_to_equations; lia).
      f_equal. Z.div_mod_to_equations. lia.
    + rewrite decide_False; [done|]. intros H. apply E. Z.div_mod_to_equations. lia.
Qed.

Definition in_field (f : field) (k : Z) : Prop := fd_bit f ≤ k < fd_bit f + fd_width f.

Lemma span_covers f k : 0 ≤ fd_width f → in_field f k →
  8 * (fd_bit f / 8) ≤ k < 8 * (fd_bit f / 8 + Z.of_nat (span f)).
Proof. intros Hw [H1 H2]. unfold span. rewrite Z2Nat.id; Z.div_mod_to_equations; lia. Qed.

Lemma load_field_bits m f i : 0 ≤ fd_width f → 0 ≤ i →
  Z.testbit (load_field m f) i = if decide (i < fd_width f) then bit m (fd_bit f + i) else false.
Proof.
  intros Hw Hi. unfold load_field. rewrite Z.land_spec, Z.testbit_ones_nonneg by lia.
  destruct (Z.ltb_spec i (fd_width f)); [rewrite decide_True by done|by rewrite decide_False, andb_false_r by lia].
  assert (Hc := span_covers f (fd_bit f + i) Hw ltac:(unfold in_field; lia)).
  rewrite andb_true_r, Z.shiftr_spec, load_le_bits by (Z.div_mod_to_equations; lia).
  rewrite decide_True by (Z.div_mod_to_equations; lia). f_equal. Z.div_mod_to_equations. lia.
Qed.

Lemma store_field_bits m f v k : 0 ≤ fd_width f →
  bit (store_field m f v) k
  = if decide (fd_bit f ≤ k < fd_bit f + fd_width f) then Z.testbit v (k - fd_bit f) else bit m k.
Proof.
  intros Hw. unfold store_field. rewrite store_le_bits.
  set (q := fd_bit f / 8). set (r := fd_bit f mod 8).
  assert (Hqr : fd_bit f = 8 * q + r ∧ 0 ≤ r < 8) by (subst q r; Z.div_mod_to_equations; lia).
  destruct (decide (fd_bit f ≤ k < fd_bit f + fd_width f)) as [Hin|Hout].
  - assert (Hc := span_covers f k Hw Hin). fold q in Hc. rewrite decide_True by done.
    rewrite Z.lor_spec, Z.ldiff_spec, !Z.shiftl_spec, Z.land_spec, Z.testbit_ones_nonneg by lia.
    rewrite (proj2 (Z.ltb_lt _ _)) by lia. rewrite andb_false_r, andb_true_r, orb_false_l. f_equal. lia.
  - case_decide as Hc; [|done].
    rewrite Z.lor_spec, Z.ldiff_spec, !Z.shiftl_spec, load_le_bits by lia.
    rewrite decide_True by lia. rewrite Z.land_spec.
    assert (Z.testbit (Z.ones (fd_width f)) (k - 8 * q - r) = false) as ->.
    { destruct (Z_lt_le_dec (k - 8 * q - r) 0); [by apply Z.testbit_neg_r|].
      rewrite Z.testbit_ones_nonneg by lia. apply Z.ltb_ge. lia. }
    rewrite andb_false_r, andb_true_r, orb_false_r. f_equal. lia.
Qed.

(** ** Reading and writing fields *)

Definition apart (f g : field) : Prop :=
  fd_bit f + fd_width f ≤ fd_bit g ∨ fd_bit g + fd_width g ≤ fd_bit f.

Lemma load_store_same m f v : 0 ≤ fd_width f → load_field (store_field m f v) f = v mod 2 ^ fd_width f.
Proof.
  intros Hw. apply Z.bits_inj'. intros i Hi. rewrite load_field_bits by done. case_decide.
  - rewrite store_field_bits, decide_True, Z.mod_pow2_bits_low by lia. f_equal. lia.
  - rewrite Z.mod_pow2_bits_high by lia. done.
Qed.

Lemma load_store_apart m f g v : 0 ≤ fd_width f → 0 ≤ fd_width g → apart f g →
  load_field (store_field m g v) f = load_field m f.
Proof.
  intros Hf Hg Ha. apply Z.bits_inj'. intros i Hi. rewrite !load_field_bits by done. case_decide; [|done].
  rewrite store_field_bits, decide_False; [done|..]; unfold apart in Ha; lia.
Qed.

(** Two memories that agree on the bits of a field. *)
Definition agree (m m' : mem) (f : field) : Prop := ∀ k, in_field f k → bit m k = bit m' k.

Lemma load_agree m m' f : 0 ≤ fd_width f → agree m m' f → load_field m f = load_field m' f.
Proof.
  intros Hw H. apply Z.bits_inj'. intros i Hi. rewrite !load_field_bits by done. case_decide; [|done].
  apply H. unfold in_field. lia.
Qed.

(** ** Filling memory (sys/util.c) *)

(** [my_memset(s, c, n)]: [n] bytes [c] and one zero byte after them. *)
Fixpoint fill (m : mem) (a c : Z) (n : nat) : mem :=
  match n with O => put_byte m a 0 | S n' => fill (put_byte m a c) (a + 1) c n' end.
Definition memset (m : mem) (s c n : Z) : mem :=
  if (n =? 0) || (s =? NULL) then m else fill m s c (Z.to_nat n).

Lemma byte_fill n : ∀ m a c b, byte (fill m a c n) b
  = if decide (a ≤ b < a + Z.of_nat n) then u8 c else if decide (b = a + Z.of_nat n) then 0 else byte m b.
Proof.
  induction n as [|n IH]; intros m a c b; cbn [fill]; rewrite ?IH, ?byte_put.
  - repeat case_decide; try lia; done.
  - repeat case_decide; try lia; done.
Qed.

Lemma memset_byte m s n b : 0 < n → s ≠ NULL →
  byte (memset m s 0 n) b = if decide (s ≤ b ≤ s + n) then 0 else byte m b.
Proof.
  intros Hn Hs. unfold memset. rewrite (proj2 (Z.eqb_neq n 0)), (proj2 (Z.eqb_neq s NULL)) by lia. cbn [orb].
  rewrite byte_fill, Z2Nat.id by lia. repeat case_decide; try lia; done.
Qed.

Lemma memset_bit m s n k : 0 < n → s ≠ NULL →
  bit (memset m s 0 n) k = if decide (8 * s ≤ k < 8 * (s + n + 1)) then false else bit m k.
Proof.
  intros Hn Hs. unfold bit. rewrite memset_byte by done.
  destruct (decide (s ≤ k / 8 ≤ s + n)), (decide (8 * s ≤ k < 8 * (s + n + 1)));
    try (Z.div_mod_to_equations; lia); [by rewrite Z.bits_0|done].
Qed.

Lemma load_memset_apart m s n f : 0 < n → s ≠ NULL → 0 ≤ fd_width f →
  apart f (Field (8 * s) (8 * (n + 1))) → load_field (memset m s 0 n) f = load_field m f.
Proof.
  intros Hn Hs Hf Ha. apply load_agree; [done|]. intros k Hk.
  rewrite memset_bit, decide_False; [done| |done..]. unfold apart, in_field in *. cbn in Ha. lia.
Qed.

Lemma load_memset_in m s n f : 0 < n → s ≠ NULL → 0 ≤ fd_width f →
  8 * s ≤ fd_bit f → fd_bit f + fd_width f ≤ 8 * (s + n + 1) → load_field (memset m s 0 n) f = 0.
Proof.
  intros Hn Hs Hf H1 H2. apply Z.bits_inj'. intros i Hi. rewrite load_field_bits, Z.bits_0 by done.
  case_decide; [|done]. rewrite memset_bit, decide_True; [done|lia|done..].
Qed.
