(* ===== verification/Gdt.v ===== *)
(** * Segment descriptors (sys/gdt.c)

    The descriptor table, the descriptor of the task state segment, and what
    the processor reads from a descriptor: its fields, and which selectors it
    takes for a code or a stack segment. *)

From S2P Require Export Prelude.

(** ** The table *)

Definition GDT_CS : Z := 0x00180000000000.
Definition GDT_DS : Z := 0x00100000000000.
Definition DPL0 : Z := 0x00000000000000.
Definition DPL3 : Z := 0x00600000000000.
Definition GDT_P : Z := 0x00800000000000.
Definition GDT_L : Z := 0x20000000000000.
Definition GDT_W : Z := 0x00020000000000.
Definition MAX_GDT : nat := 32.
Definition TSS_SIZE : Z := 104.

Definition gdt0 : list Z :=
  [0; Z.lor (Z.lor (Z.lor GDT_CS GDT_P) DPL0) GDT_L; Z.lor (Z.lor (Z.lor GDT_DS GDT_P) GDT_W) DPL0; 0;
   Z.lor (Z.lor (Z.lor GDT_DS GDT_P) GDT_W) DPL3; Z.lor (Z.lor (Z.lor GDT_CS GDT_P) DPL3) GDT_L; 0; 0]
  ++ replicate (MAX_GDT - 8) 0.

(** A bit field of [width] bits at bit [pos] of the two words of the
    descriptor, read as one number. *)
Definition set_field (pos width v sd : Z) : Z :=
  Z.lor (Z.land sd (Z.lnot (Z.shiftl (Z.ones width) pos))) (Z.shiftl (v mod 2 ^ width) pos).
Definition get_field (pos width sd : Z) : Z := Z.land (Z.shiftr sd pos) (Z.ones width).

(** The descriptor of the task state segment, entries 6 and 7. *)
Definition tss_descriptor (tss : Z) : Z :=
  let sd := set_field 0 16 (TSS_SIZE - 1) 0 in
  let sd := set_field 16 24 tss sd in
  let sd := set_field 40 5 9 sd in
  let sd := set_field 45 2 0 sd in
  let sd := set_field 47 1 1 sd in
  let sd := set_field 48 4 0 sd in
  let sd := set_field 55 1 0 sd in
  set_field 56 40 (Z.shiftr tss 24) sd.
Definition init_gdt (tss : Z) : list Z :=
  let sd := tss_descriptor tss in <[7%nat := Z.shiftr sd 64]> (<[6%nat := u64 sd]> gdt0).

(** ** Descriptors *)

Lemma ones_bit w i : 0 ≤ w → 0 ≤ i → Z.testbit (Z.ones w) i = (i <? w).
Proof.
  intros Hw Hi. destruct (Z.ltb_spec i w); [by apply Z.ones_spec_low; lia|by apply Z.ones_spec_high; lia].
Qed.
Lemma get_field_bit pos w sd i : 0 ≤ pos → 0 ≤ w → 0 ≤ i →
  Z.testbit (get_field pos w sd) i = (i <? w) && Z.testbit sd (i + pos).
Proof. intros Hp Hw Hi. unfold get_field. rewrite Z.land_spec, Z.shiftr_spec, ones_bit by lia. apply andb_comm. Qed.
Lemma set_field_bit pos w v sd i : 0 ≤ pos → 0 ≤ w → 0 ≤ i →
  Z.testbit (set_field pos w v sd) i
  = if (pos <=? i) && (i <? pos + w) then Z.testbit v (i - pos) else Z.testbit sd i.
Proof.
  intros Hp Hw Hi. unfold set_field. rewrite Z.lor_spec, Z.land_spec, Z.lnot_spec, !Z.shiftl_spec by lia.
  destruct (Z.leb_spec pos i) as [H1|H1]; cbn [andb].
  - rewrite ones_bit by lia. destruct (Z.ltb_spec i (pos + w)) as [H2|H2].
    + rewrite (proj2 (Z.ltb_lt (i - pos) w)) by lia. cbn. rewrite andb_false_r, Z.mod_pow2_bits_low by lia. done.
    + rewrite (proj2 (Z.ltb_ge (i - pos) w)) by lia. cbn. rewrite andb_true_r, Z.mod_pow2_bits_high by lia. by rewrite orb_false_r.
  - rewrite !(λ a, Z.testbit_neg_r a (i - pos)) by lia. cbn. by rewrite andb_true_r, orb_false_r.
Qed.
Lemma get_set_same pos w v sd : 0 ≤ pos → 0 ≤ w → get_field pos w (set_field pos w v sd) = v mod 2 ^ w.
Proof.
  intros Hp Hw. apply Z.bits_inj'. intros i Hi. rewrite get_field_bit, set_field_bit by lia.
  destruct (Z.ltb_spec i w) as [H|H]; cbn [andb].
  - rewrite (proj2 (Z.leb_le pos (i + pos))), (proj2 (Z.ltb_lt (i + pos) (pos + w))) by lia. cbn.
    rewrite Z.mod_pow2_bits_low by lia. f_equal. lia.
  - by rewrite Z.mod_pow2_bits_high by lia.
Qed.
Lemma get_set_other pos w pos' w' v sd : 0 ≤ pos → 0 ≤ w → 0 ≤ pos' → 0 ≤ w' → pos + w ≤ pos' ∨ pos' + w' ≤ pos →
  get_field pos w (set_field pos' w' v sd) = get_field pos w sd.
Proof.
  intros Hp Hw Hp' Hw' Hd. apply Z.bits_inj'. intros i Hi. rewrite !get_field_bit, set_field_bit by lia.
  destruct (Z.ltb_spec i w) as [H|H]; cbn [andb]; [|done].
  destruct ((pos' <=? i + pos) && (i + pos <? pos' + w')) eqn:E; [|done].
  apply andb_true_iff in E as [E1%Z.leb_le E2%Z.ltb_lt]. lia.
Qed.

(** A field of the descriptor: the last write to it counts. *)
Ltac field_of :=
  unfold tss_descriptor; cbv zeta;
  repeat (rewrite get_set_other by lia); rewrite ?get_set_same by lia.

(** The fields as the processor reads them. *)
Definition seg_base (sd : Z) : Z := Z.lor (get_field 16 24 sd) (Z.shiftl (get_field 56 40 sd) 24).
Definition seg_limit (sd : Z) : Z := Z.lor (get_field 0 16 sd) (Z.shiftl (get_field 48 4 sd) 16).
Definition seg_type (sd : Z) : Z := get_field 40 4 sd.
Definition seg_user (sd : Z) : bool := get_field 45 2 sd =? 3.
Definition seg_present (sd : Z) : bool := Z.testbit sd 47.
Definition seg_long (sd : Z) : bool := Z.testbit sd 53.
Definition seg_code (sd : Z) : bool := Z.testbit sd 44 && Z.testbit sd 43.
Definition seg_writable_data (sd : Z) : bool := Z.testbit sd 44 && negb (Z.testbit sd 43) && Z.testbit sd 41.

Lemma split_24 v : 0 ≤ v < 2 ^ 64 → Z.lor (v mod 2 ^ 24) (Z.shiftl (Z.shiftr v 24 mod 2 ^ 40) 24) = v.
Proof.
  intros Hv. apply Z.bits_inj'. intros i Hi. rewrite Z.lor_spec, Z.shiftl_spec by lia.
  destruct (Z_lt_le_dec i 24) as [H|H].
  - rewrite Z.mod_pow2_bits_low, Z.testbit_neg_r with (n := i - 24) by lia. apply orb_false_r.
  - rewrite (Z.mod_pow2_bits_high v 24) by lia. cbn. destruct (Z_lt_le_dec i 64) as [H2|H2].
    + rewrite Z.mod_pow2_bits_low, Z.shiftr_spec by lia. f_equal. lia.
    + rewrite Z.mod_pow2_bits_high by lia. symmetry. apply (testbit_high v 64); lia.
Qed.

(** The task state segment is found where it is: for every address of the
    segment the descriptor that [init_gdt] packs into entries 6 and 7 has it as
    its base, and is a present, available 64-bit task state segment of 104
    bytes. *)
Theorem tss_descriptor_ok tss : 0 ≤ tss < 2 ^ 64 →
  ∃ lo hi, init_gdt tss !! 6%nat = Some lo ∧ init_gdt tss !! 7%nat = Some hi ∧ 0 ≤ lo < 2 ^ 64
    ∧ let sd := lo + 2 ^ 64 * hi in
      seg_base sd = tss ∧ seg_limit sd = TSS_SIZE - 1 ∧ seg_type sd = 9 ∧ seg_present sd = true.
Proof.
  intros Ht. exists (u64 (tss_descriptor tss)), (Z.shiftr (tss_descriptor tss) 64).
  split; [done|]. split; [done|]. split; [apply Z.mod_pos_bound; lia|].
  replace (u64 (tss_descriptor tss) + 2 ^ 64 * Z.shiftr (tss_descriptor tss) 64) with (tss_descriptor tss).
  2:{ rewrite Z.shiftr_div_pow2 by lia. unfold u64. rewrite Z.add_comm. apply Z.div_mod. lia. }
  cbv zeta. split; [|split; [|split]].
  - unfold seg_base. assert (get_field 16 24 (tss_descriptor tss) = tss mod 2 ^ 24) as -> by (by field_of).
    assert (get_field 56 40 (tss_descriptor tss) = Z.shiftr tss 24 mod 2 ^ 40) as -> by (by field_of). by apply split_24.
  - unfold seg_limit. assert (get_field 0 16 (tss_descriptor tss) = TSS_SIZE - 1) as -> by (by field_of).
    by assert (get_field 48 4 (tss_descriptor tss) = 0) as -> by (by field_of).
  - unfold seg_type, tss_descriptor. cbv zeta. repeat (rewrite get_set_other by lia).
    apply Z.bits_inj'. intros i Hi. rewrite get_field_bit, set_field_bit by lia.
    destruct (Z.ltb_spec i 4) as [H|H]; cbn [andb].
    + rewrite (proj2 (Z.leb_le 40 (i + 40))), (proj2 (Z.ltb_lt (i + 40) (40 + 5))) by lia. cbn. f_equal. lia.
    + symmetry. apply (testbit_high 9 4); lia.
  - unfold seg_present, tss_descriptor. cbv zeta. rewrite !set_field_bit by lia. reflexivity.
Qed.
Lemma tss_descriptor_ok_witness : ∃ lo hi, init_gdt 0x301000 !! 6%nat = Some lo ∧ init_gdt 0x301000 !! 7%nat = Some hi
  ∧ seg_base (lo + 2 ^ 64 * hi) = 0x301000.
Proof.
  destruct (tss_descriptor_ok 0x301000 ltac:(lia)) as (lo & hi & H6 & H7 & _ & Hb & _). exists lo, hi.
  exact (conj H6 (conj H7 Hb)).
Defined.

(** The descriptor a selector selects. *)
Definition selects (gdt : list Z) (sel : Z) (P : Z → bool) : Prop := ∃ sd, gdt !! Z.to_nat (sel / 8) = Some sd ∧ P sd = true.
Definition user_code (sd : Z) : bool := seg_present sd && seg_user sd && seg_code sd && seg_long sd.
Definition user_data (sd : Z) : bool := seg_present sd && seg_user sd && seg_writable_data sd.
Definition kernel_code (sd : Z) : bool := seg_present sd && negb (seg_user sd) && seg_code sd && seg_long sd.
Definition kernel_data (sd : Z) : bool := seg_present sd && negb (seg_user sd) && seg_writable_data sd.

(** ** The selectors a return may load *)

(** A selector is 16 bits: the privilege level in bits 0 and 1, the table in
    bit 2 (there is no local table), the index above.  The table is the static
    one; the task state segment that [init_gdt] adds is neither code nor data. *)
Definition descriptor (sel : Z) : Z := if Z.testbit sel 2 then 0 else default 0 (gdt0 !! Z.to_nat (sel / 8)).
Definition code_selector (cs : Z) : bool :=
  if cs mod 4 =? 3 then user_code (descriptor cs) else (cs mod 4 =? 0) && kernel_code (descriptor cs).
(** The stack segment has the level of the code segment; outside user mode it
    may be the null segment. *)
Definition stack_selector (cs ss : Z) : bool :=
  (ss mod 4 =? cs mod 4) && (if cs mod 4 =? 3 then user_data (descriptor ss) else (ss =? 0) || kernel_data (descriptor ss)).

Lemma descriptor_small sel : descriptor sel ≠ 0 → 0 ≤ sel < 256.
Proof.
  unfold descriptor. destruct (Z.testbit sel 2); [done|]. intros H.
  destruct (gdt0 !! Z.to_nat (sel / 8)) as [d|] eqn:E; [|done]. apply lookup_lt_Some in E as Hl. change (length gdt0) with 32%nat in Hl.
  destruct (Z_lt_le_dec sel 0); [|Z.div_mod_to_equations; lia].
  assert (sel / 8 < 0) by (Z.div_mod_to_equations; lia). rewrite Z2Nat.nonpos in E by lia. injection E as <-. done.
Qed.
Lemma code_selector_small cs : code_selector cs = true → 0 ≤ cs < 256.
Proof.
  unfold code_selector. intros H. apply descriptor_small. intros E. rewrite E in H.
  destruct (cs mod 4 =? 3); [done|]. by destruct (cs mod 4 =? 0).
Qed.
Lemma stack_selector_small cs ss : stack_selector cs ss = true → 0 ≤ ss < 256.
Proof.
  unfold stack_selector. intros H. destruct (decide (ss = 0)) as [->|Hne]; [lia|]. rewrite (proj2 (Z.eqb_neq ss 0) Hne) in H.
  apply descriptor_small. intros E. rewrite E in H. destruct (ss mod 4 =? cs mod 4); [|done]. by destruct (cs mod 4 =? 3).
Qed.
(** There are two code segments. *)
Lemma code_selectors cs : code_selector cs = true ↔ cs = 0x08 ∨ cs = 0x2B.
Proof.
  split; [|by intros [-> | ->]]. intros H. pose proof (code_selector_small cs H) as Hr.
  assert (Hall : Forall (λ c, code_selector c = true → c = 0x08 ∨ c = 0x2B) (seqZ 0 256)).
  { apply (bool_decide_unpack _). vm_compute. exact I. }
  apply (proj1 (Forall_forall _ _) Hall); [|done]. apply elem_of_seqZ. lia.
Qed.
