(* ===== verification/Ahci.v ===== *)
(** * The disk driver (sys/ahci.c, include/sys/ahci.h)

    The driver programs an AHCI controller: it writes a command into memory,
    sets a bit of a register of the port and polls the registers until the
    controller has cleared it.  The controller is a parameter, an instance of
    the class [controller]: it answers every access to one of its registers
    and may change memory then (the registers are volatile, nothing else is).
    What the theorems assume of a controller is the record [idle], that it
    leaves memory alone and keeps its command registers while no command runs,
    and an answer to the polls. *)

From S2P Require Export Layout Kprintf.

(** ** The structures of ahci.h *)

Definition HBA_PxCMD_ST : Z := 1.
Definition HBA_PxCMD_CLO : Z := Z.shiftl 1 3.
Definition HBA_PxCMD_FRE : Z := Z.shiftl 1 4.
Definition HBA_PxCMD_FR : Z := Z.shiftl 1 14.
Definition HBA_PxCMD_CR : Z := Z.shiftl 1 15.
Definition HBA_PxIS_TFES : Z := Z.shiftl 1 30.
Definition SATA_SIG_ATAPI : Z := 0xEB140101.
Definition SATA_SIG_SEMB : Z := 0xC33C0101.
Definition SATA_SIG_PM : Z := 0x96690101.
Definition AHCI_DEV_SATAPI : Z := 1.
Definition AHCI_DEV_SEMB : Z := 2.
Definition AHCI_DEV_PM : Z := 3.
Definition AHCI_DEV_SATA : Z := 4.
Definition ATA_STATUS_DRQ : Z := 0x08.
Definition ATA_STATUS_BSY : Z := 0x80.
Definition CMD_FIS_DEV_LBA : Z := Z.shiftl 1 6.
Definition MAX_CMD_SLOT_CNT : Z := 32.
Definition MAX_PORT_CNT : Z := 32.
Definition DMA_WRITE_EXT : Z := 0x35.
Definition DMA_READ_EXT : Z := 0x25.
Definition FIS_TYPE_REG_H2D : Z := 0x27.

Definition fis_reg_h2d_t : layout :=
  [("fis_type", 8); ("pmport", 4); ("rsv0", 3); ("c", 1); ("command", 8); ("featurel", 8);
   ("lba0", 8); ("lba1", 8); ("lba2", 8); ("device", 8);
   ("lba3", 8); ("lba4", 8); ("lba5", 8); ("featureh", 8);
   ("count", 16); ("icc", 8); ("control", 8);
   ("aux", 16); ("rsv1", 16)]%string.
Definition fis_reg_d2h_t : layout :=
  [("fis_type", 8); ("pmport", 4); ("rsv0", 2); ("i", 1); ("rsv1", 1); ("status", 8); ("error", 8);
   ("lba0", 8); ("lba1", 8); ("lba2", 8); ("device", 8);
   ("lba3", 8); ("lba4", 8); ("lba5", 8); ("rsv2", 8);
   ("count", 16); ("rsv3", 16); ("rsv4", 32)]%string.
Definition fis_dev_bits_t : layout :=
  [("fis_type", 8); ("pmport", 4); ("rsv0", 2); ("i", 1); ("n", 1);
   ("statusl", 3); ("rsv1", 1); ("statush", 3); ("rsv2", 1); ("error", 8); ("protocol", 32)]%string.
Definition fis_dma_setup_t : layout :=
  [("fis_type", 8); ("pmport", 4); ("rsv0", 1); ("d", 1); ("i", 1); ("a", 1); ("rsved", 16);
   ("buf_id", 64); ("rsv1", 32); ("buf_offset", 32); ("trans_count", 32); ("rsv2", 32)]%string.
Definition fis_pio_setup_t : layout :=
  [("fis_type", 8); ("pmport", 4); ("rsv0", 1); ("d", 1); ("i", 1); ("rsv1", 1); ("status", 8); ("error", 8);
   ("lba0", 8); ("lba1", 8); ("lba2", 8); ("device", 8);
   ("lba3", 8); ("lba4", 8); ("lba5", 8); ("rsv2", 8);
   ("count", 16); ("rsv3", 8); ("e_status", 8); ("trans_count", 16); ("rsv4", 16)]%string.
Definition hba_prdt_entry_t : layout :=
  [("dba", 64); ("rsv0", 32); ("dbc", 22); ("rsv1", 9); ("i", 1)]%string.
Definition hba_cmd_tbl_t : layout :=
  [("cfis", 64 * 8); ("acmd", 16 * 8); ("rsv", 48 * 8); ("prdt_entry", layout_bits hba_prdt_entry_t)]%string.
Definition hba_cmd_header_t : layout :=
  [("cfl", 5); ("a", 1); ("w", 1); ("p", 1); ("r", 1); ("b", 1); ("c", 1); ("rsv0", 1); ("pmp", 4);
   ("prdtl", 16); ("prdbc", 32); ("ctba", 64); ("rsv1", 128)]%string.
Definition hba_fis_t : layout :=
  [("dsfis", layout_bits fis_dma_setup_t); ("pad0", 32); ("psfis", layout_bits fis_pio_setup_t); ("pad1", 96);
   ("rfis", layout_bits fis_reg_d2h_t); ("pad2", 32); ("sdbfis", layout_bits fis_dev_bits_t);
   ("ufis", 64 * 8); ("rsv", 96 * 8)]%string.
Definition hba_cmd_list_t : layout := [("headers", 32 * layout_bits hba_cmd_header_t)]%string.
Definition hba_port_t : layout :=
  [("clb", 64); ("fb", 64); ("is_rwc", 32); ("ie", 32); ("cmd", 32); ("rsv0", 32); ("tfd", 32); ("sig", 32);
   ("ssts", 32); ("sctl", 32); ("serr_rwc", 32); ("sact", 32); ("ci", 32); ("sntf_rwc", 32); ("fbs", 32);
   ("rsv1", 11 * 32); ("vendor", 4 * 32)]%string.
Definition hba_mem_t : layout :=
  [("cap", 32); ("ghc", 32); ("is_rwc", 32); ("pi", 32); ("vs", 32); ("ccc_ctl", 32); ("ccc_pts", 32);
   ("em_loc", 32); ("em_ctl", 32); ("cap2", 32); ("bohc", 32); ("rsv", (0xA0 - 0x2C) * 8);
   ("vendor", (0x100 - 0xA0) * 8); ("ports", 32 * layout_bits hba_port_t)]%string.

(** ** The controller *)

(** An access to the register at an address; the controller's state and memory
    may change. *)
Class controller (D : Type) : Type := {
  mmio_read : Z → D → mem → Z * (D * mem);
  mmio_write : Z → Z → D → mem → D * mem
}.

(** The kernel, for its console, memory and the controller. *)
Record hst (D : Type) : Type := Hst { h_k : kst; h_mem : mem; h_dev : D }.
Arguments Hst {D} _ _ _.
Arguments h_k {D} _.
Arguments h_mem {D} _.
Arguments h_dev {D} _.

Section driver.
Context {D : Type} `{!controller D}.
Implicit Types (port slot : Z).

Definition lift {A} (m : M kst A) : M (hst D) A := λ s,
  match m (h_k s) with
  | Ok (a, k) => Ok (a, Hst k (h_mem s) (h_dev s))
  | Ub => Ub
  | Timeout => Timeout
  end.
Definition print (fmt : string) (args : list karg) : M (hst D) unit := lift (kprintf fmt args).

(** A volatile access to the register [name] of the structure [l] at [a]. *)
Definition reg (l : layout) (a : Z) (name : string) : Z := fd_bit (at_ l a name) / 8.
Definition rd (l : layout) (a : Z) (name : string) : M (hst D) Z := λ s,
  let '(v, (d, m)) := mmio_read (reg l a name) (h_dev s) (h_mem s) in
  Ok (v mod 2 ^ fd_width (at_ l a name), Hst (h_k s) m d).
Definition wr (l : layout) (a : Z) (name : string) (v : Z) : M (hst D) unit := λ s,
  let '(d, m) := mmio_write (reg l a name) (v mod 2 ^ fd_width (at_ l a name)) (h_dev s) (h_mem s) in
  Ok (tt, Hst (h_k s) m d).
Definition upd_mem (f : mem → mem) : M (hst D) unit :=
  modify (λ s, Hst (h_k s) (f (h_mem s)) (h_dev s)).
Definition ld (l : layout) (a : Z) (name : string) : M (hst D) Z :=
  gets (λ s, load_field (h_mem s) (at_ l a name)).
Definition st (l : layout) (a : Z) (name : string) (v : Z) : M (hst D) unit :=
  upd_mem (λ m, store_field m (at_ l a name) v).

Definition sizeof_fis_reg_h2d_t : Z := size_of 1 fis_reg_h2d_t.
Definition sizeof_hba_cmd_tbl_t : Z := size_of 128 hba_cmd_tbl_t.
Definition sizeof_hba_prdt_entry_t : Z := size_of 1 hba_prdt_entry_t.
Definition sizeof_hba_cmd_header_t : Z := size_of 1 hba_cmd_header_t.
(** [&hba->ports[i]], [hba_header + i], [&table->prdt_entry[i]]. *)
Definition port_of (hba i : Z) : Z := reg hba_mem_t hba "ports" + size_of 1 hba_port_t * i.
Definition command_header_at (clb i : Z) : Z := clb + sizeof_hba_cmd_header_t * i.
Definition prdt_entry (table i : Z) : Z := reg hba_cmd_tbl_t table "prdt_entry" + sizeof_hba_prdt_entry_t * i.

Definition find_type (port : Z) : M (hst D) Z :=
  ssts ← rd hba_port_t port "ssts";
  let ipm := u8 (Z.land (Z.shiftr ssts 8) 0x0f) in
  let det := u8 (Z.land ssts 0x0f) in
  if negb (ipm =? 0x01) then mret 0 else
  if negb (det =? 0x03) then mret 0 else
  sig ← rd hba_port_t port "sig";
  mret (if sig =? SATA_SIG_ATAPI then AHCI_DEV_SATAPI
        else if sig =? SATA_SIG_SEMB then AHCI_DEV_SEMB
        else if sig =? SATA_SIG_PM then AHCI_DEV_PM
        else AHCI_DEV_SATA).

(** [for(; i < 32; i++)] of [find_slot]: [n] rounds are left. *)
Fixpoint slot_loop (n : nat) (i free_slots : Z) : option Z :=
  match n with
  | O => None
  | S n' => if Z.land free_slots 1 =? 0 then Some i else slot_loop n' (i + 1) (Z.shiftr free_slots 1)
  end.
Definition find_slot (port : Z) : M (hst D) Z :=
  sact ← rd hba_port_t port "sact";
  ci ← rd hba_port_t port "ci";
  match slot_loop 32 0 (Z.lor sact ci) with
  | Some i => mret i
  | None => print (line "no free slot found") [];; mret (-1)
  end.

(** The loop over the entries but the last, and the remaining [count] and
    [buf]. *)
Fixpoint prdt_loop (fuel : nat) (header table i count buf : Z) : M (hst D) (Z * Z * Z) :=
  match fuel with
  | O => timeout
  | S fuel' =>
      prdtl ← ld hba_cmd_header_t header "prdtl";
      if i <? prdtl - 1 then
        st hba_prdt_entry_t (prdt_entry table i) "dba" buf;;
        st hba_prdt_entry_t (prdt_entry table i) "dbc" (8 * 1024 - 1);;
        st hba_prdt_entry_t (prdt_entry table i) "i" 0;;
        prdt_loop fuel' header table (i + 1) (u16 (count - 16)) (u64 (buf + 4 * 1024))
      else mret (i, count, buf)
  end.

(** From the clearing of the command table to the command FIS, the same in
    both directions up to the command byte; the [count] left is the one
    stored. *)
Definition fill_table (fuel : nat) (header command startl starth count buf : Z) : M (hst D) unit :=
  table ← ld hba_cmd_header_t header "ctba";
  prdtl ← ld hba_cmd_header_t header "prdtl";
  upd_mem (λ m, memset m table 0 (sizeof_hba_cmd_tbl_t + prdtl * sizeof_hba_prdt_entry_t));;
  '(i, count, buf) ← prdt_loop fuel header table 0 count buf;
  st hba_prdt_entry_t (prdt_entry table i) "dba" buf;;
  st hba_prdt_entry_t (prdt_entry table i) "dbc" (Z.shiftl count 9);;
  st hba_prdt_entry_t (prdt_entry table i) "i" 0;;
  let fis_h2d := reg hba_cmd_tbl_t table "cfis" in
  st fis_reg_h2d_t fis_h2d "fis_type" FIS_TYPE_REG_H2D;;
  st fis_reg_h2d_t fis_h2d "c" 1;;
  st fis_reg_h2d_t fis_h2d "command" command;;
  st fis_reg_h2d_t fis_h2d "lba0" (Z.land startl 0xff);;
  st fis_reg_h2d_t fis_h2d "lba1" (Z.land (Z.shiftr startl 8) 0xff);;
  st fis_reg_h2d_t fis_h2d "lba2" (Z.land (Z.shiftr startl 16) 0xff);;
  st fis_reg_h2d_t fis_h2d "device" CMD_FIS_DEV_LBA;;
  st fis_reg_h2d_t fis_h2d "lba3" (Z.land (Z.shiftr startl 24) 0xff);;
  st fis_reg_h2d_t fis_h2d "lba4" (Z.land starth 0xff);;
  st fis_reg_h2d_t fis_h2d "lba5" (Z.land (Z.shiftr starth 8) 0xff);;
  st fis_reg_h2d_t fis_h2d "count" count.

(** [while((port->tfd & (BSY | DRQ)) && spin < 1000000) spin++]: whether the
    counter got to its end; [n] is 1000000 less [spin]. *)
Fixpoint spin_loop (n : nat) (port : Z) : M (hst D) bool :=
  tfd ← rd hba_port_t port "tfd";
  let busy := negb (Z.land tfd (Z.lor ATA_STATUS_BSY ATA_STATUS_DRQ) =? 0) in
  match n with
  | O => mret true
  | S n' => if busy then spin_loop n' port else mret false
  end.
Definition SPINS : nat := Z.to_nat 1000000.

(** [while(1)]: whether the command ended without an error of the task file;
    [on_error] is what is printed. *)
Fixpoint wait_loop (fuel : nat) (port slot : Z) (on_error : M (hst D) unit) : M (hst D) bool :=
  match fuel with
  | O => timeout
  | S fuel' =>
      ci ← rd hba_port_t port "ci";
      if Z.land ci (u32 (Z.shiftl 1 slot)) =? 0 then mret true else
      is_rwc ← rd hba_port_t port "is_rwc";
      if negb (Z.land is_rwc HBA_PxIS_TFES =? 0) then on_error;; mret false
      else wait_loop fuel' port slot on_error
  end.

(** The command is issued, waited for, and the error bit looked at again. *)
Definition run_command (fuel : nat) (port slot : Z) (on_error : M (hst D) unit) : M (hst D) Z :=
  wr hba_port_t port "ci" (Z.shiftl 1 slot);;
  fine ← wait_loop fuel port slot on_error;
  if negb fine then mret 0 else
  is_rwc ← rd hba_port_t port "is_rwc";
  if negb (Z.land is_rwc HBA_PxIS_TFES =? 0) then on_error;; mret 0 else mret 1.
(** From the wait for the device to the result. *)
Definition issue (fuel : nat) (port slot : Z) (on_error : M (hst D) unit) : M (hst D) Z :=
  hung ← spin_loop SPINS port;
  if hung : bool then print (line "Port is hung") [];; mret 0 else
  run_command fuel port slot on_error.

Definition write_error (port : Z) : M (hst D) unit :=
  ssts ← rd hba_port_t port "ssts";
  print (line "sata status: %d") [KInt ssts];;
  print (line "Write disk error") [].
Definition read_error : M (hst D) unit := print (line "Read disk error") [].

Definition do_write_to_disk (fuel : nat) (port startl starth count buf : Z) : M (hst D) Z :=
  wr hba_port_t port "is_rwc" (-1);;
  slot ← find_slot port;
  if slot =? -1 then print (line "No slot available") [];; mret (-1) else
  clb ← rd hba_port_t port "clb";
  let command_header := command_header_at clb slot in
  st hba_cmd_header_t command_header "cfl" (sizeof_fis_reg_h2d_t / 4);;
  st hba_cmd_header_t command_header "w" 1;;
  st hba_cmd_header_t command_header "c" 1;;
  st hba_cmd_header_t command_header "prdtl" (Z.shiftr (count - 1) 4 + 1);;
  fill_table fuel command_header DMA_WRITE_EXT startl starth count buf;;
  issue fuel port slot (write_error port).

Definition do_read_from_disk (fuel : nat) (port startl starth count buf : Z) : M (hst D) Z :=
  wr hba_port_t port "is_rwc" (-1);;
  slot ← find_slot port;
  if slot =? -1 then print (line "no slot available") [];; mret 0 else
  clb ← rd hba_port_t port "clb";
  let command_header := command_header_at clb slot in
  st hba_cmd_header_t command_header "cfl" (sizeof_fis_reg_h2d_t / 4);;
  st hba_cmd_header_t command_header "w" 0;;
  st hba_cmd_header_t command_header "prdtl" (Z.shiftr (count - 1) 4 + 1);;
  fill_table fuel command_header DMA_READ_EXT startl starth count buf;;
  issue fuel port slot read_error.

(** ** The port *)

Definition not32 (z : Z) : Z := u32 (Z.lnot z).

Fixpoint cr_wait (fuel : nat) (port : Z) : M (hst D) unit :=
  match fuel with
  | O => timeout
  | S fuel' =>
      cmd ← rd hba_port_t port "cmd";
      if negb (Z.land cmd HBA_PxCMD_CR =? 0) then cr_wait fuel' port else mret tt
  end.
Definition start_cmd (fuel : nat) (port : Z) : M (hst D) unit :=
  cr_wait fuel port;;
  cmd ← rd hba_port_t port "cmd";
  wr hba_port_t port "cmd" (Z.lor cmd HBA_PxCMD_FRE);;
  cmd ← rd hba_port_t port "cmd";
  wr hba_port_t port "cmd" (Z.lor cmd HBA_PxCMD_ST).

Fixpoint stop_wait (fuel : nat) (port : Z) : M (hst D) unit :=
  match fuel with
  | O => timeout
  | S fuel' =>
      cmd ← rd hba_port_t port "cmd";
      if negb (Z.land cmd HBA_PxCMD_FR =? 0) then stop_wait fuel' port else
      cmd ← rd hba_port_t port "cmd";
      if negb (Z.land cmd HBA_PxCMD_CR =? 0) then stop_wait fuel' port else
      mret tt
  end.
Definition stop_cmd (fuel : nat) (port : Z) : M (hst D) unit :=
  cmd ← rd hba_port_t port "cmd";
  wr hba_port_t port "cmd" (Z.land cmd (not32 HBA_PxCMD_ST));;
  stop_wait fuel port;;
  cmd ← rd hba_port_t port "cmd";
  wr hba_port_t port "cmd" (Z.land cmd (not32 HBA_PxCMD_FRE)).

Definition AHCI_BASE : Z := 0x3FC0000.
Definition clb_of (portno : Z) : Z := AHCI_BASE + Z.shiftl portno 10.
Definition fb_of (portno : Z) : Z := AHCI_BASE + Z.shiftl 32 10 + Z.shiftl portno 8.
Definition ctba_of (portno i : Z) : Z := AHCI_BASE + Z.shiftl 40 10 + 36864 * portno + 1152 * i.

(** [for(; i < 32; i++)]: [n] headers are left. *)
Fixpoint header_loop (n : nat) (hba_header portno i : Z) : M (hst D) unit :=
  match n with
  | O => mret tt
  | S n' =>
      let h := command_header_at hba_header i in
      st hba_cmd_header_t h "prdtl" 64;;
      st hba_cmd_header_t h "ctba" (ctba_of portno i);;
      ctba ← ld hba_cmd_header_t h "ctba";
      upd_mem (λ m, memset m ctba 0 1152);;
      header_loop n' hba_header portno (i + 1)
  end.
Definition port_rebase (fuel : nat) (port portno : Z) : M (hst D) unit :=
  print (line "Port rebase called") [];;
  stop_cmd fuel port;;
  wr hba_port_t port "clb" (clb_of portno);;
  clb ← rd hba_port_t port "clb";
  print (line "port->clb is 0x%x") [KInt clb];;
  clb ← rd hba_port_t port "clb";
  upd_mem (λ m, memset m clb 0 1024);;
  wr hba_port_t port "fb" (fb_of portno);;
  fb ← rd hba_port_t port "fb";
  upd_mem (λ m, memset m fb 0 1024);;
  hba_header ← rd hba_port_t port "clb";
  header_loop 32 hba_header portno 0;;
  start_cmd fuel port.

(** ** The disk test of the bus scan *)

Fixpoint put_run (m : mem) (a v : Z) (n : nat) : mem :=
  match n with O => m | S n' => put_run (put_byte m a v) (a + 1) v n' end.
(** [for(m = 0; m < 100; m++) { for(j = 0; j < 100; j++) write_buf[k + j] =
    m + '0'; k += 100; }]: [n] rounds are left. *)
Fixpoint pattern_loop (n : nat) (v a : Z) (m : mem) : mem :=
  match n with O => m | S n' => pattern_loop n' (v + 1) (a + 100) (put_run m a (v + chr "0") 100) end.
Fixpoint show_bytes (n : nat) (a : Z) : M (hst D) unit :=
  match n with
  | O => mret tt
  | S n' => c ← gets (λ s, i8 (byte (h_mem s) a)); print "%d" [KInt c];; show_bytes n' (a + 1)
  end.

Definition write_buf : Z := 0x600f000.
Definition read_buf : Z := 0x6040000.
Definition READ_SHOWN : nat := Z.to_nat 10000.

Definition sata_disk (fuel : nat) (hba i : Z) : M (hst D) unit :=
  ghc ← rd hba_mem_t hba "ghc"; wr hba_mem_t hba "ghc" (Z.lor ghc (Z.shiftl 1 31));;
  ghc ← rd hba_mem_t hba "ghc"; wr hba_mem_t hba "ghc" (Z.lor ghc (Z.shiftl 1 1));;
  ghc ← rd hba_mem_t hba "ghc"; wr hba_mem_t hba "ghc" (Z.lor ghc (Z.shiftl 1 0));;
  port_rebase fuel (port_of hba i) i;;
  upd_mem (pattern_loop 100 0 write_buf);;
  res ← do_write_to_disk fuel (port_of hba i) 0 0 800 write_buf;
  when (res =? 0) (print (line "error while writing disk") []);;
  upd_mem (λ m, put_run m read_buf 0 READ_SHOWN);;
  res ← do_read_from_disk fuel (port_of hba i) 0 0 800 read_buf;
  when (res =? 0) (print (line "error while reading disk") []);;
  show_bytes READ_SHOWN read_buf;;
  print (line "Reading done successfully") [].

(** [for(; i < 32; i++)]: [n] ports are left. *)
Fixpoint port_loop (fuel n : nat) (hba i ports : Z) : M (hst D) unit :=
  match n with
  | O => mret tt
  | S n' =>
      when (negb (Z.land ports 1 =? 0)) (
        disk_type ← find_type (port_of hba i);
        if disk_type =? AHCI_DEV_SATA then sata_disk fuel hba i
        else if (disk_type =? AHCI_DEV_SATAPI) || (disk_type =? AHCI_DEV_SEMB) || (disk_type =? AHCI_DEV_PM)
        then mret tt
        else print (line "Wrong disk type") []);;
      port_loop fuel n' hba (i + 1) (Z.shiftr ports 1)
  end.
Definition find_first_disk (fuel : nat) (hba : Z) : M (hst D) unit :=
  ports ← rd hba_mem_t hba "pi";
  port_loop fuel 32 hba 0 ports.

End driver.

(** ** Layouts *)

Lemma at_eq l a name o w : offset_in l name = Some (o, w) → at_ l a name = Field (8 * a + o) w.
Proof. unfold at_. by intros ->. Qed.

(** Replaces the fields of known structures by their bits. *)
Ltac fields := repeat match goal with
  | |- context [at_ ?l ?a ?n] =>
      let r := eval vm_compute in (offset_in l n) in
      lazymatch r with Some (?o, ?w) => change (at_ l a n) with (Field (8 * a + o) w) end
  | H : context [at_ ?l ?a ?n] |- _ =>
      let r := eval vm_compute in (offset_in l n) in
      lazymatch r with Some (?o, ?w) => change (at_ l a n) with (Field (8 * a + o) w) in H end
  end.

Lemma prdt_entry_eq table i : prdt_entry table i = table + 128 + 16 * i.
Proof.
  unfold prdt_entry, reg. fields. cbn [fd_bit]. change sizeof_hba_prdt_entry_t with 16.
  replace (8 * table + 1024) with ((table + 128) * 8) by lia. by rewrite Z.div_mul.
Qed.
Lemma cfis_eq table : reg hba_cmd_tbl_t table "cfis" = table.
Proof. unfold reg. fields. cbn [fd_bit]. replace (8 * table + 0) with (table * 8) by lia. by rewrite Z.div_mul. Qed.

(** Solves the conditions of a read of one field after a write of another. *)
Ltac apart_tac := unfold apart; cbn [fd_bit fd_width]; lia.
Ltac loads := repeat first
  [ rewrite load_store_same by (cbn [fd_width]; lia); cbn [fd_width]
  | rewrite load_store_apart by (first [cbn [fd_width]; lia | apart_tac]) ].

(** ** Commands *)

(** What a controller reads when the command of a slot is issued. *)
Record command : Type := Command {
  c_cfl : Z; c_w : Z; c_fis_type : Z; c_c : Z; c_command : Z; c_device : Z; c_lba : Z; c_count : Z;
  c_prdt : list (Z * Z)
}.
Definition prdt_of (m : mem) (table prdtl : Z) : list (Z * Z) :=
  (λ j, (load_field m (at_ hba_prdt_entry_t (prdt_entry table j) "dba"),
         load_field m (at_ hba_prdt_entry_t (prdt_entry table j) "dbc"))) <$> seqZ 0 prdtl.
Definition command_of (m : mem) (clb slot : Z) : command :=
  let h := command_header_at clb slot in
  let table := load_field m (at_ hba_cmd_header_t h "ctba") in
  let fis n := load_field m (at_ fis_reg_h2d_t table n) in
  Command (load_field m (at_ hba_cmd_header_t h "cfl")) (load_field m (at_ hba_cmd_header_t h "w"))
    (fis "fis_type") (fis "c") (fis "command") (fis "device")
    (fis "lba0" + 2 ^ 8 * fis "lba1" + 2 ^ 16 * fis "lba2" + 2 ^ 24 * fis "lba3" + 2 ^ 32 * fis "lba4"
     + 2 ^ 40 * fis "lba5")
    (fis "count") (prdt_of m table (load_field m (at_ hba_cmd_header_t h "prdtl"))).

Section proofs.
Context {D : Type} `{!controller D}.
Implicit Types (d : D) (m : mem).

Lemma bind_st {B} l a name v (f : unit → M (hst D) B) k m d :
  (st l a name v ≫= f) (Hst k m d) = f tt (Hst k (store_field m (at_ l a name) v) d).
Proof. done. Qed.
Lemma bind_upd {B} g (f : unit → M (hst D) B) k m d : (upd_mem g ≫= f) (Hst k m d) = f tt (Hst k (g m) d).
Proof. done. Qed.
Lemma bind_ld {B} l a name (f : Z → M (hst D) B) k m d :
  (ld l a name ≫= f) (Hst k m d) = f (load_field m (at_ l a name)) (Hst k m d).
Proof. done. Qed.

(** [find_slot]: the loop finds the lowest clear bit of a 32-bit word. *)
Lemma slot_loop_spec n : ∀ i w, 
  match slot_loop n i w with
  | Some j => i ≤ j < i + Z.of_nat n ∧ Z.testbit w (j - i) = false ∧ ∀ k, 0 ≤ k < j - i → Z.testbit w k = true
  | None => ∀ k, 0 ≤ k < Z.of_nat n → Z.testbit w k = true
  end.
Proof.
  induction n as [|n IH]; intros i w; cbn [slot_loop]; [intros; lia|].
  change 1 with (Z.ones 1) at 1. rewrite Z.land_ones by lia. rewrite Z.pow_1_r, <- Z.bit0_mod.
  destruct (Z.testbit w 0) eqn:E0; cbn [Z.b2z Z.eqb].
  - specialize (IH (i + 1) (Z.shiftr w 1)). destruct (slot_loop n (i + 1) (Z.shiftr w 1)) as [j|].
    + destruct IH as (H1 & H2 & H3). rewrite Z.shiftr_spec in H2 by lia. split; [lia|]. split.
      { rewrite <- H2. f_equal. lia. }
      intros k Hk. destruct (decide (k = 0)) as [->|]; [done|].
      specialize (H3 (k - 1) ltac:(lia)). rewrite Z.shiftr_spec in H3 by lia. rewrite <- H3. f_equal. lia.
    + intros k Hk. destruct (decide (k = 0)) as [->|]; [done|].
      specialize (IH (k - 1) ltac:(lia)). rewrite Z.shiftr_spec in IH by lia. rewrite <- IH. f_equal. lia.
  - split; [lia|]. rewrite Z.sub_diag. split; [done|]. intros; lia.
Qed.

Lemma ok_triple {S} (a b c a' b' c' : Z) (s : S) : a = a' → b = b' → c = c' →
  Ok (a, b, c, s) = Ok (a', b', c', s).
Proof. by intros -> -> ->. Qed.

(** The loop over the region descriptors. *)
Lemma prdt_loop_ok k d h table n : 0 ≤ n < 2 ^ 16 → ∀ fuel i m count buf,
  load_field m (at_ hba_cmd_header_t h "prdtl") = n → 0 ≤ i ≤ n - 1 →
  h + 32 ≤ table ∨ table + 128 + 16 * n ≤ h →
  16 * (n - 1 - i) < count < 2 ^ 16 → 0 ≤ buf → buf + 4096 * (n - 1 - i) < 2 ^ 64 → n - 1 - i < Z.of_nat fuel →
  ∃ m', prdt_loop fuel h table i count buf (Hst k m d)
    = Ok ((n - 1, count - 16 * (n - 1 - i), buf + 4096 * (n - 1 - i)), Hst k m' d)
  ∧ (∀ f, 0 ≤ fd_width f → apart f (Field (8 * (table + 128 + 16 * i)) (128 * (n - 1 - i))) →
      load_field m' f = load_field m f)
  ∧ ∀ j, i ≤ j < n - 1 →
      load_field m' (at_ hba_prdt_entry_t (prdt_entry table j) "dba") = buf + 4096 * (j - i)
      ∧ load_field m' (at_ hba_prdt_entry_t (prdt_entry table j) "dbc") = 8191.
Proof.
  intros Hn. induction fuel as [|fuel IH]; intros i m count buf Hl Hi Ha Hc Hb Hb2 Hf; [lia|].
  cbn [prdt_loop]. rewrite bind_ld, Hl.
  destruct (Z.ltb_spec i (n - 1)) as [Hlt|Hge].
  - rewrite !bind_st. set (m1 := store_field _ _ 0). unfold u16, u64. rewrite !Z.mod_small by lia.
    assert (Hm1 : ∀ f, 0 ≤ fd_width f → apart f (Field (8 * (table + 128 + 16 * i)) 128) →
      load_field m1 f = load_field m f).
    { intros f Hw Hap. subst m1. unfold apart in Hap. cbn [fd_bit fd_width] in Hap. fields.
      rewrite prdt_entry_eq. by rewrite !load_store_apart by (cbn [fd_width]; first [lia | apart_tac]). }
    destruct (IH (i + 1) m1 (count - 16) (buf + 4 * 1024)) as (m' & E & Hout & Hin); try lia.
    { rewrite Hm1; [done|by fields|]. fields. apart_tac. }
    exists m'. split; [rewrite E; apply ok_triple; lia|]. split.
    + intros f Hw Hap. unfold apart in *. cbn [fd_bit fd_width] in Hap.
      rewrite Hout, Hm1; [done|lia|apart_tac|lia|apart_tac].
    + intros j Hj. destruct (decide (j = i)) as [->|Hne].
      * rewrite !Hout; [|by fields|fields; rewrite prdt_entry_eq; apart_tac|by fields|fields; rewrite prdt_entry_eq; apart_tac].
        subst m1. fields. rewrite prdt_entry_eq. loads.
        rewrite !Z.mod_small by lia. split; [lia|done].
      * destruct (Hin j ltac:(lia)) as [-> ->]. split; [lia|done].
  - exists m. assert (i = n - 1) as -> by lia. split; [|split; [done|intros; lia]].
    apply ok_triple; lia.
Qed.

Lemma land_byte x n : 0 ≤ n → Z.land (Z.shiftr x n) 0xff mod 2 ^ 8 = x / 2 ^ n mod 2 ^ 8.
Proof.
  intros Hn. change 0xff with (Z.ones 8). rewrite Z.land_ones, Z.shiftr_div_pow2 by lia. by rewrite Z.mod_mod by lia.
Qed.
Lemma lba_value startl starth : 0 ≤ startl < 2 ^ 32 →
  Z.land startl 0xff mod 2 ^ 8 + 2 ^ 8 * (Z.land (Z.shiftr startl 8) 0xff mod 2 ^ 8)
  + 2 ^ 16 * (Z.land (Z.shiftr startl 16) 0xff mod 2 ^ 8) + 2 ^ 24 * (Z.land (Z.shiftr startl 24) 0xff mod 2 ^ 8)
  + 2 ^ 32 * (Z.land starth 0xff mod 2 ^ 8) + 2 ^ 40 * (Z.land (Z.shiftr starth 8) 0xff mod 2 ^ 8)
  = startl + 2 ^ 32 * (starth mod 2 ^ 16).
Proof.
  intros H. pose proof (land_byte startl 0 ltac:(lia)) as E0. pose proof (land_byte starth 0 ltac:(lia)) as E1.
  rewrite Z.shiftr_0_r in E0, E1. rewrite E0, E1, !land_byte by lia.
  rewrite !Z.pow_0_r, !Z.div_1_r. change (2 ^ 8) with 256. change (2 ^ 16) with 65536.
  change (2 ^ 24) with 16777216. change (2 ^ 32) with 4294967296 in *. change (2 ^ 40) with 1099511627776.
  Z.div_mod_to_equations. lia.
Qed.

(** The descriptors of a command of [n] chunks at [buf], whose last chunk has
    [rest] sectors. *)
Definition chunks (buf n rest : Z) : list (Z * Z) :=
  ((λ j, (buf + 4096 * j, 8191)) <$> seqZ 0 (n - 1)) ++ [(buf + 4096 * (n - 1), 512 * rest)].

Lemma prdt_of_chunks m table buf n rest : 1 ≤ n →
  (∀ j, 0 ≤ j < n - 1 → load_field m (at_ hba_prdt_entry_t (prdt_entry table j) "dba") = buf + 4096 * j
     ∧ load_field m (at_ hba_prdt_entry_t (prdt_entry table j) "dbc") = 8191) →
  load_field m (at_ hba_prdt_entry_t (prdt_entry table (n - 1)) "dba") = buf + 4096 * (n - 1) →
  load_field m (at_ hba_prdt_entry_t (prdt_entry table (n - 1)) "dbc") = 512 * rest →
  prdt_of m table n = chunks buf n rest.
Proof.
  intros Hn Hj H1 H2. unfold prdt_of, chunks. replace n with (n - 1 + 1) at 1 by lia.
  rewrite seqZ_app by lia. rewrite fmap_app. f_equal.
  - apply list_fmap_ext. intros i x [-> Hx]%lookup_seqZ. destruct (Hj (0 + Z.of_nat i) ltac:(lia)) as [-> ->]. done.
  - change (seqZ (0 + (n - 1)) 1) with [0 + (0 + (n - 1))]. rewrite !Z.add_0_l, list_fmap_singleton. by rewrite H1, H2.
Qed.

Lemma fill_table_ok fuel k d m clb slot cmd startl starth count buf table n :
  load_field m (at_ hba_cmd_header_t (command_header_at clb slot) "ctba") = table →
  load_field m (at_ hba_cmd_header_t (command_header_at clb slot) "prdtl") = n →
  n = (count - 1) / 16 + 1 → 1 ≤ count < 2 ^ 16 → 0 ≤ startl < 2 ^ 32 → 0 ≤ cmd < 2 ^ 8 →
  0 < table → command_header_at clb slot + 32 ≤ table ∨ table + 257 + 16 * n ≤ command_header_at clb slot →
  0 ≤ buf → buf + 4096 * n < 2 ^ 64 → n ≤ Z.of_nat fuel →
  ∃ m', fill_table fuel (command_header_at clb slot) cmd startl starth count buf (Hst k m d) = Ok (tt, Hst k m' d)
  ∧ (∀ f, 0 ≤ fd_width f → apart f (Field (8 * table) (8 * (257 + 16 * n))) → load_field m' f = load_field m f)
  ∧ command_of m' clb slot
    = Command (load_field m (at_ hba_cmd_header_t (command_header_at clb slot) "cfl"))
        (load_field m (at_ hba_cmd_header_t (command_header_at clb slot) "w")) 0x27 1 cmd 0x40
        (startl + 2 ^ 32 * (starth mod 2 ^ 16)) ((count - 1) mod 16 + 1) (chunks buf n ((count - 1) mod 16 + 1)).
Proof.
  set (h := command_header_at clb slot). intros Ht Hp Hn Hc Hs Hcmd Htab Ha Hb Hb2 Hf.
  assert (Hn' : 1 ≤ n ∧ 16 * (n - 1) < count ∧ count ≤ 16 * n ∧ n < 2 ^ 16) by (subst n; Z.div_mod_to_equations; lia).
  assert (Hrest : count - 16 * (n - 1) = (count - 1) mod 16 + 1) by (subst n; Z.div_mod_to_equations; lia).
  unfold fill_table. rewrite !bind_ld, Ht, Hp, bind_upd.
  set (m0 := memset _ _ _ _). change sizeof_hba_cmd_tbl_t with 256 in m0. change sizeof_hba_prdt_entry_t with 16 in m0.
  assert (H0 : ∀ f, 0 ≤ fd_width f → apart f (Field (8 * table) (8 * (257 + 16 * n))) → load_field m0 f = load_field m f).
  { intros f Hw Hap. apply load_memset_apart; [lia|unfold NULL; lia|done|]. unfold apart in *. cbn [fd_bit fd_width] in *. lia. }
  destruct (prdt_loop_ok k d h table n ltac:(lia) fuel 0 m0 count buf) as (m1 & E & Hout & Hin); try lia.
  { rewrite H0; [done|by fields|fields; apart_tac]. }
  mstep E. rewrite cfis_eq. rewrite Z.sub_0_r in *. rewrite Hrest. set (rest := (count - 1) mod 16 + 1) in *.
  assert (Hr : 1 ≤ rest ≤ 16) by (subst rest; Z.div_mod_to_equations; lia).
  rewrite !bind_st. unfold st, upd_mem, modify. cbn [h_k h_mem h_dev]. eexists. split; [reflexivity|].
  match goal with |- context [command_of ?x] => set (m' := x) end.
  assert (H' : ∀ f, 0 ≤ fd_width f → apart f (Field (8 * table) (8 * 20)) →
    apart f (Field (8 * (table + 128 + 16 * (n - 1))) 128) → load_field m' f = load_field m1 f).
  { intros f Hw A1 A2. subst m'. unfold apart in A1, A2. cbn [fd_bit fd_width] in A1, A2. fields.
    rewrite prdt_entry_eq. by rewrite !load_store_apart by (cbn [fd_width]; first [lia | apart_tac]). }
  assert (Hall : ∀ f, 0 ≤ fd_width f → apart f (Field (8 * table) (8 * (257 + 16 * n))) → load_field m' f = load_field m f).
  { intros f Hw A1. unfold apart in A1. cbn [fd_bit fd_width] in A1. rewrite H', Hout, H0; [done|lia|..]; try lia; apart_tac. }
  split; [done|]. unfold command_of. fold h.
  assert (Hh : ∀ name, name ∈ ["cfl"; "w"; "ctba"; "prdtl"]%string →
    load_field m' (at_ hba_cmd_header_t h name) = load_field m (at_ hba_cmd_header_t h name)).
  { intros name Hname. apply Hall; set_unfold; destruct_or! Hname; subst name; fields; first [cbn [fd_width]; lia | apart_tac]. }
  rewrite !Hh by set_solver. rewrite Ht, Hp. f_equal.
  1-4, 6: subst m'; fields; rewrite prdt_entry_eq; loads; rewrite ?Z.mod_small by lia; done.
  - rewrite <- lba_value by done. subst m'. fields. rewrite prdt_entry_eq. loads. done.
  - apply prdt_of_chunks; [lia|..].
    + intros j Hj. rewrite !H'; try (by fields); try (fields; rewrite prdt_entry_eq; apart_tac).
      destruct (Hin j ltac:(lia)) as [-> ->]. split; [lia|done].
    + subst m'. fields. rewrite prdt_entry_eq. loads. rewrite Z.mod_small; lia.
    + subst m'. fields. rewrite prdt_entry_eq. loads. rewrite Z.shiftl_mul_pow2 by lia. rewrite Z.mod_small; lia.
Qed.

(** ** Issuing a command *)

(** The register at [a] reads as [v] in the states [I], and reading it leaves
    memory alone. *)
Definition reads (I : D → Prop) (a v : Z) : Prop :=
  ∀ d m, I d → ∃ d', I d' ∧ mmio_read a d m = (v, (d', m)).

(** The controller in the states [I] runs no command of the port: its command
    registers keep their values, the device is not busy, and it does not
    touch memory.  Writing the interrupt status acknowledges interrupts. *)
Record idle (I : D → Prop) (port sact ci clb tfd : Z) : Prop := {
  idle_sact : reads I (reg hba_port_t port "sact") sact;
  idle_ci : reads I (reg hba_port_t port "ci") ci;
  idle_clb : reads I (reg hba_port_t port "clb") clb;
  idle_tfd : reads I (reg hba_port_t port "tfd") tfd;
  idle_not_busy : Z.land (u32 tfd) (Z.lor ATA_STATUS_BSY ATA_STATUS_DRQ) = 0;
  idle_words : 0 ≤ sact < 2 ^ 32 ∧ 0 ≤ ci < 2 ^ 32 ∧ 0 ≤ clb < 2 ^ 64;
  idle_ack v d m : I d → ∃ d', I d' ∧ mmio_write (reg hba_port_t port "is_rwc") v d m = (d', m)
}.

(** The lowest slot whose bit is clear. *)
Definition lowest_free (w slot : Z) : Prop :=
  0 ≤ slot < 32 ∧ Z.testbit w slot = false ∧ ∀ j, 0 ≤ j < slot → Z.testbit w j = true.

Lemma slot_loop_lowest w slot : lowest_free w slot → slot_loop 32 0 w = Some slot.
Proof.
  intros (H1 & H2 & H3). pose proof (slot_loop_spec 32 0 w) as H. destruct (slot_loop 32 0 w) as [j|].
  - rewrite Z.sub_0_r in H. destruct H as (Hj & Hf & Hb). f_equal.
    destruct (Z.lt_trichotomy j slot) as [Hl|[->|Hl]]; [|done|].
    + by rewrite H3 in Hf by lia.
    + by rewrite Hb in H2 by lia.
  - by rewrite H in H2 by lia.
Qed.

Lemma rd_reads I l a name v k m d : reads I (reg l a name) v → I d → 0 ≤ v < 2 ^ fd_width (at_ l a name) →
  ∃ d', I d' ∧ rd l a name (Hst k m d) = Ok (v, Hst k m d').
Proof.
  intros HI Hd Hv. destruct (HI d m Hd) as (d' & Hd' & E). exists d'. split; [done|].
  unfold rd. cbn [h_dev h_mem h_k]. rewrite E. by rewrite Z.mod_small.
Qed.

Lemma find_slot_ok I port sact ci clb tfd slot k m d :
  idle I port sact ci clb tfd → I d → lowest_free (Z.lor sact ci) slot →
  ∃ d', I d' ∧ find_slot port (Hst k m d) = Ok (slot, Hst k m d').
Proof.
  intros Hi Hd Hs. destruct (idle_words _ _ _ _ _ _ Hi) as (W1 & W2 & _). unfold find_slot.
  destruct (rd_reads I hba_port_t port "sact" sact k m d (idle_sact _ _ _ _ _ _ Hi) Hd W1) as (d1 & Hd1 & E1).
  destruct (rd_reads I hba_port_t port "ci" ci k m d1 (idle_ci _ _ _ _ _ _ Hi) Hd1 W2) as (d2 & Hd2 & E2).
  exists d2. split; [done|]. mstep E1. mstep E2. by rewrite (slot_loop_lowest _ _ Hs).
Qed.

Lemma issue_ok fuel I port sact ci clb tfd slot on_error k m d : idle I port sact ci clb tfd → I d →
  ∃ d', I d' ∧ issue fuel port slot on_error (Hst k m d) = run_command fuel port slot on_error (Hst k m d').
Proof.
  intros Hi Hd. destruct (idle_tfd _ _ _ _ _ _ Hi d m Hd) as (d' & Hd' & E). exists d'. split; [done|].
  assert (spin_loop SPINS port (Hst k m d) = Ok (false, Hst k m d')) as Es.
  { change SPINS with (S (pred SPINS)). generalize (pred SPINS). intros n. cbn [spin_loop].
    unfold mbind, M_bind, rd at 1. cbn [h_dev h_mem h_k]. rewrite E.
    change (tfd mod 2 ^ fd_width (at_ hba_port_t port "tfd")) with (u32 tfd).
    by rewrite (idle_not_busy _ _ _ _ _ _ Hi). }
  unfold issue. by mstep Es.
Qed.

Lemma ack_ok I port sact ci clb tfd v k m d : idle I port sact ci clb tfd → I d →
  ∃ d', I d' ∧ wr hba_port_t port "is_rwc" v (Hst k m d) = Ok (tt, Hst k m d').
Proof.
  intros Hi Hd. destruct (idle_ack _ _ _ _ _ _ Hi (v mod 2 ^ 32) d m Hd) as (d' & Hd' & E). exists d'.
  split; [done|]. unfold wr. cbn [h_dev h_mem h_k].
  change (fd_width (at_ hba_port_t port "is_rwc")) with 32. by rewrite E.
Qed.

(** The command of a transfer of [count] sectors. *)
Definition transfer (w cmd startl starth count buf : Z) : command :=
  Command 5 w 0x27 1 cmd 0x40 (startl + 2 ^ 32 * (starth mod 2 ^ 16)) ((count - 1) mod 16 + 1)
    (chunks buf ((count - 1) / 16 + 1) ((count - 1) mod 16 + 1)).

(** The command table of the header is where the driver can fill it. *)
Definition table_ok (m : mem) (h table n : Z) : Prop :=
  load_field m (at_ hba_cmd_header_t h "ctba") = table ∧ 0 < table ∧ (h + 32 ≤ table ∨ table + 257 + 16 * n ≤ h).

Section issue.
Context (I : D → Prop) (port sact ci clb tfd slot : Z) (Hidle : idle I port sact ci clb tfd)
  (Hslot : lowest_free (Z.lor sact ci) slot).
Let h := command_header_at clb slot.

(** The state in which the command of a slot is issued: the controller is
    idle, the command is in memory, and nothing but its header and its table
    was written. *)
Definition ready (m : mem) (table n : Z) (c : command) (m1 : mem) : Prop :=
  command_of m1 clb slot = c
  ∧ ∀ f, 0 ≤ fd_width f → apart f (Field (8 * h) 256) → apart f (Field (8 * table) (8 * (257 + 16 * n))) →
      load_field m1 f = load_field m f.

(** The header is written, then the table. *)
Lemma command_built fuel cmd startl starth count buf k m d table n (m0 : mem) w :
  n = (count - 1) / 16 + 1 → 1 ≤ count < 2 ^ 16 → 0 ≤ startl < 2 ^ 32 → 0 ≤ cmd < 2 ^ 8 →
  table_ok m h table n → 0 ≤ buf → buf + 4096 * n < 2 ^ 64 → n ≤ Z.of_nat fuel →
  load_field m0 (at_ hba_cmd_header_t h "prdtl") = n →
  load_field m0 (at_ hba_cmd_header_t h "cfl") = 5 → load_field m0 (at_ hba_cmd_header_t h "w") = w →
  load_field m0 (at_ hba_cmd_header_t h "ctba") = table →
  (∀ f, 0 ≤ fd_width f → apart f (Field (8 * h) 256) → load_field m0 f = load_field m f) →
  ∃ m1, fill_table fuel h cmd startl starth count buf (Hst k m0 d) = Ok (tt, Hst k m1 d)
    ∧ ready m table n (transfer w cmd startl starth count buf) m1.
Proof.
  intros Hn Hc Hs Hcmd (Ht & Hpos & Ha) Hb Hb2 Hf Hp Hcfl Hw Ht0 Hm0.
  destruct (fill_table_ok fuel k d m0 clb slot cmd startl starth count buf table n Ht0 Hp Hn Hc Hs Hcmd Hpos Ha Hb Hb2 Hf)
    as (m1 & E & Hout & Hcom).
  exists m1. split; [done|]. split.
  - rewrite Hcom. fold h. rewrite Hcfl, Hw. unfold transfer. by rewrite <- Hn.
  - intros f Hwf A1 A2. by rewrite Hout, Hm0.
Qed.

(** The common beginning of the two transfers. *)
Lemma slot_taken k m d : I d → ∃ d', I d' ∧ ∀ (none : M (hst D) Z) (G : Z → Z → M (hst D) Z),
  (wr hba_port_t port "is_rwc" (-1);; slot ← find_slot port;
    if slot =? -1 then none else clb ← rd hba_port_t port "clb"; G slot clb) (Hst k m d) = G slot clb (Hst k m d').
Proof.
  intros Hd. destruct (ack_ok I port sact ci clb tfd (-1) k m d Hidle Hd) as (d1 & Hd1 & E1).
  destruct (find_slot_ok I port sact ci clb tfd slot k m d1 Hidle Hd1 Hslot) as (d2 & Hd2 & E2).
  destruct (rd_reads I hba_port_t port "clb" clb k m d2 (idle_clb _ _ _ _ _ _ Hidle) Hd2
    (proj2 (proj2 (idle_words _ _ _ _ _ _ Hidle)))) as (d3 & Hd3 & E3).
  exists d3. split; [done|]. intros none G. mstep E1. mstep E2.
  rewrite (proj2 (Z.eqb_neq slot (-1))) by (destruct Hslot; lia). by mstep E3.
Qed.

Lemma sectors_prdtl count n : n = (count - 1) / 16 + 1 → 1 ≤ count < 2 ^ 16 → (Z.shiftr (count - 1) 4 + 1) mod 2 ^ 16 = n.
Proof.
  intros Hn Hc. rewrite Z.shiftr_div_pow2 by lia. change (2 ^ 4) with 16.
  rewrite Z.mod_small; Z.div_mod_to_equations; lia.
Qed.

Context (fuel : nat) (startl starth count buf : Z) (k : kst) (m : mem) (d : D) (table n : Z)
  (Hd : I d) (Hn : n = (count - 1) / 16 + 1) (Hc : 1 ≤ count < 2 ^ 16) (Hs : 0 ≤ startl < 2 ^ 32)
  (Ht : table_ok m h table n) (Hb : 0 ≤ buf) (Hb2 : buf + 4096 * n < 2 ^ 64) (Hf : n ≤ Z.of_nat fuel).

Lemma do_write_ready :
  ∃ d1 m1, I d1 ∧ ready m table n (transfer 1 DMA_WRITE_EXT startl starth count buf) m1
    ∧ do_write_to_disk fuel port startl starth count buf (Hst k m d)
      = run_command fuel port slot (write_error port) (Hst k m1 d1).
Proof.
  unfold do_write_to_disk.
  destruct (slot_taken k m d Hd) as (d3 & Hd3 & E3). erewrite E3. clear E3.
  cbv zeta beta. fold h. rewrite !bind_st. set (m0 := store_field _ _ _).
  destruct (command_built fuel DMA_WRITE_EXT startl starth count buf k m d3 table n m0 1) as (m1 & E & Hr); try done.
  1: unfold m0; fields; loads; by apply sectors_prdtl.
  1-2: unfold m0; fields; loads; done.
  1: destruct Ht as [<- _]; unfold m0; fields; loads; done.
  { intros f Hw A. unfold apart in A. cbn [fd_bit fd_width] in A. subst m0. fields. by loads. }
  destruct (issue_ok fuel I port sact ci clb tfd slot (write_error port) k m1 d3 Hidle Hd3) as (d4 & Hd4 & E4).
  exists d4, m1. split; [done|]. split; [done|]. by mstep E.
Qed.

Lemma do_read_ready :
  ∃ d1 m1, I d1 ∧ ready m table n (transfer 0 DMA_READ_EXT startl starth count buf) m1
    ∧ do_read_from_disk fuel port startl starth count buf (Hst k m d)
      = run_command fuel port slot read_error (Hst k m1 d1).
Proof.
  unfold do_read_from_disk.
  destruct (slot_taken k m d Hd) as (d3 & Hd3 & E3). erewrite E3. clear E3.
  cbv zeta beta. fold h. rewrite !bind_st. set (m0 := store_field _ _ _).
  destruct (command_built fuel DMA_READ_EXT startl starth count buf k m d3 table n m0 0) as (m1 & E & Hr); try done.
  1: unfold m0; fields; loads; by apply sectors_prdtl.
  1-2: unfold m0; fields; loads; done.
  1: destruct Ht as [<- _]; unfold m0; fields; loads; done.
  { intros f Hw A. unfold apart in A. cbn [fd_bit fd_width] in A. subst m0. fields. by loads. }
  destruct (issue_ok fuel I port sact ci clb tfd slot read_error k m1 d3 Hidle Hd3) as (d4 & Hd4 & E4).
  exists d4, m1. split; [done|]. split; [done|]. by mstep E.
Qed.
End issue.

(** ** Polling *)

(** One round of the polling loop: the command still runs, without error. *)
Definition busy_poll (port slot : Z) (x y : D * mem) : Prop :=
  ∃ ci is_rwc z, mmio_read (reg hba_port_t port "ci") x.1 x.2 = (ci, z) ∧ Z.testbit ci slot = true
    ∧ mmio_read (reg hba_port_t port "is_rwc") z.1 z.2 = (is_rwc, y) ∧ Z.testbit is_rwc 30 = false.
(** The command issued in [x] ends in [y] after [n] rounds: the controller
    clears its bit and reports no error. *)
Definition completes (port slot : Z) (n : nat) (x y : D * mem) : Prop :=
  ∃ z z' ci is_rwc, nsteps (busy_poll port slot) n
      (mmio_write (reg hba_port_t port "ci") (Z.shiftl 1 slot mod 2 ^ 32) x.1 x.2) z
    ∧ mmio_read (reg hba_port_t port "ci") z.1 z.2 = (ci, z') ∧ Z.testbit ci slot = false
    ∧ mmio_read (reg hba_port_t port "is_rwc") z'.1 z'.2 = (is_rwc, y) ∧ Z.testbit is_rwc 30 = false.

Lemma land_slot w slot : 0 ≤ slot < 32 → (Z.land (w mod 2 ^ 32) (u32 (Z.shiftl 1 slot)) =? 0) = negb (Z.testbit w slot).
Proof.
  intros Hs. unfold u32. rewrite Z.shiftl_1_l, (Z.mod_small (2 ^ slot)).
  2: { split; [lia|]. apply Z.pow_lt_mono_r; lia. }
  destruct (Z.testbit w slot) eqn:E; cbn [negb].
  - apply Z.eqb_neq. intros H. apply (f_equal (λ x, Z.testbit x slot)) in H.
    rewrite Z.land_spec, Z.mod_pow2_bits_low, E, Z.pow2_bits_true, Z.bits_0 in H by lia. done.
  - apply Z.eqb_eq, Z.bits_inj'. intros j Hj. rewrite Z.land_spec, Z.pow2_bits_eqb, Z.bits_0 by lia.
    destruct (Z.eqb_spec slot j) as [<-|]; [|by rewrite andb_false_r].
    by rewrite Z.mod_pow2_bits_low, E by lia.
Qed.
Lemma land_tfes w : (Z.land (w mod 2 ^ 32) HBA_PxIS_TFES =? 0) = negb (Z.testbit w 30).
Proof. apply (land_slot w 30). lia. Qed.

Lemma rd_port k m d port name v y : mmio_read (reg hba_port_t port name) d m = (v, y) →
  rd hba_port_t port name (Hst k m d) = Ok (v mod 2 ^ fd_width (at_ hba_port_t port name), Hst k y.2 y.1).
Proof. unfold rd. cbn [h_dev h_mem h_k]. intros ->. by destruct y. Qed.

Lemma wait_loop_ok port slot e k n : 0 ≤ slot < 32 → ∀ fuel x z z' ci, (n < fuel)%nat →
  nsteps (busy_poll port slot) n x z →
  mmio_read (reg hba_port_t port "ci") z.1 z.2 = (ci, z') → Z.testbit ci slot = false →
  wait_loop fuel port slot e (Hst k x.2 x.1) = Ok (true, Hst k z'.2 z'.1).
Proof.
  intros Hs. induction n as [|n IH]; intros fuel x z z' ci Hf Hn E Hb; (destruct fuel as [|fuel]; [lia|]);
    cbn [wait_loop].
  - inversion Hn; subst. mstep (rd_port k z.2 z.1 port "ci" _ _ E).
    change (fd_width (at_ hba_port_t port "ci")) with 32. by rewrite land_slot, Hb.
  - inversion Hn as [|? ? y ? (c & i & w & E1 & B1 & E2 & B2) Hr]; subst.
    mstep (rd_port k x.2 x.1 port "ci" _ _ E1). change (fd_width (at_ hba_port_t port "ci")) with 32.
    rewrite land_slot, B1 by done. cbn [negb]. mstep (rd_port k w.2 w.1 port "is_rwc" _ _ E2).
    change (fd_width (at_ hba_port_t port "is_rwc")) with 32. rewrite land_tfes, B2. cbn [negb].
    eapply IH; eauto. lia.
Qed.

Lemma run_command_ok fuel port slot e k m d n y : 0 ≤ slot < 32 → (n < fuel)%nat →
  completes port slot n (d, m) y → run_command fuel port slot e (Hst k m d) = Ok (1, Hst k y.2 y.1).
Proof.
  intros Hs Hf (z & z' & ci & i & Hn & E1 & B1 & E2 & B2). unfold run_command.
  assert (wr hba_port_t port "ci" (Z.shiftl 1 slot) (Hst k m d)
    = Ok (tt, let x := mmio_write (reg hba_port_t port "ci") (Z.shiftl 1 slot mod 2 ^ 32) d m in Hst k x.2 x.1)) as Ew.
  { unfold wr. cbn [h_dev h_mem h_k]. change (fd_width (at_ hba_port_t port "ci")) with 32. by destruct (mmio_write _ _ _ _). }
  mstep Ew. cbv zeta. mstep (wait_loop_ok port slot e k n Hs fuel _ z z' ci Hf Hn E1 B1). cbn [negb].
  mstep (rd_port k z'.2 z'.1 port "is_rwc" _ _ E2). change (fd_width (at_ hba_port_t port "is_rwc")) with 32.
  by rewrite land_tfes, B2.
Qed.

(** ** Preparing a port *)

(** Ports that answer: [I c f] are the states with command list [c] and FIS
    area [f], in which the command engine does not run. *)
Record answers (I : Z → Z → D → Prop) (port : Z) : Prop := {
  an_cmd c f d m : I c f d → ∃ v d', I c f d' ∧ mmio_read (reg hba_port_t port "cmd") d m = (v, (d', m))
    ∧ Z.testbit v 14 = false ∧ Z.testbit v 15 = false;
  an_set_cmd v c f d m : I c f d → ∃ d', I c f d' ∧ mmio_write (reg hba_port_t port "cmd") v d m = (d', m);
  an_clb c f : reads (I c f) (reg hba_port_t port "clb") c;
  an_fb c f : reads (I c f) (reg hba_port_t port "fb") f;
  an_set_clb v c f d m : I c f d → ∃ d', I v f d' ∧ mmio_write (reg hba_port_t port "clb") v d m = (d', m);
  an_set_fb v c f d m : I c f d → ∃ d', I c v d' ∧ mmio_write (reg hba_port_t port "fb") v d m = (d', m)
}.

(** A cleared byte. *)
Definition cleared (m : mem) (b : Z) : Prop := load_field m (Field (8 * b) 8) = 0.

Lemma header_loop_ok k d p n : 0 ≤ p < 32 → ∀ i m, 0 ≤ i → i + Z.of_nat n = 32 →
  ∃ m', header_loop n (clb_of p) p i (Hst k m d) = Ok (tt, Hst k m' d)
  ∧ (∀ f, 0 ≤ fd_width f → apart f (Field (8 * command_header_at (clb_of p) i) (256 * Z.of_nat n)) →
       apart f (Field (8 * ctba_of p i) (8 * (1152 * Z.of_nat n + 1))) → load_field m' f = load_field m f)
  ∧ ∀ j, i ≤ j < 32 →
      load_field m' (at_ hba_cmd_header_t (command_header_at (clb_of p) j) "prdtl") = 64
      ∧ load_field m' (at_ hba_cmd_header_t (command_header_at (clb_of p) j) "ctba") = ctba_of p j
      ∧ ∀ b, ctba_of p j ≤ b < ctba_of p j + 1152 → cleared m' b.
Proof.
  intros Hp. unfold command_header_at, clb_of, ctba_of. change sizeof_hba_cmd_header_t with 32.
  rewrite !Z.shiftl_mul_pow2 by lia. set (B := AHCI_BASE).
  assert (HB : 0 < B < 2 ^ 32) by done.
  induction n as [|n IH]; intros i m Hi Hn; cbn [header_loop]; [exists m; split; [done|]; split; [done|]; intros; lia|].
  unfold command_header_at, ctba_of. change sizeof_hba_cmd_header_t with 32. fold B. rewrite !Z.shiftl_mul_pow2 by lia.
  rewrite !bind_st, bind_ld. fields. rewrite load_store_same by (cbn; lia). cbn [fd_width]. rewrite Z.mod_small by lia.
  rewrite bind_upd. set (m1 := memset _ _ _ _).
  assert (H1 : ∀ f, 0 ≤ fd_width f → apart f (Field (8 * (B + p * 2 ^ 10 + 32 * i)) 256) →
    apart f (Field (8 * (B + 40 * 2 ^ 10 + 36864 * p + 1152 * i)) (8 * 1153)) → load_field m1 f = load_field m f).
  { intros f Hw A1 A2. subst m1. rewrite load_memset_apart; [|lia|unfold NULL; lia|done|exact A2].
    unfold apart in A1. cbn [fd_bit fd_width] in A1. by loads. }
  destruct (IH (i + 1) m1 ltac:(lia) ltac:(lia)) as (m' & E & Hout & Hin).
  exists m'. split; [exact E|]. split.
  - intros f Hw A1 A2. unfold apart in *. cbn [fd_bit fd_width] in *. by rewrite Hout, H1 by (first [lia | apart_tac]).
  - intros j Hj. destruct (decide (j = i)) as [->|]; [|apply Hin; lia]. fields.
    rewrite !Hout by (first [cbn [fd_width]; lia | apart_tac]). split; [|split].
    1-2: subst m1; rewrite load_memset_apart by (first [lia | unfold NULL; lia | cbn [fd_width]; lia | apart_tac]); loads; rewrite ?Z.mod_small by lia; done.
    intros b Hb. unfold cleared. rewrite Hout by (first [cbn [fd_width]; lia | apart_tac]).
    subst m1. apply load_memset_in; cbn [fd_bit fd_width]; first [lia | unfold NULL; lia].
Qed.

Lemma print_ok fmt args k m d : is_Some (kprintf_loop (k_is_paging k) (bytes_of_string fmt) args (k_con k)) →
  ∃ k', print fmt args (Hst k m d) = Ok (tt, Hst k' m d).
Proof.
  intros [c E]. eexists. unfold print, lift, kprintf, kprintf_bytes. cbn [h_k h_mem h_dev].
  rewrite bind_get, E. reflexivity.
Qed.

Section rebase.
Context (I : Z → Z → D → Prop) (port : Z) (Han : answers I port).

Lemma cmd_read c f k m d : I c f d → ∃ v d', I c f d'
  ∧ rd hba_port_t port "cmd" (Hst k m d) = Ok (v, Hst k m d')
  ∧ (Z.land v HBA_PxCMD_FR =? 0) = true ∧ (Z.land v HBA_PxCMD_CR =? 0) = true.
Proof.
  intros Hd. destruct (an_cmd _ _ Han c f d m Hd) as (v & d' & Hd' & E & B1 & B2).
  exists (v mod 2 ^ 32), d'. split; [done|]. split; [apply (rd_port _ _ _ _ _ _ _ E)|].
  split; [rewrite (land_slot v 14 ltac:(lia) : (Z.land _ HBA_PxCMD_FR =? 0) = _), B1
    |rewrite (land_slot v 15 ltac:(lia) : (Z.land _ HBA_PxCMD_CR =? 0) = _), B2]; done.
Qed.
Lemma cmd_write v c f k m d : I c f d → ∃ d', I c f d' ∧ wr hba_port_t port "cmd" v (Hst k m d) = Ok (tt, Hst k m d').
Proof.
  intros Hd. destruct (an_set_cmd _ _ Han (v mod 2 ^ 32) c f d m Hd) as (d' & Hd' & E). exists d'. split; [done|].
  unfold wr. cbn [h_dev h_mem h_k]. change (fd_width (at_ hba_port_t port "cmd")) with 32. by rewrite E.
Qed.

Lemma stop_cmd_ok fuel c f k m d : I c f d → ∃ d', I c f d' ∧ stop_cmd (S fuel) port (Hst k m d) = Ok (tt, Hst k m d').
Proof.
  intros Hd. unfold stop_cmd. cbn [stop_wait].
  destruct (cmd_read c f k m d Hd) as (v1 & d1 & Hd1 & E1 & _).
  destruct (cmd_write (Z.land v1 (not32 HBA_PxCMD_ST)) c f k m d1 Hd1) as (d2 & Hd2 & E2).
  destruct (cmd_read c f k m d2 Hd2) as (v3 & d3 & Hd3 & E3 & B3 & _).
  destruct (cmd_read c f k m d3 Hd3) as (v4 & d4 & Hd4 & E4 & _ & B4).
  destruct (cmd_read c f k m d4 Hd4) as (v5 & d5 & Hd5 & E5 & _).
  destruct (cmd_write (Z.land v5 (not32 HBA_PxCMD_FRE)) c f k m d5 Hd5) as (d6 & Hd6 & E6).
  exists d6. split; [done|]. mstep E1. mstep E2. rewrite bind_assoc. mstep E3. rewrite B3. cbn [negb].
  rewrite bind_assoc. mstep E4. rewrite B4. cbn [negb]. mnorm. by mstep E5.
Qed.
Lemma start_cmd_ok fuel c f k m d : I c f d → ∃ d', I c f d' ∧ start_cmd (S fuel) port (Hst k m d) = Ok (tt, Hst k m d').
Proof.
  intros Hd. unfold start_cmd. cbn [cr_wait].
  destruct (cmd_read c f k m d Hd) as (v1 & d1 & Hd1 & E1 & _ & B1).
  destruct (cmd_read c f k m d1 Hd1) as (v2 & d2 & Hd2 & E2 & _).
  destruct (cmd_write (Z.lor v2 HBA_PxCMD_FRE) c f k m d2 Hd2) as (d3 & Hd3 & E3).
  destruct (cmd_read c f k m d3 Hd3) as (v4 & d4 & Hd4 & E4 & _).
  destruct (cmd_write (Z.lor v4 HBA_PxCMD_ST) c f k m d4 Hd4) as (d5 & Hd5 & E5).
  exists d5. split; [done|]. rewrite bind_assoc. mstep E1. rewrite B1. cbn [negb]. mnorm.
  mstep E2. mstep E3. by mstep E4.
Qed.

Lemma base_write name v k m d (P : D → Prop) : name = "clb"%string ∨ name = "fb"%string → 0 ≤ v < 2 ^ 64 →
  (∃ d', P d' ∧ mmio_write (reg hba_port_t port name) v d m = (d', m)) →
  ∃ d', P d' ∧ wr hba_port_t port name v (Hst k m d) = Ok (tt, Hst k m d').
Proof.
  intros Hname Hv (d' & Hd' & E). exists d'. split; [done|]. unfold wr. cbn [h_dev h_mem h_k].
  assert (fd_width (at_ hba_port_t port name) = 64) as -> by (destruct Hname; by subst).
  rewrite Z.mod_small by done. by rewrite E.
Qed.

Lemma port_rebase_run fuel c f p k m d : I c f d → 0 ≤ p < 32 →
  ∃ k' d' m', I (clb_of p) (fb_of p) d' ∧ port_rebase (S fuel) port p (Hst k m d) = Ok (tt, Hst k' m' d')
  ∧ (∀ j, 0 ≤ j < 32 →
      load_field m' (at_ hba_cmd_header_t (command_header_at (clb_of p) j) "prdtl") = 64
      ∧ load_field m' (at_ hba_cmd_header_t (command_header_at (clb_of p) j) "ctba") = ctba_of p j
      ∧ ∀ b, ctba_of p j ≤ b < ctba_of p j + 1152 → cleared m' b)
  ∧ ∀ b, b < AHCI_BASE ∨ ctba_of 32 0 < b → load_field m' (Field (8 * b) 8) = load_field m (Field (8 * b) 8).
Proof.
  intros Hd Hp. unfold port_rebase.
  assert (Hc : 0 ≤ clb_of p < 2 ^ 64 ∧ 0 ≤ fb_of p < 2 ^ 64 ∧ AHCI_BASE ≤ clb_of p ∧ clb_of p + 1024 ≤ AHCI_BASE + 32768
    ∧ AHCI_BASE + 32768 ≤ fb_of p ∧ fb_of p + 1024 < AHCI_BASE + 51200).
  { unfold clb_of, fb_of, AHCI_BASE. rewrite !Z.shiftl_mul_pow2 by lia. lia. }
  destruct Hc as (C1 & C2 & C3 & C4 & C5 & C6).
  destruct (print_ok (line "Port rebase called") [] k m d) as (k1 & P1); [by eexists|].
  destruct (stop_cmd_ok fuel c f k1 m d Hd) as (d1 & Hd1 & E1).
  destruct (base_write "clb" (clb_of p) k1 m d1 (I (clb_of p) f)) as (d2 & Hd2 & E2); [by left|done|by apply (an_set_clb _ _ Han _ c)|].
  destruct (rd_reads _ hba_port_t port "clb" _ k1 m d2 (an_clb _ _ Han (clb_of p) f) Hd2 C1) as (d3 & Hd3 & E3).
  destruct (print_ok (line "port->clb is 0x%x") [KInt (clb_of p)] k1 m d3) as (k2 & P2); [by eexists|].
  destruct (rd_reads _ hba_port_t port "clb" _ k2 m d3 (an_clb _ _ Han (clb_of p) f) Hd3 C1) as (d4 & Hd4 & E4).
  set (m1 := memset m (clb_of p) 0 1024).
  destruct (base_write "fb" (fb_of p) k2 m1 d4 (I (clb_of p) (fb_of p))) as (d5 & Hd5 & E5); [by right|done|by apply (an_set_fb _ _ Han _ _ f)|].
  destruct (rd_reads _ hba_port_t port "fb" _ k2 m1 d5 (an_fb _ _ Han (clb_of p) (fb_of p)) Hd5 C2) as (d6 & Hd6 & E6).
  set (m2 := memset m1 (fb_of p) 0 1024).
  destruct (rd_reads _ hba_port_t port "clb" _ k2 m2 d6 (an_clb _ _ Han (clb_of p) (fb_of p)) Hd6 C1) as (d7 & Hd7 & E7).
  destruct (header_loop_ok k2 d7 p 32 Hp 0 m2 ltac:(lia) ltac:(lia)) as (m3 & E8 & Hout & Hin).
  destruct (start_cmd_ok fuel (clb_of p) (fb_of p) k2 m3 d7 Hd7) as (d8 & Hd8 & E9).
  exists k2, d8, m3. split; [done|]. split; [|split; [exact Hin|]].
  - mstep P1. mstep E1. mstep E2. mstep E3. mstep P2. mstep E4. rewrite bind_upd. fold m1.
    mstep E5. mstep E6. rewrite bind_upd. fold m2. mstep E7. by mstep E8.
  - intros b Hb. unfold ctba_of in Hb, Hout. rewrite !Z.shiftl_mul_pow2 in Hb, Hout by lia.
    change (command_header_at (clb_of p) 0) with (clb_of p + 32 * 0) in Hout.
    rewrite Hout by (first [cbn [fd_width]; lia | apart_tac]). unfold m2, m1.
    rewrite !load_memset_apart; try (unfold NULL, AHCI_BASE in *; first [cbn [fd_width]; lia | apart_tac]).
Qed.
End rebase.
End proofs.

(** ** A disk to run the driver on *)

(** A controller with one port whose registers are storage: a command runs
    when its bit is written, its bytes go to or from the places its
    descriptors name, in order, as many as its sectors have. *)
Record sim : Type := Sim { s_regs : gmap Z Z; s_disk : gmap Z Z }.
Definition sim_hba : Z := 0xFEBF1000.
Definition sim_port : Z := port_of sim_hba 0.
Definition sim_reg (name : string) : Z := reg hba_port_t sim_port name.
Fixpoint from (a : Z) (n : nat) : list Z := match n with O => [] | S n' => a :: from (a + 1) n' end.
Definition dma_places (c : command) : list Z :=
  take (Z.to_nat (512 * c_count c)) (mjoin ((λ e, from e.1 (Z.to_nat (e.2 + 1))) <$> c_prdt c)).
Definition sim_run (c : command) (d : sim) (m : mem) : sim * mem :=
  let cells := zip (from (512 * c_lba c) (Z.to_nat (512 * c_count c))) (dma_places c) in
  if c_w c =? 1 then
    (Sim (s_regs d) (foldl (λ disk x, <[x.1 := byte m x.2]> disk) (s_disk d) cells), m)
  else (d, foldl (λ m x, put_byte m x.2 (byte (s_disk d) x.1)) m cells).
Definition sim_read (a : Z) (d : sim) (m : mem) : Z * (sim * mem) := (default 0 (s_regs d !! a), (d, m)).
Definition sim_write (a v : Z) (d : sim) (m : mem) : sim * mem :=
  if a =? sim_reg "ci" then sim_run (command_of m (default 0 (s_regs d !! sim_reg "clb")) (Z.log2 v)) d m
  else if a =? sim_reg "is_rwc" then
    (Sim (alter (λ x, Z.ldiff x v) a (s_regs d)) (s_disk d), m)
  else if a =? sim_reg "cmd" then
    (Sim (<[a := Z.ldiff v (Z.lor HBA_PxCMD_FR HBA_PxCMD_CR)]> (s_regs d)) (s_disk d), m)
  else (Sim (<[a := v]> (s_regs d)) (s_disk d), m).
#[export] Instance sim_controller : controller sim := {| mmio_read := sim_read; mmio_write := sim_write |}.

(** An empty disk at port 0, of an active SATA link. *)
Definition sim0 : sim :=
  Sim (<[reg hba_mem_t sim_hba "pi" := 1]> (<[sim_reg "ssts" := 0x113]> (<[sim_reg "sig" := 0x101]> ∅))) ∅.

(** ** Properties *)

(** The offsets and sizes that the comments of ahci.h state, in bytes. *)
Definition stated_offsets : list (layout * list (string * Z)) :=
  [(hba_port_t, [("clb", 0x00); ("fb", 0x08); ("is_rwc", 0x10); ("ie", 0x14); ("cmd", 0x18); ("rsv0", 0x1C);
      ("tfd", 0x20); ("sig", 0x24); ("ssts", 0x28); ("sctl", 0x2C); ("serr_rwc", 0x30); ("sact", 0x34); ("ci", 0x38);
      ("sntf_rwc", 0x3C); ("fbs", 0x40); ("rsv1", 0x44); ("vendor", 0x70)]);
   (hba_mem_t, [("cap", 0x00); ("ghc", 0x04); ("is_rwc", 0x08); ("pi", 0x0C); ("vs", 0x10); ("ccc_ctl", 0x14);
      ("ccc_pts", 0x18); ("em_loc", 0x1C); ("em_ctl", 0x20); ("cap2", 0x24); ("bohc", 0x28); ("rsv", 0x2C);
      ("vendor", 0xA0); ("ports", 0x100)]);
   (hba_fis_t, [("dsfis", 0x00); ("psfis", 0x20); ("rfis", 0x40); ("sdbfis", 0x58); ("ufis", 0x60); ("rsv", 0xA0)]);
   (hba_cmd_tbl_t, [("cfis", 0x00); ("acmd", 0x40); ("rsv", 0x50); ("prdt_entry", 0x80)]);
   (hba_cmd_header_t, [("cfl", 0); ("prdbc", 4); ("ctba", 8); ("rsv1", 16)]);
   (hba_prdt_entry_t, [("dba", 0); ("rsv0", 8); ("dbc", 12)]);
   (fis_reg_h2d_t, [("fis_type", 0); ("lba0", 4); ("lba3", 8); ("count", 12); ("aux", 16)]);
   (fis_reg_d2h_t, [("fis_type", 0); ("lba0", 4); ("lba3", 8); ("count", 12); ("rsv4", 16)]);
   (fis_dev_bits_t, [("fis_type", 0); ("protocol", 4)]);
   (fis_dma_setup_t, [("fis_type", 0); ("buf_id", 4); ("rsv1", 12); ("buf_offset", 16); ("trans_count", 20); ("rsv2", 24)]);
   (fis_pio_setup_t, [("fis_type", 0); ("lba0", 4); ("lba3", 8); ("count", 12); ("trans_count", 16)])]%string.

Lemma offset_in_range l name o w : Forall (λ f, 0 < snd f) l → offset_in l name = Some (o, w) →
  0 ≤ o ∧ 0 < w ∧ o + w ≤ layout_bits l.
Proof.
  intros Hl. revert o w. induction Hl as [|[n v] l Hv Hl IH]; intros o w; [done|]. cbn [offset_in layout_bits foldr snd].
  assert (0 ≤ layout_bits l) by (clear -Hl; unfold layout_bits; induction Hl; cbn in *; lia). cbn in Hv. fold (layout_bits l).
  case_decide; [intros [= <- <-]; lia|].
  destruct (offset_in l name) as [[o' w']|] eqn:E; [|done]. cbn. intros [= <- <-].
  destruct (IH o' w' eq_refl). lia.
Qed.

Lemma offsets_apart l n1 n2 o1 w1 o2 w2 : Forall (λ f, 0 < snd f) l → n1 ≠ n2 →
  offset_in l n1 = Some (o1, w1) → offset_in l n2 = Some (o2, w2) → o1 + w1 ≤ o2 ∨ o2 + w2 ≤ o1.
Proof.
  intros Hl Hn. revert o1 w1 o2 w2. induction Hl as [|[n v] l Hv Hl IH]; intros o1 w1 o2 w2; [done|].
  cbn [offset_in]. cbn in Hv. pose proof (offset_in_range l n1) as R1. pose proof (offset_in_range l n2) as R2.
  destruct (decide (n = n1)), (decide (n = n2)); subst; [done|..].
  - intros [= <- <-]. destruct (offset_in l n2) as [[o' w']|]; [|done]. cbn. intros [= <- <-].
    specialize (R2 _ _ Hl eq_refl). lia.
  - destruct (offset_in l n1) as [[o' w']|]; [|done]. cbn. intros [= <- <-] [= <- <-].
    specialize (R1 _ _ Hl eq_refl). lia.
  - destruct (offset_in l n1) as [[o' w']|], (offset_in l n2) as [[o'' w'']|]; try done. cbn.
    intros [= <- <-] [= <- <-]. specialize (IH _ _ _ _ eq_refl eq_refl). lia.
Qed.

(** The structures of ahci.h have the layout the hardware documents in
    their comments: every commented offset is where packing puts the field,
    the sizes are those of the specification (a command table is padded to a
    multiple of 128 bytes), and in each structure, at any address, a field
    reads back what was written to it, cut to its width, and no other field
    changes. *)
Theorem structures_well_formed :
  Forall (λ s, Forall (λ f, ∃ w, offset_in s.1 f.1 = Some (8 * f.2, w)) s.2) stated_offsets
  ∧ [size_of 1 fis_reg_h2d_t; size_of 1 fis_reg_d2h_t; size_of 1 fis_dev_bits_t; size_of 1 fis_dma_setup_t;
     size_of 1 fis_pio_setup_t; size_of 1 hba_prdt_entry_t; size_of 1 hba_cmd_header_t; size_of 128 hba_cmd_tbl_t;
     size_of 256 hba_fis_t; size_of 1024 hba_cmd_list_t; size_of 1 hba_port_t; size_of 1 hba_mem_t]
    = [20; 20; 8; 28; 20; 16; 32; 256; 256; 1024; 0x80; 0x1100]
  ∧ Forall (λ s, ∀ m a v n1 n2 o1 w1 o2 w2, n1 ≠ n2 →
      offset_in s.1 n1 = Some (o1, w1) → offset_in s.1 n2 = Some (o2, w2) →
      load_field (store_field m (at_ s.1 a n1) v) (at_ s.1 a n1) = v mod 2 ^ w1
      ∧ load_field (store_field m (at_ s.1 a n1) v) (at_ s.1 a n2) = load_field m (at_ s.1 a n2)) stated_offsets.
Proof.
  split; [|split; [vm_compute; reflexivity|]].
  - repeat (apply Forall_cons; split; [repeat (apply Forall_cons; split; [eexists; vm_compute; reflexivity|]); apply Forall_nil_2|]).
    apply Forall_nil_2.
  - assert (Forall (λ s : layout * list (string * Z), Forall (λ f : string * Z, 0 < snd f) s.1) stated_offsets) as Hpos.
    { apply (bool_decide_unpack _). by vm_compute. }
    eapply Forall_impl; [exact Hpos|]. intros [l offs] Hl m a v n1 n2 o1 w1 o2 w2 Hn E1 E2. cbn [fst] in *.
    rewrite (at_eq _ _ _ _ _ E1), (at_eq _ _ _ _ _ E2).
    destruct (offset_in_range _ _ _ _ Hl E1), (offset_in_range _ _ _ _ Hl E2).
    destruct (offsets_apart _ _ _ _ _ _ _ Hl Hn E1 E2); split;
      [apply load_store_same; cbn; lia|apply load_store_apart; [cbn; lia..|apart_tac]
      |apply load_store_same; cbn; lia|apply load_store_apart; [cbn; lia..|apart_tac]].
Qed.

(** The direction of a transfer. *)
Definition disk_op {D} `{!controller D} (write : bool) := if write then do_write_to_disk (D := D) else do_read_from_disk (D := D).
Definition disk_command (write : bool) : Z → Z → Z → Z → command :=
  if write then transfer 1 DMA_WRITE_EXT else transfer 0 DMA_READ_EXT.

(** C15: a transfer of [count] sectors on an idle port takes the lowest free
    slot, writes a well-formed command into its header and its table and
    nothing else, and returns 1 once the controller has completed it,
    whatever number of polls below the bound that takes.  The command names
    [(count - 1) / 16 + 1] regions of 8192 bytes, but they overlap (their
    addresses are 4096 apart), and its sector count is only that of the last
    region, [(count - 1) mod 16 + 1]. *)
Theorem disk_transfer_issued {D} `{!controller D} (I : D → Prop) port sact ci clb tfd slot write fuel startl starth count
    buf k m d table :
  idle I port sact ci clb tfd → lowest_free (Z.lor sact ci) slot → I d →
  1 ≤ count < 2 ^ 16 → 0 ≤ startl < 2 ^ 32 → 0 ≤ buf → buf + 4096 * ((count - 1) / 16 + 1) < 2 ^ 64 →
  table_ok m (command_header_at clb slot) table ((count - 1) / 16 + 1) → (count - 1) / 16 + 1 ≤ Z.of_nat fuel →
  ∃ d1 m1, I d1 ∧ command_of m1 clb slot = disk_command write startl starth count buf
  ∧ (∀ b, ¬ command_header_at clb slot ≤ b < command_header_at clb slot + 32 →
       ¬ table ≤ b < table + 257 + 16 * ((count - 1) / 16 + 1) →
       load_field m1 (Field (8 * b) 8) = load_field m (Field (8 * b) 8))
  ∧ ∀ n d2 m2, (n < fuel)%nat → completes port slot n (d1, m1) (d2, m2) →
      disk_op write fuel port startl starth count buf (Hst k m d) = Ok (1, Hst k m2 d2).
Proof.
  intros Hi Hs Hd Hc Hl Hb Hb2 Ht Hf.
  assert (∃ d1 m1 e, I d1 ∧ ready clb slot m table ((count - 1) / 16 + 1) (disk_command write startl starth count buf) m1
    ∧ disk_op write fuel port startl starth count buf (Hst k m d) = run_command fuel port slot e (Hst k m1 d1))
    as (d1 & m1 & e & Hd1 & [Hcom Hrest] & E).
  { destruct write.
    - destruct (do_write_ready I port sact ci clb tfd slot Hi Hs fuel startl starth count buf k m d table _ Hd eq_refl
        Hc Hl Ht Hb Hb2 Hf) as (d1 & m1 & H1 & H2 & H3). by exists d1, m1, (write_error port).
    - destruct (do_read_ready I port sact ci clb tfd slot Hi Hs fuel startl starth count buf k m d table _ Hd eq_refl
        Hc Hl Ht Hb Hb2 Hf) as (d1 & m1 & H1 & H2 & H3). by exists d1, m1, read_error. }
  exists d1, m1. split; [done|]. split; [done|]. split.
  - intros b B1 B2. apply Hrest; [done|apart_tac..].
  - intros n d2 m2 Hn Hcs. rewrite E. by apply (run_command_ok fuel port slot e k m1 d1 n (d2, m2)); [destruct Hs|..].
Qed.

(** The states of the simulated controller in which nothing runs. *)
Definition sim_idle (c f : Z) (d : sim) : Prop :=
  Forall (λ name, s_regs d !! sim_reg name = None) ["sact"; "ci"; "tfd"; "is_rwc"]%string
  ∧ s_regs d !! sim_reg "clb" = Some c ∧ s_regs d !! sim_reg "fb" = Some f
  ∧ Z.testbit (default 0 (s_regs d !! sim_reg "cmd")) 14 = false
  ∧ Z.testbit (default 0 (s_regs d !! sim_reg "cmd")) 15 = false.
Lemma sim_is_idle c f : 0 ≤ c < 2 ^ 64 → idle (sim_idle c f) sim_port 0 0 c 0.
Proof.
  intros Hc. split; [..|done|done|].
  1-4: intros d m Hd; exists d; split; [done|]; destruct Hd as ([E1 [E2 [E3 [E4 _]%Forall_cons]%Forall_cons]%Forall_cons]%Forall_cons
    & E5 & _); cbn; unfold sim_read, sim_reg in *; by rewrite ?E1, ?E2, ?E3, ?E5.
  intros v d m Hd. exists (Sim (alter (λ x, Z.ldiff x v) (sim_reg "is_rwc") (s_regs d)) (s_disk d)). split; [|done].
  destruct Hd as ([E1 [E2 [E3 [E4 _]%Forall_cons]%Forall_cons]%Forall_cons]%Forall_cons & E5 & E6 & E7 & E8).
  unfold sim_idle. cbn [s_regs]. assert (alter (λ x, Z.ldiff x v) (sim_reg "is_rwc") (s_regs d) = s_regs d) as ->.
  { apply map_eq. intros a. rewrite lookup_alter. case_decide as Ea; [|done]. subst a. by rewrite E4. }
  split; [repeat constructor; done|done].
Qed.
Lemma sim_completes c f slot d m : sim_idle c f d → ∃ y, completes sim_port slot 0 (d, m) y.
Proof.
  intros ([E1 [E2 [E3 [E4 _]%Forall_cons]%Forall_cons]%Forall_cons]%Forall_cons & _).
  set (z := mmio_write (reg hba_port_t sim_port "ci") (Z.shiftl 1 slot mod 2 ^ 32) d m).
  assert (s_regs z.1 = s_regs d) as Ez by (subst z; cbn; unfold sim_write; rewrite Z.eqb_refl; unfold sim_run; by case_match).
  exists z, z, z, 0, 0. split; [apply nsteps_O|].
  change (sim_read (sim_reg "ci") z.1 z.2 = (0, z) ∧ Z.testbit 0 slot = false
    ∧ sim_read (sim_reg "is_rwc") z.1 z.2 = (0, z) ∧ Z.testbit 0 30 = false).
  unfold sim_read. rewrite Ez, E2, E4, !Z.bits_0. by destruct z.
Qed.
(** The headers and the registers of a prepared port, for the runs below. *)
Definition prepared_mem : mem := store_field ∅ (at_ hba_cmd_header_t (command_header_at (clb_of 0) 0) "ctba") (ctba_of 0 0).
Definition prepared : sim :=
  Sim (<[sim_reg "clb" := clb_of 0]> (<[sim_reg "fb" := fb_of 0]> (s_regs sim0))) ∅.
Lemma prepared_idle : sim_idle (clb_of 0) (fb_of 0) prepared.
Proof. split; [repeat constructor|done]. Qed.

Lemma disk_transfer_issued_witness : ∃ s',
  disk_op true 60 sim_port 7 0 20 0x600f000 (Hst blank_kst prepared_mem prepared) = Ok (1, s').
Proof.
  destruct (disk_transfer_issued (sim_idle (clb_of 0) (fb_of 0)) sim_port 0 0 (clb_of 0) 0 0 true 60 7 0 20 0x600f000
    blank_kst prepared_mem prepared (ctba_of 0 0)) as (d1 & m1 & Hd1 & _ & _ & H); try done.
  - by apply sim_is_idle.
  - split; [lia|]. split; [done|]. intros; lia.
  - apply prepared_idle.
  - split; [vm_compute; reflexivity|]. split; [done|]. left. by vm_compute.
  - destruct (sim_completes _ _ 0 d1 m1 Hd1) as ([d2 m2] & Hc). exists (Hst blank_kst m2 d2). apply (H 0%nat); [lia|done].
Defined.

(** Preparing port [p] of a controller whose command engine is off
    returns, sets its command list and FIS area, and leaves every one of its
    32 slots with room for 64 regions and a cleared table of its own, as
    [do_write_to_disk] and [do_read_from_disk] need it; nothing outside the
    driver's area changes. *)
Theorem port_rebase_ok {D} `{!controller D} (I : Z → Z → D → Prop) port c f p fuel k m d :
  answers I port → I c f d → 0 ≤ p < 32 →
  ∃ k' d' m', I (clb_of p) (fb_of p) d' ∧ port_rebase (S fuel) port p (Hst k m d) = Ok (tt, Hst k' m' d')
  ∧ (∀ slot n, 0 ≤ slot < 32 → table_ok m' (command_header_at (clb_of p) slot) (ctba_of p slot) n
      ∧ load_field m' (at_ hba_cmd_header_t (command_header_at (clb_of p) slot) "prdtl") = 64
      ∧ ∀ b, ctba_of p slot ≤ b < ctba_of p (slot + 1) → cleared m' b)
  ∧ ∀ b, b < AHCI_BASE ∨ ctba_of 32 0 < b → load_field m' (Field (8 * b) 8) = load_field m (Field (8 * b) 8).
Proof.
  intros Ha Hd Hp. destruct (port_rebase_run I port Ha fuel c f p k m d Hd Hp) as (k' & d' & m' & Hd' & E & Hin & Hout).
  exists k', d', m'. split; [done|]. split; [done|]. split; [|done].
  intros slot n Hslot. destruct (Hin slot Hslot) as (H1 & H2 & H3). split; [|split; [done|]].
  - split; [done|]. unfold ctba_of, command_header_at, clb_of, AHCI_BASE. change sizeof_hba_cmd_header_t with 32.
    rewrite !Z.shiftl_mul_pow2 by lia. lia.
  - intros b Hb. apply H3. unfold ctba_of in *. lia.
Qed.

Lemma sim_set name v c f c' f' d : sim_idle c f d → name = "cmd"%string ∨ name = "clb"%string ∨ name = "fb"%string →
  <[sim_reg name := v]> (s_regs d) !! sim_reg "clb" = Some c' → <[sim_reg name := v]> (s_regs d) !! sim_reg "fb" = Some f' →
  (name = "cmd"%string → Z.testbit v 14 = false ∧ Z.testbit v 15 = false) →
  sim_idle c' f' (Sim (<[sim_reg name := v]> (s_regs d)) (s_disk d)).
Proof.
  intros (Hn & _ & _ & B1 & B2) Hname E1 E2 Hv. split; [|split; [done|split; [done|]]].
  - apply Forall_forall. intros x Hx. cbn [s_regs]. rewrite lookup_insert_ne; [by apply (proj1 (Forall_forall _ _) Hn)|].
    rewrite !elem_of_cons in Hx. destruct_or! Hname; destruct_or! Hx; subst; first [done | by apply elem_of_nil in Hx].
  - cbn [s_regs]. rewrite lookup_insert. case_decide as E; [|done].
    apply Hv. destruct_or! Hname; subst; done.
Qed.
Lemma sim_answers : answers sim_idle sim_port.
Proof.
  split.
  - intros c f d m Hd. eexists _, d. split; [done|]. split; [reflexivity|]. apply Hd.
  - intros v c f d m Hd. eexists. split; [|reflexivity]. pose proof Hd as (_ & E1 & E2 & _).
    eapply (sim_set "cmd"); [done|by left|by rewrite lookup_insert_ne|by rewrite lookup_insert_ne|].
    intros _. rewrite !Z.ldiff_spec. by rewrite !andb_false_r.
  - intros c f d m Hd. exists d. split; [done|]. destruct Hd as (_ & E & _). unfold reads, mmio_read. cbn. unfold sim_read.
    fold (sim_reg "clb"). by rewrite E.
  - intros c f d m Hd. exists d. split; [done|]. destruct Hd as (_ & _ & E & _). cbn. unfold sim_read.
    fold (sim_reg "fb"). by rewrite E.
  - intros v c f d m Hd. eexists. split; [|reflexivity]. pose proof Hd as (_ & E1 & E2 & _).
    eapply (sim_set "clb"); [done|by right; left|by rewrite lookup_insert_eq|by rewrite lookup_insert_ne|done].
  - intros v c f d m Hd. eexists. split; [|reflexivity]. pose proof Hd as (_ & E1 & E2 & _).
    eapply (sim_set "fb"); [done|by right; right|by rewrite lookup_insert_ne|by rewrite lookup_insert_eq|done].
Qed.
Lemma port_rebase_ok_witness : ∃ k' d' m',
  port_rebase 1 sim_port 0 (Hst blank_kst ∅ prepared) = Ok (tt, Hst k' m' d')
  ∧ table_ok m' (command_header_at (clb_of 0) 5) (ctba_of 0 5) 50.
Proof.
  destruct (port_rebase_ok sim_idle sim_port (clb_of 0) (fb_of 0) 0 0 blank_kst ∅ prepared sim_answers prepared_idle ltac:(lia))
    as (k' & d' & m' & _ & E & H & _).
  exists k', d', m'. split; [exact E|]. apply (H 5 50). lia.
Defined.

(** The areas of the 32 ports are aligned as the controller requires
    and do not overlap: command lists (1024 bytes), received FIS (256 bytes)
    and the tables of all slots, which hold 64 regions each.  The clearing of
    a table by a transfer stays inside it up to 880 sectors, but the clearing
    of the FIS area, 1025 bytes, reaches the first table of port 0 from port
    28 on. *)
Theorem areas_disjoint p q i j : 0 ≤ p < 32 → 0 ≤ q < 32 → 0 ≤ i < 32 → 0 ≤ j < 32 →
  (clb_of p mod 1024 = 0 ∧ fb_of p mod 256 = 0 ∧ ctba_of p i mod 128 = 0)
  ∧ (p < q → clb_of p + 1024 ≤ clb_of q ∧ fb_of p + 256 ≤ fb_of q)
  ∧ (clb_of p + 1024 ≤ fb_of q ∧ fb_of p + 256 ≤ ctba_of q i)
  ∧ (p < q ∨ p = q ∧ i < j → ctba_of p i + 128 + 64 * 16 ≤ ctba_of q j)
  ∧ (∀ count, 1 ≤ count ≤ 880 →
       ctba_of p i + sizeof_hba_cmd_tbl_t + ((count - 1) / 16 + 1) * sizeof_hba_prdt_entry_t < ctba_of p (i + 1))
  ∧ (ctba_of 0 0 ≤ fb_of p + 1024 ↔ 28 ≤ p).
Proof.
  intros Hp Hq Hi Hj. unfold clb_of, fb_of, ctba_of. rewrite !Z.shiftl_mul_pow2 by lia.
  change sizeof_hba_cmd_tbl_t with 256. change sizeof_hba_prdt_entry_t with 16.
  change AHCI_BASE with (65280 * 1024). repeat split; intros; Z.div_mod_to_equations; lia.
Qed.
Lemma areas_disjoint_witness : ctba_of 0 31 + 128 + 64 * 16 ≤ ctba_of 1 0.
Proof. apply (areas_disjoint 0 1 31 0); lia. Defined.

(** The disk test of the bus scan on a controller that runs commands as
    documented: it means to write 800 sectors and read them back, and ends
    as if it had, but only the first 16 sectors reach the disk and come back;
    the rest of the read buffer keeps its zeroes. *)
Theorem disk_test_transfers_16_sectors : ∃ s',
  find_first_disk 100 sim_hba (Hst blank_kst ∅ sim0) = Ok (tt, s')
  ∧ (λ j, byte (h_mem s') (read_buf + j)) <$> from 0 READ_SHOWN
    = ((λ j, 48 + j / 100) <$> from 0 (Z.to_nat 8192)) ++ replicate (Z.to_nat 1808) 0
  ∧ Z.of_nat (size (s_disk (h_dev s'))) = 8192.
Proof.
  assert (match find_first_disk 100 sim_hba (Hst blank_kst ∅ sim0) with
    | Ok (_, s') => bool_decide ((λ j, byte (h_mem s') (read_buf + j)) <$> from 0 READ_SHOWN
        = ((λ j, 48 + j / 100) <$> from 0 (Z.to_nat 8192)) ++ replicate (Z.to_nat 1808) 0) && bool_decide (Z.of_nat (size (s_disk (h_dev s'))) = 8192)
    | _ => false end = true) as H by (vm_compute; reflexivity).
  destruct (find_first_disk 100 sim_hba (Hst blank_kst ∅ sim0)) as [[[] s']| |]; [|done..].
  apply andb_prop in H as [H1%bool_decide_eq_true H2%bool_decide_eq_true]. exists s'. split; [reflexivity|]. exact (conj H1 H2).
Qed.
