(* ===== verification/Terminal.v ===== *)
(** * Terminal and keyboard (sys/terminals.c, sys/keyboard.c)

    The input buffer is one frame of characters with a write pointer [head]
    and a count [line_cursor]; the keyboard interrupt turns scan codes into
    characters and edits the buffer.  The refinement is to an abstract
    keyboard, [key_spec]: the rows of a US keyboard, the characters shift and
    control make of its keys, a line, and what is put on the screen. *)

From S2P Require Export Devices PhysMem.

(** ** The input buffer *)

Definition clear_input_buffer : M kst unit := modify (upd_tty (λ t, set_line_cursor 0 (set_head 0 t))).

(** The new frame holds unknown characters. *)
Definition ttyinit : M kst unit :=
  phys_mem_alloc;;
  modify (upd_tty (set_input_buffer ∅));;
  clear_input_buffer.

Definition is_input_buffer_empty : M kst Z :=
  gets (λ s, if line_cursor (k_tty s) <? PAGE_BLOCK_SIZE then 1 else 0).

(** [*head = c; head++; line_cursor++], inside the frame. *)
Definition insert_char_into_input_buffer (c : Z) : M kst unit :=
  s ← get;
  let h := head (k_tty s) in
  if (0 <=? h) && (h <? PAGE_BLOCK_SIZE) then
    modify (upd_tty (λ t, set_line_cursor (i32 (line_cursor t + 1))
      (set_head (h + 1) (set_input_buffer (<[h := u8 c]> (input_buffer t)) t))))
  else ub.

Definition erase_char_from_input_buffer : M kst unit :=
  modify (upd_tty (λ t, set_line_cursor (i32 (line_cursor t - 1)) (set_head (head t - 1) t))).

(** [input_buffer[i]]. *)
Definition buffer_at (i : Z) : M kst Z :=
  s ← get; of_option (input_buffer (k_tty s) !! i).

(** [for(; i < line_cursor; i++) if(input_buffer[i] == '\n') return 1]. *)
Fixpoint check_loop (n : nat) (i : Z) : M kst Z :=
  match n with
  | O => mret 0
  | S n' => c ← buffer_at i; if c =? 10 then mret 1 else check_loop n' (i + 1)
  end.
Definition check_input_buffer : M kst Z :=
  s ← get; check_loop (Z.to_nat (line_cursor (k_tty s))) 0.

Fixpoint copy_loop (n : nat) (i : Z) (acc : list Z) : M kst (list Z) :=
  match n with
  | O => mret acc
  | S n' => c ← buffer_at i; copy_loop n' (i + 1) (acc ++ [c])
  end.

(** The count and the bytes stored in the caller's buffer.  Without a newline
    the reader spins until an interrupt adds one. *)
Definition terminal_read (fp size offset : Z) : M kst (Z * list Z) :=
  if fp =? NULL then kprintf (line "Invalid terminal file descriptor") [];; mret (-1, []) else
  r ← check_input_buffer;
  if r =? 0 then timeout else
  s ← get;
  let lc := u64 (line_cursor (k_tty s)) in
  let temp_size := if size <? lc then size else lc in
  buf ← copy_loop (Z.to_nat temp_size) 0 [];
  clear_input_buffer;;
  mret (temp_size, buf ++ [0]).

Fixpoint put_all (buf : list Z) : M kst unit :=
  match buf with [] => mret tt | c :: buf' => kputchar c;; put_all buf' end.
(** [buf] are the [size] characters to write. *)
Definition terminal_write (fp : Z) (buf : list Z) (offset : Z) : M kst Z :=
  if fp =? NULL then kprintf (line "Invalid terminal file descriptor") [];; mret (-1) else
  put_all buf;; mret (Z.of_nat (length buf)).

(** ** Scan codes *)

Definition scancodes : list Z :=
  [0; 27] ++ bytes_of_string "1234567890-=" ++ [8; 9] ++ bytes_of_string "qwertyuiop[]" ++ [10; 4]
  ++ bytes_of_string "asdfghjkl;'`" ++ [2; 92] ++ bytes_of_string "zxcvbnm,./" ++ [3; chr "*"; 0; chr " "]
  ++ replicate 15 0 ++ [chr "-"; 0; 0; 0; chr "+"] ++ replicate 50 0.

(** The cases of the switch for a shifted key. *)
Definition shift_letters : list (Z * Z) :=
  zip (bytes_of_string "abcdefghijklmnopqrstuvwxyz") (bytes_of_string "ABCDEFGHIJKLMNOPQRSTUVWXYZ").
Definition shift_digits : list (Z * Z) :=
  zip (bytes_of_string "1234567890") (bytes_of_string "!@#$%^&*()").
Definition shift_keys : list (Z * Z) := shift_letters ++ shift_digits.
(** The control keys with the common treatment. *)
Definition ctrl_keys_to_p : list (Z * Z) :=
  zip (bytes_of_string "abcdefgijklmnop") (bytes_of_string "ABCDEFGIJKLMNOP").
Definition ctrl_keys_from_r : list (Z * Z) :=
  zip (bytes_of_string "rtvwxyz") (bytes_of_string "RTVWXYZ").
Definition ctrl_keys : list (Z * Z) := ctrl_keys_to_p ++ ctrl_keys_from_r.

Fixpoint assoc (k : Z) (l : list (Z * Z)) : option Z :=
  match l with [] => None | (a, b) :: l' => if a =? k then Some b else assoc k l' end.

Definition kbd : M kst keyboard := gets k_kbd.
Definition echo (fmt : list Z) : M kst unit :=
  k ← kbd; when (stop_buffer_output k =? 0) (kprintf_bytes fmt []).

(** One backspace on the screen. *)
Definition rub_out : M kst unit :=
  x ← get_x; set_x (x - 1);; kprintf " " [];; x ← get_x; set_x (x - 1).
(** [for(i = line_cursor; i >= 0; i--)]. *)
Fixpoint rub_loop (n : nat) : M kst unit :=
  match n with O => mret tt | S n' => rub_out;; rub_loop n' end.
Definition rub_line : M kst unit :=
  s ← get; rub_loop (Z.to_nat (line_cursor (k_tty s) + 1)).

(** [for(i = 0; i < line_cursor; i++) kputchar(input_buffer[i])]. *)
Fixpoint show_loop (n : nat) (i : Z) : M kst unit :=
  match n with O => mret tt | S n' => c ← buffer_at i; kputchar c;; show_loop n' (i + 1) end.

Definition shifted_key (key : Z) : M kst unit :=
  match assoc key shift_keys with
  | Some c => insert_char_into_input_buffer c;; echo [c]
  | None => mret tt
  end.

Definition control_key (key : Z) : M kst unit :=
  match assoc key ctrl_keys with
  | Some c =>
      insert_char_into_input_buffer (chr "^");; insert_char_into_input_buffer c;; echo [chr "^"; c]
  | None =>
      if key =? chr "h" then
        erase_char_from_input_buffer;;
        x ← get_x; set_x (x - 1);;
        echo [chr " "];;
        x ← get_x; set_x (x - 1)
      else if key =? chr "q" then
        rub_line;;
        k ← kbd;
        if negb (stop_buffer_output k =? 0) then
          modify (upd_kbd (set_stop_buffer_output 0));;
          s ← get; show_loop (Z.to_nat (line_cursor (k_tty s))) 0
        else
          insert_char_into_input_buffer (chr "^");; insert_char_into_input_buffer (chr "Q");;
          kprintf_bytes [chr "^"; chr "Q"] []
      else if key =? chr "s" then
        clear_input_buffer;; modify (upd_kbd (set_stop_buffer_output 1))
      else if key =? chr "u" then
        rub_line;; clear_input_buffer
      else mret tt
  end.

(** The body of the handler for one scan code. *)
Definition handle_scancode (scancode : Z) : M kst unit :=
  if negb (Z.land scancode 0x80 =? 0) then
    let scancode := u8 (scancode - 0x80) in
    key ← of_option (scancodes !! Z.to_nat scancode);
    when ((key =? 2) || (key =? 3)) (modify (upd_kbd (set__shift 0)));;
    when (key =? 4) (modify (upd_kbd (set__ctrl 0)))
  else
    key ← of_option (scancodes !! Z.to_nat scancode);
    if (key =? 2) || (key =? 3) then modify (upd_kbd (set__shift 1))
    else if key =? 4 then modify (upd_kbd (set__ctrl 1))
    else
      k ← kbd;
      if negb (_shift k =? 0) then shifted_key key
      else if negb (_ctrl k =? 0) then control_key key
      else insert_char_into_input_buffer key;; when (stop_buffer_output k =? 0) (kputchar key).

(** [while(1) if((inb(port) & KEYBOARD_INPUT_BUFFER_STATUS) == 0) break]. *)
Fixpoint wait_input_clear (fuel : nat) (hw : hardware) (port : Z) : M kst unit :=
  match fuel with
  | O => timeout
  | S f => v ← inb hw port; if Z.land v 2 =? 0 then mret tt else wait_input_clear f hw port
  end.
Definition send_command_to_controller (fuel : nat) (hw : hardware) (cmd : Z) : M kst unit :=
  wait_input_clear fuel hw 0x64;; outb 0x64 cmd.
Definition send_command_to_encoder (fuel : nat) (hw : hardware) (cmd : Z) : M kst unit :=
  wait_input_clear fuel hw 0x60;; outb 0x60 cmd.

Definition i86_keyboard_irq (hw : hardware) : M kst unit :=
  i86_pic_send_eoi_command 1;;
  i86_set_mask hw 0;;
  st ← inb hw 0x64;
  when (negb (Z.land 1 st =? 0)) (scancode ← inb hw 0x60; handle_scancode scancode);;
  i86_clear_mask hw 0.

Lemma scancodes_length : length scancodes = 128%nat.
Proof. reflexivity. Qed.
(** ** The line *)

(** The buffer holds the line [l]. *)
Definition line_is (s : kst) (l : list Z) : Prop :=
  head (k_tty s) = Z.of_nat (length l) ∧ line_cursor (k_tty s) = Z.of_nat (length l)
  ∧ ∀ i c, l !! i = Some c → input_buffer (k_tty s) !! Z.of_nat i = Some c.

(** Only the terminal, the keyboard state, the screen and the port trace
    differ. *)
Definition same_but_tty (s s' : kst) : Prop :=
  ∃ t k c e, s' = set_k_tty t (set_k_kbd k (set_k_con c (set_k_trace e s))).
Lemma sbt_refl s : same_but_tty s s.
Proof. exists (k_tty s), (k_kbd s), (k_con s), (k_trace s). by destruct s. Qed.
Lemma sbt_trans s1 s2 s3 : same_but_tty s1 s2 → same_but_tty s2 s3 → same_but_tty s1 s3.
Proof. intros (t & k & c & e & ->) (t' & k' & c' & e' & ->). by exists t', k', c', e'. Qed.

(** ** The screen *)

(** What a key does to the screen: characters put at the cursor, and the cursor
    moved one column back. *)
Inductive ink : Type := Put (c : Z) | Back.
Definition stroke (pg : Z) (k : console) (i : ink) : console :=
  match i with Put c => kputchar_con pg c k | Back => set_con_x (u32 (con_x k - 1)) k end.
Definition paint (pg : Z) (l : list ink) (k : console) : console := foldl (stroke pg) k l.
Lemma paint_app pg l1 l2 k : paint pg (l1 ++ l2) k = paint pg l2 (paint pg l1 k).
Proof. apply foldl_app. Qed.
Lemma paint_puts pg cs k : kputs_con pg cs k = paint pg (Put <$> cs) k.
Proof. revert k. induction cs as [|c cs IH]; intros k; [done|]. apply IH. Qed.

(** A step from line [l] to line [l'] that keeps the keyboard state [k] and
    does [f k] to the screen. *)
Definition edits (m : M kst unit) (l l' : list Z) (f : keyboard → list ink) : Prop :=
  ∀ s, line_is s l → ∃ s', m s = Ok (tt, s') ∧ line_is s' l' ∧ k_kbd s' = k_kbd s
    ∧ k_con s' = paint (k_is_paging s) (f (k_kbd s)) (k_con s) ∧ k_trace s' = k_trace s ∧ same_but_tty s s'.

Lemma sbt_con s c : same_but_tty s (set_k_con c s).
Proof. exists (k_tty s), (k_kbd s), c, (k_trace s). by destruct s. Qed.
Lemma sbt_kbd s k : same_but_tty s (set_k_kbd k s).
Proof. exists (k_tty s), k, (k_con s), (k_trace s). by destruct s. Qed.
Lemma sbt_tty s t : same_but_tty s (set_k_tty t s).
Proof. exists t, (k_kbd s), (k_con s), (k_trace s). by destruct s. Qed.
Lemma sbt_paging s s' : same_but_tty s s' → k_is_paging s' = k_is_paging s.
Proof. by intros (t & k & c & e & ->). Qed.
#[local] Hint Resolve sbt_refl sbt_con sbt_kbd sbt_tty : kernel.

Lemma edits_bind m m' l l1 l2 f g : edits m l l1 f → edits m' l1 l2 g → edits (m;; m') l l2 (λ k, f k ++ g k).
Proof.
  intros H H' s Hl. destruct (H s Hl) as (s1 & E1 & Hl1 & K1 & C1 & T1 & B1).
  destruct (H' s1 Hl1) as (s2 & E2 & Hl2 & K2 & C2 & T2 & B2). exists s2. mstep E1.
  split_and!; [done|done|congruence| |congruence|by eapply sbt_trans].
  by rewrite C2, (sbt_paging _ _ B1), K1, C1, paint_app.
Qed.
Lemma edits_ext m l l' f g : (∀ k, f k = g k) → edits m l l' f → edits m l l' g.
Proof. intros E H s Hl. rewrite <- E. by apply H. Qed.
Lemma edits_assoc (m1 m2 m3 : M kst unit) l l' f : edits ((m1;; m2);; m3) l l' f → edits (m1;; m2;; m3) l l' f.
Proof. intros H s Hl. destruct (H s Hl) as (s' & E & H'). exists s'. by rewrite bind_assoc in E. Qed.
(** Steps that change nothing but the console. *)
Lemma edits_con m l f : (∀ s, m s = Ok (tt, set_k_con (paint (k_is_paging s) (f (k_kbd s)) (k_con s)) s)) → edits m l l f.
Proof. intros H s Hl. eexists. split; [apply H|]. split_and!; auto with kernel. Qed.
Lemma edits_ret l : edits (mret tt) l l (λ _, []).
Proof. apply edits_con. intros s. by destruct s. Qed.
Lemma edits_kputchar c l : edits (kputchar c) l l (λ _, [Put c]).
Proof. apply edits_con. done. Qed.
Lemma edits_back l : edits (x ← get_x; set_x (x - 1)) l l (λ _, [Back]).
Proof. apply edits_con. intros s. done. Qed.
Lemma edits_back_then m l l' f : edits m l l' f → edits (x ← get_x; set_x (x - 1);; m) l l' (λ k, Back :: f k).
Proof. intros H. exact (edits_bind _ _ _ _ _ _ _ (edits_back l) H). Qed.
Lemma edits_plain cs l : Forall (λ c, c ≠ chr "%") cs → edits (kprintf_bytes cs []) l l (λ _, Put <$> cs).
Proof. intros H. apply edits_con. intros s. unfold kprintf_bytes. mnorm. rewrite kprintf_loop_plain by done. by rewrite <- paint_puts. Qed.
Lemma edits_percent l : edits (kprintf_bytes [chr "%"] []) l l (λ _, []).
Proof. apply edits_con. intros s. unfold kprintf_bytes. mnorm. by destruct s. Qed.
Lemma edits_when (b : keyboard → bool) (g : M kst unit) l f : edits g l l f →
  edits (k ← kbd; when (b k) g) l l (λ k, if b k then f k else []).
Proof.
  intros H s Hl. unfold kbd. mnorm. destruct (b (k_kbd s)); cbn [when]; [by apply H|].
  exists s. split_and!; auto with kernel.
Qed.

(** Rubbing out [n] characters. *)
Definition rubs (n : nat) : list ink := concat (replicate n [Back; Put 32; Back]).
Lemma edits_rub_out l : edits rub_out l l (λ _, [Back; Put 32; Back]).
Proof.
  apply edits_back_then. refine (edits_bind _ _ _ _ _ (λ _, [Put 32]) (λ _, [Back]) _ (edits_back l)).
  apply (edits_plain [32]). by repeat constructor.
Qed.
Lemma edits_rub_loop n l : edits (rub_loop n) l l (λ _, rubs n).
Proof. induction n as [|n IH]; [apply edits_ret|]. exact (edits_bind _ _ _ _ _ _ _ (edits_rub_out l) IH). Qed.
Lemma edits_rub_line l : edits rub_line l l (λ _, rubs (length l + 1)).
Proof.
  intros s Hl. pose proof Hl as (_ & Hc & _). unfold rub_line. mnorm. rewrite Hc.
  replace (Z.to_nat (Z.of_nat (length l) + 1)) with (length l + 1)%nat by lia. by apply edits_rub_loop.
Qed.

Lemma edits_insert l c : (length l < 4096)%nat → 0 ≤ c < 256 →
  edits (insert_char_into_input_buffer c) l (l ++ [c]) (λ _, []).
Proof.
  intros Hlen Hc s (Hh & Hcur & Hbuf). unfold insert_char_into_input_buffer. mnorm.
  rewrite Hh, (proj2 (Z.leb_le 0 _)), (proj2 (Z.ltb_lt _ PAGE_BLOCK_SIZE)) by (unfold PAGE_BLOCK_SIZE; lia).
  cbn [andb]. eexists. split; [done|]. split; [|split_and!; [done|done|done|apply sbt_tty]].
  unfold line_is. cbn. rewrite Hcur, length_app. cbn [length].
  rewrite i32_small by lia. split; [lia|]. split; [lia|].
  intros i x Hi. destruct (decide (i = length l)) as [->|Hne].
  - rewrite list_lookup_middle in Hi by done. injection Hi as <-. rewrite lookup_insert_eq.
    unfold u8. by rewrite Z.mod_small.
  - rewrite lookup_insert_ne by lia. apply Hbuf. rewrite lookup_app_l in Hi; [done|].
    apply lookup_lt_Some in Hi. rewrite length_app in Hi. simpl in Hi. lia.
Qed.
Lemma edits_insert2 l a b : (length l + 2 ≤ 4096)%nat → 0 ≤ a < 256 → 0 ≤ b < 256 →
  edits (insert_char_into_input_buffer a;; insert_char_into_input_buffer b) l (l ++ [a; b]) (λ _, []).
Proof.
  intros Hl Ha Hb. change [a; b] with ([a] ++ [b]). rewrite app_assoc.
  refine (edits_bind _ _ _ _ _ (λ _, []) (λ _, []) _ _); apply edits_insert; rewrite ?length_app; simpl; lia.
Qed.
Lemma edits_clear l : edits clear_input_buffer l [] (λ _, []).
Proof.
  intros s _. eexists. split; [done|]. split; [|split_and!; [done|done|done|apply sbt_tty]]. split; [done|]. split; [done|].
  intros i c. by rewrite lookup_nil.
Qed.
Lemma edits_erase l x : (length l < 4096)%nat → edits erase_char_from_input_buffer (l ++ [x]) l (λ _, []).
Proof.
  intros Hlen s (Hh & Hcur & Hbuf). eexists. split; [done|]. split; [|split_and!; [done|done|done|apply sbt_tty]].
  unfold line_is. cbn. rewrite Hh, Hcur, length_app. cbn [length]. rewrite i32_small by lia.
  split; [lia|]. split; [lia|]. intros i c Hi. apply Hbuf. by apply lookup_app_l_Some.
Qed.

(** Showing the line again. *)
Lemma buffer_at_ok s l i c : line_is s l → l !! i = Some c → buffer_at (Z.of_nat i) s = Ok (c, s).
Proof. intros (_ & _ & Hb) Hc. unfold buffer_at. mnorm. by rewrite (Hb _ _ Hc). Qed.
Lemma edits_show l n i : (i + n = length l)%nat → edits (show_loop n (Z.of_nat i)) l l (λ _, Put <$> drop i l).
Proof.
  revert i. induction n as [|n IH]; intros i Hi; cbn [show_loop].
  { rewrite drop_ge by lia. apply edits_ret. }
  destruct (lookup_lt_is_Some_2 l i) as [c Hc]; [lia|]. rewrite (drop_S l c i Hc).
  pose proof (edits_bind _ _ _ _ _ _ _ (edits_kputchar c l) (IH (S i) ltac:(lia))) as H.
  intros s Hl. mstep (buffer_at_ok _ _ _ _ Hl Hc). replace (Z.of_nat i + 1) with (Z.of_nat (S i)) by lia. by apply H.
Qed.

(** ** The abstract keyboard

    The keys of a US keyboard by their scan codes (set 1), row by row from the
    code of the first key of the row.  A key types a character, or nothing (0),
    or is a modifier.  The keypad's minus and plus are where the kernel has them,
    one below their place on the keyboard. *)
Inductive key : Type := Shift | Ctrl | Types (c : Z).
Definition key_rows : list (Z * list Z) :=
  [(0x01, [27]); (0x02, bytes_of_string "1234567890-="); (0x0E, [8]); (0x0F, [9]); (0x10, bytes_of_string "qwertyuiop[]");
   (0x1C, [10]); (0x1E, bytes_of_string "asdfghjkl;'`"); (0x2B, [92]); (0x2C, bytes_of_string "zxcvbnm,./");
   (0x37, [42]); (0x39, [32]); (0x49, [45]); (0x4D, [43])].
Fixpoint in_rows (sc : Z) (rows : list (Z * list Z)) : Z :=
  match rows with
  | [] => 0
  | (start, cs) :: rows' =>
      if (start <=? sc) && (sc <? start + Z.of_nat (length cs)) then cs !!! Z.to_nat (sc - start) else in_rows sc rows'
  end.
Definition us_key (sc : Z) : key :=
  if (sc =? 0x2A) || (sc =? 0x36) then Shift else if sc =? 0x1D then Ctrl else Types (in_rows sc key_rows).

(** The character with shift: capitals are 32 below the letters, the symbols of
    the digits are in the order of the keys. *)
Definition is_letter (c : Z) : bool := (97 <=? c) && (c <=? 122).
Definition capital (c : Z) : Z := c - 32.
Definition shifted (c : Z) : option Z :=
  if is_letter c then Some (capital c)
  else if (48 <=? c) && (c <=? 57) then bytes_of_string "!@#$%^&*()" !! Z.to_nat ((c - 49) mod 10)
  else None.

Definition room (l cs : list Z) : option (list Z) :=
  if (length l + length cs <=? 4096)%nat then Some (l ++ cs) else None.
(** The echo of characters, unless it is stopped. *)
Definition shown (k : keyboard) (cs : list Z) : list ink := if stop_buffer_output k =? 0 then Put <$> cs else [].

(** What control with a letter does: h erases a character, q restarts the echo
    or types ^Q, s stops the echo, u kills the line, any other letter types
    itself as a capital after a caret.  Rubbing out a line of [n] characters
    takes [n + 1] of them off the screen. *)
Definition control_spec (k : keyboard) (l : list Z) (c : Z) : option (keyboard * list Z * list ink) :=
  if c =? chr "h" then
    match l with
    | [] => None
    | _ => Some (k, removelast l, Back :: shown k [32] ++ [Back])
    end
  else if c =? chr "q" then
    if stop_buffer_output k =? 0 then l' ← room l [chr "^"; chr "Q"]; Some (k, l', rubs (length l + 1) ++ [Put (chr "^"); Put (chr "Q")])
    else Some (set_stop_buffer_output 0 k, l, rubs (length l + 1) ++ (Put <$> l))
  else if c =? chr "s" then Some (set_stop_buffer_output 1 k, [], [])
  else if c =? chr "u" then Some (k, [], rubs (length l + 1))
  else if is_letter c then l' ← room l [chr "^"; capital c]; Some (k, l', shown k [chr "^"; capital c])
  else Some (k, l, []).

(** What a key does to the modifiers, the line and the screen; [None] when the
    line would leave the buffer.  The percent sign is not shown: it is given to
    [kprintf] as a format. *)
Definition key_spec (k : keyboard) (l : list Z) (scancode : Z) : option (keyboard * list Z * list ink) :=
  if 128 <=? scancode then
    match us_key (scancode - 128) with
    | Shift => Some (set__shift 0 k, l, [])
    | Ctrl => Some (set__ctrl 0 k, l, [])
    | Types _ => Some (k, l, [])
    end
  else
    match us_key scancode with
    | Shift => Some (set__shift 1 k, l, [])
    | Ctrl => Some (set__ctrl 1 k, l, [])
    | Types c =>
        if negb (_shift k =? 0) then
          match shifted c with
          | Some d => l' ← room l [d]; Some (k, l', if d =? chr "%" then [] else shown k [d])
          | None => Some (k, l, [])
          end
        else if negb (_ctrl k =? 0) then control_spec k l c
        else l' ← room l [c]; Some (k, l', shown k [c])
    end.

(** The tables of the driver say the same. *)
Lemma scancodes_us sc : 0 ≤ sc < 128 → ∃ c, scancodes !! Z.to_nat sc = Some c ∧ 0 ≤ c < 256
  ∧ us_key sc = if (c =? 2) || (c =? 3) then Shift else if c =? 4 then Ctrl else Types c.
Proof.
  intros Hs. set (code c := if (c =? 2) || (c =? 3) then Shift else if c =? 4 then Ctrl else Types c).
  assert (F : Forall (λ i, match scancodes !! Z.to_nat i with
                           | Some c => match us_key i, code c with
                                       | Shift, Shift | Ctrl, Ctrl => true
                                       | Types a, Types b => (a =? b) && (0 <=? c) && (c <? 256)
                                       | _, _ => false end = true
                           | None => False end) (seqZ 0 128)).
  { repeat (apply Forall_cons; split; [vm_compute; reflexivity|]). apply Forall_nil. done. }
  eapply Forall_forall in F; [|apply (elem_of_seqZ 0 128 sc); lia]. cbv beta in F.
  destruct (scancodes !! Z.to_nat sc) as [c|]; [|done]. exists c. split; [done|].
  fold (code c). unfold code in *. destruct (us_key sc) as [| |a]; destruct (Z.eqb_spec c 2), (Z.eqb_spec c 3), (Z.eqb_spec c 4);
    cbn [orb] in *; try done; (split; [lia|done]) || (apply andb_prop in F as [[F1 F2]%andb_prop F3]; split; [lia|]; f_equal; lia).
Qed.
Lemma by_character (P : Z → bool) c : forallb P (seqZ 0 256) = true → 0 ≤ c < 256 → P c = true.
Proof. intros H Hc. eapply forallb_forall in H; [exact H|]. apply list_elem_of_In, elem_of_seqZ. lia. Qed.
Lemma shift_keys_us c : 0 ≤ c < 256 → assoc c shift_keys = shifted c.
Proof.
  intros Hc. apply (proj1 (bool_decide_eq_true _)). refine (by_character (λ c, bool_decide (assoc c shift_keys = shifted c)) c _ Hc).
  vm_compute. reflexivity.
Qed.
Definition caret (c : Z) : option Z :=
  if is_letter c && negb (bool_decide (c ∈ [chr "h"; chr "q"; chr "s"; chr "u"])) then Some (capital c) else None.
Lemma ctrl_keys_us c : 0 ≤ c < 256 → assoc c ctrl_keys = caret c.
Proof.
  intros Hc. apply (proj1 (bool_decide_eq_true _)). refine (by_character (λ c, bool_decide (assoc c ctrl_keys = caret c)) c _ Hc).
  vm_compute. reflexivity.
Qed.
Lemma shifted_range c d : 0 ≤ c < 256 → shifted c = Some d → 0 ≤ d < 256.
Proof.
  intros Hc Hd. assert (H : bool_decide (0 ≤ default 0 (shifted c) < 256) = true).
  { refine (by_character (λ c, bool_decide (0 ≤ default 0 (shifted c) < 256)) c _ Hc). vm_compute. reflexivity. }
  rewrite Hd in H. by apply bool_decide_eq_true in H.
Qed.

Lemma room_some l cs l' : room l cs = Some l' → (length l + length cs ≤ 4096)%nat ∧ l' = l ++ cs.
Proof. unfold room. destruct (Nat.leb_spec (length l + length cs) 4096); [|done]. by intros [= <-]. Qed.

(** A step of the abstract keyboard implemented by [m]. *)
Definition key_step (m : M kst unit) (s : kst) (r : option (keyboard * list Z * list ink)) : Prop :=
  match r with
  | Some (k', l', acts) => ∃ s', m s = Ok (tt, s') ∧ k_kbd s' = k' ∧ line_is s' l'
      ∧ k_con s' = paint (k_is_paging s) acts (k_con s) ∧ k_trace s' = k_trace s ∧ same_but_tty s s'
  | None => True
  end.
Lemma key_step_eq m m' s r : m' s = m s → key_step m s r → key_step m' s r.
Proof. intros E. unfold key_step. by rewrite E. Qed.
Lemma key_edits m s l l' f : edits m l l' f → line_is s l → key_step m s (Some (k_kbd s, l', f (k_kbd s))).
Proof. intros H Hl. destruct (H s Hl) as (s' & E & Hl' & K & C & T & B). exists s'. by split_and!. Qed.
Lemma key_room m s l cs f : line_is s l →
  ((length l + length cs ≤ 4096)%nat → edits m l (l ++ cs) f) →
  key_step m s (l' ← room l cs; Some (k_kbd s, l', f (k_kbd s))).
Proof.
  intros Hl He. destruct (room l cs) as [l'|] eqn:E; [|done]. apply room_some in E as [Hlen ->].
  by apply (key_edits _ _ l); [apply He|].
Qed.
(** The keyboard state is set and nothing else. *)
Lemma key_kbd s l f : line_is s l → key_step (modify (upd_kbd f)) s (Some (f (k_kbd s), l, [])).
Proof. intros Hl. eexists. split; [reflexivity|]. split_and!; [done|exact Hl|done|done|apply sbt_kbd]. Qed.
(** An edit before a step, and one after the keyboard state is set. *)
Lemma key_after m m' s l l1 f k' l' acts : edits m l l1 f → line_is s l →
  (∀ s1, line_is s1 l1 → k_kbd s1 = k_kbd s → key_step m' s1 (Some (k', l', acts))) →
  key_step (m;; m') s (Some (k', l', f (k_kbd s) ++ acts)).
Proof.
  intros H Hl H'. destruct (H s Hl) as (s1 & E1 & L1 & K1 & C1 & T1 & B1).
  destruct (H' s1 L1 K1) as (s2 & E2 & K2 & L2 & C2 & T2 & B2). exists s2. mstep E1.
  split_and!; [done|done|done| |congruence|by eapply sbt_trans]. by rewrite C2, (sbt_paging _ _ B1), C1, paint_app.
Qed.

Lemma edits_echo cs l : Forall (λ c, c ≠ chr "%") cs → edits (echo cs) l l (λ k, shown k cs).
Proof. intros H. apply (edits_when (λ k, stop_buffer_output k =? 0)), edits_plain, H. Qed.
Lemma edits_echo1 c l : edits (echo [c]) l l (λ k, if c =? chr "%" then [] else shown k [c]).
Proof.
  destruct (Z.eqb_spec c (chr "%")) as [->|Hne]; [|apply edits_echo; by repeat constructor].
  refine (edits_ext _ _ _ _ _ _ (edits_when (λ k, stop_buffer_output k =? 0) _ l _ (edits_percent l))). intros k. by destruct (_ =? _).
Qed.

(** Control with a letter that has no treatment of its own. *)
Lemma caret_key_ok s l key c : line_is s l → caret key = Some c → 0 ≤ c < 256 ∧ c ≠ chr "%" → 0 ≤ key < 256 →
  key_step (insert_char_into_input_buffer (chr "^");; insert_char_into_input_buffer c;; echo [chr "^"; c]) s
    (control_spec (k_kbd s) l key).
Proof.
  intros Hl Hc [Hr Hp] Hk. unfold caret in Hc. destruct (is_letter key) eqn:El; [|done].
  destruct (bool_decide_reflect (key ∈ [chr "h"; chr "q"; chr "s"; chr "u"])) as [|Hn]; [done|]. injection Hc as <-.
  rewrite !not_elem_of_cons in Hn. destruct Hn as (H1 & H2 & H3 & H4 & _). unfold control_spec.
  rewrite (proj2 (Z.eqb_neq _ _) H1), (proj2 (Z.eqb_neq _ _) H2), (proj2 (Z.eqb_neq _ _) H3), (proj2 (Z.eqb_neq _ _) H4), El.
  apply (key_room _ s l [chr "^"; capital key] (λ k, shown k [chr "^"; capital key])); [done|]. intros Hlen. simpl in Hlen.
  apply edits_assoc. refine (edits_bind _ _ _ _ _ (λ _, []) _ (edits_insert2 l (chr "^") (capital key) Hlen _ Hr) _); [done|].
  apply edits_echo. by repeat constructor.
Qed.

Lemma control_h_ok s l : line_is s l → (length l ≤ 4096)%nat →
  key_step (erase_char_from_input_buffer;; x ← get_x; set_x (x - 1);; echo [chr " "];; x ← get_x; set_x (x - 1)) s
    (control_spec (k_kbd s) l (chr "h")).
Proof.
  intros Hl Hlen. change (control_spec (k_kbd s) l (chr "h"))
    with (match l with [] => None | _ => Some (k_kbd s, removelast l, Back :: shown (k_kbd s) [32] ++ [Back]) end).
  destruct l as [|x l] using rev_ind; [done|]. clear IHl. destruct (l ++ [x]) as [|y l'] eqn:E; [by destruct l|].
  rewrite <- E in *. rewrite removelast_last. apply (key_edits _ _ (l ++ [x]) l (λ k, Back :: shown k [32] ++ [Back])); [|done].
  refine (edits_bind _ _ _ _ _ (λ _, []) _ (edits_erase l x _) _); [rewrite length_app in Hlen; simpl in Hlen; lia|].
  apply edits_back_then. refine (edits_bind _ _ _ _ _ _ _ (edits_echo [32] l _) (edits_back l)). by repeat constructor.
Qed.

Lemma control_q_ok s l : line_is s l →
  key_step (rub_line;; k ← kbd;
      if negb (stop_buffer_output k =? 0) then
        modify (upd_kbd (set_stop_buffer_output 0));; s ← get; show_loop (Z.to_nat (line_cursor (k_tty s))) 0
      else insert_char_into_input_buffer (chr "^");; insert_char_into_input_buffer (chr "Q");;
        kprintf_bytes [chr "^"; chr "Q"] []) s
    (control_spec (k_kbd s) l (chr "q")).
Proof.
  intros Hl. change (control_spec (k_kbd s) l (chr "q"))
    with (if stop_buffer_output (k_kbd s) =? 0
          then l' ← room l [chr "^"; chr "Q"]; Some (k_kbd s, l', rubs (length l + 1) ++ [Put (chr "^"); Put (chr "Q")])
          else Some (set_stop_buffer_output 0 (k_kbd s), l, rubs (length l + 1) ++ (Put <$> l))).
  destruct (Z.eqb_spec (stop_buffer_output (k_kbd s)) 0) as [E0|Hne].
  - destruct (room l [chr "^"; chr "Q"]) as [l'|] eqn:Er; [|done]. apply room_some in Er as [Hr ->]. simpl in Hr.
    cbn [mbind option_bind]. apply (key_after _ _ s l l (λ _, rubs (length l + 1))); [apply edits_rub_line|done|].
    intros s1 L1 K1. eapply key_step_eq; [unfold kbd; mnorm; rewrite K1, E0; reflexivity|]. rewrite <- K1.
    refine (key_edits _ s1 l _ (λ _, [Put (chr "^"); Put (chr "Q")]) _ L1). apply edits_assoc.
    refine (edits_bind _ _ _ _ _ (λ _, []) (λ _, [Put (chr "^"); Put (chr "Q")]) (edits_insert2 l _ _ Hr _ _) _); [done|done|].
    apply (edits_plain [chr "^"; chr "Q"]). by repeat constructor.
  - apply (key_after _ _ s l l (λ _, rubs (length l + 1))); [apply edits_rub_line|done|].
    intros s1 L1 K1. eapply key_step_eq; [unfold kbd; mnorm; rewrite K1, (proj2 (Z.eqb_neq _ _) Hne); reflexivity|].
    set (s2 := set_k_kbd (set_stop_buffer_output 0 (k_kbd s)) s1).
    destruct (edits_show l (length l) 0 eq_refl s2 L1) as (s3 & E3 & L3 & K3 & C3 & T3 & B3).
    exists s3. split_and!; [|exact K3|exact L3|by rewrite C3|by rewrite T3|eapply sbt_trans; [|exact B3]; apply sbt_kbd].
    pose proof L1 as (_ & Hcur & _). cbn [negb]. mnorm. unfold upd_kbd. rewrite K1.
    change (k_tty (set_k_kbd (set_stop_buffer_output 0 (k_kbd s)) s1)) with (k_tty s1). rewrite Hcur, Nat2Z.id. exact E3.
Qed.

Lemma control_key_ok s l key : line_is s l → (length l ≤ 4096)%nat → 0 ≤ key < 256 →
  key_step (control_key key) s (control_spec (k_kbd s) l key).
Proof.
  intros Hl Hlen Hk. unfold control_key. rewrite (ctrl_keys_us key Hk). destruct (caret key) as [c|] eqn:Ec.
  { apply caret_key_ok; try done. unfold caret in Ec. destruct (is_letter key) eqn:El; [|done].
    destruct (bool_decide _); [done|]. injection Ec as <-. unfold is_letter, capital in *.
    apply andb_prop in El as [?%Z.leb_le ?%Z.leb_le]. change (chr "%") with 37. lia. }
  destruct (Z.eqb_spec key (chr "h")) as [->|Hh]; [by apply control_h_ok|].
  destruct (Z.eqb_spec key (chr "q")) as [->|Hq]; [by apply control_q_ok|].
  destruct (Z.eqb_spec key (chr "s")) as [->|Hs].
  { apply (key_after _ _ s l [] (λ _, [])); [apply edits_clear|done|]. intros s1 L1 K1. rewrite <- K1. by apply key_kbd. }
  destruct (Z.eqb_spec key (chr "u")) as [->|Hu].
  { refine (key_edits _ s l [] (λ _, rubs (length l + 1)) _ Hl).
    refine (edits_ext _ _ _ _ _ _ (edits_bind _ _ _ _ _ _ _ (edits_rub_line l) (edits_clear l))). intros k. by rewrite app_nil_r. }
  assert (control_spec (k_kbd s) l key = Some (k_kbd s, l, [])) as ->; [|exact (key_edits _ s l l _ (edits_ret l) Hl)].
  unfold control_spec. rewrite (proj2 (Z.eqb_neq _ _) Hh), (proj2 (Z.eqb_neq _ _) Hq), (proj2 (Z.eqb_neq _ _) Hs), (proj2 (Z.eqb_neq _ _) Hu).
  destruct (is_letter key) eqn:El; [|done]. exfalso. unfold caret in Ec. rewrite El, bool_decide_false in Ec; [done|].
  rewrite !elem_of_cons, elem_of_nil. naive_solver.
Qed.

Lemma scancode_high sc : 0 ≤ sc < 256 → (Z.land sc 0x80 =? 0) = (sc <? 128).
Proof.
  intros Hs. assert (F : Forall (λ x, (Z.land x 0x80 =? 0) = (x <? 128)) (seqZ 0 256))
    by (apply (bool_decide_unpack _); vm_compute; exact I).
  eapply Forall_forall in F; [exact F|]. apply elem_of_seqZ. lia.
Qed.

(** A key that is pressed. *)
Lemma press_ok s l key : line_is s l → (length l ≤ 4096)%nat → 0 ≤ key < 256 →
  key_step (k ← kbd;
      if negb (_shift k =? 0) then shifted_key key
      else if negb (_ctrl k =? 0) then control_key key
      else insert_char_into_input_buffer key;; when (stop_buffer_output k =? 0) (kputchar key)) s
    (if negb (_shift (k_kbd s) =? 0) then
       match shifted key with
       | Some d => l' ← room l [d]; Some (k_kbd s, l', if d =? chr "%" then [] else shown (k_kbd s) [d])
       | None => Some (k_kbd s, l, [])
       end
     else if negb (_ctrl (k_kbd s) =? 0) then control_spec (k_kbd s) l key
     else l' ← room l [key]; Some (k_kbd s, l', shown (k_kbd s) [key])).
Proof.
  intros Hl Hlen Hk. match goal with |- key_step (kbd ≫= ?f) s ?r => apply (key_step_eq (f (k_kbd s))); [done|] end.
  destruct (_shift (k_kbd s) =? 0); cbn [negb].
  - destruct (_ctrl (k_kbd s) =? 0); cbn [negb]; [|by apply control_key_ok].
    apply (key_room _ s l [key] (λ k, shown (k_kbd s) [key])); [done|]. intros Hr. simpl in Hr.
    refine (edits_bind _ _ _ _ _ (λ _, []) _ (edits_insert l key _ Hk) _); [lia|]. unfold shown.
    destruct (stop_buffer_output (k_kbd s) =? 0); [apply edits_kputchar|apply edits_ret].
  - unfold shifted_key. rewrite (shift_keys_us key Hk). destruct (shifted key) as [d|] eqn:Ed; [|exact (key_edits _ s l l _ (edits_ret l) Hl)].
    apply (key_room _ s l [d] (λ k, if d =? chr "%" then [] else shown k [d])); [done|]. intros Hr. simpl in Hr.
    refine (edits_bind _ _ _ _ _ (λ _, []) _ (edits_insert l d _ (shifted_range key d Hk Ed)) (edits_echo1 d _)). lia.
Qed.

Lemma handle_scancode_ok s l sc : line_is s l → (length l ≤ 4096)%nat → 0 ≤ sc < 256 →
  key_step (handle_scancode sc) s (key_spec (k_kbd s) l sc).
Proof.
  intros Hl Hlen Hsc. unfold handle_scancode, key_spec. rewrite scancode_high by done.
  destruct (Z.leb_spec 128 sc) as [Hge|Hlt].
  - rewrite (proj2 (Z.ltb_ge sc 128)) by lia. cbn [negb].
    replace (u8 (sc - 0x80)) with (sc - 128) by (unfold u8; rewrite Z.mod_small; lia).
    destruct (scancodes_us (sc - 128) ltac:(lia)) as (key & -> & Hk & ->). cbn [of_option]. mnorm.
    apply (key_step_eq (when ((key =? 2) || (key =? 3)) (modify (upd_kbd (set__shift 0)));;
      when (key =? 4) (modify (upd_kbd (set__ctrl 0))))); [reflexivity|].
    destruct ((key =? 2) || (key =? 3)) eqn:E1; cbn [when].
    + assert ((key =? 4) = false) as -> by (apply Z.eqb_neq; by intros ->). cbn [when].
      apply (key_step_eq (modify (upd_kbd (set__shift 0)))); [reflexivity|]. by apply (key_kbd s l).
    + apply (key_step_eq (when (key =? 4) (modify (upd_kbd (set__ctrl 0))))); [reflexivity|].
      destruct (key =? 4); cbn [when]; [by apply (key_kbd s l)|exact (key_edits _ s l l _ (edits_ret l) Hl)].
  - rewrite (proj2 (Z.ltb_lt sc 128)) by lia. cbn [negb].
    destruct (scancodes_us sc ltac:(lia)) as (key & -> & Hk & ->). cbn [of_option].
    apply (key_step_eq (if (key =? 2) || (key =? 3) then modify (upd_kbd (set__shift 1))
      else if key =? 4 then modify (upd_kbd (set__ctrl 1))
      else k ← kbd;
        if negb (_shift k =? 0) then shifted_key key
        else if negb (_ctrl k =? 0) then control_key key
        else insert_char_into_input_buffer key;; when (stop_buffer_output k =? 0) (kputchar key)));
      [reflexivity|].
    destruct ((key =? 2) || (key =? 3)); [by apply (key_kbd s l)|]. destruct (key =? 4); [by apply (key_kbd s l)|].
    by apply press_ok.
Qed.

(** The ports the interrupt uses, newest first: the end of the interrupt, the
    timer line masked, the status and the scan code, the timer line unmasked. *)
Definition kbd_trace (sc v st v' : Z) : list io_event :=
  [OutPort 0x21 (u8 (Z.land v' (Z.lnot 1))); InPort 0x21 v'; InPort 0x60 sc; InPort 0x64 st;
   OutPort 0x21 (u8 (Z.lor v 1)); InPort 0x21 v; OutPort 0x20 0x20].

Lemma status_bit (hw : hardware) t : Z.testbit (hw t 0x64) 0 = true → (Z.land 1 (u8 (hw t 0x64)) =? 0) = false.
Proof.
  intros H. apply Z.eqb_neq. intros E. apply (f_equal (λ x, Z.testbit x 0)) in E.
  by rewrite Z.land_spec, u8_bit, H in E by lia.
Qed.

Lemma irq_ok hw s l sc k' l' acts :
  line_is s l → (length l ≤ 4096)%nat → 0 ≤ sc < 256 →
  key_spec (k_kbd s) l sc = Some (k', l', acts) →
  (∀ t, Z.testbit (hw t 0x64) 0 = true) → (∀ t, u8 (hw t 0x60) = sc) →
  ∃ s' v st v', i86_keyboard_irq hw s = Ok (tt, s') ∧ k_kbd s' = k' ∧ line_is s' l'
    ∧ k_con s' = paint (k_is_paging s) acts (k_con s) ∧ k_trace s' = kbd_trace sc v st v' ++ k_trace s ∧ same_but_tty s s'.
Proof.
  intros Hl Hlen Hsc Hspec Hst Hdat. unfold i86_keyboard_irq.
  set (t1 := OutPort 0x20 0x20 :: k_trace s). set (v := u8 (hw t1 0x21)).
  set (t2 := OutPort 0x21 (u8 (Z.lor v 1)) :: InPort 0x21 v :: t1). set (st := u8 (hw t2 0x64)).
  set (t4 := InPort 0x60 sc :: InPort 0x64 st :: t2).
  assert (E2 : (i86_pic_send_eoi_command 1;; i86_set_mask hw 0) s = Ok (tt, set_k_trace t2 s)) by reflexivity.
  rewrite <- bind_assoc. mstep E2.
  assert (E3 : inb hw 0x64 (set_k_trace t2 s) = Ok (st, set_k_trace (InPort 0x64 st :: t2) s)) by reflexivity. mstep E3.
  unfold st at 1. rewrite status_bit by done. cbn [negb when]. rewrite bind_assoc.
  assert (E4 : inb hw 0x60 (set_k_trace (InPort 0x64 st :: t2) s) = Ok (sc, set_k_trace t4 s)).
  { unfold inb. mnorm. unfold event. mnorm. by rewrite Hdat. }
  mstep E4. pose proof (handle_scancode_ok (set_k_trace t4 s) l sc Hl Hlen Hsc) as Hstep.
  change (k_kbd (set_k_trace t4 s)) with (k_kbd s) in Hstep. rewrite Hspec in Hstep.
  destruct Hstep as (s5 & E5 & K5 & L5 & C5 & T5 & B5). mstep E5. set (v' := u8 (hw (k_trace s5) 0x21)).
  exists (set_k_trace (OutPort 0x21 (u8 (Z.land v' (Z.lnot 1))) :: InPort 0x21 v' :: k_trace s5) s5), v, st, v'.
  split; [reflexivity|]. split; [done|]. split; [exact L5|]. split; [exact C5|]. split; [cbn [k_trace set_k_trace]; by rewrite T5|].
  destruct B5 as (t & k & c & e & ->). by exists t, k, c, (OutPort 0x21 (u8 (Z.land v' (Z.lnot 1))) :: InPort 0x21 v' :: e).
Qed.

(** C25: the keyboard driver refines the abstract keyboard.  From a line that
    fits the buffer, every scan code for which the abstract keyboard, a US
    keyboard given by its rows of keys, has a step is handled without error, and
    the modifiers, the echo switch, the line and the screen end up as it says:
    letters and digits with and without shift, the caret form of control keys,
    erase on control-H, the line kill on control-U, stop and restart of the
    echo, key releases.  The ports see the end of the interrupt, the timer line
    masked, the status and the scan code read and the timer line unmasked, in
    this order and nothing else; nothing outside the terminal changes. *)
Theorem keyboard_irq_refines hw s l sc k' l' acts :
  line_is s l → (length l ≤ 4096)%nat → 0 ≤ sc < 256 →
  key_spec (k_kbd s) l sc = Some (k', l', acts) →
  (∀ t, Z.testbit (hw t 0x64) 0 = true) → (∀ t, u8 (hw t 0x60) = sc) →
  ∃ s' v st v', i86_keyboard_irq hw s = Ok (tt, s') ∧ k_kbd s' = k' ∧ line_is s' l'
    ∧ k_con s' = paint (k_is_paging s) acts (k_con s) ∧ k_trace s' = kbd_trace sc v st v' ++ k_trace s ∧ same_but_tty s s'.
Proof. apply irq_ok. Qed.

(** A controller with a scan code waiting. *)
Definition kbd_hw (sc : Z) : hardware := λ _ port, if port =? 0x64 then 1 else sc.

Lemma keyboard_irq_refines_witness :
  ∃ s', i86_keyboard_irq (kbd_hw 32) blank_kst = Ok (tt, s') ∧ line_is s' [chr "d"]
    ∧ k_con s' = kputchar_con (k_is_paging blank_kst) (chr "d") (k_con blank_kst).
Proof.
  destruct (keyboard_irq_refines (kbd_hw 32) blank_kst [] 32 (k_kbd blank_kst) [chr "d"] [Put (chr "d")])
    as (s' & v & st & v' & E & _ & L & C & _).
  - split; [reflexivity|]. split; [reflexivity|]. intros i c. by rewrite lookup_nil.
  - apply Nat.le_0_l.
  - lia.
  - vm_compute. reflexivity.
  - intros t. reflexivity.
  - intros t. reflexivity.
  - exists s'. exact (conj E (conj L C)).
Defined.

(** ** Typing and reading a line *)

Fixpoint interrupts (scs : list Z) : M kst unit :=
  match scs with [] => mret tt | sc :: scs' => i86_keyboard_irq (kbd_hw sc);; interrupts scs' end.
Fixpoint typed (k : keyboard) (l : list Z) (scs : list Z) : option (keyboard * list Z) :=
  match scs with [] => Some (k, l) | sc :: scs' => '(k', l', _) ← key_spec k l sc; typed k' l' scs' end.

Lemma room_spec_length {A} (f : list Z → A) (p : A → list Z) l cs r :
  (∀ x, p (f x) = x) → (l1 ← room l cs; Some (f l1)) = Some r → (length (p r) ≤ 4096)%nat.
Proof.
  intros Hp. destruct (room l cs) eqn:E; [|done]. intros [= <-]. rewrite Hp. apply room_some in E as [H ->]. rewrite length_app. lia.
Qed.
Lemma removelast_length (l : list Z) : (length (removelast l) ≤ length l)%nat.
Proof. rewrite removelast_firstn_len, length_take. lia. Qed.
Lemma control_spec_length k l c r : (length l ≤ 4096)%nat → control_spec k l c = Some r → (length r.1.2 ≤ 4096)%nat.
Proof.
  intros Hl. unfold control_spec. destruct (_ =? _).
  { destruct l as [|x l0] eqn:E; [done|]. rewrite <- E in *. intros [= <-]. by etrans; [apply removelast_length|]. }
  destruct (_ =? _); [destruct (_ =? _); [by apply (room_spec_length _ (λ r, r.1.2))|by intros [= <-]]|].
  destruct (_ =? _); [intros [= <-]; apply Nat.le_0_l|].
  destruct (_ =? _); [intros [= <-]; apply Nat.le_0_l|].
  destruct (is_letter c); [by apply (room_spec_length _ (λ r, r.1.2))|by intros [= <-]].
Qed.
Lemma key_spec_length k l sc r : (length l ≤ 4096)%nat → key_spec k l sc = Some r → (length r.1.2 ≤ 4096)%nat.
Proof.
  intros Hl. unfold key_spec.
  destruct (128 <=? sc); [destruct (us_key _); by intros [= <-]|].
  destruct (us_key sc) as [| |c]; [by intros [= <-]..|]. destruct (negb _).
  { destruct (shifted c); [by apply (room_spec_length _ (λ r, r.1.2))|by intros [= <-]]. }
  destruct (negb _); [by apply control_spec_length|by apply (room_spec_length _ (λ r, r.1.2))].
Qed.

Lemma handle_interrupt s l sc k' l' acts : line_is s l → (length l ≤ 4096)%nat → 0 ≤ sc < 256 →
  key_spec (k_kbd s) l sc = Some (k', l', acts) →
  ∃ s', i86_keyboard_irq (kbd_hw sc) s = Ok (tt, s') ∧ k_kbd s' = k' ∧ line_is s' l'.
Proof.
  intros Hl Hlen Hsc Hspec. destruct (irq_ok (kbd_hw sc) s l sc k' l' acts) as (s' & v & st & v' & E & K & L & _);
    try done; [|by exists s'].
  intros t. unfold kbd_hw, u8. cbn [Z.eqb]. by apply Z.mod_small.
Qed.

Lemma interrupts_ok scs s l k' l' : line_is s l → (length l ≤ 4096)%nat → Forall (λ sc, 0 ≤ sc < 256) scs →
  typed (k_kbd s) l scs = Some (k', l') →
  ∃ s', interrupts scs s = Ok (tt, s') ∧ k_kbd s' = k' ∧ line_is s' l' ∧ (length l' ≤ 4096)%nat.
Proof.
  revert s l. induction scs as [|sc scs IH]; intros s l Hl Hlen Hf Ht; cbn in Ht.
  - injection Ht as <- <-. by exists s.
  - apply Forall_cons in Hf as [Hsc Hf]. destruct (key_spec _ l sc) as [[[k1 l1] acts]|] eqn:Ek; [|done].
    destruct (handle_interrupt s l sc k1 l1 acts) as (s1 & E1 & <- & L1); try done.
    cbn [interrupts]. mstep E1. apply (IH s1 l1); try done. exact (key_spec_length _ _ _ _ Hlen Ek).
Qed.

Lemma check_loop_ok s l : line_is s l → ∀ n i, (i + n)%nat = length l →
  check_loop n (Z.of_nat i) s = Ok (if bool_decide (10 ∈ drop i l) then 1 else 0, s).
Proof.
  intros Hl. induction n as [|n IH]; intros i Hi.
  - rewrite drop_ge by lia. reflexivity.
  - destruct (lookup_lt_is_Some_2 l i) as [c Hc]; [lia|].
    cbn [check_loop]. mstep (buffer_at_ok _ _ _ _ Hl Hc).
    rewrite (drop_S l c i Hc). destruct (Z.eqb_spec c 10) as [->|Hne].
    + rewrite bool_decide_true by (by left). reflexivity.
    + replace (Z.of_nat i + 1) with (Z.of_nat (S i)) by lia. rewrite IH by lia.
      rewrite (bool_decide_ext (10 ∈ c :: drop (S i) l) (10 ∈ drop (S i) l)); [done|].
      rewrite elem_of_cons. split; [intros [H|H]; congruence|by right].
Qed.
Lemma check_input_buffer_ok s l : line_is s l →
  check_input_buffer s = Ok (if bool_decide (10 ∈ l) then 1 else 0, s).
Proof.
  intros Hl. pose proof Hl as (_ & Hc & _). unfold check_input_buffer. mnorm. rewrite Hc, Nat2Z.id.
  exact (check_loop_ok s l Hl (length l) 0 eq_refl).
Qed.
Lemma copy_loop_ok s l : line_is s l → ∀ n i acc, (i + n ≤ length l)%nat →
  copy_loop n (Z.of_nat i) acc s = Ok (acc ++ take n (drop i l), s).
Proof.
  intros Hl. induction n as [|n IH]; intros i acc Hi; cbn [copy_loop].
  - by rewrite app_nil_r.
  - destruct (lookup_lt_is_Some_2 l i) as [c Hc]; [lia|].
    mstep (buffer_at_ok _ _ _ _ Hl Hc).
    rewrite (drop_S l c i Hc). replace (Z.of_nat i + 1) with (Z.of_nat (S i)) by lia. rewrite IH by lia.
    by rewrite <- app_assoc.
Qed.

Lemma terminal_read_ok s l fp size offset : line_is s l → (length l ≤ 4096)%nat → fp ≠ NULL → 0 ≤ size →
  10 ∈ l →
  ∃ s', terminal_read fp size offset s
      = Ok ((Z.min size (Z.of_nat (length l)), take (Z.to_nat size) l ++ [0]), s')
    ∧ line_is s' [].
Proof.
  intros Hl Hlen Hfp Hsz Hin. pose proof Hl as (_ & Hc & _). unfold terminal_read.
  rewrite (proj2 (Z.eqb_neq _ _) Hfp). mstep (check_input_buffer_ok s l Hl).
  rewrite bool_decide_true by done. cbn [Z.eqb]. mnorm. rewrite Hc.
  unfold u64. rewrite (Z.mod_small (Z.of_nat _)) by lia.
  assert (Z.to_nat (if size <? Z.of_nat (length l) then size else Z.of_nat (length l))
          = Nat.min (Z.to_nat size) (length l)) as ->.
  { destruct (Z.ltb_spec size (Z.of_nat (length l))); lia. }
  pose proof (copy_loop_ok s l Hl (Nat.min (Z.to_nat size) (length l)) 0 []) as E'.
  change (Z.of_nat 0) with 0 in E'. rewrite drop_0 in E'. mstep (E' ltac:(lia)).
  destruct (edits_clear l s Hl) as (s' & Ec & Hl' & _). mstep Ec. exists s'. split; [|done].
  apply (f_equal Ok). f_equal. f_equal.
  - destruct (Z.ltb_spec size (Z.of_nat (length l))); lia.
  - f_equal. cbn [app]. by rewrite <- take_take, firstn_all.
Qed.

(** C31: a typed line is read back.  After any sequence of key presses and
    releases within the buffer that leaves a line with a newline in it, the
    reader gets the first [size] characters of that line and a terminator, the
    count is the number of characters copied, and the buffer is empty again. *)
Theorem typed_line_is_read scs s k' l fp size offset :
  line_is s [] → Forall (λ sc, 0 ≤ sc < 256) scs → typed (k_kbd s) [] scs = Some (k', l) →
  10 ∈ l → fp ≠ NULL → 0 ≤ size →
  ∃ s', (interrupts scs;; terminal_read fp size offset) s
      = Ok ((Z.min size (Z.of_nat (length l)), take (Z.to_nat size) l ++ [0]), s')
    ∧ line_is s' [].
Proof.
  intros Hl Hf Ht Hin Hfp Hsz.
  destruct (interrupts_ok scs s [] k' l) as (s1 & E1 & _ & L1 & Hlen); [done|apply Nat.le_0_l|done|done|].
  mstep E1. by apply terminal_read_ok.
Qed.

(** Shift down, [a], shift up, [b], return. *)
Lemma typed_line_is_read_witness :
  ∃ s', (interrupts [42; 30; 170; 48; 28];; terminal_read 4096 2 0) blank_kst
      = Ok ((2, [chr "A"; chr "b"; 0]), s') ∧ line_is s' [].
Proof.
  apply (typed_line_is_read [42; 30; 170; 48; 28] blank_kst (k_kbd blank_kst) [chr "A"; chr "b"; 10] 4096 2 0).
  - split; [reflexivity|]. split; [reflexivity|]. intros i c. by rewrite lookup_nil.
  - repeat constructor; lia.
  - vm_compute. reflexivity.
  - apply list_elem_of_lookup. by exists 2%nat.
  - done.
  - lia.
Defined.

(** Erasing in an empty line is not guarded: control-H on an empty line
    moves the write pointer below the buffer, and the next character typed is
    written outside it. *)
Theorem erase_empty_line_underflows s c : line_is s [] →
  ∃ s', erase_char_from_input_buffer s = Ok (tt, s')
    ∧ head (k_tty s') = -1 ∧ line_cursor (k_tty s') = -1
    ∧ insert_char_into_input_buffer c s' = Ub.
Proof.
  intros (Hh & Hc & _). eexists. split; [reflexivity|]. cbn. rewrite Hh, Hc.
  split; [done|]. split; [done|]. unfold insert_char_into_input_buffer. mnorm. cbn. by rewrite Hh.
Qed.
Lemma erase_empty_line_underflows_witness :
  ∃ s', erase_char_from_input_buffer blank_kst = Ok (tt, s')
    ∧ insert_char_into_input_buffer (chr "a") s' = Ub.
Proof.
  destruct (erase_empty_line_underflows blank_kst (chr "a")) as (s' & E & _ & _ & U).
  - split; [reflexivity|]. split; [reflexivity|]. intros i c. by rewrite lookup_nil.
  - exists s'. exact (conj E U).
Defined.
