(* ===== verification/Scheduler.v ===== *)
(** * Scheduler and signals (sys/scheduler.c, sys/signal.c, sys/pit.c)

    [schedule] takes the current process out of the run queue when it stopped
    running, picks the first process of the run queue and switches to it.  A
    call of [schedule] returns to its caller only when the caller is chosen
    again: the model follows one call up to the point where the CPU runs on
    the stack of the chosen process, and its result is the stack pointer from
    which execution continues; [rsp] is the stack pointer of the caller at
    the switch. *)

From S2P Require Export ProcList Devices.

(** ** Model *)

Definition TIME_SLICE : Z := 1000.
Definition MSR_GS_KERNEL_BASE : Z := 0xC0000102.

Definition set_tss_rsp (rsp : Z) : M kst unit := modify (upd_cpu (set_tss_rsp0 rsp)).
Definition do_wrmsr (reg lo hi : Z) : M kst unit :=
  modify (upd_cpu (λ c, set_msr (<[reg := (lo, hi)]> (msr c)) c)).

(** The loader of [global_ds->k_rsp]. *)
Definition post_stack_switch (prev next : Z) : M kst unit :=
  modify (upd_proc (set_current next));;
  c ← load as_pcb next;
  set_tss_rsp (p_esp0 c);;
  modify (upd_cpu (set_ds_k_rsp (p_esp0 c)));;
  modify (upd_cpu (set_ds_u_rsp 0));;
  s ← get;
  let gs_kernel_base := global_ds (k_cpu s) in
  do_wrmsr MSR_GS_KERNEL_BASE (u32 gs_kernel_base) (u32 (Z.shiftr gs_kernel_base 32)).

(** The assembly routine saves the stack pointer of [prev], takes that of
    [next] and jumps to [post_stack_switch]. *)
Definition do_switch (prev next rsp : Z) : M kst Z :=
  update_pcb prev (set_p_rsp rsp);;
  c ← load as_pcb next;
  post_stack_switch prev next;;
  mret (p_rsp c).
Definition switch_to (prev next rsp : Z) : M kst Z := do_switch prev next rsp.
Definition switch_mm (prev_mm next_mm : Z) : M kst unit :=
  m ← load as_mm next_mm; set_pml4 (mm_cr3 m).
Definition context_switch (prev next rsp : Z) : M kst Z :=
  c ← load as_pcb prev;
  c' ← load as_pcb next;
  switch_mm (p_mm c) (p_mm c');;
  switch_to prev next rsp.

Definition pick_next_task (curr : Z) : M kst Z := select_first_process_from_queue RunQ.

(** The common treatment of a current process that sleeps, blocks or waits. *)
Definition leave_to (q : queue) (prev : Z) : M kst unit :=
  c ← load as_pcb prev;
  when (p_on_rq c =? 1)
    (remove_process_from_queue RunQ prev;;
     update_pcb prev (set_p_on_rq 0);;
     add_process_to_queue q prev).

Definition dequeue_prev (prev : Z) : M kst unit :=
  c ← load as_pcb prev;
  if decide (p_process_state c = ZOMBIE ∧ p_thread_state c = STOPPED) then
    when (p_on_rq c =? 1) (remove_process_from_queue RunQ prev);;
    update_pcb prev (set_p_on_rq 0)
  else if decide (p_process_state c = NORMAL ∧ p_thread_state c = SLEEPING) then leave_to SleepingQ prev
  else if decide (p_process_state c = NORMAL ∧ p_thread_state c = BLOCKED) then leave_to BlockedQ prev
  else if decide (p_process_state c = NORMAL ∧ p_thread_state c = WAITING) then leave_to WaitingQ prev
  else mret tt.

(** [time_slice] and [sleep_time] are unsigned: [<= 0] is [= 0]. *)
Definition schedule (rsp : Z) : M kst Z :=
  prev ← get_current_process;
  c ← load as_pcb prev;
  when (p_time_slice c <=? 0) (update_pcb prev (set_p_time_slice TIME_SLICE));;
  dequeue_prev prev;;
  next ← pick_next_task prev;
  c ← load as_pcb prev;
  let next := if decide (next = NULL ∧ p_process_state c = NORMAL ∧ p_thread_state c = RUNNING)
              then prev else next in
  if next =? NULL then
    s ← get;
    modify (upd_proc (set_current (idle_task (k_proc s))));;
    context_switch prev (idle_task (k_proc s)) rsp
  else if negb (prev =? next) then
    modify (upd_proc (set_current next));;
    c' ← load as_pcb next;
    when (p_sleep_time c' <=? 0) (update_pcb next (set_p_sleep_time 0));;
    context_switch prev next rsp
  else mret rsp.

Definition block_process (process rsp : Z) : M kst Z :=
  if process =? NULL then mret rsp else
  update_pcb process (set_p_process_state NORMAL);;
  update_pcb process (set_p_thread_state BLOCKED);;
  schedule rsp.

Definition try_to_wake_up (q : queue) (process : Z) : M kst unit :=
  if process =? NULL then mret tt else
  update_pcb process (set_p_process_state NORMAL);;
  update_pcb process (set_p_thread_state RUNNING);;
  remove_process_from_queue q process;;
  c ← load as_pcb process;
  when (p_on_rq c =? 0)
    (add_process_to_queue_front RunQ process;;
     update_pcb process (set_p_on_rq 1)).

(** Up to the switch; [None] is the error return.  What follows the switch
    prints a message and returns 0. *)
Definition sys_sleep_process (seconds rsp : Z) : M kst (option Z) :=
  if seconds <? 1 then
    kprintf (line "usage sleep <seconds> : where seconds is positive") [];; mret None
  else
    curr ← get_current_process;
    update_pcb curr (set_p_process_state NORMAL);;
    update_pcb curr (set_p_thread_state SLEEPING);;
    update_pcb curr (set_p_sleep_time (u64 (seconds * 1000)));;
    c ← load as_pcb curr;
    kprintf (line "Process with pid %d going to sleep..") [KInt (p_pid c)];;
    r ← schedule rsp;
    mret (Some r).
Definition sys_sleep_process_end : M kst Z :=
  kprintf (line "Waking up from sleep...") [];; mret 0.

(** The frame the idle task is placed on holds unknown values, [junk]. *)
Definition init_idle (junk : pcb) (cpu_idle : Z) : M kst unit :=
  a ← phys_mem_alloc;
  let idle := kv a in
  modify (upd_proc (set_idle_task idle));;
  store idle (OPcb (set_p_on_rq 0 junk));;
  mm ← init_mm;
  update_pcb idle (set_p_mm mm);;
  k ← phys_mem_alloc;
  let kstack := kv k in
  update_pcb idle (set_p_kstack kstack);;
  memset_frame kstack (OTable zero_table);;
  update_pcb idle (λ c, set_p_is_sigsegv_pending 0 (set_p_is_sigkill_pending 0
    (set_p_esp0 (u64 (kstack + PAGE_BLOCK_SIZE)) (set_p_flags PF_KTHREAD c))));;
  d ← phys_mem_alloc;
  let command := kv d in
  update_pcb idle (set_p_command command);;
  memset_frame command (OBytes zero_bytes);;
  store command (OBytes (bytes_of_string "Idle Task" ++ drop 9 zero_bytes));;
  update_pcb idle (λ c, set_p_pptr idle (set_p_time_slice TIME_SLICE (set_p_thread_state RUNNING
    (set_p_process_state NORMAL (set_p_pid 0 c)))));;
  update_mm mm (set_mm_rip cpu_idle);;
  modify (upd_proc (set_current idle)).

Definition scheduler_init (junk : pcb) (cpu_idle : Z) : M kst unit :=
  init_scheduler_queues;; init_idle junk cpu_idle.

(** ** Signals *)

Definition wake_for_signal (proc : Z) : M kst bool :=
  c ← load as_pcb proc;
  if decide (p_thread_state c = SLEEPING ∧ p_process_state c = NORMAL) then
    try_to_wake_up SleepingQ proc;; mret true
  else if decide (p_thread_state c = BLOCKED ∧ p_process_state c = NORMAL) then
    try_to_wake_up BlockedQ proc;; mret true
  else if decide (p_thread_state c = WAITING ∧ p_process_state c = NORMAL) then
    try_to_wake_up WaitingQ proc;; mret true
  else if decide (p_thread_state c = STOPPED) then
    kprintf (line "Process is already dead") [];; mret false
  else mret true.

(** The result is the value returned and, when [schedule] was called, the
    stack pointer from which execution continues. *)
Definition send_signal (pid sig rsp : Z) : M kst (Z * option Z) :=
  proc ← get_process_descriptor_from_pid pid;
  if proc =? NULL then mret (1, None) else
  (if sig =? 9 then update_pcb proc (set_p_is_sigkill_pending 1)
   else when (sig =? 11) (update_pcb proc (set_p_is_sigsegv_pending 1)));;
  c ← load as_pcb proc;
  if p_on_rq c =? 0 then
    go ← wake_for_signal proc;
    if go : bool then r ← schedule rsp; mret (1, Some r) else mret (1, None)
  else mret (1, None).

(** [pid] is unsigned: the test [pid < 0] fails. *)
Definition sys_kill (pid sig rsp : Z) : M kst (Z * option Z) :=
  current ← get_current_process;
  if pid <? 0 then mret (0, None)
  else if (pid =? 0) || (pid =? 1) then
    kprintf (line "cannot kill swapper and idle process in BLEH") [];; mret (0, None)
  else
    c ← load as_pcb current;
    if p_pid c =? pid then
      kprintf (line "kill -9 <current> is about to kill current process") [];; mret (9, None)
    else send_signal pid sig rsp.

(** ** The timer interrupt: the sleeping processes *)

Fixpoint sleep_loop (n : nat) (process : Z) : M kst unit :=
  match n with
  | O => timeout
  | S n' =>
      if process =? NULL then mret tt else
      c ← load as_pcb process;
      (if p_sleep_time c =? 0 then try_to_wake_up SleepingQ process
       else update_pcb process (set_p_sleep_time (u64 (p_sleep_time c - 1))));;
      nx ← next_in_queue process;
      sleep_loop n' nx
  end.

(** ** Updating one process *)

(** The state after [*a = p'], with [p'] in the place of a process. *)
Definition with_pcb (a : Z) (p' : pcb) (s : kst) : kst := upd_heap <[a := OPcb p']> s.

Lemma update_pcb_ok s a p g : get_pcb s a = Some p → update_pcb a g s = Ok (tt, with_pcb a (g p) s).
Proof. intros H. by apply (update_ok _ _ a (OPcb p)); [apply get_pcb_heap|]. Qed.
Lemma get_with_pcb s a p' b : get_pcb (with_pcb a p' s) b = if decide (b = a) then Some p' else get_pcb s b.
Proof. apply get_pcb_insert. Qed.
Lemma get_with_pcb_same s a p' : get_pcb (with_pcb a p' s) a = Some p'.
Proof. rewrite get_with_pcb. by rewrite decide_True. Qed.

Lemma qnxt_with_pcb s a p p' b : get_pcb s a = Some p → p_next_in_queue p' = p_next_in_queue p →
  qnxt (with_pcb a p' s) b = qnxt s b.
Proof.
  intros H E. unfold qnxt. rewrite get_with_pcb. destruct (decide (b = a)) as [->|]; [|done].
  rewrite H. cbn. by rewrite E.
Qed.
Lemma queues_with_pcb s f a p p' : get_pcb s a = Some p → p_next_in_queue p' = p_next_in_queue p →
  queues_are s f → queues_are (with_pcb a p' s) f.
Proof.
  intros H E [Hq Hd]. split; [|done]. intros q. eapply chain_ext; [apply Hq|].
  intros x _. by apply (qnxt_with_pcb s a p).
Qed.
Lemma heap_with_pcb s a p p' b o : get_pcb s a = Some p → k_heap s !! b = Some o → as_pcb o = None →
  k_heap (with_pcb a p' s) !! b = Some o.
Proof.
  intros H Hb Ho. cbn. rewrite lookup_insert_ne; [done|]. intros ->.
  rewrite (get_pcb_heap _ _ _ H) in Hb. by injection Hb as <-.
Qed.

(** ** What scheduling leaves alone

    The fields that scheduling steps use up: the queue link and the two
    clocks. *)
Definition core (p : pcb) : pcb :=
  set_p_next_in_queue 0 (set_p_time_slice 0 (set_p_sleep_time 0 p)).

(** [g] tells what happened to the other fields of the processes. *)
Record sched_frame (g : Z → pcb → pcb) (s s' : kst) : Prop := {
  sf_pcb : ∀ a, core <$> get_pcb s' a = core ∘ g a <$> get_pcb s a;
  sf_heap : ∀ a o, k_heap s !! a = Some o → as_pcb o = None → k_heap s' !! a = Some o;
  sf_idle : idle_task (k_proc s') = idle_task (k_proc s);
}.

Definition same : Z → pcb → pcb := λ _ p, p.
(** [h] applied to the process at [a]. *)
Definition only (a : Z) (h : pcb → pcb) : Z → pcb → pcb := λ b, if decide (b = a) then h else id.

Lemma core_next n p : core (set_p_next_in_queue n p) = core p.
Proof. done. Qed.
Lemma core_forget p p' : forget_next p' = forget_next p → core p' = core p.
Proof. intros E. exact (f_equal core E). Qed.

Lemma sf_refl s : sched_frame same s s.
Proof. constructor; [|done..]. intros a. by destruct (get_pcb s a). Qed.
Lemma sf_queue s s' : queue_frame s s' → sched_frame same s s'.
Proof.
  intros Hf. pose proof (qf_current _ _ Hf) as (_ & _ & _ & Hi & _). destruct Hf as [Hp Hh _].
  constructor; [|done..]. intros a. specialize (Hp a).
  destruct (get_pcb s' a) as [p'|], (get_pcb s a) as [p|]; try done.
  apply (inj Some) in Hp. cbn. f_equal. by apply core_forget.
Qed.
Lemma sf_pcb_upd s a p h : get_pcb s a = Some p → sched_frame (only a h) s (with_pcb a (h p) s).
Proof.
  intros H. constructor; [|by intros; eapply heap_with_pcb|done].
  intros b. rewrite get_with_pcb. unfold only. destruct (decide (b = a)) as [->|]; [by rewrite H|].
  by destruct (get_pcb s b).
Qed.

(** A change of a process that the volatile fields have no part in. *)
Definition core_ok (g : Z → pcb → pcb) : Prop :=
  ∀ a p p', core p' = core p → core (g a p') = core (g a p).
Lemma core_ok_same : core_ok same.
Proof. by intros a p p'. Qed.
Lemma core_ok_only a h : (∀ p, core (h p) = core (h (core p))) → core_ok (only a h).
Proof. intros H b p p' E. unfold only. destruct (decide (b = a)); [|done]. by rewrite H, E, <- H. Qed.

Lemma sf_trans g1 g2 s1 s2 s3 : core_ok g2 → sched_frame g1 s1 s2 → sched_frame g2 s2 s3 →
  sched_frame (λ a, g2 a ∘ g1 a) s1 s3.
Proof.
  intros Hg [A1 A2 A3] [B1 B2 B3]. constructor; [|eauto|congruence].
  intros a. specialize (A1 a). rewrite B1. destruct (get_pcb s2 a) as [p2|], (get_pcb s1 a) as [p1|]; try done.
  cbn in *. f_equal. apply Hg. by apply (inj Some) in A1.
Qed.
Lemma sf_eq g g' s s' : (∀ a p, get_pcb s a = Some p → core (g' a p) = core (g a p)) →
  sched_frame g s s' → sched_frame g' s s'.
Proof.
  intros H [A1 A2 A3]. constructor; [|done..]. intros a. rewrite A1.
  destruct (get_pcb s a) eqn:E; [|done]. cbn. f_equal. symmetry. by apply H.
Qed.
Lemma sf_trans_l g s1 s2 s3 : core_ok g → sched_frame same s1 s2 → sched_frame g s2 s3 → sched_frame g s1 s3.
Proof. apply (sf_trans same g). Qed.
Lemma sf_trans_r g s1 s2 s3 : sched_frame g s1 s2 → sched_frame same s2 s3 → sched_frame g s1 s3.
Proof. apply (sf_trans g same), core_ok_same. Qed.
Lemma sf_volatile s a p p' : get_pcb s a = Some p → core p' = core p → sched_frame same s (with_pcb a p' s).
Proof.
  intros H E. eapply (sf_eq (only a (λ _, p'))); [|by apply (sf_pcb_upd s a p (λ _, p'))].
  intros b pb Hb. unfold only, same. destruct (decide (b = a)) as [->|]; [|done].
  rewrite H in Hb. apply (inj Some) in Hb. by subst pb.
Qed.
(** Steps that keep the heap and the idle task. *)
Lemma sf_same_heap s s' : k_heap s' = k_heap s → idle_task (k_proc s') = idle_task (k_proc s) →
  sched_frame same s s'.
Proof.
  intros E Ei. constructor; [|by rewrite E|done]. intros a. unfold get_pcb. rewrite E.
  by destruct (k_heap s !! a ≫= as_pcb).
Qed.

Lemma sf_get g s s' a p : sched_frame g s s' → get_pcb s a = Some p →
  ∃ p', get_pcb s' a = Some p' ∧ core p' = core (g a p).
Proof.
  intros [A _ _] H. specialize (A a). rewrite H in A. destruct (get_pcb s' a) as [p'|]; [|done].
  exists p'. split; [done|]. by apply (inj Some) in A.
Qed.
Lemma sf_get_inv g s s' a p' : sched_frame g s s' → get_pcb s' a = Some p' →
  ∃ p, get_pcb s a = Some p ∧ core p' = core (g a p).
Proof.
  intros [A _ _] H. specialize (A a). rewrite H in A. destruct (get_pcb s a) as [p|]; [|done].
  exists p. split; [done|]. by apply (inj Some) in A.
Qed.
Lemma core_fields p p' : core p' = core p →
  p_pid p' = p_pid p ∧ p_on_rq p' = p_on_rq p ∧ p_process_state p' = p_process_state p
  ∧ p_thread_state p' = p_thread_state p ∧ p_mm p' = p_mm p ∧ p_esp0 p' = p_esp0 p ∧ p_rsp p' = p_rsp p.
Proof.
  intros E. split_and!; [exact (f_equal p_pid E)|exact (f_equal p_on_rq E)|exact (f_equal p_process_state E)
    |exact (f_equal p_thread_state E)|exact (f_equal p_mm E)|exact (f_equal p_esp0 E)|exact (f_equal p_rsp E)].
Qed.

(** ** The abstract scheduler *)

(** The queue a process that stopped running goes to, if any. *)
Definition leaving (p : pcb) : option (option queue) :=
  match p_process_state p, p_thread_state p with
  | ZOMBIE, STOPPED => Some None
  | NORMAL, SLEEPING => Some (Some SleepingQ)
  | NORMAL, BLOCKED => Some (Some BlockedQ)
  | NORMAL, WAITING => Some (Some WaitingQ)
  | _, _ => None
  end.
Definition running (p : pcb) : Prop := p_process_state p = NORMAL ∧ p_thread_state p = RUNNING.
#[global] Instance running_dec p : Decision (running p).
Proof. unfold running. apply _. Defined.

(** Removal looks at the first two processes; [None] never ends. *)
Definition drop_proc (c : Z) (l : list Z) : option (list Z) :=
  match l with
  | [] => Some []
  | h :: t =>
      if decide (h = c) then Some t else
      match t with
      | [] => Some [h]
      | x :: t' => if decide (x = c) then Some (h :: t') else None
      end
  end.
Definition abs_dequeue (prev : Z) (p : pcb) (f : queue → list Z) : option (queue → list Z) :=
  match leaving p with
  | None => Some f
  | Some d =>
      if p_on_rq p =? 1 then
        l ← drop_proc prev (f RunQ);
        let f1 := qupd f RunQ l in
        Some (match d with None => f1 | Some q => qupd f1 q (f1 q ++ [prev]) end)
      else Some f
  end.
Definition abs_next (idle prev : Z) (p : pcb) (l : list Z) : Z :=
  match l with
  | x :: _ => x
  | [] => if decide (running p) then prev else idle
  end.

(** The flag and the queue agree, and pids tell the processes of the run
    queue apart. *)
Definition rq_ok (s : kst) (f : queue → list Z) (c : Z) (p : pcb) : Prop :=
  (p_on_rq p = 0 ∨ p_on_rq p = 1 ∧ c ∈ f RunQ)
  ∧ ∀ x, x ∈ f RunQ → pid_at s x = Some (p_pid p) → x = c.

Lemma q_remove_unique pid i c l : pid c = Some i → (∀ x, x ∈ l → pid x = Some i → x = c) →
  q_remove pid i l = drop_proc c l.
Proof.
  intros Hc Hu. destruct l as [|h t]; [done|]. cbn.
  destruct (decide (h = c)) as [->|Hh]; [by rewrite decide_True|].
  rewrite (decide_False (P := pid h = Some i)).
  2:{ intros E. apply Hh, Hu; [by left|done]. }
  destruct t as [|x t]; [done|]. destruct (decide (x = c)) as [->|Hx]; [by rewrite decide_True|].
  rewrite decide_False; [done|]. intros E. apply Hx, Hu; [right; by left|done].
Qed.
Lemma drop_proc_not_in c l l' : NoDup l → drop_proc c l = Some l' → c ∉ l'.
Proof.
  intros Hnd. destruct l as [|h t]; cbn; [intros [= <-]; set_solver|].
  apply NoDup_cons in Hnd as [Hh Hnd]. destruct (decide (h = c)) as [->|Hne]; [by intros [= <-]|].
  destruct t as [|x t]; [intros [= <-]; set_solver|]. apply NoDup_cons in Hnd as [Hx _].
  destruct (decide (x = c)) as [->|]; [|done]. intros [= <-]. set_solver.
Qed.
Lemma drop_proc_sub c l l' x : drop_proc c l = Some l' → x ∈ l' → x ∈ l.
Proof.
  destruct l as [|h t]; cbn; [intros [= <-]; done|].
  destruct (decide (h = c)); [intros [= <-]; set_solver|].
  destruct t as [|y t]; [by intros [= <-]|]. destruct (decide (y = c)); [|done].
  intros [= <-]. set_solver.
Qed.

(** The running process and the CPU registers stay. *)
Definition cpu_kept (s s' : kst) : Prop := current (k_proc s') = current (k_proc s) ∧ k_cpu s' = k_cpu s.
Lemma cpu_kept_trans s1 s2 s3 : cpu_kept s1 s2 → cpu_kept s2 s3 → cpu_kept s1 s3.
Proof. intros [A B] [C D]. split; congruence. Qed.
Lemma qf_cpu_kept s s' : queue_frame s s' → cpu_kept s s'.
Proof. by intros [_ _ (h & r & b & sl & w & ->)]. Qed.

Section leave.
Context (s : kst) (f : queue → list Z) (c : Z) (p : pcb).
Hypothesis Hq : queues_are s f.
Hypothesis Hp : get_pcb s c = Some p.
Hypothesis Hrq : rq_ok s f c p.
Hypothesis Hin : p_on_rq p = 1.

Lemma on_rq_in : c ∈ f RunQ.
Proof. destruct Hrq as [[H|[_ H]] _]; [congruence|done]. Qed.

(** Taking the process out of the run queue and clearing its flag. *)
Lemma remove_run_ok :
  match drop_proc c (f RunQ) with
  | Some l => ∃ s', (remove_process_from_queue RunQ c;; update_pcb c (set_p_on_rq 0)) s = Ok (tt, s')
      ∧ queues_are s' (qupd f RunQ l) ∧ sched_frame (only c (set_p_on_rq 0)) s s'
      ∧ cpu_kept s s' ∧ ∀ q, c ∉ qupd f RunQ l q
  | None => remove_process_from_queue RunQ c s = Timeout
  end.
Proof.
  assert (Hpid : pid_at s c = Some (p_pid p)) by (unfold pid_at; by rewrite Hp).
  pose proof (remove_ok s f RunQ c (p_pid p) Hq Hpid) as H.
  rewrite (q_remove_unique (pid_at s) (p_pid p) c) in H; [|done|apply Hrq].
  destruct (drop_proc c (f RunQ)) as [l|] eqn:El; [|by destruct H].
  destruct H as (s1 & E1 & Hq1 & Hf1). destruct (qf_get _ _ _ _ Hf1 Hp) as [n Hp1].
  exists (with_pcb c (set_p_on_rq 0 (set_p_next_in_queue n p)) s1).
  split; [mstep E1; by rewrite (update_pcb_ok _ _ _ _ Hp1)|].
  split; [by apply (queues_with_pcb _ _ _ _ _ Hp1)|].
  split; [|split; [exact (qf_cpu_kept _ _ Hf1)|]].
  - eapply sf_trans_l; [|by apply sf_queue|by apply (sf_pcb_upd s1 c _ (set_p_on_rq 0))].
    by apply core_ok_only.
  - intros q. destruct (decide (q = RunQ)) as [->|Hne].
    + rewrite qupd_same. eapply drop_proc_not_in; [|exact El]. eapply chain_nodup, Hq.
    + rewrite qupd_other by done. apply (proj2 Hq RunQ); [congruence|]. apply on_rq_in.
Qed.

Lemma leave_ok q : c ≠ 0 →
  match drop_proc c (f RunQ) with
  | Some l => ∃ s', leave_to q c s = Ok (tt, s')
      ∧ queues_are s' (qupd (qupd f RunQ l) q (qupd f RunQ l q ++ [c]))
      ∧ sched_frame (only c (set_p_on_rq 0)) s s' ∧ cpu_kept s s'
  | None => leave_to q c s = Timeout
  end.
Proof.
  intros Hc0. pose proof remove_run_ok as H. unfold leave_to. rewrite (bind_ok _ _ _ _ _ (load_pcb _ _ _ Hp)).
  rewrite Hin. cbn [when Z.eqb Pos.eqb]. destruct (drop_proc c (f RunQ)) as [l|]; [|by apply bind_timeout].
  destruct H as (s1 & E1 & Hq1 & Hf1 & Hc1 & Hn1).
  destruct (sf_get _ _ _ _ _ Hf1 Hp) as (p1 & Hp1 & _).
  destruct (add_back_ok s1 _ q c p1 Hq1 Hp1 Hc0 Hn1) as (s2 & E2 & Hq2 & Hf2).
  exists s2. split; [rewrite <- bind_assoc; by mstep E1|]. split; [done|].
  split; [by eapply sf_trans_r; [|apply sf_queue]|]. eapply cpu_kept_trans; [exact Hc1|by apply qf_cpu_kept].
Qed.
End leave.

Definition left_rq (p : pcb) : pcb := match leaving p with None => p | Some _ => set_p_on_rq 0 p end.
Lemma left_rq_core p : core (left_rq p) = core (left_rq (core p)).
Proof. unfold left_rq, leaving. cbn. by repeat case_match. Qed.
Lemma left_rq_off p : p_on_rq p = 0 → left_rq p = p.
Proof. unfold left_rq. intros E. destruct (leaving p); [|done]. destruct p. cbn in *. by subst. Qed.

Section dequeue.
Context (s : kst) (f : queue → list Z) (c : Z) (p : pcb).
Hypothesis Hq : queues_are s f.
Hypothesis Hp : get_pcb s c = Some p.
Hypothesis Hrq : rq_ok s f c p.
Hypothesis Hc0 : c ≠ 0.

(** What the step promises. *)
Definition dequeued (m : M kst unit) (r : option (queue → list Z)) : Prop :=
  match r with
  | Some f' => ∃ s', m s = Ok (tt, s') ∧ queues_are s' f' ∧ sched_frame (only c left_rq) s s'
      ∧ cpu_kept s s'
  | None => m s = Timeout
  end.

Lemma only_left s' : (∃ d, leaving p = Some d) → sched_frame (only c (set_p_on_rq 0)) s s' →
  sched_frame (only c left_rq) s s'.
Proof.
  intros [d Ed]. apply sf_eq. intros a p' Ha. unfold only. destruct (decide (a = c)) as [->|]; [|done].
  rewrite Hp in Ha. apply (inj Some) in Ha. subst p'. unfold left_rq. by rewrite Ed.
Qed.
Lemma only_off : left_rq p = p → sched_frame (only c left_rq) s s.
Proof.
  intros E. eapply sf_eq; [|apply sf_refl]. intros a p' Ha. unfold only, same.
  destruct (decide (a = c)) as [->|]; [|done]. rewrite Hp in Ha. apply (inj Some) in Ha. subst p'. by rewrite E.
Qed.

(** A process already out of the run queue stays where it is. *)
Lemma leave_dequeued q : leaving p = Some (Some q) → dequeued (leave_to q c) (abs_dequeue c p f).
Proof.
  intros Ed. unfold abs_dequeue. rewrite Ed. destruct Hrq as [[H0|[H1 _]] _].
  - rewrite H0. cbn [Z.eqb dequeued]. exists s. unfold leave_to. mstep (load_pcb _ _ _ Hp). rewrite H0.
    split; [done|]. split; [done|]. split; [by apply only_off, left_rq_off|done].
  - rewrite H1. cbn [Z.eqb Pos.eqb]. pose proof (leave_ok s f c p Hq Hp Hrq H1 q Hc0) as H.
    destruct (drop_proc c (f RunQ)) as [l|]; [|done]. destruct H as (s' & E & Hq' & Hf & Hcur).
    exists s'. split; [done|]. split; [done|]. split; [apply only_left; [by eexists|done]|done].
Qed.
Lemma zombie_dequeued : leaving p = Some None →
  dequeued (when (p_on_rq p =? 1) (remove_process_from_queue RunQ c);; update_pcb c (set_p_on_rq 0))
    (abs_dequeue c p f).
Proof.
  intros Ed. unfold abs_dequeue. rewrite Ed. destruct Hrq as [[H0|[H1 _]] _].
  - rewrite H0. cbn [Z.eqb when dequeued]. mnorm. rewrite (update_pcb_ok _ _ _ _ Hp).
    exists (with_pcb c (set_p_on_rq 0 p) s). split; [done|]. split; [by apply (queues_with_pcb _ _ _ _ _ Hp)|].
    split; [apply only_left; [by eexists|by apply (sf_pcb_upd s c p (set_p_on_rq 0))]|done].
  - rewrite H1. cbn [Z.eqb Pos.eqb when]. pose proof (remove_run_ok s f c p Hq Hp Hrq H1) as H.
    destruct (drop_proc c (f RunQ)) as [l|]; [|by apply bind_timeout].
    destruct H as (s' & E & Hq' & Hf & Hcur & _). exists s'.
    split; [done|]. split; [done|]. split; [apply only_left; [by eexists|done]|done].
Qed.

Lemma dequeue_ok : dequeued (dequeue_prev c) (abs_dequeue c p f).
Proof.
  assert (Hs : ∀ m, dequeued m (abs_dequeue c p f) → dequeue_prev c s = m s → dequeued (dequeue_prev c) (abs_dequeue c p f)).
  { intros m H E. unfold dequeued in *. by rewrite E. }
  unfold dequeue_prev in *. rewrite (bind_ok _ _ _ _ _ (load_pcb _ _ _ Hp)) in Hs.
  pose proof zombie_dequeued as Hz. pose proof leave_dequeued as Hl.
  assert (Hn : leaving p = None → dequeued (mret tt) (abs_dequeue c p f)).
  { intros Ed. unfold abs_dequeue. rewrite Ed. exists s. split; [done|]. split; [done|].
    split; [apply only_off; unfold left_rq; by rewrite Ed|done]. }
  unfold leaving in Hz, Hl, Hn. destruct (p_process_state p), (p_thread_state p);
    repeat first [rewrite decide_True in Hs by done | rewrite decide_False in Hs by (by intros [? ?])];
    (eapply Hs; [|reflexivity]); auto.
Qed.
End dequeue.

(** ** The switch *)

Definition get_mm (s : kst) (a : Z) : option mm_struct := k_heap s !! a ≫= as_mm.

(** The CPU works for process [n]: its address space, its kernel stack for
    the next entry from user mode and for system calls. *)
Definition cpu_for (s : kst) (pn : pcb) (m : mm_struct) : Prop :=
  cr3 (k_cpu s) = mm_cr3 m ∧ tss_rsp0 (k_cpu s) = p_esp0 pn ∧ ds_k_rsp (k_cpu s) = p_esp0 pn.

Lemma context_switch_ok s c n rsp p pn m :
  get_pcb s c = Some p → get_pcb s n = Some pn → get_mm s (p_mm pn) = Some m → c ≠ n →
  ∃ s', context_switch c n rsp s = Ok (p_rsp pn, s') ∧ k_heap s' = <[c := OPcb (set_p_rsp rsp p)]> (k_heap s)
    ∧ k_proc s' = set_current n (k_proc s) ∧ cpu_for s' pn m.
Proof.
  intros Hp Hn Hm Hne. unfold context_switch, switch_mm, switch_to, do_switch, post_stack_switch.
  mstep (load_pcb _ _ _ Hp). mstep (load_pcb _ _ _ Hn). rewrite bind_assoc. mstep (load_ok as_mm _ _ _ Hm).
  unfold set_pml4. mnorm. set (s1 := upd_cpu (set_cr3 (mm_cr3 m)) s).
  mstep (update_pcb_ok s1 c p (set_p_rsp rsp) Hp).
  assert (Hn2 : get_pcb (with_pcb c (set_p_rsp rsp p) s1) n = Some pn).
  { rewrite get_with_pcb, decide_False by done. exact Hn. }
  mstep (load_pcb _ _ _ Hn2). rewrite bind_assoc. mnorm. rewrite bind_assoc.
  mstep (load_pcb (upd_proc (set_current n) (with_pcb c (set_p_rsp rsp p) s1)) n pn Hn2).
  unfold set_tss_rsp, do_wrmsr. mnorm.
  eexists. split; [reflexivity|]. split; [reflexivity|]. split; [reflexivity|]. done.
Qed.

Section schedule.
Context (s : kst) (f : queue → list Z) (c rsp : Z) (p : pcb).
Hypothesis Hq : queues_are s f.
Hypothesis Hcur : current (k_proc s) = c.
Hypothesis Hp : get_pcb s c = Some p.
Hypothesis Hrq : rq_ok s f c p.
Hypothesis Hc0 : c ≠ 0.
Hypothesis Hidle : idle_task (k_proc s) = c → running p.

(** The time slice is renewed first. *)
Lemma slice_ok : ∃ s1 p1,
  when (p_time_slice p <=? 0) (update_pcb c (set_p_time_slice TIME_SLICE)) s = Ok (tt, s1)
  ∧ get_pcb s1 c = Some p1 ∧ core p1 = core p ∧ queues_are s1 f ∧ rq_ok s1 f c p1
  ∧ sched_frame same s s1 ∧ cpu_kept s s1.
Proof.
  destruct (p_time_slice p <=? 0); cbn [when].
  - rewrite (update_pcb_ok _ _ _ _ Hp). eexists _, _. split; [done|].
    split; [apply get_with_pcb_same|]. split; [done|].
    split; [by apply (queues_with_pcb _ _ _ _ _ Hp)|]. split; [|split; [by apply (sf_volatile _ _ _ _ Hp)|done]].
    split; [apply Hrq|]. intros x Hx E. apply Hrq; [done|]. etrans; [|exact E]. unfold pid_at. rewrite get_with_pcb.
    destruct (decide (x = c)) as [->|]; [|done]. by rewrite Hp.
  - exists s, p. split; [done|]. split; [done|]. split; [done|]. split; [done|]. split; [done|].
    split; [apply sf_refl|done].
Qed.

Lemma leaving_core p1 : core p1 = core p → leaving p1 = leaving p ∧ p_on_rq p1 = p_on_rq p ∧ (running p1 ↔ running p).
Proof.
  intros E. destruct (core_fields _ _ E) as (_ & E1 & E2 & E3 & _). unfold leaving, running. rewrite E2, E3. done.
Qed.
Lemma left_rq_running p1 : running (left_rq p1) ↔ running p1.
Proof. unfold left_rq, running. by destruct (leaving p1). Qed.

(** The first two steps together. *)
Lemma dequeue_step :
  match abs_dequeue c p f with
  | Some f' => ∃ s2 p2,
      (when (p_time_slice p <=? 0) (update_pcb c (set_p_time_slice TIME_SLICE));; dequeue_prev c) s = Ok (tt, s2)
      ∧ queues_are s2 f' ∧ sched_frame (only c left_rq) s s2 ∧ cpu_kept s s2
      ∧ get_pcb s2 c = Some p2 ∧ (running p2 ↔ running p)
  | None => (when (p_time_slice p <=? 0) (update_pcb c (set_p_time_slice TIME_SLICE));; dequeue_prev c) s = Timeout
  end.
Proof.
  destruct slice_ok as (s1 & p1 & E1 & Hp1 & Hcore & Hq1 & Hrq1 & Hf1 & Hc1).
  pose proof (dequeue_ok s1 f c p1 Hq1 Hp1 Hrq1 Hc0) as H.
  destruct (leaving_core p1 Hcore) as (El & Eo & Er). mstep E1.
  assert (abs_dequeue c p1 f = abs_dequeue c p f) as E by (unfold abs_dequeue; by rewrite El, Eo).
  rewrite E in H. destruct (abs_dequeue c p f) as [f'|]; [|done].
  destruct H as (s2 & E2 & Hq2 & Hf2 & Hc2). destruct (sf_get _ _ _ _ _ Hf2 Hp1) as (p2 & Hp2 & Hcore2).
  exists s2, p2. split; [done|]. split; [done|].
  split; [eapply sf_trans_l; [apply core_ok_only, left_rq_core|done|done]|]. split; [by eapply cpu_kept_trans|]. split; [done|].
  unfold only in Hcore2. rewrite decide_True in Hcore2 by done.
  etrans; [|exact Er]. rewrite <- (left_rq_running p1).
  destruct (core_fields _ _ Hcore2) as (_ & _ & E3 & E4 & _). unfold running. by rewrite E3, E4.
Qed.

(** Switching from the current process to another one. *)
Lemma switch_step s2 f' n pn m : queues_are s2 f' → sched_frame (only c left_rq) s s2 →
  n ≠ c → get_pcb s n = Some pn → get_mm s (p_mm pn) = Some m → ∃ s',
    (modify (upd_proc (set_current n));; context_switch c n rsp) s2 = Ok (p_rsp pn, s')
    ∧ queues_are s' f' ∧ sched_frame (only c (set_p_rsp rsp ∘ left_rq)) s s' ∧ current (k_proc s') = n
    ∧ cpu_for s' pn m.
Proof.
  intros Hq2 Hf2 Hnc Hn Hm. destruct (sf_get _ _ _ _ _ Hf2 Hp) as (p2 & Hp2 & _).
  destruct (sf_get _ _ _ _ _ Hf2 Hn) as (pn2 & Hn2 & Hcore). unfold only, id in Hcore.
  rewrite decide_False in Hcore by done. destruct (core_fields _ _ Hcore) as (_ & _ & _ & _ & Emm & Eesp & Ersp).
  set (s3 := upd_proc (set_current n) s2).
  assert (Hm3 : get_mm s3 (p_mm pn2) = Some m).
  { rewrite Emm. unfold get_mm in *. cbn. destruct (k_heap s !! p_mm pn) as [o|] eqn:Eo; [|done].
    cbn in Hm. rewrite (sf_heap _ _ _ Hf2 _ o Eo); [done|]. by destruct o. }
  destruct (context_switch_ok s3 c n rsp p2 pn2 m Hp2 Hn2 Hm3) as (s' & E' & Hh & Hpr & Hcpu); [done|].
  exists s'. mnorm. rewrite <- Ersp. split; [done|].
  assert (Hqs : ∀ x, qnxt s' x = qnxt (with_pcb c (set_p_rsp rsp p2) s2) x).
  { intros x. unfold qnxt, get_pcb. by rewrite Hh. }
  split; [|split; [|split; [by rewrite Hpr|]]].
  - assert (Hq3 : queues_are (with_pcb c (set_p_rsp rsp p2) s2) f') by by apply (queues_with_pcb _ _ _ _ _ Hp2).
    split; [|apply Hq2]. intros q. unfold queue_is. rewrite Hpr.
    eapply chain_ext; [|intros x _; apply Hqs]. pose proof (proj1 Hq3 q) as Hc3. by destruct q.
  - eapply (sf_eq (λ a, only c (set_p_rsp rsp) a ∘ only c left_rq a)).
    { intros a pa _. unfold only. by destruct (decide (a = c)). }
    eapply sf_trans; [by apply core_ok_only|exact Hf2|].
    eapply sf_trans_r; [by apply (sf_pcb_upd s2 c p2 (set_p_rsp rsp))|].
    apply sf_same_heap; [by rewrite Hh|by rewrite Hpr].
  - destruct Hcpu as (C1 & C2 & C3). unfold cpu_for. by rewrite C1, C2, C3, Eesp.
Qed.

(** The clock of the next process is rounded up to zero on the way. *)
Lemma switch_next_step s2 f' n pn m : queues_are s2 f' → sched_frame (only c left_rq) s s2 →
  n ≠ c → get_pcb s n = Some pn → get_mm s (p_mm pn) = Some m → ∃ s',
    (modify (upd_proc (set_current n));; c' ← load as_pcb n;
     when (p_sleep_time c' <=? 0) (update_pcb n (set_p_sleep_time 0));; context_switch c n rsp) s2
    = Ok (p_rsp pn, s')
    ∧ queues_are s' f' ∧ sched_frame (only c (set_p_rsp rsp ∘ left_rq)) s s' ∧ current (k_proc s') = n
    ∧ cpu_for s' pn m.
Proof.
  intros Hq2 Hf2 Hnc Hn Hm. destruct (sf_get _ _ _ _ _ Hf2 Hn) as (pn2 & Hn2 & _).
  mnorm. mstep (load_pcb (upd_proc (set_current n) s2) n pn2 Hn2).
  destruct (p_sleep_time pn2 <=? 0); cbn [when].
  - mstep (update_pcb_ok (upd_proc (set_current n) s2) n pn2 (set_p_sleep_time 0) Hn2).
    refine (switch_step (with_pcb n (set_p_sleep_time 0 pn2) s2) f' n pn m _ _ Hnc Hn Hm).
    + by apply (queues_with_pcb _ _ _ _ _ Hn2).
    + eapply sf_trans_r; [exact Hf2|by apply (sf_volatile _ _ _ _ Hn2)].
  - mnorm. exact (switch_step s2 f' n pn m Hq2 Hf2 Hnc Hn Hm).
Qed.

Definition next_of (f' : queue → list Z) : Z := abs_next (idle_task (k_proc s)) c p (f' RunQ).

(** What [schedule] promises, by whether the current process is chosen. *)
Definition scheduled (f' : queue → list Z) (r : Z) (s' : kst) : Prop :=
  queues_are s' f' ∧ current (k_proc s') = next_of f' ∧
  if decide (next_of f' = c) then r = rsp ∧ k_cpu s' = k_cpu s ∧ sched_frame (only c left_rq) s s'
  else ∃ pn m, get_pcb s (next_of f') = Some pn ∧ get_mm s (p_mm pn) = Some m ∧ r = p_rsp pn
       ∧ cpu_for s' pn m ∧ sched_frame (only c (set_p_rsp rsp ∘ left_rq)) s s'.

Lemma schedule_ok :
  match abs_dequeue c p f with
  | Some f' =>
      (next_of f' ≠ c → ∃ pn m, get_pcb s (next_of f') = Some pn ∧ get_mm s (p_mm pn) = Some m) →
      ∃ r s', schedule rsp s = Ok (r, s') ∧ scheduled f' r s'
  | None => schedule rsp s = Timeout
  end.
Proof.
  pose proof dequeue_step as H. unfold schedule, get_current_process. mnorm. rewrite Hcur.
  rewrite (bind_ok _ _ _ _ _ (load_pcb _ _ _ Hp)), <- bind_assoc.
  destruct (abs_dequeue c p f) as [f'|]; [|by apply bind_timeout].
  intros Hnext. destruct H as (s2 & p2 & E2 & Hq2 & Hf2 & Hc2 & Hp2 & Hr). mstep E2.
  unfold pick_next_task. mstep (select_first_ok s2 f' RunQ Hq2). mstep (load_pcb _ _ _ Hp2).
  unfold scheduled, next_of in *. destruct (f' RunQ) as [|x l] eqn:Ef; cbn [first abs_next] in *.
  - destruct (decide (running p)) as [Hrun|Hrun].
    + rewrite decide_True by (split; [done|by apply Hr]). rewrite (proj2 (Z.eqb_neq c NULL) Hc0), Z.eqb_refl.
      exists rsp, s2. split; [done|]. split; [done|]. split; [by rewrite (proj1 Hc2)|].
      rewrite decide_True by done. split; [done|]. split; [apply Hc2|done].
    + rewrite decide_False by (intros [_ H]; by apply Hrun, Hr). cbn [NULL Z.eqb]. mnorm.
      rewrite (sf_idle _ _ _ Hf2).
      assert (Hne : idle_task (k_proc s) ≠ c) by (by intros E; apply Hrun, Hidle).
      destruct (Hnext Hne) as (pn & m & Hn & Hm).
      destruct (switch_step s2 f' _ pn m Hq2 Hf2 Hne Hn Hm) as (s' & E' & Hq' & Hf' & Hc' & Hcpu).
      exists (p_rsp pn), s'. split; [exact E'|]. split; [done|]. split; [done|]. rewrite decide_False by done.
      by exists pn, m.
  - assert (Hx0 : x ≠ 0).
    { pose proof (proj1 Hq2 RunQ) as Hch. rewrite Ef in Hch. by apply chain_cons_inv in Hch as (_ & ? & _). }
    rewrite decide_False by (by intros [? _]). rewrite (proj2 (Z.eqb_neq x NULL) Hx0).
    destruct (decide (x = c)) as [->|Hne].
    + rewrite Z.eqb_refl. exists rsp, s2. split; [done|]. split; [done|]. split; [by rewrite (proj1 Hc2)|].
      split; [done|]. split; [apply Hc2|done].
    + rewrite (proj2 (Z.eqb_neq c x)) by done. cbn [negb]. destruct (Hnext Hne) as (pn & m & Hn & Hm).
      destruct (switch_next_step s2 f' x pn m Hq2 Hf2 Hne Hn Hm) as (s' & E' & Hq' & Hf' & Hc' & Hcpu).
      exists (p_rsp pn), s'. split; [exact E'|]. split; [done|]. split; [done|]. by exists pn, m.
Qed.
End schedule.

(** ** The scheduling invariant *)

(** A process that can be switched to. *)
Definition live (s : kst) (x : Z) (p : pcb) : Prop :=
  get_pcb s x = Some p ∧ is_Some (get_mm s (p_mm p)).

Record sched_inv (s : kst) (f : queue → list Z) : Prop := {
  si_queues : queues_are s f;
  (** the flag and the states of a queued process are those of its queue *)
  si_proc : ∀ q x, x ∈ f q → ∃ p, live s x p
    ∧ p_on_rq p = (if decide (q = RunQ) then 1 else 0)
    ∧ (q ≠ RunQ → leaving p = Some (Some q))
    ∧ (q = RunQ → x ≠ current (k_proc s) → running p);
  si_pid : ∀ q q' x y i, x ∈ f q → y ∈ f q' → pid_at s x = Some i → pid_at s y = Some i → x = y;
  (** the idle task is in no queue and always runnable *)
  si_idle : ∃ p, live s (idle_task (k_proc s)) p ∧ p_on_rq p = 0 ∧ running p
    ∧ idle_task (k_proc s) ≠ 0
    ∧ ∀ q x, x ∈ f q → x ≠ idle_task (k_proc s) ∧ pid_at s x ≠ Some (p_pid p);
  si_cur : current (k_proc s) = idle_task (k_proc s) ∨ current (k_proc s) ∈ f RunQ
    ∧ ∀ p, get_pcb s (current (k_proc s)) = Some p → running p ∨ is_Some (leaving p)
}.

Lemma inv_current s f : sched_inv s f →
  ∃ p, live s (current (k_proc s)) p ∧ rq_ok s f (current (k_proc s)) p ∧ current (k_proc s) ≠ 0
    ∧ (running p ∨ is_Some (leaving p))
    ∧ (idle_task (k_proc s) = current (k_proc s) → running p)
    ∧ (∀ q, current (k_proc s) ∈ f q → q = RunQ).
Proof.
  intros [Hq Hproc Hpid (pi & Hli & Hoi & Hri & Hi0 & Hni) Hcur]. destruct Hcur as [->|[Hin Hst]].
  - exists pi. split; [done|]. split; [|split; [done|split; [by left|split; [done|]]]].
    + split; [by left|]. intros x Hx E. by destruct (Hni _ _ Hx).
    + intros q Hx. by destruct (Hni _ _ Hx).
  - destruct (Hproc _ _ Hin) as (p & Hl & Ho & _ & _). exists p. rewrite decide_True in Ho by done.
    split; [done|]. split; [split; [by right|]|].
    + intros x Hx E. apply (Hpid RunQ RunQ x _ (p_pid p)); try done. unfold pid_at. by rewrite (proj1 Hl).
    + split; [|split; [apply Hst, Hl|split; [intros E; by destruct (Hni _ _ Hin)|]]].
      * exact (proj1 (seg_in _ _ _ _ _ (proj1 Hq RunQ) Hin)).
      * intros q Hx. destruct (decide (q = RunQ)); [done|]. by destruct (proj2 Hq q RunQ (current (k_proc s))).
Qed.

(** The lists after the current process left. *)
Lemma abs_dequeue_lists s f f' c p : queues_are s f → rq_ok s f c p → (∀ q, c ∈ f q → q = RunQ) →
  abs_dequeue c p f = Some f' →
  (∀ q x, x ≠ c → x ∈ f' q → x ∈ f q)
  ∧ (c ∈ f' RunQ → c ∈ f RunQ ∧ (p_on_rq p = 0 ∨ leaving p = None))
  ∧ (∀ q, q ≠ RunQ → c ∈ f' q → p_on_rq p = 1 ∧ leaving p = Some (Some q))
  ∧ (leaving p = None → f' = f).
Proof.
  intros Hq [Hrq _] Honly. unfold abs_dequeue. destruct (leaving p) as [d|] eqn:Ed.
  2:{ intros [= <-]. split; [done|]. split; [by auto|]. split; [|done]. intros q Hne Hx. by apply Honly in Hx. }
  destruct (Z.eqb_spec (p_on_rq p) 1) as [H1|H1].
  2:{ intros [= <-]. split; [done|]. split; [|split; [|done]].
      - destruct Hrq as [?|[? _]]; [by auto|done].
      - intros q Hne Hx. by apply Honly in Hx. }
  destruct (drop_proc c (f RunQ)) as [l|] eqn:El; [|done]. cbn [mbind option_bind]. intros [= <-].
  assert (Hcl : c ∉ l) by (eapply drop_proc_not_in; [eapply chain_nodup, Hq|exact El]).
  assert (Hin : ∀ q x, x ∈ qupd f RunQ l q → x ∈ f q).
  { intros q x. destruct (decide (q = RunQ)) as [->|Hne]; [rewrite qupd_same; by eapply drop_proc_sub|by rewrite qupd_other]. }
  assert (Hno : ∀ q, c ∉ qupd f RunQ l q).
  { intros q Hx. pose proof (Honly _ (Hin _ _ Hx)) as ->. by rewrite qupd_same in Hx. }
  destruct d as [q0|].
  2:{ split; [by auto|]. split; [intros Hx; by destruct (Hno _ Hx)|]. split; [|done]. intros q _ Hx. by destruct (Hno _ Hx). }
  split; [|split; [|split; [|done]]].
  - intros q x Hne. destruct (decide (q = q0)) as [->|]; [rewrite qupd_same|rewrite qupd_other by done; apply Hin].
    rewrite elem_of_app, list_elem_of_singleton. intros [H|H]; [by apply Hin|done].
  - assert (RunQ ≠ q0) by (intros <-; unfold leaving in Ed; by repeat case_match). rewrite qupd_other by done.
    intros Hx. by destruct (Hno _ Hx).
  - intros q Hne. destruct (decide (q = q0)) as [->|]; [done|]. rewrite qupd_other by done. intros Hx. by destruct (Hno _ Hx).
Qed.

(** A step seen from the invariant: [g] is what happened to the processes. *)
Section view.
Context (g : Z → pcb → pcb) (s s' : kst).
Hypothesis Hf : sched_frame g s s'.
(** No step changes pids or address spaces. *)
Hypothesis Hg : ∀ a p, p_pid (g a p) = p_pid p ∧ p_mm (g a p) = p_mm p.

Lemma view_mm a : is_Some (get_mm s a) → is_Some (get_mm s' a).
Proof.
  unfold get_mm. intros [m Hm]. destruct (k_heap s !! a) as [o|] eqn:Eo; [|done].
  exists m. rewrite (sf_heap _ _ _ Hf a o Eo); [done|]. by destruct o.
Qed.
Lemma view_live a p : live s a p → ∃ p', live s' a p' ∧ core p' = core (g a p) ∧ p_pid p' = p_pid p.
Proof.
  intros [Hp Hm]. destruct (sf_get _ _ _ _ _ Hf Hp) as (p' & Hp' & Hc). exists p'.
  destruct (core_fields _ _ Hc) as (Ei & _ & _ & _ & Em & _). destruct (Hg a p) as [Gi Gm].
  split; [|split; [done|congruence]]. split; [done|]. rewrite Em, Gm. by apply view_mm.
Qed.
Lemma view_pid a : pid_at s' a = pid_at s a.
Proof.
  unfold pid_at. destruct (get_pcb s a) as [p|] eqn:Hp.
  - destruct (sf_get _ _ _ _ _ Hf Hp) as (p' & -> & Hc). destruct (core_fields _ _ Hc) as (Ei & _).
    cbn. f_equal. rewrite Ei. apply Hg.
  - destruct (get_pcb s' a) as [p'|] eqn:Hp'; [|done].
    destruct (sf_get_inv _ _ _ _ _ Hf Hp') as (p & Hp2 & _). congruence.
Qed.
End view.

Lemma running_core p p' : core p' = core p → running p → running p'.
Proof. intros E [A B]. destruct (core_fields _ _ E) as (_ & _ & E2 & E3 & _). split; congruence. Qed.
Lemma leaving_core_eq p p' : core p' = core p → leaving p' = leaving p.
Proof. intros E. destruct (core_fields _ _ E) as (_ & _ & E2 & E3 & _). unfold leaving. by rewrite E2, E3. Qed.
Lemma on_rq_core p p' : core p' = core p → p_on_rq p' = p_on_rq p.
Proof. intros E. by destruct (core_fields _ _ E) as (_ & E1 & _). Qed.

(** The invariant after a step, from what the step did to the processes it
    moved. *)
Lemma inv_step g s s' f f' :
  sched_inv s f → sched_frame g s s' → (∀ a p, p_pid (g a p) = p_pid p ∧ p_mm (g a p) = p_mm p) →
  queues_are s' f' → (∀ q y, y ∈ f' q → ∃ q0, y ∈ f q0) →
  (∀ q y p, y ∈ f' q → get_pcb s y = Some p →
     p_on_rq (g y p) = (if decide (q = RunQ) then 1 else 0)
     ∧ (q ≠ RunQ → leaving (g y p) = Some (Some q))
     ∧ (q = RunQ → y ≠ current (k_proc s') → running (g y p))) →
  (∀ p, get_pcb s (idle_task (k_proc s)) = Some p → p_on_rq p = 0 → running p →
     p_on_rq (g (idle_task (k_proc s)) p) = 0 ∧ running (g (idle_task (k_proc s)) p)) →
  (current (k_proc s') = idle_task (k_proc s) ∨ current (k_proc s') ∈ f' RunQ
     ∧ ∀ p, get_pcb s (current (k_proc s')) = Some p →
       running (g (current (k_proc s')) p) ∨ is_Some (leaving (g (current (k_proc s')) p))) →
  sched_inv s' f'.
Proof.
  intros Hinv Hf Hg Hq' Hold Hproc Hidle Hcur.
  pose proof (view_live g s s' Hf Hg) as Vl. pose proof (view_pid g s s' Hf Hg) as Vp.
  pose proof (sf_idle _ _ _ Hf) as Ei. constructor.
  - done.
  - intros q y Hy. destruct (Hold _ _ Hy) as [q0 Hy0]. destruct (si_proc _ _ Hinv _ _ Hy0) as (p & Hl & _).
    destruct (Vl _ _ Hl) as (p' & Hl' & Hc & _). destruct (Hproc q y p Hy (proj1 Hl)) as (A & B & C).
    exists p'. rewrite (on_rq_core _ _ Hc), (leaving_core_eq _ _ Hc). split; [done|]. split; [done|]. split; [done|].
    intros E N. apply (running_core _ _ Hc). by apply C.
  - intros q1 q2 y z i Hy Hz. rewrite !Vp. destruct (Hold _ _ Hy), (Hold _ _ Hz). by eapply (si_pid _ _ Hinv).
  - rewrite Ei. destruct (si_idle _ _ Hinv) as (pi & Hli & Hoi & Hri & Hi0 & Hni).
    destruct (Vl _ _ Hli) as (pi' & Hli' & Hci & Hpi). destruct (Hidle pi (proj1 Hli) Hoi Hri) as [A B].
    exists pi'. rewrite (on_rq_core _ _ Hci). split; [done|]. split; [done|].
    split; [by apply (running_core _ _ Hci)|]. split; [done|].
    intros q y Hy. destruct (Hold _ _ Hy). rewrite Vp, Hpi. by eapply Hni.
  - rewrite Ei. destruct Hcur as [?|[Hin Hst]]; [by left|]. right. split; [done|].
    intros p1 Hp1. destruct (sf_get_inv _ _ _ _ _ Hf Hp1) as (p0 & Hp0 & Hc0).
    rewrite (leaving_core_eq _ _ Hc0). destruct (Hst p0 Hp0) as [?|?]; [left; by apply (running_core _ _ Hc0)|by right].
Qed.

(** The processes after [schedule]: only the current one is touched. *)
Lemma scheduled_frame s c rsp p f' r s' : scheduled s c rsp p f' r s' →
  ∃ g, sched_frame g s s' ∧ (∀ a q, a ≠ c → g a q = q)
    ∧ ∀ q, (p_pid (g c q), p_mm (g c q), p_process_state (g c q), p_thread_state (g c q), p_on_rq (g c q))
         = (p_pid q, p_mm q, p_process_state q, p_thread_state q, p_on_rq (left_rq q)).
Proof.
  intros (_ & _ & H). destruct (decide _).
  - destruct H as (_ & _ & H). eexists. split; [exact H|]. unfold only.
    split; [intros; by rewrite decide_False|]. intros q. rewrite decide_True by done.
    unfold left_rq. by destruct (leaving q).
  - destruct H as (pn & m & _ & _ & _ & _ & H). eexists. split; [exact H|]. unfold only.
    split; [intros; by rewrite decide_False|]. intros q. rewrite decide_True by done. cbn.
    unfold left_rq. by destruct (leaving q).
Qed.

Lemma running_not_leaving p : running p → leaving p = None.
Proof. intros [A B]. unfold leaving. by rewrite A, B. Qed.

Section preserve.
Context (s : kst) (f f' : queue → list Z) (rsp r : Z) (p : pcb) (s' : kst).
Let c := current (k_proc s).
Hypothesis Hinv : sched_inv s f.
Hypothesis Hp : get_pcb s c = Some p.
Hypothesis Hdeq : abs_dequeue c p f = Some f'.
Hypothesis Hsch : scheduled s c rsp p f' r s'.

(** The facts every clause uses. *)
Lemma cur_facts : rq_ok s f c p ∧ (running p ∨ is_Some (leaving p))
  ∧ (idle_task (k_proc s) = c → running p) ∧ (∀ q, c ∈ f q → q = RunQ) ∧ live s c p.
Proof.
  destruct (inv_current s f Hinv) as (p0 & Hl & Hrq & _ & Hst & Hid & Ho).
  assert (p0 = p) as -> by (destruct Hl; subst c; congruence). done.
Qed.
Lemma lists_facts : (∀ q x, x ≠ c → x ∈ f' q → x ∈ f q)
  ∧ (c ∈ f' RunQ → c ∈ f RunQ ∧ p_on_rq p = 1 ∧ running p)
  ∧ (∀ q, q ≠ RunQ → c ∈ f' q → c ∈ f RunQ ∧ leaving p = Some (Some q))
  ∧ (running p → f' = f).
Proof.
  destruct cur_facts as (Hrq & Hst & _ & Ho & _).
  destruct (abs_dequeue_lists s f f' c p (si_queues _ _ Hinv) Hrq Ho Hdeq) as (H1 & H2 & H3 & H4).
  split; [done|]. split; [|split; [|intros Hr; by apply H4, running_not_leaving]].
  - intros Hin. destruct (H2 Hin) as [Hin' Hor]. destruct (si_proc _ _ Hinv _ _ Hin') as (p0 & [Hp0 _] & Eo & _).
    rewrite decide_True in Eo by done. assert (p0 = p) as -> by congruence. split; [done|]. split; [done|].
    destruct Hor as [?|E]; [congruence|]. destruct Hst as [?|[? ?]]; [done|congruence].
  - intros q Hne Hin. destruct (H3 q Hne Hin) as [H1' El]. split; [|done].
    destruct Hrq as [[?|[_ ?]] _]; [congruence|done].
Qed.
Lemma in_old q x : x ∈ f' q → ∃ q0, x ∈ f q0.
Proof.
  intros Hx. destruct lists_facts as (H1 & H2 & H3 & _). destruct (decide (x = c)) as [->|Hne]; [|eauto].
  exists RunQ. destruct (decide (q = RunQ)) as [->|Hq]; [by apply H2|by apply (H3 q)].
Qed.

Lemma inv_scheduled : sched_inv s' f'.
Proof.
  destruct cur_facts as (_ & _ & Hid & _ & Hlive). destruct lists_facts as (L1 & L2 & L3 & L4).
  destruct (scheduled_frame _ _ _ _ _ _ _ Hsch) as (g & Hf & Gn & Gc).
  assert (Gl : running p → p_on_rq (g c p) = p_on_rq p ∧ running (g c p)).
  { intros Hr. specialize (Gc p). unfold left_rq in Gc. rewrite running_not_leaving in Gc by done.
    unfold running. by injection Gc as _ _ -> -> ->. }
  destruct Hsch as (Hq' & Hcur' & _). apply (inv_step g s s' f f'); try done.
  - intros a q. destruct (decide (a = c)) as [->|Hne]; [|by rewrite Gn].
    specialize (Gc q). by injection Gc as -> -> _ _ _.
  - apply in_old.
  - intros q x px Hx Hpx. destruct (decide (x = c)) as [->|Hne].
    + rewrite Hp in Hpx. apply (inj Some) in Hpx. subst px. destruct (decide (q = RunQ)) as [->|Hq].
      * destruct (L2 Hx) as (_ & Ho & Hr). destruct (Gl Hr) as [-> ?]. by auto.
      * destruct (L3 q Hq Hx) as [_ El]. specialize (Gc p). unfold left_rq in Gc. rewrite El in Gc.
        unfold leaving. injection Gc as _ _ -> -> ->. by auto.
    + rewrite Gn by done. destruct (si_proc _ _ Hinv _ _ (L1 _ _ Hne Hx)) as (p0 & Hl0 & Ho0 & Hv0 & Hr0).
      assert (p0 = px) as -> by (destruct Hl0; congruence). by auto.
  - intros pi Hpi Ho Hr. destruct (decide (idle_task (k_proc s) = c)) as [Ei|Hne]; [|by rewrite Gn].
    rewrite Ei in *. assert (pi = p) as -> by congruence. destruct (Gl Hr) as [-> ?]. done.
  - rewrite Hcur'. unfold next_of, abs_next. destruct (f' RunQ) as [|x l] eqn:Ef.
    + left. destruct (decide (running p)) as [Hr|]; [|done].
      destruct (si_cur _ _ Hinv) as [?|[Hin _]]; [done|]. rewrite <- (L4 Hr), Ef in Hin. by apply elem_of_nil in Hin.
    + right. split; [by left|]. intros px Hpx. left. destruct (decide (x = c)) as [->|Hne].
      * assert (px = p) as -> by congruence. destruct L2 as (_ & _ & Hr); [by left|]. by apply Gl.
      * rewrite Gn by done. destruct (si_proc _ _ Hinv RunQ x) as (p0 & [Hp0 _] & _ & _ & Hr0).
        { apply (L1 _ _ Hne). rewrite Ef. by left. }
        assert (p0 = px) as -> by congruence. by apply Hr0.
Qed.
End preserve.

Lemma next_live s f f' p : sched_inv s f → get_pcb s (current (k_proc s)) = Some p →
  abs_dequeue (current (k_proc s)) p f = Some f' →
  next_of s (current (k_proc s)) p f' ≠ current (k_proc s) →
  ∃ pn m, get_pcb s (next_of s (current (k_proc s)) p f') = Some pn ∧ get_mm s (p_mm pn) = Some m.
Proof.
  intros Hinv Hp Hd. unfold next_of, abs_next. destruct (f' RunQ) as [|x l] eqn:Ef.
  - destruct (decide (running p)); [done|]. intros _.
    destruct (si_idle _ _ Hinv) as (pi & [Hpi [m Hm]] & _). eauto.
  - intros Hne. destruct (in_old s f f' p Hinv Hp Hd RunQ x) as [q0 Hx]; [rewrite Ef; by left|].
    destruct (si_proc _ _ Hinv _ _ Hx) as (px & [Hpx [m Hm]] & _). eauto.
Qed.

Lemma schedule_inv_ok s f rsp : sched_inv s f →
  ∃ p, get_pcb s (current (k_proc s)) = Some p ∧
  match abs_dequeue (current (k_proc s)) p f with
  | Some f' => ∃ r s', schedule rsp s = Ok (r, s') ∧ sched_inv s' f'
      ∧ scheduled s (current (k_proc s)) rsp p f' r s'
  | None => schedule rsp s = Timeout
  end.
Proof.
  intros Hinv. destruct (inv_current s f Hinv) as (p & [Hp _] & Hrq & Hc0 & _ & Hid & _).
  exists p. split; [done|].
  pose proof (schedule_ok s f _ rsp p (si_queues _ _ Hinv) eq_refl Hp Hrq Hc0 Hid) as H.
  destruct (abs_dequeue _ p f) as [f'|] eqn:Ed; [|done].
  destruct H as (r & s' & E & Hs); [by apply (next_live s f f' p)|].
  exists r, s'. split; [done|]. split; [|done]. by eapply inv_scheduled.
Qed.

(** C3: the scheduler implements the abstract one.  From the scheduling
    invariant, when the current process is running, or is among the first two
    of the run queue, [schedule] returns: a current process that stopped
    running is taken out of the run queue and put at the end of the queue for
    its state, the first process of the run queue (or the idle task) becomes
    current with its address space and kernel stack in the CPU, execution
    continues from the stack pointer it had saved, the stack pointer of the
    previous process is saved, no other field of any process changes and the
    invariant holds again; in every other case the call does not return. *)
Theorem schedule_refines s f rsp :
  sched_inv s f →
  ∃ p, get_pcb s (current (k_proc s)) = Some p ∧
  match abs_dequeue (current (k_proc s)) p f with
  | Some f' => ∃ r s', schedule rsp s = Ok (r, s') ∧ sched_inv s' f'
      ∧ scheduled s (current (k_proc s)) rsp p f' r s'
  | None => schedule rsp s = Timeout
  end.
Proof. apply schedule_inv_ok. Qed.

(** C34: the run queue is not rotated.  A running process at the head of the
    run queue keeps the CPU when its time slice is used up, whatever waits
    behind it. *)
Theorem running_head_keeps_cpu s f rsp l p :
  sched_inv s f → f RunQ = current (k_proc s) :: l →
  get_pcb s (current (k_proc s)) = Some p → running p →
  ∃ s', schedule rsp s = Ok (rsp, s') ∧ current (k_proc s') = current (k_proc s)
    ∧ k_cpu s' = k_cpu s ∧ sched_inv s' f.
Proof.
  intros Hinv Ef Hp Hr. destruct (schedule_inv_ok s f rsp Hinv) as (p0 & Hp0 & H).
  rewrite Hp in Hp0. apply (inj Some) in Hp0. subst p0. unfold abs_dequeue in H.
  rewrite running_not_leaving in H by done. destruct H as (r & s' & E & Hi & _ & Hc & H).
  unfold next_of, abs_next in *. rewrite Ef in *. rewrite decide_True in H by done.
  destruct H as (-> & Hcpu & _). by exists s'.
Qed.

(** A process that is neither first nor second in the run queue can
    never give up the CPU: its call of [schedule] does not return. *)
Theorem third_in_queue_cannot_stop s f rsp a b l p :
  sched_inv s f → f RunQ = a :: b :: l → current (k_proc s) ∈ l →
  get_pcb s (current (k_proc s)) = Some p → is_Some (leaving p) →
  schedule rsp s = Timeout.
Proof.
  intros Hinv Ef Hin Hp [d Ed]. destruct (schedule_inv_ok s f rsp Hinv) as (p0 & Hp0 & H).
  rewrite Hp in Hp0. apply (inj Some) in Hp0. subst p0.
  assert (Hrun : current (k_proc s) ∈ f RunQ) by (rewrite Ef; by do 2 right).
  destruct (si_proc _ _ Hinv _ _ Hrun) as (p0 & [Hp0 _] & Eo & _). rewrite decide_True in Eo by done.
  assert (p0 = p) as -> by congruence.
  assert (NoDup (a :: b :: l)) as Hnd by (rewrite <- Ef; eapply chain_nodup, Hinv).
  apply NoDup_cons in Hnd as [Ha [Hb _]%NoDup_cons].
  unfold abs_dequeue in H. rewrite Ed, Eo, Ef in H. cbn [Z.eqb Pos.eqb drop_proc] in H.
  rewrite decide_False in H by (intros ->; apply Ha; by right). by rewrite decide_False in H by (by intros ->).
Qed.

(** ** Waking a process up *)

Definition awake (p : pcb) : pcb := set_p_thread_state RUNNING (set_p_process_state NORMAL p).
(** The lists after [x] moves from [q] to the front of the run queue. *)
Definition abs_wake (q : queue) (x : Z) (f : queue → list Z) : option (queue → list Z) :=
  l ← drop_proc x (f q); Some (qupd (qupd f q l) RunQ (x :: f RunQ)).

Section wake.
Context (s : kst) (f : queue → list Z) (q : queue) (x : Z) (p : pcb).
Hypothesis Hq : queues_are s f.
Hypothesis Hp : get_pcb s x = Some p.
Hypothesis Ho : p_on_rq p = 0.
Hypothesis Hx : x ∈ f q.
Hypothesis Hne : q ≠ RunQ.
Hypothesis Huniq : ∀ y, y ∈ f q → pid_at s y = Some (p_pid p) → y = x.

Lemma awake_ok : ∃ s1, (update_pcb x (set_p_process_state NORMAL);; update_pcb x (set_p_thread_state RUNNING)) s
    = Ok (tt, s1) ∧ queues_are s1 f ∧ get_pcb s1 x = Some (awake p)
    ∧ sched_frame (only x awake) s s1 ∧ cpu_kept s s1 ∧ (∀ y, pid_at s1 y = pid_at s y)
    ∧ ∀ y, y ≠ x → get_pcb s1 y = get_pcb s y.
Proof.
  mstep (update_pcb_ok _ _ _ (set_p_process_state NORMAL) Hp).
  pose proof (get_with_pcb_same s x (set_p_process_state NORMAL p)) as Hp1.
  rewrite (update_pcb_ok _ _ _ (set_p_thread_state RUNNING) Hp1). eexists. split; [done|].
  split; [apply (queues_with_pcb _ _ _ _ _ Hp1); [done|by apply (queues_with_pcb _ _ _ _ _ Hp)]|].
  split; [apply get_with_pcb_same|].
  split; [|split; [done|]].
  - eapply (sf_eq (λ a, only x (set_p_thread_state RUNNING) a ∘ only x (set_p_process_state NORMAL) a)).
    { intros a pa _. unfold only. by destruct (decide (a = x)). }
    eapply sf_trans; [by apply core_ok_only|by apply sf_pcb_upd|].
    by apply (sf_pcb_upd _ _ _ (set_p_thread_state RUNNING)).
  - split; intros y.
    + unfold pid_at. rewrite !get_with_pcb. destruct (decide (y = x)) as [->|]; [by rewrite Hp|done].
    + intros Hy. by rewrite !get_with_pcb, !decide_False.
Qed.

Lemma wake_ok :
  match abs_wake q x f with
  | Some f' => ∃ s', try_to_wake_up q x s = Ok (tt, s') ∧ queues_are s' f'
      ∧ sched_frame (only x (set_p_on_rq 1 ∘ awake)) s s' ∧ cpu_kept s s'
      ∧ ∀ y, y ≠ x → forget_next <$> get_pcb s' y = forget_next <$> get_pcb s y
  | None => try_to_wake_up q x s = Timeout
  end.
Proof.
  assert (Hx0 : x ≠ 0) by exact (proj1 (seg_in _ _ _ _ _ (proj1 Hq q) Hx)).
  destruct awake_ok as (s1 & E1 & Hq1 & Hp1 & Hf1 & Hc1 & Hpid1 & Hrest).
  unfold try_to_wake_up. rewrite (proj2 (Z.eqb_neq x NULL) Hx0), <- bind_assoc, (bind_ok _ _ _ _ _ E1).
  assert (Hpid : pid_at s1 x = Some (p_pid p)) by (unfold pid_at; by rewrite Hp1).
  pose proof (remove_ok s1 f q x (p_pid p) Hq1 Hpid) as H.
  rewrite (q_remove_unique (pid_at s1) (p_pid p) x) in H; [|done|intros y; rewrite Hpid1; apply Huniq].
  unfold abs_wake. destruct (drop_proc x (f q)) as [l|] eqn:El; [|apply bind_timeout, H].
  destruct H as (s2 & E2 & Hq2 & Hf2). destruct (qf_get _ _ _ _ Hf2 Hp1) as [n Hp2].
  cbn [mbind option_bind]. mstep E2. mstep (load_pcb _ _ _ Hp2). change (p_on_rq (set_p_next_in_queue n (awake p))) with (p_on_rq p). rewrite Ho. cbn [Z.eqb when].
  assert (Hno : ∀ q', x ∉ qupd f q l q').
  { intros q'. destruct (decide (q' = q)) as [->|Hq'].
    - rewrite qupd_same. eapply drop_proc_not_in; [eapply chain_nodup, Hq|exact El].
    - rewrite qupd_other by done. by apply (proj2 Hq q). }
  destruct (add_front_ok s2 _ RunQ x _ Hq2 Hp2 Hx0 Hno) as (s3 & E3 & Hq3 & Hf3). mstep E3.
  destruct (qf_get _ _ _ _ Hf3 Hp2) as [n' Hp3]. rewrite (update_pcb_ok _ _ _ (set_p_on_rq 1) Hp3).
  eexists. split; [done|]. rewrite qupd_other in Hq3 by done.
  split; [by apply (queues_with_pcb _ _ _ _ _ Hp3)|]. split; [|split].
  - eapply (sf_eq (λ a, only x (set_p_on_rq 1) a ∘ only x awake a)).
    { intros a pa _. unfold only. by destruct (decide (a = x)). }
    eapply sf_trans; [by apply core_ok_only|eapply sf_trans_r; [exact Hf1|]|by apply sf_pcb_upd].
    apply sf_queue. by eapply qf_trans.
  - eapply cpu_kept_trans; [exact Hc1|]. eapply cpu_kept_trans; [by apply qf_cpu_kept|]. exact (qf_cpu_kept _ _ Hf3).
  - intros y Hy. rewrite get_with_pcb, decide_False by done.
    by rewrite (qf_pcb _ _ Hf3), (qf_pcb _ _ Hf2), Hrest.
Qed.
End wake.

Lemma abs_wake_in s f q x l : queues_are s f → x ∈ f q → q ≠ RunQ → NoDup (f q) → drop_proc x (f q) = Some l →
  ∀ q' y, y ∈ qupd (qupd f q l) RunQ (x :: f RunQ) q' → y = x ∧ q' = RunQ ∨ y ≠ x ∧ y ∈ f q'.
Proof.
  intros [_ Hdis] Hx Hne Hnd El q' y Hy. destruct (decide (q' = RunQ)) as [->|Hq0].
  - rewrite qupd_same in Hy. apply elem_of_cons in Hy as [->|Hy]; [by left|]. right. split; [|done].
    intros ->. by apply (Hdis q RunQ x).
  - rewrite qupd_other in Hy by done. right. destruct (decide (q' = q)) as [->|Hqq].
    + rewrite qupd_same in Hy. split; [|by eapply drop_proc_sub]. intros ->. by eapply drop_proc_not_in.
    + rewrite qupd_other in Hy by done. split; [|done]. intros ->. by apply (Hdis q' q x).
Qed.
Lemma wake_inv s f q x : sched_inv s f → q ≠ RunQ → x ∈ f q →
  match abs_wake q x f with
  | Some f' => ∃ s', try_to_wake_up q x s = Ok (tt, s') ∧ sched_inv s' f' ∧ cpu_kept s s'
  | None => try_to_wake_up q x s = Timeout
  end.
Proof.
  intros Hinv Hne Hx. destruct (si_proc _ _ Hinv _ _ Hx) as (p & Hlive & Ho & _). rewrite decide_False in Ho by done.
  assert (Hu : ∀ y, y ∈ f q → pid_at s y = Some (p_pid p) → y = x).
  { intros y Hy E. apply (si_pid _ _ Hinv q q y x (p_pid p)); try done. unfold pid_at. by rewrite (proj1 Hlive). }
  pose proof (wake_ok s f q x p (si_queues _ _ Hinv) (proj1 Hlive) Ho Hx Hne Hu) as H.
  destruct (abs_wake q x f) as [f'|] eqn:Ef; [|done]. destruct H as (s' & E & Hq' & Hf & Hqt & _).
  exists s'. split; [done|]. split; [|done]. unfold abs_wake in Ef.
  destruct (drop_proc x (f q)) as [l|] eqn:El; [|done]. apply (inj Some) in Ef.
  pose proof (proj2 (si_queues _ _ Hinv)) as Hdis. destruct Hqt as [Hcur _].
  assert (Hin : ∀ q' y, y ∈ f' q' → y = x ∧ q' = RunQ ∨ y ≠ x ∧ y ∈ f q').
  { subst f'. eapply (abs_wake_in s); [apply Hinv|done|done|eapply chain_nodup, Hinv|exact El]. }
  assert (Hno : ∀ y, y ∈ f RunQ ∨ y = idle_task (k_proc s) → y ≠ x).
  { intros y [Hy|Hy] ->; [by apply (Hdis q RunQ x)|]. destruct (si_idle _ _ Hinv) as (pi & _ & _ & _ & _ & Hni).
    by destruct (Hni _ _ Hx). }
  apply (inv_step (only x (set_p_on_rq 1 ∘ awake)) s s' f f'); try done.
  - intros a p0. unfold only. by destruct (decide (a = x)).
  - intros q' y Hy. destruct (Hin _ _ Hy) as [[-> _]|[_ ?]]; eauto.
  - intros q' y p0 Hy Hp0. unfold only. rewrite Hcur. destruct (Hin _ _ Hy) as [[-> ->]|[Hyx Hy']].
    + by rewrite !decide_True.
    + rewrite (decide_False (P := y = x)) by done.
      destruct (si_proc _ _ Hinv _ _ Hy') as (p1 & [Hp1 _] & ?). by assert (p1 = p0) as -> by congruence.
  - intros p0 Hp0 Ho0 Hr0. unfold only. rewrite decide_False; [done|]. apply Hno. by right.
  - rewrite Hcur. destruct (si_cur _ _ Hinv) as [?|[Hc Hst]]; [by left|]. right. subst f'. rewrite qupd_same.
    split; [by right|]. intros p0 Hp0. unfold only. rewrite decide_False; [by apply Hst|]. apply Hno. by left.
Qed.

(** Waking a process up.  From the scheduling invariant, a sleeping,
    blocked or waiting process among the first two of its queue moves to the
    front of the run queue, marked as queued and running, the current process
    and the CPU stay, and the invariant holds again; a wake-up of a process
    further back in a longer queue does not return. *)
Theorem wake_up_refines s f q x :
  sched_inv s f → q ≠ RunQ → x ∈ f q →
  match abs_wake q x f with
  | Some f' => ∃ s', try_to_wake_up q x s = Ok (tt, s') ∧ sched_inv s' f' ∧ cpu_kept s s'
  | None => try_to_wake_up q x s = Timeout
  end.
Proof. apply wake_inv. Qed.

(** ** Reachable states *)

(** The current process marks itself as stopped. *)
Lemma stop_inv s f h p : sched_inv s f → current (k_proc s) ≠ idle_task (k_proc s) →
  get_pcb s (current (k_proc s)) = Some p →
  (∀ p, p_pid (h p) = p_pid p ∧ p_mm (h p) = p_mm p) →
  p_next_in_queue (h p) = p_next_in_queue p → p_on_rq (h p) = p_on_rq p → is_Some (leaving (h p)) →
  sched_inv (with_pcb (current (k_proc s)) (h p) s) f.
Proof.
  intros Hinv Hi Hp Hg Hn Ho Hl. set (c := current (k_proc s)) in *.
  apply (inv_step (only c h) s _ f f); try done.
  - by apply sf_pcb_upd.
  - intros a p0. unfold only. destruct (decide (a = c)); [apply Hg|done].
  - apply (queues_with_pcb _ _ _ _ _ Hp Hn), Hinv.
  - eauto.
  - intros q y p0 Hy Hp0. destruct (si_proc _ _ Hinv _ _ Hy) as (p1 & [Hp1 _] & Ho1 & H1).
    assert (p1 = p0) as -> by congruence. unfold only. destruct (decide (y = c)) as [->|Hne]; [|done].
    assert (p0 = p) as -> by congruence. split; [congruence|].
    destruct (si_cur _ _ Hinv) as [?|[Hc _]]; [done|].
    destruct (decide (q = RunQ)) as [->|Hq]; [done|]. by destruct (proj2 (si_queues _ _ Hinv) q RunQ c).
  - intros p0 _ ? ?. unfold only. by rewrite decide_False.
  - destruct (si_cur _ _ Hinv) as [?|[Hc _]]; [by left|]. right. split; [done|].
    change (current (k_proc (with_pcb c (h p) s))) with c. intros p0 Hp0. assert (p0 = p) as -> by congruence.
    unfold only. rewrite decide_True by done. by right.
Qed.

Lemma sched_inv_con s f k : sched_inv s f → sched_inv (set_k_con k s) f.
Proof. intros [? ? ? ? ?]. by constructor. Qed.
Lemma kprintf_con fmt args s r s' : kprintf fmt args s = Ok (r, s') → ∃ k, s' = set_k_con k s.
Proof.
  unfold kprintf, kprintf_bytes. mnorm. intros H. destruct (kprintf_loop _ _ _ _); cbn in H; [|done].
  exists c. by injection H as _ <-.
Qed.

(** The moves of the kernel that touch the queues. *)
Inductive sched_step (s : kst) : kst → Prop :=
| step_schedule rsp r s' : schedule rsp s = Ok (r, s') → sched_step s s'
| step_block rsp r s' : current (k_proc s) ≠ idle_task (k_proc s) →
    block_process (current (k_proc s)) rsp s = Ok (r, s') → sched_step s s'
| step_sleep seconds rsp r s' : current (k_proc s) ≠ idle_task (k_proc s) →
    sys_sleep_process seconds rsp s = Ok (r, s') → sched_step s s'
| step_wake q x l s' : q ≠ RunQ → queue_is s q l → x ∈ l →
    try_to_wake_up q x s = Ok (tt, s') → sched_step s s'.

Lemma schedule_keeps s f rsp r s' : sched_inv s f → schedule rsp s = Ok (r, s') → ∃ f', sched_inv s' f'.
Proof.
  intros Hinv E. destruct (schedule_inv_ok s f rsp Hinv) as (p & _ & H).
  destruct (abs_dequeue _ p f) as [f'|]; [|congruence]. destruct H as (r' & s1 & E1 & H1 & _).
  exists f'. congruence.
Qed.

Lemma with_pcb_twice a p1 p2 s : with_pcb a p2 (with_pcb a p1 s) = with_pcb a p2 s.
Proof. unfold with_pcb, upd_heap, set_k_heap. cbn. by rewrite insert_insert_eq. Qed.

Lemma block_keeps s f rsp r s' : sched_inv s f → current (k_proc s) ≠ idle_task (k_proc s) →
  block_process (current (k_proc s)) rsp s = Ok (r, s') → ∃ f', sched_inv s' f'.
Proof.
  intros Hinv Hne. destruct (inv_current s f Hinv) as (p & [Hp _] & _ & Hc0 & _).
  unfold block_process. rewrite (proj2 (Z.eqb_neq _ NULL) Hc0).
  mstep (update_pcb_ok _ _ _ (set_p_process_state NORMAL) Hp).
  mstep (update_pcb_ok _ _ _ (set_p_thread_state BLOCKED)
    (get_with_pcb_same s (current (k_proc s)) (set_p_process_state NORMAL p))).
  rewrite with_pcb_twice. apply schedule_keeps with (f := f).
  by apply (stop_inv s f (λ p, set_p_thread_state BLOCKED (set_p_process_state NORMAL p)) p).
Qed.

Definition sleeping (seconds : Z) (p : pcb) : pcb :=
  set_p_sleep_time (u64 (seconds * 1000)) (set_p_thread_state SLEEPING (set_p_process_state NORMAL p)).
Lemma sleep_keeps s f seconds rsp r s' : sched_inv s f → current (k_proc s) ≠ idle_task (k_proc s) →
  sys_sleep_process seconds rsp s = Ok (r, s') → ∃ f', sched_inv s' f'.
Proof.
  intros Hinv Hne. destruct (inv_current s f Hinv) as (p & [Hp _] & _ & Hc0 & _).
  set (c := current (k_proc s)) in *. unfold sys_sleep_process. destruct (seconds <? 1).
  { intros (u & s1 & E1 & E2)%bind_inv. apply kprintf_con in E1 as [k ->]. exists f.
    injection E2 as _ <-. by apply sched_inv_con. }
  unfold get_current_process. mnorm. fold c.
  mstep (update_pcb_ok _ _ _ (set_p_process_state NORMAL) Hp).
  mstep (update_pcb_ok _ _ _ (set_p_thread_state SLEEPING) (get_with_pcb_same s c (set_p_process_state NORMAL p))).
  mstep (update_pcb_ok _ _ _ (set_p_sleep_time (u64 (seconds * 1000))) (get_with_pcb_same
    (with_pcb c (set_p_process_state NORMAL p) s) c (set_p_thread_state SLEEPING (set_p_process_state NORMAL p)))).
  rewrite !with_pcb_twice. mstep (load_pcb _ _ _ (get_with_pcb_same s c (sleeping seconds p))).
  intros (u & s1 & E1 & E2)%bind_inv. apply kprintf_con in E1 as [k ->].
  apply bind_inv in E2 as (r' & s2 & E2 & E3). injection E3 as _ <-.
  eapply schedule_keeps; [|exact E2]. apply sched_inv_con. by apply (stop_inv s f (sleeping seconds) p).
Qed.

Lemma step_keeps s s' f : sched_inv s f → sched_step s s' → ∃ f', sched_inv s' f'.
Proof.
  intros Hinv [rsp r s1 E|rsp r s1 Hne E|seconds rsp r s1 Hne E|q x l s1 Hne Hl Hx E].
  - by eapply schedule_keeps.
  - by eapply block_keeps.
  - by eapply sleep_keeps.
  - rewrite (chain_det _ _ _ _ Hl (proj1 (si_queues _ _ Hinv) q)) in Hx.
    pose proof (wake_inv s f q x Hinv Hne Hx) as H. destruct (abs_wake q x f) as [f'|]; [|congruence].
    destruct H as (s2 & E2 & H2 & _). exists f'. congruence.
Qed.

(** C5: the scheduling invariant holds in every state reached by scheduling,
    blocking, sleeping and waking: each process is in the queue its flag and
    its states say, in at most one, the idle task is in none, and the current
    process is the idle task or in the run queue. *)
Theorem sched_inv_reachable s s' f :
  sched_inv s f → rtc sched_step s s' → ∃ f', sched_inv s' f'.
Proof.
  intros Hinv Hr. revert f Hinv. induction Hr as [s|s s1 s2 H1 _ IH]; intros f Hinv; [by exists f|].
  destruct (step_keeps _ _ _ Hinv H1) as [f1 H]. by apply (IH f1).
Qed.

(** ** The timer interrupt *)

(** A wake-up of a process that is not in a queue of two or more. *)
Lemma wake_stranger_hangs s f q b d l r pr : queues_are s f → f q = b :: d :: l → r ≠ 0 →
  get_pcb s r = Some pr → pid_at s b ≠ Some (p_pid pr) → pid_at s d ≠ Some (p_pid pr) →
  try_to_wake_up q r s = Timeout.
Proof.
  intros Hq Ef Hr0 Hr Hb Hd. unfold try_to_wake_up. rewrite (proj2 (Z.eqb_neq r NULL) Hr0), <- bind_assoc.
  destruct (awake_ok s f r pr Hq Hr) as (s2 & E2 & Hq2 & Hp2 & _ & _ & Hpid2 & _). rewrite (bind_ok _ _ _ _ _ E2).
  apply bind_timeout. assert (Hi : pid_at s2 r = Some (p_pid pr)) by (unfold pid_at; by rewrite Hp2).
  pose proof (remove_ok s2 f q r _ Hq2 Hi) as H. rewrite Ef in H. cbn [q_remove] in H.
  rewrite !Hpid2, decide_False, decide_False in H by done. by destruct H.
Qed.

(** Waking the first sleeper links it to the head of the run queue. *)
Lemma wake_first_links s f a l r l' : sched_inv s f → f SleepingQ = a :: l → f RunQ = r :: l' →
  ∃ s1, try_to_wake_up SleepingQ a s = Ok (tt, s1) ∧ qnxt s1 a = Some r
    ∧ queues_are s1 (qupd (qupd f SleepingQ l) RunQ (a :: r :: l'))
    ∧ (∀ y, pid_at s1 y = pid_at s y)
    ∧ ∀ y, y ≠ a → forget_next <$> get_pcb s1 y = forget_next <$> get_pcb s y.
Proof.
  intros Hinv Es Er. assert (Hin : a ∈ f SleepingQ) by (rewrite Es; by left).
  destruct (si_proc _ _ Hinv _ _ Hin) as (pa & [Hpa _] & Ho & _). rewrite decide_False in Ho by done.
  pose proof (wake_ok s f SleepingQ a pa (si_queues _ _ Hinv) Hpa Ho Hin) as H. unfold abs_wake in H.
  rewrite Es, Er in H. cbn [drop_proc] in H. rewrite decide_True in H by done. cbn [mbind option_bind] in H.
  destruct H as (s1 & E1 & Hq1 & Hf1 & _ & Hrest); [done| |].
  { intros y Hy E. apply (si_pid _ _ Hinv SleepingQ SleepingQ y a (p_pid pa)); try done; [by rewrite Es|].
    unfold pid_at. by rewrite Hpa. }
  exists s1. split; [done|]. split; [|split; [done|split; [|done]]].
  - pose proof (proj1 Hq1 RunQ) as Hch. rewrite qupd_same in Hch.
    apply chain_cons_inv in Hch as (_ & _ & nx & Hnx & Hch). by apply chain_cons_inv in Hch as (-> & _).
  - apply (view_pid _ _ _ Hf1). intros y p0. unfold only. by destruct (decide (y = a)).
Qed.

(** The timer interrupt can hang the kernel.  After waking the first
    sleeper its loop follows the link of that process, which by then leads
    into the run queue: with two more sleepers and a running process whose
    clock is zero, the loop tries to take that process out of the sleeping
    queue and never returns. *)
Theorem timer_wakeup_hangs s f a b d l r l' pa pr n :
  sched_inv s f → f SleepingQ = a :: b :: d :: l → f RunQ = r :: l' →
  get_pcb s a = Some pa → p_sleep_time pa = 0 → get_pcb s r = Some pr → p_sleep_time pr = 0 →
  sleep_loop n a s = Timeout.
Proof.
  intros Hinv Es Er Ha Hsa Hr Hsr. destruct n as [|n]; [done|]. pose proof (si_queues _ _ Hinv) as Hq.
  assert (Hrn : r ∈ f RunQ) by (rewrite Er; by left).
  assert (Hsl : ∀ y, y ∈ a :: b :: d :: l → y ≠ 0 ∧ r ≠ y ∧ pid_at s y ≠ Some (p_pid pr)).
  { intros y Hy. rewrite <- Es in Hy. assert (r ≠ y) by (intros ->; by apply (proj2 Hq SleepingQ RunQ y)).
    split; [exact (proj1 (seg_in _ _ _ _ _ (proj1 Hq SleepingQ) Hy))|]. split; [done|]. intros E.
    assert (y = r); [|done]. apply (si_pid _ _ Hinv SleepingQ RunQ y r (p_pid pr)); try done.
    unfold pid_at. by rewrite Hr. }
  destruct (wake_first_links s f a _ r l' Hinv Es Er) as (s1 & E1 & Hnx & Hq1 & Hpid & Hrest).
  assert (r ≠ a) by (apply Hsl; by left). assert (a ≠ 0) by (apply Hsl; by left).
  pose proof (proj1 (seg_in _ _ _ _ _ (proj1 Hq RunQ) Hrn)) as Hr0.
  cbn [sleep_loop]. rewrite (proj2 (Z.eqb_neq a NULL)) by done. mstep (load_pcb _ _ _ Ha). rewrite Hsa. cbn [Z.eqb].
  mstep E1. mstep (next_in_queue_ok _ _ _ Hnx). destruct n as [|n]; [done|]. cbn [sleep_loop].
  rewrite (proj2 (Z.eqb_neq r NULL) Hr0). specialize (Hrest r ltac:(done)). rewrite Hr in Hrest.
  destruct (get_pcb s1 r) as [pr1|] eqn:Hr1; [|done]. apply (inj Some) in Hrest.
  mstep (load_pcb _ _ _ Hr1).
  assert (p_sleep_time pr1 = 0) as -> by (rewrite <- Hsr; exact (f_equal p_sleep_time Hrest)).
  assert (Ep : p_pid pr1 = p_pid pr) by exact (f_equal p_pid Hrest).
  cbn [Z.eqb]. apply bind_timeout. apply (wake_stranger_hangs s1 _ SleepingQ b d l r pr1 Hq1); try done;
    rewrite Ep, Hpid; apply Hsl; [right; by left|do 2 right; by left].
Qed.

(** ** A concrete machine

    Processes 2, 3 and 4 in the run queue, 5, 6 and 7 asleep with their
    clocks at zero; [cur] is current and [ts] the thread state of process 4. *)

Definition a_proc (pid next on_rq : Z) (ts : tstate) : obj :=
  OPcb (set_p_mm 0xA000 (set_p_thread_state ts (set_p_on_rq on_rq (mk_proc pid next)))).
Definition demo (cur : Z) (ts : tstate) : kst :=
  upd_proc (λ g, set_current cur (set_idle_task 0x9000 (set_sleeping_queue 0x4000 (set_run_queue 0x1000 g))))
    (upd_heap (λ _, list_to_map
    [(0x1000, a_proc 2 0x2000 1 RUNNING); (0x2000, a_proc 3 0x3000 1 RUNNING); (0x3000, a_proc 4 0 1 ts);
     (0x4000, a_proc 5 0x5000 0 SLEEPING); (0x5000, a_proc 6 0x6000 0 SLEEPING); (0x6000, a_proc 7 0 0 SLEEPING);
     (0x9000, a_proc 0 0 0 RUNNING); (0xA000, OMm (Mm 0 0 0 0 0x7000))]) blank_kst).
Definition demo_lists (q : queue) : list Z :=
  match q with RunQ => [0x1000; 0x2000; 0x3000] | SleepingQ => [0x4000; 0x5000; 0x6000] | _ => [] end.

(** The cases of a membership in an explicit list. *)
Ltac in_cases H := repeat (apply elem_of_cons in H as [->|H]); [..|by apply elem_of_nil in H].

Lemma demo_inv cur ts : cur = 0x1000 ∨ cur = 0x3000 ∧ ts = SLEEPING → (cur = 0x1000 → ts = RUNNING) →
  sched_inv (demo cur ts) demo_lists.
Proof.
  intros Hcur Hts. assert (Hq : queues_are (demo cur ts) demo_lists).
  { split; [|intros [] [] x Hne; cbn; set_solver].
    intros []; cbn [demo_lists]; try constructor;
      do 3 (eapply seg_cons; [done|vm_compute; reflexivity|]); constructor. }
  constructor.
  - done.
  - intros [] x Hx; cbn [demo_lists] in Hx; in_cases Hx;
      (eexists; split; [split; [vm_compute; reflexivity|by eexists]|]; split; [done|]; split; [done|]); try done.
    intros _ Hne. destruct Hcur as [->|[-> _]]; [|done]. by rewrite Hts.
  - intros [] [] x y i Hx Hy; cbn [demo_lists] in Hx, Hy; in_cases Hx; in_cases Hy; vm_compute; congruence.
  - eexists. split; [split; [vm_compute; reflexivity|by eexists]|]. split; [done|]. split; [done|]. split; [done|].
    intros [] x Hx; cbn [demo_lists] in Hx; in_cases Hx; by vm_compute.
  - right. destruct Hcur as [->|[-> ->]]; (split; [cbn; set_solver|]);
      intros p Hp; vm_compute in Hp; injection Hp as <-; [by left|right; by eexists].
Qed.

Lemma demo_running : sched_inv (demo 0x1000 RUNNING) demo_lists.
Proof. apply demo_inv; by auto. Qed.
Lemma demo_third : sched_inv (demo 0x3000 SLEEPING) demo_lists.
Proof. apply demo_inv; by auto. Qed.

Lemma schedule_refines_witness :
  (∃ r s', schedule 0x8000 (demo 0x1000 RUNNING) = Ok (r, s') ∧ sched_inv s' demo_lists)
  ∧ schedule 0x8000 (demo 0x3000 SLEEPING) = Timeout.
Proof.
  split.
  { destruct (schedule_refines (demo 0x1000 RUNNING) demo_lists 0x8000 demo_running) as (p & Hp & H).
    assert (abs_dequeue 0x1000 p demo_lists = Some demo_lists) as E.
    { vm_compute in Hp. injection Hp as <-. reflexivity. }
    change (current (k_proc (demo 0x1000 RUNNING))) with 0x1000 in H. rewrite E in H.
    destruct H as (r & s' & E' & Hi & _). exists r, s'. exact (conj E' Hi). }
  destruct (schedule_refines (demo 0x3000 SLEEPING) demo_lists 0x8000 demo_third) as (p & Hp & H).
  assert (abs_dequeue 0x3000 p demo_lists = None) as E.
  { vm_compute in Hp. injection Hp as <-. reflexivity. }
  change (current (k_proc (demo 0x3000 SLEEPING))) with 0x3000 in H. rewrite E in H. exact H.
Defined.

Lemma running_head_keeps_cpu_witness :
  ∃ s', schedule 0x8000 (demo 0x1000 RUNNING) = Ok (0x8000, s') ∧ current (k_proc s') = 0x1000.
Proof.
  destruct (running_head_keeps_cpu (demo 0x1000 RUNNING) demo_lists 0x8000 [0x2000; 0x3000]
    (set_p_mm 0xA000 (set_p_thread_state RUNNING (set_p_on_rq 1 (mk_proc 2 0x2000))))) as (s' & E & Hc & _).
  - exact demo_running.
  - reflexivity.
  - vm_compute. reflexivity.
  - vm_compute. by split.
  - exists s'. exact (conj E Hc).
Defined.

Lemma third_in_queue_cannot_stop_witness : schedule 0x8000 (demo 0x3000 SLEEPING) = Timeout.
Proof.
  apply (third_in_queue_cannot_stop (demo 0x3000 SLEEPING) demo_lists 0x8000 0x1000 0x2000 [0x3000]
    (set_p_mm 0xA000 (set_p_thread_state SLEEPING (set_p_on_rq 1 (mk_proc 4 0))))).
  - exact demo_third.
  - reflexivity.
  - by left.
  - vm_compute. reflexivity.
  - vm_compute. by eexists.
Defined.

Lemma wake_up_refines_witness :
  try_to_wake_up SleepingQ 0x6000 (demo 0x1000 RUNNING) = Timeout
  ∧ ∃ s', try_to_wake_up SleepingQ 0x5000 (demo 0x1000 RUNNING) = Ok (tt, s')
      ∧ queue_is s' RunQ [0x5000; 0x1000; 0x2000; 0x3000].
Proof.
  split.
  - refine (wake_up_refines (demo 0x1000 RUNNING) demo_lists SleepingQ 0x6000 demo_running _ _); [done|].
    cbn. set_solver.
  - destruct (wake_up_refines (demo 0x1000 RUNNING) demo_lists SleepingQ 0x5000 demo_running) as (s' & E & H & _).
    + done.
    + cbn. set_solver.
    + exists s'. split; [exact E|]. exact (proj1 (si_queues _ _ H) RunQ).
Defined.

Lemma sched_inv_reachable_witness :
  ∃ s' f', try_to_wake_up SleepingQ 0x5000 (demo 0x1000 RUNNING) = Ok (tt, s') ∧ sched_inv s' f'.
Proof.
  destruct (try_to_wake_up SleepingQ 0x5000 (demo 0x1000 RUNNING)) as [[[] s']| |] eqn:E;
    [|vm_compute in E; discriminate..].
  destruct (sched_inv_reachable (demo 0x1000 RUNNING) s' demo_lists demo_running) as [f' H].
  - apply rtc_once. apply (step_wake _ SleepingQ 0x5000 [0x4000; 0x5000; 0x6000]); [done| |set_solver|exact E].
    exact (proj1 (si_queues _ _ demo_running) SleepingQ).
  - exists s', f'. exact (conj eq_refl H).
Defined.

Lemma timer_wakeup_hangs_witness : sleep_loop 100 0x4000 (demo 0x1000 RUNNING) = Timeout.
Proof.
  apply (timer_wakeup_hangs (demo 0x1000 RUNNING) demo_lists 0x4000 0x5000 0x6000 [] 0x1000 [0x2000; 0x3000]
    (set_p_mm 0xA000 (set_p_thread_state SLEEPING (set_p_on_rq 0 (mk_proc 5 0x5000))))
    (set_p_mm 0xA000 (set_p_thread_state RUNNING (set_p_on_rq 1 (mk_proc 2 0x2000)))));
    [exact demo_running|reflexivity|reflexivity|vm_compute; reflexivity..].
Defined.
