(* ===== verification/Files.v ===== *)
(** * Open files and the tar file system (sys/vfs.c, sys/fs.c, sys/tarfs.c, sys/terminals.c)

    A process has a table of 256 file pointers.  The files of the tar image
    are listed twice: in the inode array of the superblock and in the cache
    of directory entries.  [tar] is the image the build links into the
    kernel, its bytes from [_binary_tarfs_start] on. *)

From S2P Require Export ProcList Util Terminal.

(** ** File descriptors *)

Definition FD_MAX : nat := 256.

(** [while(i < FD_MAX && fd[i] != NULL) i++]. *)
Fixpoint free_fd (fds : list Z) (i : nat) : nat :=
  match fds with
  | [] => i
  | f :: fds' => if f =? NULL then i else free_fd fds' (S i)
  end.
Definition available_fd (curr : Z) : M kst Z :=
  c ← load as_pcb curr;
  let i := free_fd (take FD_MAX (p_fd c)) 0 in
  if (i =? FD_MAX)%nat then kprintf (line "exhausted all file descriptors") [];; mret (-1)
  else mret (Z.of_nat i).

(** [curr->fd[fd]], inside the table. *)
Definition fd_at (c : pcb) (fd : Z) : M kst Z :=
  if (0 <=? fd) && (fd <? 256) then of_option (p_fd c !! Z.to_nat fd) else ub.
Definition get_file_from_fd (fd : Z) : M kst Z :=
  curr ← get_current_process;
  c ← load as_pcb curr;
  fd_at c fd.
Definition install_fd (curr fd fp : Z) : M kst unit :=
  update_pcb curr (λ c, set_p_fd (<[Z.to_nat fd := fp]> (p_fd c)) c).

(** The common body of [tarfs_close] and [terminal_close]: the count is
    unsigned, so [<= 0] is [= 0]. *)
Definition close_file (fp : Z) : M kst Z :=
  if fp =? NULL then mret (-1) else
  update_file fp (λ f, set_f_refcount (u64 (f_refcount f - 1)) f);;
  f ← load as_file fp;
  when (f_refcount f <=? 0) (phys_mem_free fp);;
  mret 0.
Definition tarfs_close (fp : Z) : M kst Z := close_file fp.
Definition terminal_close (fp : Z) : M kst Z := close_file fp.

(** The callbacks of [struct file_operations]. *)
Definition vfs_close (fp : Z) : M kst Z :=
  f ← load as_file fp;
  o ← load as_fops (f_op f);
  match fo_close o with
  | Some tarfs_close_fn => r ← tarfs_close fp; mret (u32 r)
  | Some terminal_close_fn => r ← terminal_close fp; mret (u32 r)
  | None => mret (u32 (-1))
  end.
Definition sys_close (fd : Z) : M kst Z :=
  curr ← get_current_process;
  c ← load as_pcb curr;
  fp ← fd_at c fd;
  if fp =? NULL then mret (-1) else
  r ← vfs_close fp; mret (i32 r).

(** A zeroed frame for the file, a frame for its operations. *)
Definition terminal_open (flags mode : Z) : M kst Z :=
  a ← phys_mem_alloc;
  let fp := kv a in
  memset_frame fp (OFile zero_file);;
  update_file fp (λ f, set_f_dentry NULL (set_f_flags flags (set_f_mode mode
    (set_f_refcount (u64 (f_refcount f + 1)) (set_f_offset 0 f)))));;
  b ← phys_mem_alloc;
  let fop := kv b in
  update_file fp (set_f_op fop);;
  store fop (OFops (Fops (Some terminal_read_fn) (Some terminal_write_fn) (Some terminal_close_fn)));;
  current_process ← get_current_process;
  fd ← available_fd current_process;
  if fd <? 0 then phys_mem_free fp;; mret (-1)
  else install_fd current_process fd fp;; mret fd.

(** ** Inodes and directory entries *)

Definition bare_inode : inode := Inode 0 0 0 None 0 0 0.

(** [my_memcmp(a->d_name, name, my_strlen(name)) == 0]: the names are byte
    buffers of the two structures. *)
Definition name_matches (d_name name : list Z) : M kst bool :=
  n ← of_option (my_strlen name);
  r ← of_option (my_memcmp d_name name n);
  mret (r =? 0).

(** [while(i_list[i].i_number != 0)]; running off the array is undefined. *)
Fixpoint inode_loop (l : list inode) (name : list Z) : M kst inode :=
  match l with
  | [] => ub
  | i :: l' =>
      if i_number i =? 0 then mret bare_inode else
      d ← load as_dentry (i_dentry i);
      m ← name_matches (d_name d) name;
      if m : bool then mret i else inode_loop l' name
  end.
Definition get_inode_from_dentry (f_dentry : Z) : M kst inode :=
  s ← get;
  l ← load as_inodes (s_inodes (k_fs s));
  d ← load as_dentry f_dentry;
  inode_loop l (d_name d).

(** The slot after the last entry in use. *)
Fixpoint insert_inode (l : list inode) (i : inode) : option (list inode) :=
  match l with
  | [] => None
  | j :: l' => if i_number j =? 0 then Some (i :: l') else r ← insert_inode l' i; Some (j :: r)
  end.
Definition insert_inode_into_superblock (i : inode) : M kst unit :=
  s ← get;
  l ← load as_inodes (s_inodes (k_fs s));
  l' ← of_option (insert_inode l i);
  store (s_inodes (k_fs s)) (OInodes l').

Fixpoint insert_entry (l : list dentry_cache) (e : dentry_cache) : option (list dentry_cache) :=
  match l with
  | [] => None
  | j :: l' => if dc_inode_num j =? 0 then Some (e :: l') else r ← insert_entry l' e; Some (j :: r)
  end.
Definition insert_dentry_into_dentry_cache (inode_num tarfs_dentry : Z) : M kst unit :=
  s ← get;
  l ← load as_dcache (dentry_cache_array (k_fs s));
  l' ← of_option (insert_entry l (DentryCache inode_num tarfs_dentry));
  store (dentry_cache_array (k_fs s)) (ODcache l').

(** [n] bounds the loop by [MAX_DENTRIES_IN_CACHE]. *)
Definition MAX_DENTRIES_IN_CACHE : nat := 512.
Fixpoint cache_loop (n : nat) (l : list dentry_cache) (filename : list Z) : M kst Z :=
  match n, l with
  | O, _ => mret NULL
  | S _, [] => ub
  | S n', e :: l' =>
      if dc_inode_num e =? 0 then mret NULL else
      d ← load as_dentry (dc_dentry_elem e);
      m ← name_matches (d_name d) filename;
      if m : bool then mret (dc_dentry_elem e) else cache_loop n' l' filename
  end.
Definition check_correct_file (filename : list Z) : M kst Z :=
  s ← get;
  l ← load as_dcache (dentry_cache_array (k_fs s));
  cache_loop MAX_DENTRIES_IN_CACHE l filename.

Definition tarfs_alloc_inode : M kst Z := a ← phys_mem_alloc; mret (kv a).
Definition tarfs_destroy_inode (tarfs_inode : Z) : M kst unit := phys_mem_free tarfs_inode.

Section files.
Context (tar : list Z).

(** [my_memcpy(buf, i_data + offset, n)]: the bytes copied. *)
Definition copy_from (i_data : option Z) (offset n : Z) : M kst (list Z) :=
  if i32 n <=? 0 then mret [] else
  match i_data with
  | None => ub
  | Some d =>
      let i := d + offset in
      if (0 <=? i) && (i + i32 n <=? Z.of_nat (length tar))
      then mret (take (Z.to_nat (i32 n)) (drop (Z.to_nat i) tar)) else ub
  end.

(** The number of bytes and the bytes stored in the buffer.  [offset], [size]
    and the sum are unsigned; the file size is an [int]. *)
Definition tarfs_read (fp size offset : Z) : M kst (Z * list Z) :=
  f ← load as_file fp;
  i ← get_inode_from_dentry (f_dentry f);
  let filesize := i_size i in
  let copy_size := if u64 filesize <=? u64 (offset + size) then i64 (filesize - offset) else i64 size in
  buf ← copy_from (i_data i) offset copy_size;
  update_file fp (λ f, set_f_offset (u64 (f_offset f + copy_size)) f);;
  mret (copy_size, buf).

Definition vfs_read (fp size offset : Z) : M kst (Z * list Z) :=
  f ← load as_file fp;
  o ← load as_fops (f_op f);
  match fo_read o with
  | Some tarfs_read_fn => tarfs_read fp size offset
  | Some terminal_read_fn => terminal_read fp size offset
  | None => mret (0, [])
  end.
(** [buf] are the [size] bytes to write. *)
Definition vfs_write (fp : Z) (buf : list Z) (offset : Z) : M kst Z :=
  f ← load as_file fp;
  o ← load as_fops (f_op f);
  match fo_write o with
  | Some terminal_write_fn => terminal_write fp buf offset
  | None => mret 0
  end.
Definition vfs_open (file flags : Z) : M kst Z := mret (u32 (-1)).

Definition sys_read (fd count : Z) : M kst (Z * list Z) :=
  curr_proc ← get_current_process;
  c ← load as_pcb curr_proc;
  fp ← fd_at c fd;
  if fp =? NULL then mret (-1, []) else
  f ← load as_file fp;
  vfs_read fp count (f_offset f).
Definition sys_write (fd : Z) (buf : list Z) : M kst Z :=
  curr_proc ← get_current_process;
  c ← load as_pcb curr_proc;
  fp ← fd_at c fd;
  if fp =? NULL then mret (-1) else
  f ← load as_file fp;
  vfs_write fp buf (f_offset f).
End files.

(** ** Reading a file *)

Definition with_file (fp : Z) (f : file) (s : kst) : kst := upd_heap <[fp := OFile f]> s.

(** A change of an object of another type. *)
Lemma load_insert {A} (as_ : obj → option A) s b o o' a x : k_heap s !! b = Some o → as_ o = None →
  load as_ a s = Ok (x, s) → load as_ a (upd_heap <[b := o']> s) = Ok (x, upd_heap <[b := o']> s).
Proof.
  intros Hb Hn H. apply load_inv in H as (_ & o1 & Ho & Hx). apply (load_some as_ a o1); [|done].
  cbn. rewrite lookup_insert_ne; [done|]. intros ->. congruence.
Qed.
Lemma load_other {A} (as_ : obj → option A) s fp f f' a x : k_heap s !! fp = Some (OFile f) →
  as_ (OFile f) = None → load as_ a s = Ok (x, s) → load as_ a (with_file fp f' s) = Ok (x, with_file fp f' s).
Proof. apply load_insert. Qed.
Lemma of_option_state {A} (o : option A) (s s' : kst) x s1 : of_option o s = Ok (x, s1) →
  s1 = s ∧ of_option o s' = Ok (x, s').
Proof. destruct o; cbn; [|done]. intros [= -> <-]. done. Qed.
Lemma load_same {A} (as_ : obj → option A) a s x s1 : load as_ a s = Ok (x, s1) → s1 = s.
Proof. intros H. by apply load_inv in H as [-> _]. Qed.

(** Lookups only read the inode array and directory entries: they are the same
    in every state where those loads are. *)
Section lookup.
Context (s s' : kst).
Hypothesis Hd : ∀ a d, load as_dentry a s = Ok (d, s) → load as_dentry a s' = Ok (d, s').
Hypothesis Hi : ∀ a l, load as_inodes a s = Ok (l, s) → load as_inodes a s' = Ok (l, s').
Hypothesis Hfs : k_fs s' = k_fs s.

Lemma name_matches_state dn n b s1 : name_matches dn n s = Ok (b, s1) → s1 = s ∧ name_matches dn n s' = Ok (b, s').
Proof.
  unfold name_matches. intros (k & s2 & E1 & E2)%bind_inv.
  apply (of_option_state _ _ s') in E1 as [-> E1]. mstep E1. apply bind_inv in E2 as (r & s3 & E2 & E3).
  apply (of_option_state _ _ s') in E2 as [-> E2]. mstep E2. by injection E3 as <- <-.
Qed.
Lemma inode_loop_state l n i s1 : inode_loop l n s = Ok (i, s1) → inode_loop l n s' = Ok (i, s').
Proof.
  induction l as [|j l IH]; cbn [inode_loop]; [done|]. destruct (i_number j =? 0); [by intros [= <-]|].
  intros (d & s2 & E1 & E2)%bind_inv. pose proof (load_same _ _ _ _ _ E1) as ->. mstep (Hd _ _ E1).
  apply bind_inv in E2 as (m & s3 & E2 & E3). apply name_matches_state in E2 as [-> E2]. mstep E2.
  destruct m; [by injection E3 as <-|by apply IH].
Qed.
Lemma get_inode_state a i s1 : get_inode_from_dentry a s = Ok (i, s1) → get_inode_from_dentry a s' = Ok (i, s').
Proof.
  unfold get_inode_from_dentry. mnorm. rewrite Hfs.
  intros (l & s2 & E1 & E2)%bind_inv. pose proof (load_same _ _ _ _ _ E1) as ->. mstep (Hi _ _ E1).
  apply bind_inv in E2 as (d & s3 & E2 & E3). pose proof (load_same _ _ _ _ _ E2) as ->. mstep (Hd _ _ E2).
  by eapply inode_loop_state.
Qed.
End lookup.

Section reading.
Context (tar : list Z).

(** [fp] is open on the file whose contents start at [d] in the image. *)
Record tar_file (s : kst) (fp : Z) (f : file) (i : inode) (d : Z) : Prop := {
  tf_file : k_heap s !! fp = Some (OFile f);
  tf_op : ∃ o, load as_fops (f_op f) s = Ok (o, s) ∧ fo_read o = Some tarfs_read_fn;
  tf_inode : get_inode_from_dentry (f_dentry f) s = Ok (i, s);
  tf_data : i_data i = Some d;
  tf_bounds : 0 ≤ d ∧ 0 ≤ i_size i < 2 ^ 31 ∧ d + i_size i ≤ Z.of_nat (length tar);
  tf_offset : 0 ≤ f_offset f ≤ i_size i
}.
Definition contents (i : inode) (d : Z) : list Z := take (Z.to_nat (i_size i)) (drop (Z.to_nat d) tar).

Lemma tar_file_with s fp f i d o : tar_file s fp f i d → 0 ≤ o ≤ i_size i →
  tar_file (with_file fp (set_f_offset o f) s) fp (set_f_offset o f) i d.
Proof.
  intros [H1 (fo & H2 & H2') H3 H4 H5 H6] Ho. constructor; try done.
  - apply lookup_insert_eq.
  - exists fo. split; [|done]. by apply (load_other as_fops s fp f).
  - eapply (get_inode_state s); [intros ? ?; by apply (load_other _ s fp f)..|done|exact H3].
Qed.

(** A change of an object that is not part of the file. *)
Lemma tar_file_insert s fp f i d a o o' : tar_file s fp f i d → k_heap s !! a = Some o →
  match o with OFile _ | OFops _ | ODentry _ | OInodes _ => False | _ => True end →
  tar_file (upd_heap <[a := o']> s) fp f i d.
Proof.
  intros [H1 (fo & H2 & H2') H3 H4 H5 H6] Ha Ho. constructor; try done.
  - cbn. rewrite lookup_insert_ne; [done|]. intros ->. rewrite H1 in Ha. by injection Ha as <-.
  - exists fo. split; [|done]. by apply (load_insert as_fops s a o); [|destruct o|].
  - eapply (get_inode_state s); [..|exact H3]; [| |done]; intros ? ?; by apply (load_insert _ s a o); [|destruct o].
Qed.

Lemma i64_small z : - 2 ^ 63 ≤ z < 2 ^ 63 → i64 z = z.
Proof.
  intros H. unfold i64, signed. destruct (Z_lt_le_dec z 0).
  - replace (z mod 2 ^ 64) with (z + 2 ^ 64).
    + rewrite (proj2 (Z.ltb_ge _ _)) by lia. lia.
    + symmetry. rewrite <- (Z_mod_plus_full z 1). apply Z.mod_small. lia.
  - rewrite Z.mod_small by lia. by rewrite (proj2 (Z.ltb_lt _ _)) by lia.
Qed.

Lemma contents_length i d : 0 ≤ d → 0 ≤ i_size i → d + i_size i ≤ Z.of_nat (length tar) →
  length (contents i d) = Z.to_nat (i_size i).
Proof. intros. unfold contents. rewrite length_take, length_drop. lia. Qed.

Lemma copy_from_ok s i d o n : i_data i = Some d → 0 ≤ d → 0 ≤ i_size i < 2 ^ 31 →
  d + i_size i ≤ Z.of_nat (length tar) → 0 ≤ o → 0 ≤ n → o + n ≤ i_size i →
  copy_from tar (i_data i) o n s = Ok (take (Z.to_nat n) (drop (Z.to_nat o) (contents i d)), s).
Proof.
  intros -> Hd Hs Ht Ho Hn Hon. unfold copy_from. rewrite i32_small by lia.
  destruct (Z.leb_spec n 0) as [Hz|Hz]; [replace n with 0 by lia; done|].
  rewrite (proj2 (Z.leb_le 0 _)), (proj2 (Z.leb_le _ (Z.of_nat (length tar)))) by lia. cbn [andb].
  apply (f_equal Ok). f_equal. unfold contents.
  rewrite skipn_firstn_comm, take_take, drop_drop. f_equal; [lia|]. f_equal. lia.
Qed.

Lemma tarfs_read_ok s fp f i d n : tar_file s fp f i d → 0 ≤ n < 2 ^ 31 →
  let buf := take (Z.to_nat n) (drop (Z.to_nat (f_offset f)) (contents i d)) in
  let f' := set_f_offset (f_offset f + Z.of_nat (length buf)) f in
  tarfs_read tar fp n (f_offset f) s = Ok ((Z.of_nat (length buf), buf), with_file fp f' s)
  ∧ tar_file (with_file fp f' s) fp f' i d.
Proof.
  intros Htf Hn buf f'. pose proof Htf as [H1 _ H3 H4 (H5 & H6 & H7) H8].
  assert (Hlen : Z.of_nat (length buf) = Z.min n (i_size i - f_offset f)).
  { unfold buf. rewrite length_take, length_drop, contents_length by lia. lia. }
  split; [|apply tar_file_with; [done|lia]].
  unfold tarfs_read. mstep (load_some as_file _ _ f s H1 eq_refl). mstep H3.
  rewrite !u64_small by lia.
  assert ((if i_size i <=? f_offset f + n then i64 (i_size i - f_offset f) else i64 n)
          = Z.of_nat (length buf)) as ->.
  { destruct (Z.leb_spec (i_size i) (f_offset f + n)); rewrite i64_small by lia; lia. }
  pose proof (copy_from_ok s i d (f_offset f) (Z.of_nat (length buf)) H4) as E.
  assert (take (Z.to_nat (Z.of_nat (length buf))) (drop (Z.to_nat (f_offset f)) (contents i d)) = buf) as Eb.
  { rewrite Nat2Z.id. unfold buf. by rewrite length_take, <- take_take, firstn_all. }
  rewrite Eb in E. mstep (E ltac:(lia) ltac:(lia) ltac:(lia) ltac:(lia) ltac:(lia) ltac:(lia)).
  rewrite (bind_ok _ _ _ _ _ (update_ok as_file OFile fp _ f _ s H1 eq_refl)).
  rewrite u64_small by lia. done.
Qed.

(** The descriptor [fd] of the current process is open on [fp]. *)
Definition open_at (s : kst) (fd fp : Z) : Prop :=
  ∃ c, load as_pcb (current (k_proc s)) s = Ok (c, s) ∧ fd_at c fd s = Ok (fp, s).

Lemma sys_read_ok s fd fp f i d n : open_at s fd fp → fp ≠ NULL → tar_file s fp f i d → 0 ≤ n < 2 ^ 31 →
  let buf := take (Z.to_nat n) (drop (Z.to_nat (f_offset f)) (contents i d)) in
  let f' := set_f_offset (f_offset f + Z.of_nat (length buf)) f in
  sys_read tar fd n s = Ok ((Z.of_nat (length buf), buf), with_file fp f' s)
  ∧ open_at (with_file fp f' s) fd fp ∧ tar_file (with_file fp f' s) fp f' i d.
Proof.
  intros (c & Hc & Hfd) Hne Htf Hn buf f'. pose proof Htf as [H1 (o & H2 & H2') _ _ _ _].
  destruct (tarfs_read_ok s fp f i d n Htf Hn) as [E Htf']. fold buf in E, Htf'. fold f' in E, Htf'.
  split; [|split; [|done]].
  - unfold sys_read, get_current_process. mnorm. mstep Hc. mstep Hfd. rewrite (proj2 (Z.eqb_neq fp NULL) Hne).
    pose proof (load_some as_file _ _ f s H1 eq_refl) as Hl. mstep Hl. unfold vfs_read. mstep Hl. mstep H2.
    by rewrite H2'.
  - exists c. split; [by apply (load_other as_pcb s fp f)|].
    unfold fd_at in *. destruct (_ && _); [|done]. by destruct (of_option_state _ s (with_file fp f' s) fp s Hfd).
Qed.

Lemma drop_take_length {A} n (l : list A) : drop (length (take n l)) l = drop n l.
Proof.
  rewrite length_take. destruct (decide (n ≤ length l)%nat) as [?|?].
  - f_equal. lia.
  - rewrite !drop_ge by lia. done.
Qed.
Lemma sum_nonneg (l : list Z) : Forall (λ n, 0 ≤ n < 2 ^ 31) l → 0 ≤ sum l.
Proof. induction 1; cbn; lia. Qed.

Fixpoint read_all (fd : Z) (counts : list Z) : M kst (list Z) :=
  match counts with
  | [] => mret []
  | n :: counts' => r ← sys_read tar fd n; rest ← read_all fd counts'; mret (r.2 ++ rest)
  end.

Lemma read_all_ok s fd fp f i d counts :
  open_at s fd fp → fp ≠ NULL → tar_file s fp f i d → Forall (λ n, 0 ≤ n < 2 ^ 31) counts →
  ∃ s', read_all fd counts s
    = Ok (take (Z.to_nat (sum counts)) (drop (Z.to_nat (f_offset f)) (contents i d)), s').
Proof.
  intros Ho Hne Htf Hc. revert s f Ho Htf. induction Hc as [|n counts Hn Hc IH]; intros s f Ho Htf.
  { by exists s. }
  destruct (sys_read_ok s fd fp f i d n Ho Hne Htf Hn) as (E & Ho' & Htf').
  cbn [read_all]. mstep E. destruct (IH _ _ Ho' Htf') as [s' E']. mstep E'. exists s'.
  apply (f_equal Ok). f_equal. cbn [sum snd f_offset set_f_offset].
  pose proof (tf_offset _ _ _ _ _ Htf) as Hoff. pose proof (sum_nonneg counts Hc).
  set (L := drop (Z.to_nat (f_offset f)) (contents i d)).
  rewrite Z2Nat.inj_add, Nat2Z.id, <- drop_drop by lia. fold L.
  rewrite drop_take_length, Z2Nat.inj_add by lia. apply take_take_drop.
Qed.
(** A file is read in order.  Reads of any sizes on an open file of the
    image return, one after the other, the contents of the file from the
    current offset on, each read as much as is left, and nothing past the end
    of the file. *)
Theorem sequential_reads s fd fp f i d counts :
  open_at s fd fp → fp ≠ NULL → tar_file s fp f i d → Forall (λ n, 0 ≤ n < 2 ^ 31) counts →
  ∃ s', read_all fd counts s
    = Ok (take (Z.to_nat (sum counts)) (drop (Z.to_nat (f_offset f)) (contents i d)), s').
Proof. apply read_all_ok. Qed.
End reading.

(** ** Lookup by name *)

Lemma my_strlen_app fn rest : Forall (λ c, c ≠ 0) fn → my_strlen (fn ++ 0 :: rest) = Some (Z.of_nat (length fn)).
Proof.
  induction 1 as [|c fn Hc _ IH]; [done|]. cbn [my_strlen app].
  rewrite (proj2 (Z.eqb_neq c 0) Hc), IH. cbn [mbind option_bind length]. f_equal. lia.
Qed.
Lemma memcmp_loop_prefix l1 l2 r1 r2 d : length l1 = length l2 →
  memcmp_loop (length l1) (l1 ++ r1) (l2 ++ r2) d = memcmp_loop (length l1) l1 l2 d.
Proof.
  revert l2 d. induction l1 as [|a l1 IH]; intros [|b l2] d Hl; try done. cbn [memcmp_loop length app].
  apply IH. by injection Hl.
Qed.

(** The test on a name [fn] of at most 100 characters and the name buffer of
    a directory entry. *)
Lemma name_matches_ok s dn fn rest : length dn = 100%nat → Forall is_byte dn →
  Forall is_byte fn → Forall (λ c, c ≠ 0) fn → (length fn ≤ 100)%nat →
  name_matches dn (fn ++ 0 :: rest) s = Ok (bool_decide (sum (take (length fn) dn) = sum fn), s).
Proof.
  intros Hdn Hd Hf Hz Hl. unfold name_matches. rewrite my_strlen_app by done. cbn [of_option]. mnorm.
  set (t := take (length fn) dn). assert (Ht : length t = length fn) by (unfold t; rewrite length_take; lia).
  assert (my_memcmp dn (fn ++ 0 :: rest) (Z.of_nat (length fn)) = Some (sum t - sum fn)) as ->.
  { unfold my_memcmp. rewrite Nat2Z.id. rewrite <- (take_drop (length fn) dn). fold t. rewrite <- Ht at 1.
    rewrite memcmp_loop_prefix by done. rewrite memcmp_loop_sum; [f_equal; lia|done|by apply Forall_take|done|].
    rewrite Ht. lia. }
  cbn [of_option]. mnorm. apply (f_equal Ok). f_equal.
  destruct (Z.eqb_spec (sum t - sum fn) 0); symmetry; [apply bool_decide_true|apply bool_decide_false]; lia.
Qed.

(** The first entry with the same sum of characters. *)
Fixpoint first_with_sum (fn : list Z) (es : list (Z * list Z)) : Z :=
  match es with
  | [] => NULL
  | (a, dn) :: es' => if decide (sum (take (length fn) dn) = sum fn) then a else first_with_sum fn es'
  end.

(** The cache holds the entries [es]: address and name of each. *)
Definition cached (s : kst) (l : list dentry_cache) (es : list (Z * list Z)) : Prop :=
  Forall2 (λ e '(a, dn), dc_inode_num e ≠ 0 ∧ dc_dentry_elem e = a
    ∧ (∃ d, load as_dentry a s = Ok (d, s) ∧ d_name d = dn) ∧ length dn = 100%nat ∧ Forall is_byte dn) l es.

Lemma check_correct_file_ok s l es z rest' fn rest :
  load as_dcache (dentry_cache_array (k_fs s)) s = Ok (l ++ z :: rest', s) → dc_inode_num z = 0 →
  cached s l es → (length es < 512)%nat →
  Forall is_byte fn → Forall (λ c, c ≠ 0) fn → (length fn ≤ 100)%nat →
  check_correct_file (fn ++ 0 :: rest) s = Ok (first_with_sum fn es, s).
Proof.
  intros Hl Hz Hes Hlen Hf Hn Hfl. unfold check_correct_file. mnorm. mstep Hl. clear Hl.
  unfold MAX_DENTRIES_IN_CACHE. revert Hlen. generalize 512%nat. induction Hes as [|e [a dn] l es He Hes IH];
    intros n Hlen; (destruct n as [|n]; [cbn in Hlen; lia|]); cbn [app cache_loop first_with_sum].
  - by rewrite Hz.
  - destruct He as (Hnum & -> & (d & Hd & <-) & Hdn & Hb). rewrite (proj2 (Z.eqb_neq _ 0) Hnum).
    mstep Hd. mstep (name_matches_ok s (d_name d) fn rest Hdn Hb Hf Hn Hfl).
    destruct (decide (sum (take (length fn) (d_name d)) = sum fn)) as [E|E].
    + by rewrite bool_decide_true.
    + rewrite bool_decide_false by done. apply IH. cbn in Hlen. lia.
Qed.

(** Files are found by the sum of the characters of their names.  A path
    of at most 100 characters is looked up by going through the cache in
    order and comparing the sum of its characters with that of as many
    characters of each name; the first equal sum wins, so a name with the
    same letters in another order, or a longer name, is taken for the file. *)
Theorem lookup_by_character_sum s l es z rest' fn rest :
  load as_dcache (dentry_cache_array (k_fs s)) s = Ok (l ++ z :: rest', s) → dc_inode_num z = 0 →
  cached s l es → (length es < 512)%nat →
  Forall is_byte fn → Forall (λ c, c ≠ 0) fn → (length fn ≤ 100)%nat →
  check_correct_file (fn ++ 0 :: rest) s = Ok (first_with_sum fn es, s).
Proof. apply check_correct_file_ok. Qed.

(** ** Closing *)

(** One close through the descriptor. *)
Definition closed (f : file) : file := set_f_refcount (u64 (f_refcount f - 1)) f.

Lemma close_file_ok base s p f : phys_inv base s → 0 ≤ p → k_heap s !! kv p = Some (OFile f) →
  ∃ s', close_file (kv p) s = Ok (0, s') ∧ k_heap s' = k_heap (with_file (kv p) (closed f) s)
    ∧ k_proc s' = k_proc s ∧ phys_inv base s'.
Proof.
  intros Hinv Hp Hf. pose proof (kv_ge p Hp) as Hge. unfold close_file.
  rewrite (proj2 (Z.eqb_neq (kv p) NULL)) by (unfold NULL, KERNBASE in *; lia).
  rewrite (bind_ok _ _ _ _ _ (update_ok as_file OFile _ _ f _ s Hf eq_refl)).
  assert (Hinv1 : phys_inv base (with_file (kv p) (closed f) s)) by exact Hinv.
  assert (Hl : load as_file (kv p) (with_file (kv p) (closed f) s) = Ok (closed f, with_file (kv p) (closed f) s)).
  { eapply load_some; [apply lookup_insert_eq|done]. }
  mstep Hl. destruct (f_refcount (closed f) <=? 0); cbn [when].
  - mstep (free_kv base _ p Hinv1 Hp). eexists. split; [done|]. rewrite rebased_heap.
    split; [done|]. split; [unfold rebased; by destruct (_ =? 1)|by apply rebased_inv].
  - mnorm. eexists. split; [done|]. done.
Qed.

Lemma sys_close_ok base s fd p f o : phys_inv base s → 0 ≤ p → open_at s fd (kv p) →
  k_heap s !! kv p = Some (OFile f) → load as_fops (f_op f) s = Ok (o, s) → is_Some (fo_close o) →
  ∃ s', sys_close fd s = Ok (0, s') ∧ phys_inv base s' ∧ open_at s' fd (kv p)
    ∧ k_heap s' !! kv p = Some (OFile (closed f)) ∧ load as_fops (f_op f) s' = Ok (o, s').
Proof.
  intros Hinv Hp (c & Hc & Hfd) Hf Ho [g Hg]. pose proof (kv_ge p Hp) as Hge.
  destruct (close_file_ok base s p f Hinv Hp Hf) as (s' & E & Hh & Hpr & Hinv').
  assert (Hload : ∀ A (as_ : obj → option A) a x, as_ (OFile f) = None →
    load as_ a s = Ok (x, s) → load as_ a s' = Ok (x, s')).
  { intros A as_ a x Hn H. pose proof (load_other as_ s (kv p) f (closed f) a x Hf Hn H) as H'.
    apply load_inv in H' as (_ & ob & Hob & Hx). apply (load_some as_ a ob); [by rewrite Hh|done]. }
  exists s'. split; [|split; [done|]].
  - unfold sys_close, get_current_process. mnorm. mstep Hc. mstep Hfd.
    rewrite (proj2 (Z.eqb_neq (kv p) NULL)) by (unfold NULL, KERNBASE in *; lia).
    unfold vfs_close. rewrite bind_assoc. mstep (load_some as_file _ _ f s Hf eq_refl). rewrite bind_assoc. mstep Ho.
    rewrite Hg. unfold tarfs_close, terminal_close. destruct g; rewrite bind_assoc; by mstep E.
  - split; [|split; [rewrite Hh; apply lookup_insert_eq|by apply Hload]].
    exists c. rewrite Hpr. split; [by apply Hload|].
    unfold fd_at in *. destruct (_ && _); [|done]. by destruct (of_option_state _ s s' (kv p) s Hfd).
Qed.

(** Closing does not free the descriptor.  After [sys_close] returns, the
    descriptor still leads to the file; the count of a file opened once is
    then 0 and a second close makes it 2^64 - 1. *)
Theorem close_keeps_descriptor base s fd p f o :
  phys_inv base s → 0 ≤ p → open_at s fd (kv p) → k_heap s !! kv p = Some (OFile f) →
  load as_fops (f_op f) s = Ok (o, s) → is_Some (fo_close o) → f_refcount f = 1 →
  ∃ s' s'', sys_close fd s = Ok (0, s') ∧ open_at s' fd (kv p)
    ∧ k_heap s' !! kv p = Some (OFile (set_f_refcount 0 f))
    ∧ sys_close fd s' = Ok (0, s'') ∧ k_heap s'' !! kv p = Some (OFile (set_f_refcount (2 ^ 64 - 1) f)).
Proof.
  intros Hinv Hp Hop Hf Ho Hc Hr.
  destruct (sys_close_ok base s fd p f o Hinv Hp Hop Hf Ho Hc) as (s1 & E1 & I1 & O1 & F1 & L1).
  destruct (sys_close_ok base s1 fd p (closed f) o I1 Hp O1 F1 L1 Hc) as (s2 & E2 & _ & _ & F2 & _).
  exists s1, s2. split; [done|]. split; [done|].
  unfold closed in F1, F2. rewrite Hr in F1, F2. split; [exact F1|]. split; [done|exact F2].
Qed.

(** ** A concrete process

    Descriptor 3 is open on a file of five characters in the image. *)

Definition demo_tar : list Z := bytes_of_string "xxhelloyy".
Definition demo_name (n : string) : list Z := bytes_of_string n ++ replicate (100 - String.length n) 0.
Definition demo_heap : gmap Z obj := list_to_map
  [(kv 0x1000, OPcb (set_p_fd (<[3%nat := kv 0x2000]> (replicate 256 0)) zero_pcb));
   (kv 0x2000, OFile (File 0 1 0 0 (kv 0x3000) (kv 0x4000)));
   (kv 0x3000, ODentry (Dentry (demo_name "ab") 0 0));
   (kv 0x4000, OFops (Fops (Some tarfs_read_fn) None (Some tarfs_close_fn)));
   (kv 0x5000, OInodes [Inode 3 5 (chr "0") (Some 2) 0 0 (kv 0x3000); bare_inode]);
   (kv 0x6000, ODcache [DentryCache 3 (kv 0x3000); DentryCache 0 0])].
Definition demo_file : kst :=
  set_k_fs (FsGlobals 0 (kv 0x6000) (kv 0x5000) 0 100 0)
    (upd_proc (set_current (kv 0x1000)) (upd_heap (λ _, demo_heap) small_phys)).

Lemma sequential_reads_witness :
  ∃ s', read_all demo_tar 3 [2; 10] demo_file = Ok (bytes_of_string "hello", s').
Proof.
  apply (sequential_reads demo_tar demo_file 3 (kv 0x2000) (File 0 1 0 0 (kv 0x3000) (kv 0x4000))
    (Inode 3 5 (chr "0") (Some 2) 0 0 (kv 0x3000)) 2 [2; 10]).
  - eexists. split; vm_compute; reflexivity.
  - done.
  - constructor; [vm_compute; reflexivity|eexists; split; vm_compute; reflexivity|vm_compute; reflexivity|done| |by cbn].
    split; [done|]. split; [done|]. by vm_compute.
  - repeat constructor; lia.
Defined.

(** The file [ab] is found under the name [ba]. *)
Lemma lookup_by_character_sum_witness :
  check_correct_file (bytes_of_string "ba" ++ [0]) demo_file = Ok (kv 0x3000, demo_file).
Proof.
  apply (lookup_by_character_sum demo_file [DentryCache 3 (kv 0x3000)] [(kv 0x3000, demo_name "ab")]
    (DentryCache 0 0) [] (bytes_of_string "ba") []).
  - vm_compute. reflexivity.
  - reflexivity.
  - constructor; [|constructor]. split; [done|]. split; [done|].
    split; [eexists; split; vm_compute; reflexivity|]. split; [reflexivity|].
    apply Forall_app. split; [apply bytes_of_string_byte|]. apply Forall_replicate. unfold is_byte. lia.
  - apply Nat.ltb_lt. reflexivity.
  - apply bytes_of_string_byte.
  - repeat constructor; done.
  - apply Nat.leb_le. reflexivity.
Defined.

Lemma close_keeps_descriptor_witness :
  ∃ s' s'', sys_close 3 demo_file = Ok (0, s') ∧ sys_close 3 s' = Ok (0, s'').
Proof.
  destruct (close_keeps_descriptor 0x400000 demo_file 3 0x2000 (File 0 1 0 0 (kv 0x3000) (kv 0x4000))
    (Fops (Some tarfs_read_fn) None (Some tarfs_close_fn))) as (s' & s'' & E & _ & _ & E' & _).
  - exact small_phys_inv.
  - lia.
  - eexists. split; vm_compute; reflexivity.
  - vm_compute. reflexivity.
  - vm_compute. reflexivity.
  - by eexists.
  - reflexivity.
  - exists s', s''. exact (conj E E').
Defined.
