(* ===== verification/Vma.v ===== *)
(** * Memory areas of a process (sys/memory.c)

    The areas of an address space form a doubly linked list headed by
    [mm->vma].  This file models the list routines, [mmap] and [munmap], the
    heap and stack areas of a new program and the check of user pointers, and
    refines the list to a sorted list of disjoint intervals. *)

From S2P Require Export Files.

(** ** Model *)

Definition PROT_READ : Z := 0x1.
Definition PROT_WRITE : Z := 0x2.
Definition PROT_EXEC : Z := 0x4.
Definition VERIFY_WRITE : Z := 0x01.
Definition MAP_PRIVATE : Z := 0x02.
Definition MAP_ANONYMOUS : Z := 0x20.
Definition MAP_SHARED : Z := 0x01.

Definition vma_next (a : Z) : M kst Z := v ← load as_vma a; mret (v_next v).

(** *** Finding an area *)

Definition area_end (v : vm_map_entry) : Z :=
  if negb (v_file v =? NULL) then
    if v_filesize v <? v_memsize v then u64 (v_start_addr v + v_memsize v) else v_end_addr v
  else v_end_addr v.
(** The test of one area; an area whose end is below its start is read
    backwards. *)
Definition in_area (v : vm_map_entry) (addr : Z) : bool :=
  let end_addr := area_end v in
  if end_addr <? v_start_addr v then (end_addr <=? addr) && (addr <=? v_start_addr v)
  else (v_start_addr v <=? addr) && (addr <=? end_addr).

Fixpoint find_loop (n : nat) (test : vm_map_entry → bool) (a : Z) : M kst Z :=
  match n with
  | O => timeout
  | S n' =>
      if a =? NULL then mret NULL else
      v ← load as_vma a;
      if test v then mret a else find_loop n' test (v_next v)
  end.
Definition find_vma (mm addr : Z) : M kst Z :=
  m ← load as_mm mm;
  n ← fuel;
  find_loop n (λ v, in_area v addr) (mm_vma m).
Definition find_vma_region (mm addr len : Z) : M kst Z :=
  m ← load as_mm mm;
  n ← fuel;
  find_loop n (λ v, (v_start_addr v <=? addr) && (u64 (addr + len) <=? page_round_down (v_end_addr v)))
    (mm_vma m).

Fixpoint closest_loop (n : nat) (address a : Z) : M kst Z :=
  match n with
  | O => timeout
  | S n' =>
      if a =? NULL then mret NULL else
      v ← load as_vma a;
      if address <? v_start_addr v then
        if negb (v_prev v =? NULL) then
          p ← load as_vma (v_prev v);
          let diff1 := i32 (v_start_addr v - address) in
          let diff2 := i32 (address - v_end_addr p) in
          if diff1 <=? diff2 then mret a else mret (v_prev v)
        else mret a
      else closest_loop n' address (v_next v)
  end.
Definition find_closest_vma (mm address : Z) : M kst Z :=
  m ← load as_mm mm;
  n ← fuel;
  closest_loop n address (mm_vma m).

(** *** Adding and removing an area *)

Definition is_overlapping_vma (curr vma : vm_map_entry) : bool :=
  if (v_start_addr curr =? v_start_addr vma) && (v_end_addr curr =? v_start_addr vma) then true
  else if (v_start_addr curr <? v_start_addr vma) && (v_end_addr vma <? v_end_addr curr) then true
  else if (v_start_addr vma <? v_end_addr curr) && (v_end_addr curr <=? v_end_addr vma) then true
  else if (v_start_addr vma <=? v_start_addr curr) && (v_start_addr curr <? v_end_addr vma) then true
  else false.

(** The result and [*prev]; [None] is a [prev] that was never assigned. *)
Fixpoint prev_loop (n : nat) (curr_vma : Z) (vma : vm_map_entry) : M kst (Z * option Z) :=
  match n with
  | O => timeout
  | S n' =>
      if curr_vma =? NULL then mret (1, None) else
      c ← load as_vma curr_vma;
      if is_overlapping_vma c vma then
        kprintf (line "mmap overlaps") [];; mret (0, Some NULL)
      else if negb (v_next c =? NULL) then
        nx ← load as_vma (v_next c);
        if (v_end_addr c <=? v_start_addr vma) && (v_end_addr vma <=? v_start_addr nx)
        then mret (1, Some curr_vma) else prev_loop n' (v_next c) vma
      else if v_end_addr c <=? v_start_addr vma then mret (1, Some curr_vma)
      else prev_loop n' (v_next c) vma
  end.
Definition find_vma_prev (vmas vma : Z) : M kst (Z * option Z) :=
  if vmas =? NULL then mret (1, Some NULL) else
  v ← load as_vma vma;
  c ← load as_vma vmas;
  if v_end_addr v <=? v_start_addr c then mret (1, Some NULL) else
  n ← fuel;
  prev_loop n vmas v.

Definition insert_vma (mm vma prev : Z) : M kst unit :=
  next ← (if negb (prev =? NULL) then
            p ← load as_vma prev;
            update_vma prev (set_v_next vma);;
            mret (v_next p)
          else
            m ← load as_mm mm;
            update_mm mm (set_mm_vma vma);;
            mret (mm_vma m));
  update_vma vma (set_v_prev prev);;
  update_vma vma (set_v_next next);;
  when (negb (next =? NULL)) (update_vma next (set_v_prev vma)).

Definition add_vma (mm vma : Z) : M kst Z :=
  m ← load as_mm mm;
  r ← find_vma_prev (mm_vma m) vma;
  if r.1 =? 0 then mret (-1) else
  prev ← of_option r.2;
  insert_vma mm vma prev;;
  mret 0.

Fixpoint remove_vma_loop (n : nat) (curr vma : Z) : M kst unit :=
  match n with
  | O => timeout
  | S n' =>
      c ← load as_vma curr;
      if negb (v_next c =? NULL) then
        if curr =? vma then
          update_vma (v_prev c) (set_v_next (v_next c));;
          c ← load as_vma curr;
          update_vma (v_next c) (set_v_prev (v_prev c))
        else remove_vma_loop n' (v_next c) vma
      else when (curr =? vma)
        (update_vma (v_prev c) (set_v_next NULL);;
         update_vma curr (set_v_prev NULL))
  end.
(** For the first area the list is moved on before [mm->vma->next->prev] is
    written. *)
Definition remove_vma (mm vma : Z) : M kst unit :=
  m ← load as_mm mm;
  if mm_vma m =? vma then
    v ← load as_vma (mm_vma m);
    update_mm mm (set_mm_vma (v_next v));;
    m ← load as_mm mm;
    w ← load as_vma (mm_vma m);
    update_vma (v_next w) (set_v_prev NULL)
  else
    n ← fuel;
    remove_vma_loop n (mm_vma m) vma.

Definition deallocate_vma (vma : Z) : M kst unit :=
  v ← load as_vma vma;
  if negb (v_file v =? NULL) then
    err ← vfs_close (v_file v);
    if i32 err <? 0 then mret tt else phys_mem_free vma
  else phys_mem_free vma.

Fixpoint free_vmas_loop (n : nat) (a : Z) : M kst unit :=
  match n with
  | O => timeout
  | S n' =>
      if a =? NULL then mret tt else
      deallocate_vma a;;
      nx ← vma_next a;
      free_vmas_loop n' nx
  end.
Definition free_vmas (mm vmas : Z) : M kst unit := n ← fuel; free_vmas_loop n vmas.

(** *** mmap and munmap *)

Fixpoint first_fit_loop (n : nat) (vmas addr len : Z) : M kst (Z * Z) :=
  match n with
  | O => timeout
  | S n' =>
      v ← load as_vma vmas;
      if v_next v =? NULL then mret (vmas, addr) else
      nx ← load as_vma (v_next v);
      if (v_end_addr v <=? addr) && (u64 (addr + PAGE_BLOCK_SIZE + len) <=? v_start_addr nx)
      then mret (vmas, addr)
      else first_fit_loop n' (v_next v) (u64 (v_end_addr nx + 1)) len
  end.
Definition do_first_fit_search (vmas addr len : Z) : M kst Z :=
  v ← load as_vma vmas;
  if (addr <? v_start_addr v) && (u64 (addr + len) <? v_end_addr v) then mret addr else
  n ← fuel;
  r ← first_fit_loop n vmas addr len;
  v ← load as_vma r.1;
  if v_next v =? NULL then
    mret (if KERNBASE <? u64 (v_end_addr v + len) then u64 (-1) else u64 (v_end_addr v + 1))
  else mret r.2.

Definition get_unmapped_area (mm addr len : Z) : M kst Z :=
  m ← load as_mm mm;
  do_first_fit_search (mm_vma m) (if addr =? 0 then KERNBASE / 3 else addr) len.

(** The new frame holds unknown values, [junk]. *)
Definition mmap_region (junk : vm_map_entry) (file t_addr t_filesz t_memsz t_off prot : Z) : M kst Z :=
  curr ← get_current_process;
  c ← load as_pcb curr;
  let mm := p_mm c in
  let prot := if file =? NULL then Z.land prot (not64 PROT_EXEC) else prot in
  if KERNBASE <? t_addr then mret (u64 (-1)) else
  a ← phys_mem_alloc;
  if a =? NULL then mret (u64 (-1)) else
  let vma := kv a in
  let v := set_v_start_addr t_addr (set_v_memsize t_memsz (set_v_protection prot
             (set_v_fileoffset t_off (set_v_filesize t_filesz junk)))) in
  store vma (OVma v);;
  if t_memsz <? t_filesz then mret (u64 (-1)) else
  update_vma vma (λ v, set_v_fault (Some (if file =? NULL then do_anon_fault_fn else do_file_fault_fn))
    (set_v_file file (set_v_end_addr
      (if file =? NULL then u64 (t_addr + 4095 * (t_memsz / 4097 + 1)) else u64 (t_addr + t_filesz)) v)));;
  err ← add_vma mm vma;
  if err <? 0 then
    when (negb (file =? NULL)) (tarfs_close file;; mret tt);;
    phys_mem_free vma;;
    mret (u64 (-1))
  else mret t_addr.

(** [ret_addr] is unsigned, the test [ret_addr < 0] fails. *)
Definition do_mmap (junk : vm_map_entry) (addr len prot flags fd off : Z) : M kst Z :=
  curr ← get_current_process;
  c ← load as_pcb curr;
  let mm := p_mm c in
  let ulen := page_round_up len in
  if ulen =? 0 then mret NULL else
  if u64 (off + Z.shiftr ulen 12) <? off then mret NULL else
  if KERNBASE <? ulen then mret NULL else
  if negb (Z.land flags MAP_PRIVATE =? 0) && negb (Z.land flags MAP_SHARED =? 0) then mret (u64 (-1)) else
  r ← (if negb (Z.land flags MAP_ANONYMOUS =? 0) then mret (NULL, 0)
       else
         fp ← get_file_from_fd fd;
         f ← load as_file fp;
         i ← get_inode_from_dentry (f_dentry f);
         mret (fp, u64 (i_size i)));
  ret_addr ← get_unmapped_area mm addr len;
  mmap_region junk r.1 ret_addr r.2 len off (u64 prot).
Definition sys_mmap (junk : vm_map_entry) (addr len prot flags fd off : Z) : M kst Z :=
  do_mmap junk addr len prot flags fd off.

Definition do_munmap (mm addr size : Z) : M kst Z :=
  let unmap_addr := page_round_up addr in
  let unmap_len := page_round_down size in
  vma ← find_vma_region mm unmap_addr unmap_len;
  if vma =? NULL then kprintf (line "Appropriate vma not found") [];; mret (-1) else
  remove_vma mm vma;;
  deallocate_vma vma;;
  mret 1.
Definition sys_munmap (addr size : Z) : M kst Z :=
  curr ← get_current_process;
  c ← load as_pcb curr;
  do_munmap (p_mm c) addr size.

(** *** Heap and stack *)

Fixpoint expand_loop (n : nat) (new_addr address a : Z) : M kst Z :=
  match n with
  | O => timeout
  | S n' =>
      if a =? NULL then mret 0 else
      v ← load as_vma a;
      if v_end_addr v =? STACK_START then
        if new_addr <? STACK_LIMIT then
          kprintf (line "Cannot expand stack - you reached its limits") [];; mret (-1)
        else
          update_vma a (set_v_start_addr address);;
          nx ← vma_next a;
          expand_loop n' new_addr address nx
      else expand_loop n' new_addr address (v_next v)
  end.
Definition expand_stack (mm address : Z) : M kst Z :=
  m ← load as_mm mm;
  n ← fuel;
  expand_loop n (Z.land address (not64 (PAGE_BLOCK_SIZE - 1))) address (mm_vma m).

Definition do_heap_vma (junk : vm_map_entry) (curr_mm : Z) : M kst Z :=
  m ← load as_mm curr_mm;
  n ← fuel;
  l ← last_node vma_next n (mm_vma m);
  a ← phys_mem_alloc;
  let vma_heap := kv a in
  lv ← load as_vma l;
  let start := page_round_down (v_end_addr lv) in
  store vma_heap (OVma (set_v_memsize PAGE_BLOCK_SIZE (set_v_filesize 0 (set_v_protection PROT_WRITE
    (set_v_file NULL (set_v_fault (Some do_anon_fault_fn)
      (set_v_end_addr (u64 (start + 4095)) (set_v_start_addr start junk))))))));;
  err ← add_vma curr_mm vma_heap;
  if err <? 0 then phys_mem_free vma_heap;; mret (-1) else mret 0.

(** [ptrs[i] = v], inside the frame of 512 pointers. *)
Definition put_ptr (ptrs : list Z) (i v : Z) : option (list Z) :=
  if (0 <=? i) && (i <? Z.of_nat (length ptrs)) then Some (<[Z.to_nat i := v]> ptrs) else None.
(** [( *dest++ = *src++) != 0] from index [k] of the frame of characters on. *)
Fixpoint copy_chars (bytes : list Z) (k : nat) (src : list Z) : option (list Z * nat) :=
  match src with
  | [] => None
  | c :: src' =>
      if (k <? length bytes)%nat then
        let bytes' := <[k := c]> bytes in
        if c =? 0 then Some (bytes', S k) else copy_chars bytes' (S k) src'
      else None
  end.
(** The strings from the last to the first. *)
Fixpoint params_loop (strs : list (list Z)) (max_copy user_ptr : Z) (ptrs bytes : list Z) (k : nat)
    : option (list Z * list Z * nat) :=
  match strs with
  | [] => Some (ptrs, bytes, k)
  | src :: strs' =>
      ptrs' ← put_ptr ptrs (max_copy - 1) user_ptr;
      '(bytes', k') ← copy_chars bytes k src;
      params_loop strs' (max_copy - 1) (u64 (user_ptr + Z.of_nat (k' - k))) ptrs' bytes' k'
  end.
(** [strings] is the address of the frame of characters, [k] the offset of
    [*deststr] in it. *)
Definition copy_params (strs : list (list Z)) (max_copy strings : Z) (ptrs bytes : list Z) (k : nat)
    : option (list Z * list Z * nat) :=
  let dest := strings + Z.of_nat k in
  let user_ptr := u64 (page_round_up STACK_START + (dest - page_round_up dest)) in
  ptrs' ← put_ptr ptrs (max_copy - 1) 0;
  params_loop (reverse strs) (max_copy - 1) user_ptr ptrs' bytes k.
Definition copy_params_to_userspace (strs : list (list Z)) (max_copy ptrs_at strings : Z) (k : nat) : M kst nat :=
  ptrs ← load as_table ptrs_at;
  bytes ← load as_bytes strings;
  r ← of_option (copy_params strs max_copy strings ptrs bytes k);
  store ptrs_at (OTable r.1.1);;
  store strings (OBytes r.1.2);;
  mret r.2.

(** One page keeps all the pointers, the other page keeps the strings. *)
Definition stack_pages (args envs : list (list Z)) : M kst (Z * Z) :=
  let argc := Z.of_nat (length args) in
  let envc := Z.of_nat (length envs) in
  phys_pointer ← phys_mem_alloc;
  memset_frame (kv phys_pointer) (OTable zero_table);;
  phys_strings ← phys_mem_alloc;
  memset_frame (kv phys_strings) (OBytes zero_bytes);;
  k ← copy_params_to_userspace envs 512 (kv phys_pointer) (kv phys_strings) 0;
  copy_params_to_userspace args (512 - envc - 1) (kv phys_pointer) (kv phys_strings) k;;
  let max_copy := 512 - (envc + argc + 2) in
  ptrs ← load as_table (kv phys_pointer);
  ptrs' ← of_option (put_ptr ptrs (max_copy - 1) argc);
  store (kv phys_pointer) (OTable ptrs');;
  mret (phys_pointer, phys_strings).

(** The area is written at the address of the global [vma], which is NULL,
    with [KERNBASE] set: the frame allocated for it is not used.  [junk] are
    the values of its links before. *)
Definition do_stack_vma (junk : vm_map_entry) (mm : Z) (argv envp : option (list (list Z))) : M kst Z :=
  phys_mem_alloc;;
  let vma_stack := kv NULL in
  store vma_stack (OVma (set_v_memsize (3 * PAGE_BLOCK_SIZE) (set_v_fault (Some do_anon_fault_fn)
    (set_v_file NULL (set_v_protection PROT_WRITE (set_v_fileoffset 0 (set_v_filesize 0
      (set_v_end_addr (STACK_START - 3 * PAGE_BLOCK_SIZE) (set_v_start_addr STACK_START junk)))))))));;
  let args := default [] argv in
  let envs := default [] envp in
  let argc := Z.of_nat (length args) in
  let envc := Z.of_nat (length envs) in
  '(phys_pointer, phys_strings) ← stack_pages args envs;
  m ← load as_mm mm;
  let flags := Z.lor (Z.lor PTE_PRESENT PTE_READWRITE) PTE_USERSUPERVISOR in
  map_virtual_address_to_physical_address STACK_START phys_strings flags (mm_cr3 m) 0;;
  update_mm mm (set_mm_exec (STACK_START - PAGE_BLOCK_SIZE - 8 * (argc + envc + 3)));;
  m ← load as_mm mm;
  map_virtual_address_to_physical_address (STACK_START - 2 * PAGE_BLOCK_SIZE) phys_pointer flags (mm_cr3 m) 0;;
  err ← add_vma mm vma_stack;
  if err <? 0 then phys_mem_free vma_stack;; mret (-1) else mret 0.

Definition is_userspace_access_valid (mm addr n type : Z) : M kst Z :=
  corr_vma ← find_vma_region mm addr (u64 (n - 1));
  if corr_vma =? NULL then mret (-1) else
  v ← load as_vma corr_vma;
  mret (i32 (Z.land (v_protection v) (if type =? VERIFY_WRITE then PROT_WRITE else PROT_READ))).

(** ** Doubly linked lists of areas *)

(** An area with given neighbours. *)
Definition links (p n : Z) (v : vm_map_entry) : vm_map_entry := set_v_prev p (set_v_next n v).

(** The nodes [l] (address and contents up to the links) are linked from [a]
    to [b]; [p] and [q] are the nodes before the first and before [b]. *)
Fixpoint dseg (h : gmap Z obj) (p a : Z) (l : list (Z * vm_map_entry)) (q b : Z) : Prop :=
  match l with
  | [] => p = q ∧ a = b
  | (x, v) :: l' => a = x ∧ x ≠ 0 ∧ ∃ n, h !! x = Some (OVma (links p n v)) ∧ dseg h x n l' q b
  end.

Lemma dseg_app h p a l1 l2 q b :
  dseg h p a (l1 ++ l2) q b ↔ ∃ r c, dseg h p a l1 r c ∧ dseg h r c l2 q b.
Proof.
  revert p a. induction l1 as [|[x v] l1 IH]; intros p a; cbn.
  - split; [intros H; by exists p, a|]. by intros (? & ? & (-> & ->) & H).
  - split.
    + intros (-> & Hx & n & Hn & H). apply IH in H as (r & c & H1 & H2). exists r, c. eauto 6.
    + intros (r & c & (-> & Hx & n & Hn & H1) & H2). split; [done|]. split; [done|]. exists n.
      split; [done|]. apply IH. eauto.
Qed.
Lemma dseg_frame h h' p a l q b : dseg h p a l q b → (∀ x, x ∈ l.*1 → h' !! x = h !! x) → dseg h' p a l q b.
Proof.
  revert p a. induction l as [|[x v] l IH]; intros p a; cbn; [done|].
  intros (-> & Hx & n & Hn & H) Hag. split; [done|]. split; [done|]. exists n.
  rewrite Hag by (by left). split; [done|]. apply IH; [done|]. intros y Hy. apply Hag. by right.
Qed.
(** The last node gets a new successor. *)
Lemma dseg_set_next h p a l x v b b' : x ∉ l.*1 → dseg h p a (l ++ [(x, v)]) x b →
  ∃ r, h !! x = Some (OVma (links r b v)) ∧ dseg (<[x := OVma (links r b' v)]> h) p a (l ++ [(x, v)]) x b'.
Proof.
  intros Hx (r & c & H1 & -> & Hx0 & n & Hn & _ & ->)%dseg_app. exists r. split; [done|].
  apply dseg_app. exists r, x. split.
  - eapply dseg_frame; [done|]. intros y Hy. rewrite lookup_insert_ne; [done|]. by intros ->.
  - split; [done|]. split; [done|]. exists b'. rewrite lookup_insert_eq. done.
Qed.
(** The first node gets a new predecessor. *)
Lemma dseg_set_prev h p p' x v l q b : x ∉ l.*1 → dseg h p x ((x, v) :: l) q b →
  ∃ n, h !! x = Some (OVma (links p n v)) ∧ dseg (<[x := OVma (links p' n v)]> h) p' x ((x, v) :: l) q b.
Proof.
  intros Hx (_ & Hx0 & n & Hn & H). exists n. split; [done|]. split; [done|]. split; [done|]. exists n.
  rewrite lookup_insert_eq. split; [done|]. eapply dseg_frame; [done|].
  intros y Hy. rewrite lookup_insert_ne; [done|]. by intros ->.
Qed.
Lemma dseg_in h p a l q b x v : dseg h p a l q b → (x, v) ∈ l → x ≠ 0 ∧ ∃ p n, h !! x = Some (OVma (links p n v)).
Proof.
  revert p a. induction l as [|[y w] l IH]; intros p a; [by intros _ ?%elem_of_nil|].
  intros (-> & Hy & n & Hn & H) [Hin|Hin]%elem_of_cons; [injection Hin as -> ->; by eauto|by eapply IH].
Qed.

(** The address space at [mm] has the areas [l]. *)
Record areas_are (s : kst) (mm : Z) (m : mm_struct) (l : list (Z * vm_map_entry)) : Prop := {
  ar_mm : k_heap s !! mm = Some (OMm m);
  ar_list : ∃ q, dseg (k_heap s) 0 (mm_vma m) l q 0;
  ar_nodup : NoDup (l.*1)
}.

Lemma areas_ne s mm m l x : areas_are s mm m l → x ∈ l.*1 → x ≠ mm.
Proof.
  intros [Hm [q Hd] _] Hx ->. apply list_elem_of_fmap in Hx as ([y v] & E & Hin). cbn in E. subst y.
  apply (dseg_in _ _ _ _ _ _ _ _ Hd) in Hin as (_ & p & n & Hh). congruence.
Qed.
Lemma areas_fuel s mm m l : areas_are s mm m l → (length l < S (size (k_heap s)))%nat.
Proof.
  intros [_ [q Hd] Hnd]. rewrite <- (length_fmap fst), <- (size_list_to_set (C := gset Z) _ Hnd), <- size_dom.
  apply Nat.lt_succ_r, subseteq_size. intros x Hx. apply elem_of_list_to_set in Hx. apply elem_of_dom.
  apply list_elem_of_fmap in Hx as ([y v] & -> & Hin).
  apply (dseg_in _ _ _ _ _ _ _ _ Hd) in Hin as (_ & p & n & Hh). by eexists.
Qed.

Lemma update_vma_ok s a v g : k_heap s !! a = Some (OVma v) →
  update_vma a g s = Ok (tt, upd_heap <[a := OVma (g v)]> s).
Proof. intros H. by apply (update_ok _ _ a (OVma v)). Qed.
Lemma load_vma s a v : k_heap s !! a = Some (OVma v) → load as_vma a s = Ok (v, s).
Proof. intros H. by apply (load_some _ a (OVma v)). Qed.

(** What an operation on the list of an address space leaves alone. *)
Definition only_at (s s' : kst) (as_ : list Z) : Prop :=
  ∃ h, s' = set_k_heap h s ∧ ∀ a, a ∉ as_ → h !! a = k_heap s !! a.
Lemma only_at_heap s s' as_ a : only_at s s' as_ → a ∉ as_ → k_heap s' !! a = k_heap s !! a.
Proof. intros (h & -> & H) Ha. by apply H. Qed.

(** The part of [insert_vma] after the predecessor is linked. *)
Lemma insert_tail_ok s x v r c l2 q : k_heap s !! x = Some (OVma v) → x ∉ l2.*1 → NoDup (l2.*1) →
  dseg (k_heap s) r c l2 q 0 →
  ∃ s' q', (update_vma x (set_v_prev r);; update_vma x (set_v_next c);;
            when (negb (c =? NULL)) (update_vma c (set_v_prev x))) s = Ok (tt, s')
    ∧ k_heap s' !! x = Some (OVma (links r c v)) ∧ dseg (k_heap s') x c l2 q' 0
    ∧ only_at s s' (x :: l2.*1).
Proof.
  intros Hx Hn Hnd Hd. mstep (update_vma_ok s x v (set_v_prev r) Hx).
  mstep (update_vma_ok (upd_heap <[x := OVma (set_v_prev r v)]> s) x (set_v_prev r v) (set_v_next c)
    (lookup_insert_eq (k_heap s) x _)).
  set (h := <[x := OVma (links r c v)]> (k_heap s)).
  assert (Es : upd_heap <[x:=OVma (set_v_next c (set_v_prev r v))]> (upd_heap <[x:=OVma (set_v_prev r v)]> s)
               = set_k_heap h s).
  { unfold upd_heap, h. cbn. by rewrite insert_insert_eq. }
  rewrite Es. assert (Hd' : dseg h r c l2 q 0).
  { eapply dseg_frame; [exact Hd|]. intros y Hy. unfold h. rewrite lookup_insert_ne; [done|]. by intros ->. }
  assert (Hh : ∀ a, a ≠ x → h !! a = k_heap s !! a) by (intros a Ha; unfold h; by rewrite lookup_insert_ne).
  destruct l2 as [|[y w] l2].
  - destruct Hd' as [_ ->]. cbn [when negb Z.eqb NULL]. exists (set_k_heap h s), x. split; [done|].
    split; [apply lookup_insert_eq|]. split; [done|]. exists h. split; [done|]. intros a Ha. apply Hh. set_solver.
  - pose proof (proj1 Hd') as ->. pose proof (proj1 (proj2 Hd')) as Hy0.
    cbn in Hn, Hnd. apply NoDup_cons in Hnd as [Hy _]. apply not_elem_of_cons in Hn as [Hxy _].
    destruct (dseg_set_prev h r x y w l2 q 0 Hy Hd') as (n & Hw & Hd2).
    rewrite (proj2 (Z.eqb_neq y NULL) Hy0). cbn [negb when]. rewrite (update_vma_ok (set_k_heap h s) y _ (set_v_prev x) Hw).
    eexists _, q. split; [done|]. split; [|split; [exact Hd2|]].
    + cbn. rewrite lookup_insert_ne by done. apply lookup_insert_eq.
    + eexists. split; [done|]. intros a Ha. cbn in Ha. apply not_elem_of_cons in Ha as [? [? ?]%not_elem_of_cons].
      cbn. rewrite lookup_insert_ne by done. by apply Hh.
Qed.

(** The predecessor at the end of [l1], NULL for the empty list. *)
Definition last_addr (l1 : list (Z * vm_map_entry)) : Z := from_option fst NULL (last l1).

(** What [insert_vma] promises. *)
Definition inserted (s : kst) (mm : Z) (m : mm_struct) (l1 l2 : list (Z * vm_map_entry)) (x : Z) (v : vm_map_entry) : Prop :=
  ∃ s' m', insert_vma mm x (last_addr l1) s = Ok (tt, s') ∧ areas_are s' mm m' (l1 ++ (x, v) :: l2)
    ∧ only_at s s' (mm :: x :: (l1 ++ l2).*1) ∧ set_mm_vma 0 m' = set_mm_vma 0 m.

Section insert.
Context (s : kst) (mm : Z) (m : mm_struct) (x : Z) (v : vm_map_entry).
Hypothesis Hx : k_heap s !! x = Some (OVma v).
Hypothesis Hx0 : x ≠ 0.

Lemma insert_nodup (l1 l2 : list (Z * vm_map_entry)) : NoDup ((l1 ++ l2).*1) → x ∉ (l1 ++ l2).*1 →
  NoDup ((l1 ++ (x, v) :: l2).*1).
Proof.
  rewrite !fmap_app. cbn. intros (N1 & N2 & N3)%NoDup_app Hn. rewrite elem_of_app in Hn.
  apply NoDup_app. split; [done|]. split; [|apply NoDup_cons; by auto].
  intros a Ha. specialize (N2 a Ha). set_solver.
Qed.

Lemma insert_front_ok l2 : areas_are s mm m l2 → x ∉ l2.*1 → inserted s mm m [] l2 x v.
Proof.
  intros Har Hn. pose proof Har as [Hm [q Hd] Hnd]. assert (Hxm : x ≠ mm) by (intros ->; congruence).
  unfold inserted, insert_vma, last_addr. cbn [last from_option NULL Z.eqb negb].
  rewrite bind_assoc. mstep (load_some as_mm mm (OMm m) m s Hm eq_refl). rewrite bind_assoc.
  mstep (update_ok as_mm OMm mm (OMm m) m (set_mm_vma x) s Hm eq_refl).
  set (s1 := upd_heap <[mm := OMm (set_mm_vma x m)]> s).
  assert (Hne : mm ∉ l2.*1) by (intros Ha; by apply (areas_ne _ _ _ _ _ Har Ha)).
  destruct (insert_tail_ok s1 x v 0 (mm_vma m) l2 q) as (s' & q' & E & Hh & Hd' & Ho).
  - cbn. by rewrite lookup_insert_ne.
  - done.
  - done.
  - eapply dseg_frame; [exact Hd|]. intros a Ha. cbn. rewrite lookup_insert_ne; [done|]. by intros <-.
  - exists s', (set_mm_vma x m). split; [exact E|]. split; [|split; [|done]].
    + constructor; [|exists q'|by apply (insert_nodup [] l2)].
      * rewrite (only_at_heap _ _ _ mm Ho); [apply lookup_insert_eq|]. by apply not_elem_of_cons.
      * split; [done|]. split; [done|]. by exists (mm_vma m).
    + destruct Ho as (h & -> & Ho). exists h. split; [done|]. intros a Ha. cbn in Ha.
      rewrite Ho by set_solver. cbn. rewrite lookup_insert_ne; [done|]. set_solver.
Qed.

Lemma insert_after_ok l1 y w l2 : areas_are s mm m ((l1 ++ [(y, w)]) ++ l2) → x ∉ ((l1 ++ [(y, w)]) ++ l2).*1 →
  inserted s mm m (l1 ++ [(y, w)]) l2 x v.
Proof.
  intros Har Hn. pose proof Har as [Hm [q Hd] Hnd]. pose proof (insert_nodup _ _ Hnd Hn) as Hnd'.
  assert (Hmm : mm ∉ ((l1 ++ [(y, w)]) ++ l2).*1) by (intros Ha; by apply (areas_ne _ _ _ _ _ Har Ha)).
  rewrite !fmap_app in Hn, Hmm, Hnd. cbn in Hn, Hmm. apply NoDup_app in Hnd as (N1 & N2 & N3).
  apply NoDup_app in N1 as (N1 & N4 & _). apply dseg_app in Hd as (r & c & H1 & H2).
  assert (Hyl : y ∉ l1.*1) by (intros Hy; apply (N4 y Hy); cbn; by left).
  assert (Hy2 : y ∉ l2.*1) by (apply N2; rewrite elem_of_app; right; by left).
  assert (Ery : r = y). { apply dseg_app in H1 as (? & ? & _ & -> & _ & n & _ & -> & _). done. } subst r.
  destruct (dseg_set_next _ _ _ _ _ _ _ x Hyl H1) as (r' & Hy & Hd1).
  pose proof (dseg_in _ _ _ _ _ _ y w H1 ltac:(rewrite elem_of_app; right; by left)) as [Hy0 _].
  unfold inserted, insert_vma, last_addr. rewrite last_snoc. cbn [from_option fst].
  rewrite (proj2 (Z.eqb_neq y NULL) Hy0). cbn [negb]. rewrite bind_assoc. mstep (load_vma s y _ Hy).
  rewrite bind_assoc. mstep (update_vma_ok s y _ (set_v_next x) Hy).
  set (s1 := upd_heap <[y := OVma (set_v_next x (links r' c w))]> s).
  destruct (insert_tail_ok s1 x v y c l2 q) as (s' & q' & E & Hh & Hd' & Ho).
  - cbn. rewrite lookup_insert_ne by set_solver. done.
  - set_solver.
  - done.
  - eapply dseg_frame; [exact H2|]. intros a Ha. cbn. rewrite lookup_insert_ne; [done|]. by intros ->.
  - exists s', m. split; [exact E|].
    assert (Hkeep : ∀ a, a ∉ x :: l2.*1 → k_heap s' !! a = k_heap s1 !! a) by (intros a; by apply only_at_heap).
    split; [constructor; [|exists q'; apply dseg_app; exists y, x; split|done]|split; [|done]].
    + rewrite Hkeep by set_solver. cbn. rewrite lookup_insert_ne by set_solver. done.
    + eapply dseg_frame; [exact Hd1|]. intros a Ha. rewrite Hkeep; [done|]. rewrite fmap_app in Ha. cbn in Ha.
      apply not_elem_of_cons. split; [set_solver|]. intros Ha2. by apply (N2 a).
    + split; [done|]. split; [done|]. by exists c.
    + destruct Ho as (h & -> & Ho). exists h. split; [done|]. intros a Ha. rewrite !fmap_app in Ha. cbn in Ha.
      rewrite Ho by set_solver. cbn. rewrite lookup_insert_ne; [done|]. set_solver.
Qed.

Lemma insert_vma_ok l1 l2 : areas_are s mm m (l1 ++ l2) → x ∉ (l1 ++ l2).*1 → inserted s mm m l1 l2 x v.
Proof. destruct l1 as [|[y w] l1 _] using rev_ind; [apply insert_front_ok|apply insert_after_ok]. Qed.
End insert.

(** ** Sorted areas *)

Definition forward (v : vm_map_entry) : Prop := v_start_addr v < v_end_addr v.
(** The two areas have an address in common. *)
Definition overlap (v w : vm_map_entry) : Prop := v_start_addr v < v_end_addr w ∧ v_start_addr w < v_end_addr v.
#[global] Instance overlap_dec v w : Decision (overlap v w).
Proof. unfold overlap. apply _. Defined.
Definition before (v w : vm_map_entry) : Prop := v_end_addr v ≤ v_start_addr w.
#[global] Instance before_dec v w : Decision (before v w).
Proof. unfold before. apply _. Defined.

(** The test is exact on nonempty areas. *)
Lemma is_overlapping_exact c v : forward c → forward v → is_overlapping_vma c v = bool_decide (overlap c v).
Proof.
  unfold forward, is_overlapping_vma. intros Hc Hv.
  destruct (decide (overlap c v)) as [Ho|Ho]; [rewrite bool_decide_true by done|rewrite bool_decide_false by done];
    unfold overlap in Ho;
    repeat match goal with
    | |- context [?a =? ?b] => destruct (Z.eqb_spec a b)
    | |- context [?a <? ?b] => destruct (Z.ltb_spec a b)
    | |- context [?a <=? ?b] => destruct (Z.leb_spec a b)
    end; cbn; try done; lia.
Qed.

(** Nonempty areas in order; the last one may be the stack, whose end is
    below its start. *)
Fixpoint sorted_areas (l : list (Z * vm_map_entry)) : Prop :=
  match l with
  | [] => True
  | [_] => True
  | (_, v) :: ((_, w) :: _) as l' => forward v ∧ before v w ∧ sorted_areas l'
  end.

Lemma sorted_cons x v l : sorted_areas ((x, v) :: l) ↔
  (l = [] ∨ forward v ∧ ∃ y w l', l = (y, w) :: l' ∧ before v w) ∧ sorted_areas l.
Proof.
  destruct l as [|[y w] l]; cbn; [naive_solver|]. split.
  - intros (H1 & H2 & H3). split; [|done]. right. split; [done|]. by exists y, w, l.
  - intros [[?|[H1 (? & ? & ? & [= <- <- <-] & H2)]] H3]; done.
Qed.
Lemma sorted_tail x v l : sorted_areas ((x, v) :: l) → sorted_areas l.
Proof. by intros [_ H]%sorted_cons. Qed.

(** The new area goes before every area of [l]. *)
Lemma before_all v l y w : sorted_areas ((y, w) :: l) → before v w → forward v →
  ∀ z u, (z, u) ∈ (y, w) :: l → forward u → ¬ overlap u v.
Proof.
  revert y w. induction l as [|[y' w'] l IH]; intros y w Hs Hb Hv z u.
  - intros [= -> ->]%list_elem_of_singleton Hf. unfold before, overlap in *. lia.
  - cbn in Hs. destruct Hs as (Hf & Hb' & Hs). intros [[= -> ->]|Hin]%elem_of_cons Hu.
    + unfold before, overlap in *. lia.
    + refine (IH y' w' Hs _ Hv z u Hin Hu). unfold before, forward in *. lia.
Qed.

(** The last area is the stack only if the new one ends below it. *)
Definition last_ok (v : vm_map_entry) (l : list (Z * vm_map_entry)) : Prop :=
  ∀ y u, last l = Some (y, u) → forward u ∨ before v u.

Lemma not_before_forward v x w l : sorted_areas ((x, w) :: l) → last_ok v ((x, w) :: l) → ¬ before v w → forward w.
Proof.
  intros [[->|[Hf _]] _]%sorted_cons Hl Hn; [|done]. destruct (Hl x w eq_refl); done.
Qed.
Lemma last_ok_tail v x w y u l : last_ok v ((x, w) :: (y, u) :: l) → last_ok v ((y, u) :: l).
Proof. intros H z t Hz. apply (H z t). by rewrite last_cons, Hz. Qed.

(** A message leaves everything but the screen. *)
Lemma overlap_message s : ∃ k, kprintf (line "mmap overlaps") [] s = Ok (tt, set_k_con k s).
Proof. rewrite kprintf_plain by reflexivity. by eexists. Qed.

(** The place the loop finds: behind [(y, u)], with [l2] after it. *)
Definition place (v : vm_map_entry) (l1 : list (Z * vm_map_entry)) (u : vm_map_entry)
    (l2 : list (Z * vm_map_entry)) : Prop :=
  forward u ∧ before u v ∧ ∀ z t, hd_error l2 = Some (z, t) → before v t.

Lemma prev_loop_ok s v n p x w l q : forward v → dseg (k_heap s) p x ((x, w) :: l) q 0 →
  sorted_areas ((x, w) :: l) → last_ok v ((x, w) :: l) → ¬ before v w → (length l < n)%nat →
  (∃ y u k, (y, u) ∈ (x, w) :: l ∧ forward u ∧ overlap u v
     ∧ prev_loop n x v s = Ok ((0, Some NULL), set_k_con k s))
  ∨ (∃ l1 y u l2, (x, w) :: l = l1 ++ (y, u) :: l2 ∧ place v l1 u l2
     ∧ prev_loop n x v s = Ok ((1, Some y), s)).
Proof.
  intros Hv. revert n p x w. induction l as [|[y u] l IH]; intros n p x w Hd Hs Hl Hnb Hn;
    (destruct n as [|n]; [lia|]); pose proof (not_before_forward _ _ _ _ Hs Hl Hnb) as Hw;
    destruct Hd as (_ & Hx0 & nx & Hx & Hd); cbn [prev_loop]; rewrite (proj2 (Z.eqb_neq x NULL) Hx0);
    mstep (load_vma s x _ Hx); rewrite is_overlapping_exact by done;
    change (overlap (links p nx w) v) with (overlap w v);
    (destruct (decide (overlap w v)) as [Ho|Ho];
      [left; rewrite bool_decide_true by done; destruct (overlap_message s) as [k E]; exists x, w, k;
       split; [by left|]; split; [done|]; split; [done|]; by mstep E|rewrite bool_decide_false by done]);
    (assert (Hb : before w v) by (unfold overlap, before, forward in *; lia));
    cbn [v_next links set_v_prev set_v_next].
  - destruct Hd as [_ ->]. cbn [negb NULL Z.eqb]. change (v_end_addr (links p 0 w)) with (v_end_addr w).
    rewrite (proj2 (Z.leb_le _ _) Hb). right. exists [], x, w, []. split; [done|]. split; [|done].
    split; [done|]. split; [done|]. done.
  - pose proof Hd as (-> & Hy0 & ny & Hy & _). rewrite (proj2 (Z.eqb_neq y NULL) Hy0). cbn [negb].
    mstep (load_vma s y _ Hy). change (v_end_addr (links p y w)) with (v_end_addr w).
    rewrite (proj2 (Z.leb_le _ _) Hb). cbn [andb]. change (v_start_addr (links x ny u)) with (v_start_addr u).
    destruct (Z.leb_spec (v_end_addr v) (v_start_addr u)) as [Hvu|Hvu].
    + right. exists [], x, w, ((y, u) :: l). split; [done|]. split; [|done]. split; [done|]. split; [done|].
      intros z t [= <- <-]. done.
    + destruct (IH n x y u Hd (sorted_tail _ _ _ Hs) (last_ok_tail _ _ _ _ _ _ Hl)) as [H|H].
      * unfold before. lia.
      * cbn in Hn. lia.
      * left. destruct H as (z & t & k & Hin & H). exists z, t, k. split; [by right|done].
      * right. destruct H as (l1 & z & t & l2 & E & H). exists ((x, w) :: l1), z, t, l2. by rewrite E.
Qed.

Lemma sorted_insert x v l1 l2 : sorted_areas (l1 ++ l2) → forward v →
  (∀ y u, last l1 = Some (y, u) → forward u ∧ before u v) → (∀ z t, hd_error l2 = Some (z, t) → before v t) →
  sorted_areas (l1 ++ (x, v) :: l2).
Proof.
  intros Hs Hv. revert Hs. induction l1 as [|[y u] l1 IH]; intros Hs Hl Hh.
  - apply sorted_cons. split; [|done]. destruct l2 as [|[z t] l2]; [by left|]. right. split; [done|].
    exists z, t, l2. split; [done|]. by apply (Hh z t).
  - cbn [app] in *. destruct l1 as [|[y' u'] l1].
    + destruct (Hl y u eq_refl) as [Hf Hb]. apply sorted_cons. split.
      * right. split; [done|]. by exists x, v, l2.
      * apply IH; [|done|done]. by apply sorted_tail in Hs.
    + cbn [app] in *. destruct Hs as (Hf & Hb & Hs). split; [done|]. split; [done|].
      apply IH; [done| |done]. intros z t Hz. apply (Hl z t). by rewrite last_cons, Hz.
Qed.
Lemma all_before v l1 y u l2 : sorted_areas (l1 ++ (y, u) :: l2) → forward u → before u v →
  ∀ z t, (z, t) ∈ l1 ++ [(y, u)] → before t v.
Proof.
  intros Hs Hf Hb. induction l1 as [|[z' t'] l1 IH]; intros z t; cbn [app] in *.
  - by intros [= -> ->]%list_elem_of_singleton.
  - pose proof (sorted_tail _ _ _ Hs) as Hs'. specialize (IH Hs').
    intros [[= -> ->]|Hin]%elem_of_cons; [|by apply (IH z t)].
    destruct l1 as [|[z2 t2] l1]; cbn [app] in *.
    + destruct Hs as (_ & H & _). unfold before, forward in *. lia.
    + destruct Hs as (_ & H & Hs). specialize (IH z2 t2 ltac:(by left)).
      assert (forward t2) by (destruct l1 as [|[? ?] ?]; apply Hs'). unfold before, forward in *. lia.
Qed.
(** At its place the area meets no other. *)
Lemma place_disjoint v l1 y u l2 : sorted_areas (l1 ++ (y, u) :: l2) → forward v → place v l1 u l2 →
  ∀ z t, (z, t) ∈ l1 ++ (y, u) :: l2 → forward t → ¬ overlap t v.
Proof.
  intros Hs Hv (Hf & Hb & Hh) z t. rewrite cons_middle, app_assoc, elem_of_app.
  intros [Hin|Hin] Ht.
  - pose proof (all_before v l1 y u l2 Hs Hf Hb z t Hin). unfold before, overlap in *. lia.
  - destruct l2 as [|[z' t'] l2]; [by apply elem_of_nil in Hin|].
    refine (before_all v l2 z' t' _ (Hh z' t' eq_refl) Hv z t Hin Ht).
    clear -Hs. induction l1 as [|[a b] l1 IH]; [apply Hs|]. apply IH. by apply sorted_tail in Hs.
Qed.

(** The areas after [add_vma], by whether the new one meets another. *)
Definition added (s : kst) (mm : Z) (m : mm_struct) (l : list (Z * vm_map_entry)) (x : Z) (v : vm_map_entry) : Prop :=
  ((∃ y u, (y, u) ∈ l ∧ forward u ∧ overlap u v) ∧ ∃ k, add_vma mm x s = Ok (-1, set_k_con k s))
  ∨ ((∀ y u, (y, u) ∈ l → forward u → ¬ overlap u v)
     ∧ ∃ l1 l2 s' m', l = l1 ++ l2 ∧ add_vma mm x s = Ok (0, s') ∧ areas_are s' mm m' (l1 ++ (x, v) :: l2)
       ∧ sorted_areas (l1 ++ (x, v) :: l2) ∧ only_at s s' (mm :: x :: l.*1) ∧ set_mm_vma 0 m' = set_mm_vma 0 m).

Lemma add_at s mm m l1 l2 x v n : areas_are s mm m (l1 ++ l2) → sorted_areas (l1 ++ l2) →
  k_heap s !! x = Some (OVma v) → x ≠ 0 → x ∉ (l1 ++ l2).*1 → forward v → n ≠ 0 →
  find_vma_prev (mm_vma m) x s = Ok ((n, Some (last_addr l1)), s) →
  (∀ y u, last l1 = Some (y, u) → forward u ∧ before u v) → (∀ z t, hd_error l2 = Some (z, t) → before v t) →
  (∀ y u, (y, u) ∈ l1 ++ l2 → forward u → ¬ overlap u v) → added s mm m (l1 ++ l2) x v.
Proof.
  intros Har Hs Hx Hx0 Hn Hv Hr E H1 H2 H3. right. split; [done|].
  destruct (insert_vma_ok s mm m x v Hx Hx0 l1 l2 Har Hn) as (s' & m' & Ei & Har' & Ho & Em).
  exists l1, l2, s', m'. split; [done|]. split; [|split; [done|split; [by apply sorted_insert|done]]].
  unfold add_vma. mstep (load_some as_mm mm (OMm m) m s (ar_mm _ _ _ _ Har) eq_refl). mstep E.
  cbn [fst snd]. rewrite (proj2 (Z.eqb_neq n 0) Hr). cbn [of_option]. mnorm. by mstep Ei.
Qed.

Lemma add_vma_ok s mm m l x v : areas_are s mm m l → sorted_areas l → k_heap s !! x = Some (OVma v) →
  x ≠ 0 → x ∉ l.*1 → forward v → last_ok v l → added s mm m l x v.
Proof.
  intros Har Hs Hx Hx0 Hn Hv Hl. pose proof Har as [Hm [q Hd] _].
  destruct l as [|[a w] l].
  { destruct Hd as [_ Ha]. apply (add_at s mm m [] [] x v 1); try done; [|by intros ? ? ?%elem_of_nil].
    unfold find_vma_prev. by rewrite Ha. }
  pose proof Hd as (Ea & Ha0 & n & Hw & _). rewrite Ea in *.
  destruct (decide (before v w)) as [Hb|Hb].
  - apply (add_at s mm m [] ((a, w) :: l) x v 1); try done.
    + unfold find_vma_prev. rewrite Ea, (proj2 (Z.eqb_neq a NULL) Ha0). mstep (load_vma s x v Hx).
      mstep (load_vma s a _ Hw). change (v_start_addr (links 0 n w)) with (v_start_addr w).
      by rewrite (proj2 (Z.leb_le _ _) Hb).
    + by intros z t [= <- <-].
    + intros y u Hin Hu. by refine (before_all v l a w Hs Hb Hv y u Hin Hu).
  - assert (Ef : find_vma_prev (mm_vma m) x s = prev_loop (S (size (k_heap s))) a v s).
    { unfold find_vma_prev. rewrite Ea, (proj2 (Z.eqb_neq a NULL) Ha0). mstep (load_vma s x v Hx).
      mstep (load_vma s a _ Hw). change (v_start_addr (links 0 n w)) with (v_start_addr w).
      rewrite (proj2 (Z.leb_gt _ _)) by (unfold before in Hb; lia). done. }
    pose proof (areas_fuel _ _ _ _ Har) as Hfu. cbn in Hfu.
    destruct (prev_loop_ok s v (S (size (k_heap s))) 0 a w l q Hv Hd Hs Hl Hb ltac:(lia))
      as [(y & u & k & Hin & Hu & Ho & E)|(l1 & y & u & l2 & Esp & Hpl & E)].
    + left. split; [by exists y, u|]. exists k. unfold add_vma.
      mstep (load_some as_mm mm (OMm m) m s Hm eq_refl). rewrite <- Ef in E. by mstep E.
    + rewrite Esp in Har, Hs, Hn |- *. rewrite (cons_middle (y, u)), app_assoc in Har, Hs, Hn |- *.
      apply (add_at s mm m _ _ x v 1); try done.
      * rewrite Ef, E. unfold last_addr. by rewrite last_snoc.
      * intros y' u'. rewrite last_snoc. intros [= <- <-]. split; apply Hpl.
      * apply Hpl.
      * rewrite <- app_assoc, <- cons_middle in *. by apply place_disjoint.
Qed.

(** C6: the areas of an address space are a sorted list of disjoint
    intervals, the stack apart.  Adding a nonempty area to a well-linked sorted
    list always returns.  It is refused exactly when it meets an existing area
    that is stored forwards, and then nothing but the screen changes; otherwise
    the list stays doubly linked and sorted and consists of the old areas and
    the new one.  The stack closes the list with its end below its start, and
    is not seen by the test: an area inside its pages that meets no other area
    is accepted. *)
Theorem add_vma_refines s mm m l x v :
  areas_are s mm m l → sorted_areas l → k_heap s !! x = Some (OVma v) → x ≠ 0 → x ∉ l.*1 →
  forward v → last_ok v l →
  added s mm m l x v
  ∧ ∀ l' y u, l = l' ++ [(y, u)] → v_end_addr u ≤ v_start_addr v → v_end_addr v ≤ v_start_addr u →
      (∀ z t, (z, t) ∈ l' → ¬ overlap t v) → ∃ s', add_vma mm x s = Ok (0, s').
Proof.
  intros Har Hs Hx Hx0 Hn Hv Hl. pose proof (add_vma_ok s mm m l x v Har Hs Hx Hx0 Hn Hv Hl) as Ha. split; [done|].
  intros l' y u -> H1 H2 Hno. destruct Ha as [[(z & t & Hin & Ht & Ho) _]|[_ (l1 & l2 & s' & m' & _ & E & _)]]; [exfalso|by exists s'].
  apply elem_of_app in Hin as [Hin|Hin]; [by apply (Hno z t)|].
  apply list_elem_of_singleton in Hin as [= -> ->]. unfold forward in *. lia.
Qed.

(** ** Removing an area *)


Lemma remove_walk s x v l2 q n : ∀ l p a, dseg (k_heap s) p a (l ++ (x, v) :: l2) q 0 → x ∉ l.*1 →
  remove_vma_loop (length l + n) a x s = remove_vma_loop n x x s.
Proof.
  induction l as [|[z u] l IH]; intros p a Hd Hx; cbn [app length plus] in *.
  - by destruct Hd as (-> & _).
  - destruct Hd as (-> & Hz & b & Hh & Hd). cbn [remove_vma_loop]. mstep (load_vma s z _ Hh).
    cbn [v_next links set_v_prev set_v_next].
    assert (Hb : b ≠ 0). { destruct l as [|[z' u'] l]; cbn in Hd; by destruct Hd as (-> & ? & _). }
    rewrite (proj2 (Z.eqb_neq b NULL) Hb). cbn [negb]. cbn in Hx. apply not_elem_of_cons in Hx as [Hxz Hx].
    rewrite (proj2 (Z.eqb_neq z x)) by done. by apply (IH z).
Qed.

(** The links around the removed node, before its neighbours are joined. *)
Lemma remove_at s x v y w l1 l2 a q : dseg (k_heap s) 0 a ((l1 ++ [(y, w)]) ++ (x, v) :: l2) q 0 →
  NoDup (((l1 ++ [(y, w)]) ++ (x, v) :: l2).*1) →
  ∃ s' q', (∀ k, remove_vma_loop (S k) x x s = Ok (tt, s')) ∧ dseg (k_heap s') 0 a ((l1 ++ [(y, w)]) ++ l2) q' 0
    ∧ only_at s s' (x :: y :: l2.*1).
Proof.
  intros Hd Hnd. rewrite !fmap_app in Hnd. cbn in Hnd. apply NoDup_app in Hnd as (N1 & N2 & N3).
  apply NoDup_cons in N3 as [Nx N3]. apply NoDup_app in N1 as (N1 & N4 & _).
  assert (Hyl : y ∉ l1.*1) by (intros Hy; apply (N4 y Hy); by left).
  assert (Hy : y ∈ l1.*1 ++ [y]) by (rewrite elem_of_app; right; by left).
  pose proof (N2 y Hy) as [Hyx Hy2]%not_elem_of_cons.
  assert (Hx1 : x ∉ l1.*1 ++ [y]) by (intros Hx; apply (N2 x Hx); by left).
  apply dseg_app in Hd as (r & c & H1 & -> & Hx0 & n & Hx & H2).
  assert (r = y) as ->. { apply dseg_app in H1 as (? & ? & _ & -> & _ & ? & _ & -> & _). done. }
  destruct (dseg_set_next _ _ _ _ _ _ _ n Hyl H1) as (r & Hw & Hd1).
  set (h1 := <[y := OVma (links r n w)]> (k_heap s)) in *.
  assert (Hk1 : ∀ b, b ≠ y → h1 !! b = k_heap s !! b) by (intros b Hb; unfold h1; by rewrite lookup_insert_ne).
  destruct l2 as [|[z u] l2].
  - destruct H2 as [_ ->]. eexists _, y. split.
    { intros k. cbn [remove_vma_loop]. mstep (load_vma s x _ Hx). cbn [v_next v_prev links set_v_prev set_v_next].
    cbn [NULL Z.eqb negb]. rewrite Z.eqb_refl. cbn [when].
    mstep (update_vma_ok s y _ (set_v_next 0) Hw).
    match goal with |- context [upd_heap ?g s] => change (upd_heap g s) with (set_k_heap h1 s) end.
    rewrite (update_vma_ok (set_k_heap h1 s) x _ (set_v_prev NULL) (eq_trans (Hk1 x ltac:(done)) Hx)).
    reflexivity. }
    rewrite app_nil_r. split.
    + eapply dseg_frame; [exact Hd1|]. intros b Hb. cbn. rewrite lookup_insert_ne; [done|].
      rewrite fmap_app in Hb. by intros ->.
    + eexists. split; [done|]. intros b [? [? _]%not_elem_of_cons]%not_elem_of_cons. cbn.
      rewrite lookup_insert_ne by done. by apply Hk1.
  - pose proof H2 as (-> & Hz0 & _).
    cbn in Nx, Hy2, N3. apply not_elem_of_cons in Nx as [Nxz Nx]. apply not_elem_of_cons in Hy2 as [Hyz Hy2].
    apply NoDup_cons in N3 as [Nz N3].
    assert (H2' : dseg h1 x z ((z, u) :: l2) q 0).
    { eapply dseg_frame; [exact H2|]. intros b Hb. apply Hk1. cbn in Hb. set_solver. }
    destruct (dseg_set_prev h1 x y z u l2 q 0 Nz H2') as (n' & Hz & Hd2).
    eexists _, q. split.
    { intros k. cbn [remove_vma_loop]. mstep (load_vma s x _ Hx). cbn [v_next v_prev links set_v_prev set_v_next].
    rewrite (proj2 (Z.eqb_neq z NULL) Hz0). cbn [negb]. rewrite Z.eqb_refl.
    mstep (update_vma_ok s y _ (set_v_next z) Hw).
    match goal with |- context [upd_heap ?g s] => change (upd_heap g s) with (set_k_heap h1 s) end.
    mstep (load_vma (set_k_heap h1 s) x _ (eq_trans (Hk1 x ltac:(done)) Hx)).
    change (v_next (links y z v)) with z. change (v_prev (links y z v)) with y.
    rewrite (update_vma_ok (set_k_heap h1 s) z _ (set_v_prev y) Hz). reflexivity. }
    split.
    + apply dseg_app. exists y, z. split; [|exact Hd2]. eapply dseg_frame; [exact Hd1|].
      intros b Hb. cbn. rewrite lookup_insert_ne; [done|]. rewrite fmap_app in Hb. intros <-.
      apply (N2 z Hb). right. by left.
    + eexists. split; [done|]. intros b Hb. cbn in Hb. cbn. rewrite lookup_insert_ne by set_solver. apply Hk1. set_solver.
Qed.

(** An area that is not the first is removed.  [remove_vma] takes exactly
    that area out of the list, which stays well linked in both directions. *)
Theorem remove_vma_inner s mm m l1 x v l2 :
  areas_are s mm m (l1 ++ (x, v) :: l2) → l1 ≠ [] →
  ∃ s', remove_vma mm x s = Ok (tt, s') ∧ areas_are s' mm m (l1 ++ l2) ∧ only_at s s' ((l1 ++ (x, v) :: l2).*1).
Proof.
  intros Har Hne. pose proof Har as [Hm [q Hd] Hnd]. pose proof (areas_fuel _ _ _ _ Har) as Hfu.
  destruct l1 as [|[y w] l1 _] using rev_ind; [done|]. clear Hne.
  assert (Hx : x ∉ (l1 ++ [(y, w)]).*1).
  { rewrite fmap_app in Hnd. apply NoDup_app in Hnd as (_ & N2 & _). intros Hx. apply (N2 x Hx). by left. }
  assert (Hax : mm_vma m ≠ x).
  { intros Ea. pose proof Hd as Hd'. rewrite Ea in Hd'. destruct l1 as [|[z u] l1]; cbn in Hd'; destruct Hd' as (-> & _);
      apply Hx; cbn; by left. }
  destruct (remove_at s x v y w l1 l2 (mm_vma m) q Hd Hnd) as (s' & q' & E & Hd' & Ho).
  exists s'. split; [|split].
  - unfold remove_vma. mstep (load_some as_mm mm (OMm m) m s Hm eq_refl). rewrite (proj2 (Z.eqb_neq _ x) Hax).
    unfold fuel. mnorm. rewrite length_app in Hfu. cbn [length] in Hfu.
    replace (S (size (k_heap s))) with (length (l1 ++ [(y, w)]) + S (size (k_heap s) - length (l1 ++ [(y, w)])))%nat by lia.
    rewrite (remove_walk s x v l2 q _ _ _ _ Hd Hx). apply E.
  - constructor; [|by exists q'|].
    + rewrite (only_at_heap _ _ _ mm Ho); [done|]. intros Hin.
      apply (areas_ne _ _ _ _ mm Har); [|done]. rewrite !fmap_app. cbn. set_solver.
    + rewrite !fmap_app in Hnd |- *. cbn in Hnd. apply NoDup_app in Hnd as (N1 & N2 & N3).
      apply NoDup_app. split; [done|]. split; [|by apply NoDup_cons in N3 as [_ ?]].
      intros b Hb Hb2. apply (N2 b Hb). by right.
  - destruct Ho as (h & -> & Ho). exists h. split; [done|]. intros b Hb. apply Ho. rewrite !fmap_app in Hb. cbn in Hb. set_solver.
Qed.

(** The first area is not removed properly.  With one or two areas the
    call dereferences NULL; with more, the area after the next one loses its
    predecessor while the new first area keeps the removed one as its own. *)
Theorem remove_first_area s mm m x v l :
  areas_are s mm m ((x, v) :: l) → k_heap s !! NULL = None →
  match l with
  | (y, w) :: (z, u) :: _ => ∃ s' n, remove_vma mm x s = Ok (tt, s')
      ∧ k_heap s' !! mm = Some (OMm (set_mm_vma y m)) ∧ k_heap s' !! y = Some (OVma (links x z w))
      ∧ k_heap s' !! z = Some (OVma (links NULL n u))
  | _ => remove_vma mm x s = Ub
  end.
Proof.
  intros Har Hnull. pose proof Har as [Hm [q (Ea & Hx0 & n & Hx & Hd)] Hnd].
  assert (Hub : ∀ s', k_heap s' !! NULL = None → load as_vma NULL s' = Ub) by (intros s' H; unfold load; by rewrite H).
  assert (Hne : ∀ b, b ∈ ((x, v) :: l).*1 → b ≠ mm) by (intros b; by apply (areas_ne _ _ _ _ _ Har)).
  assert (Hmm : mm ≠ NULL) by (intros ->; congruence).
  set (s1 := upd_heap <[mm := OMm (set_mm_vma n m)]> s).
  assert (Hs1 : k_heap s1 !! NULL = None) by (cbn; by rewrite lookup_insert_ne).
  assert (E1 : remove_vma mm x s = (w ← load as_vma n; update_vma (v_next w) (set_v_prev NULL)) s1).
  { unfold remove_vma. mstep (load_some as_mm mm (OMm m) m s Hm eq_refl). rewrite Ea, Z.eqb_refl.
    mstep (load_vma s x _ Hx). cbn [v_next links set_v_prev set_v_next].
    mstep (update_ok as_mm OMm mm (OMm m) m (set_mm_vma n) s Hm eq_refl).
    mstep (load_some as_mm mm (OMm (set_mm_vma n m)) (set_mm_vma n m) s1 (lookup_insert_eq (k_heap s) mm _) eq_refl).
    done. }
  rewrite E1. destruct l as [|[y w] l]; [destruct Hd as [_ ->]; apply bind_ub, Hub, Hs1|].
  destruct Hd as (-> & Hy0 & n' & Hy & Hd).
  assert (Hy1 : k_heap s1 !! y = Some (OVma (links x n' w))).
  { cbn. rewrite lookup_insert_ne; [done|]. intros <-. apply (Hne mm); [right; by left|done]. }
  rewrite (bind_ok _ _ _ _ _ (load_vma s1 y _ Hy1)). cbn [v_next links set_v_prev set_v_next].
  destruct l as [|[z u] l]; [destruct Hd as [_ ->]; apply bind_ub, Hub, Hs1|].
  destruct Hd as (-> & Hz0 & n2 & Hz & _). cbn in Hnd. apply NoDup_cons in Hnd as [Nx Hnd].
  apply NoDup_cons in Hnd as [Ny _].
  assert (Hz1 : k_heap s1 !! z = Some (OVma (links y n2 u))).
  { cbn. rewrite lookup_insert_ne; [done|]. intros <-. apply (Hne mm); [do 2 right; by left|done]. }
  exists (upd_heap <[z := OVma (links NULL n2 u)]> s1), n2. split; [by rewrite (update_vma_ok s1 z _ (set_v_prev NULL) Hz1)|].
  assert (z ≠ mm) by (apply Hne; do 2 right; by left).
  split; [cbn; rewrite lookup_insert_ne by done; apply lookup_insert_eq|].
  split; [cbn; rewrite lookup_insert_ne by (intros ->; apply Ny; by left); exact Hy1|]. apply lookup_insert_eq.
Qed.

(** ** The arguments of a new program *)

(** The C string [body] is stored at index [o]. *)
Definition stored (bytes : list Z) (o : nat) (body : list Z) : Prop :=
  ∀ t c, (body ++ [0]) !! t = Some c → bytes !! (o + t)%nat = Some c.

Lemma copy_chars_ok body rest : ∀ bytes k, Forall (λ c, c ≠ 0) body → (k + length body < length bytes)%nat →
  ∃ bytes', copy_chars bytes k (body ++ 0 :: rest) = Some (bytes', k + length body + 1)%nat
    ∧ stored bytes' k body ∧ length bytes' = length bytes ∧ ∀ i, (i < k)%nat → bytes' !! i = bytes !! i.
Proof.
  induction body as [|c body IH]; intros bytes k Hz Hk; cbn [copy_chars app length] in *;
    rewrite (proj2 (Nat.ltb_lt k (length bytes))) by lia.
  - exists (<[k := 0]> bytes). split; [cbn; do 2 f_equal; lia|].
    split; [|split; [apply length_insert|intros i Hi; apply list_lookup_insert_ne; lia]].
    intros [|t] c Hc; [|done]. injection Hc as <-. rewrite Nat.add_0_r. apply list_lookup_insert_eq. lia.
  - apply Forall_cons in Hz as [Hc Hz]. rewrite (proj2 (Z.eqb_neq c 0) Hc).
    destruct (IH (<[k := c]> bytes) (S k) Hz) as (b' & E & Hs & Hl & Hp); [rewrite length_insert; lia|].
    exists b'. rewrite E. split; [do 2 f_equal; lia|]. rewrite length_insert in Hl. split; [|split; [done|]].
    + intros [|t] d; cbn [app lookup list_lookup].
      * intros [= <-]. rewrite Nat.add_0_r, Hp by lia. apply list_lookup_insert_eq. lia.
      * intros Ht. replace (k + S t)%nat with (S k + t)%nat by lia. by apply Hs.
    + intros i Hi. rewrite Hp by lia. apply list_lookup_insert_ne. lia.
Qed.

(** The strings of a program, as byte buffers. *)
Definition c_buffers (bodies : list (list Z)) (strs : list (list Z)) : Prop :=
  Forall2 (λ b s, Forall (λ c, c ≠ 0) b ∧ ∃ rest, s = b ++ 0 :: rest) bodies strs.
Fixpoint room_for (bodies : list (list Z)) : nat :=
  match bodies with [] => 0 | b :: bs => length b + 1 + room_for bs end.

Lemma put_ptr_ok ptrs i v : 0 ≤ i < Z.of_nat (length ptrs) → put_ptr ptrs i v = Some (<[Z.to_nat i := v]> ptrs).
Proof. intros H. unfold put_ptr. by rewrite (proj2 (Z.leb_le 0 i)), (proj2 (Z.ltb_lt i _)) by lia. Qed.

Lemma params_loop_ok bodies strs : c_buffers bodies strs → ∀ (mc : nat) ptrs bytes k,
  (length bodies ≤ mc ≤ length ptrs)%nat → (k + room_for bodies ≤ length bytes)%nat → (length bytes ≤ 4096)%nat →
  ∃ ptrs' bytes' k',
    params_loop strs (Z.of_nat mc) (STACK_START + Z.of_nat k) ptrs bytes k = Some (ptrs', bytes', k')
    ∧ (k' = k + room_for bodies)%nat ∧ length ptrs' = length ptrs ∧ length bytes' = length bytes
    ∧ (∀ j b, bodies !! j = Some b → ∃ o, (k ≤ o ∧ o + length b < k')%nat ∧ stored bytes' o b
         ∧ ptrs' !! (mc - 1 - j)%nat = Some (STACK_START + Z.of_nat o))
    ∧ (∀ i, (i < k)%nat → bytes' !! i = bytes !! i)
    ∧ (∀ i, (i < mc - length bodies ∨ mc ≤ i)%nat → ptrs' !! i = ptrs !! i).
Proof.
  induction 1 as [|b st bodies strs [Hz [rest ->]] _ IH]; intros mc ptrs bytes k Hmc Hk Hl; cbn [params_loop room_for length] in *.
  { exists ptrs, bytes, k. split; [done|]. split; [lia|]. split; [done|]. split; [done|]. split; [|done].
    intros j b. by rewrite lookup_nil. }
  rewrite put_ptr_ok by lia. cbn [mbind option_bind].
  destruct (copy_chars_ok b rest bytes k Hz) as (b1 & E1 & S1 & L1 & P1); [lia|]. rewrite E1. cbn [mbind option_bind].
  set (p1 := <[Z.to_nat (Z.of_nat mc - 1) := STACK_START + Z.of_nat k]> ptrs).
  assert (Eu : u64 (STACK_START + Z.of_nat k + Z.of_nat (k + length b + 1 - k)) = STACK_START + Z.of_nat (k + length b + 1)).
  { rewrite u64_small by (unfold STACK_START; lia). lia. }
  assert (Em : Z.of_nat mc - 1 = Z.of_nat (mc - 1)) by lia. rewrite Eu, Em.
  destruct (IH (mc - 1)%nat p1 b1 (k + length b + 1)%nat) as (p2 & b2 & k2 & E2 & Ek & Lp & Lb & Hj & Hb & Hp).
  { unfold p1. rewrite length_insert. lia. } { lia. } { lia. }
  exists p2, b2, k2. split; [exact E2|]. unfold p1 in Lp. rewrite length_insert in Lp.
  split; [lia|]. split; [done|]. split; [lia|]. split; [|split].
  - intros [|j] b' Hb'; cbn in Hb'.
    + injection Hb' as <-. exists k. split; [lia|]. split.
      * intros t c Hc. rewrite Hb; [by apply S1|]. apply lookup_lt_Some in Hc. rewrite length_app in Hc. cbn in Hc. lia.
      * rewrite Hp by lia. unfold p1. rewrite Em, Nat2Z.id, Nat.sub_0_r. apply list_lookup_insert_eq. lia.
    + destruct (Hj j b' Hb') as (o & Ho & Hs & Hq). exists o. split; [lia|]. split; [done|].
      by replace (mc - 1 - S j)%nat with (mc - 1 - 1 - j)%nat by lia.
  - intros i Hi. rewrite Hb by lia. apply P1. lia.
  - intros i Hi. rewrite Hp by lia. unfold p1. apply list_lookup_insert_ne. lia.
Qed.

Lemma c_buffers_reverse bodies strs : c_buffers bodies strs → c_buffers (reverse bodies) (reverse strs).
Proof. apply Forall2_reverse. Qed.
Lemma room_for_app l1 l2 : room_for (l1 ++ l2) = (room_for l1 + room_for l2)%nat.
Proof. induction l1 as [|b l1 IH]; cbn; [done|]. rewrite IH. lia. Qed.
Lemma room_for_reverse l : room_for (reverse l) = room_for l.
Proof. induction l as [|b l IH]; [done|]. rewrite reverse_cons, room_for_app, IH. cbn. lia. Qed.

(** The user address of index [k] of the frame at [strings]. *)
Lemma user_address strings k : (k < 4096)%nat → 4096 ≤ strings → strings + 4096 ≤ 2 ^ 64 → strings mod 4096 = 0 →
  u64 (page_round_up STACK_START + (strings + Z.of_nat k - page_round_up (strings + Z.of_nat k)))
  = STACK_START + Z.of_nat k.
Proof.
  intros Hk H1 H2 Hal. change (page_round_up STACK_START) with STACK_START.
  unfold page_round_up. rewrite (proj2 (Z.ltb_ge _ _)) by lia. rewrite land_not_fff by lia.
  replace (4096 * ((strings + Z.of_nat k) / 4096)) with strings by (Z.div_mod_to_equations; lia).
  rewrite u64_small by (unfold STACK_START; lia). lia.
Qed.

Lemma copy_params_full bodies strs (mc : nat) strings ptrs bytes k :
  c_buffers bodies strs → (length bodies + 1 ≤ mc ≤ length ptrs)%nat → length bytes = 4096%nat →
  (k + room_for bodies ≤ 4096)%nat → (k < 4096)%nat → 4096 ≤ strings → strings + 4096 ≤ 2 ^ 64 → strings mod 4096 = 0 →
  ∃ ptrs' bytes' k', copy_params strs (Z.of_nat mc) strings ptrs bytes k = Some (ptrs', bytes', k')
    ∧ (k' = k + room_for bodies)%nat ∧ length ptrs' = length ptrs ∧ length bytes' = length bytes
    ∧ ptrs' !! (mc - 1)%nat = Some 0
    ∧ (∀ i b, bodies !! i = Some b → ∃ o, (k ≤ o ∧ o + length b < k')%nat ∧ stored bytes' o b
         ∧ ptrs' !! (mc - 1 - length bodies + i)%nat = Some (STACK_START + Z.of_nat o))
    ∧ (∀ i, (i < k)%nat → bytes' !! i = bytes !! i)
    ∧ (∀ i, (mc ≤ i)%nat → ptrs' !! i = ptrs !! i).
Proof.
  intros Hb Hmc Hl Hk Hk4 Hs Hs' Hal. unfold copy_params.
  rewrite put_ptr_ok by lia. cbn [mbind option_bind].
  replace (Z.of_nat mc - 1) with (Z.of_nat (mc - 1)) by lia. rewrite Nat2Z.id.
  rewrite (user_address strings k) by lia.
  pose proof (c_buffers_reverse _ _ Hb) as Hr.
  destruct (params_loop_ok _ _ Hr (mc - 1)%nat (<[(mc - 1)%nat := 0]> ptrs) bytes k)
    as (p' & b' & k' & E & Ek & Lp & Lb & Hj & Hkeep & Hp); rewrite ?length_reverse, ?room_for_reverse, ?length_insert in *; try lia.
  exists p', b', k'. split; [exact E|]. split; [done|]. split; [done|]. split; [done|]. split; [|split; [|split; [done|]]].
  - rewrite Hp by lia. apply list_lookup_insert_eq. lia.
  - intros i b Hi. pose proof (lookup_lt_Some _ _ _ Hi) as Hlt.
    destruct (Hj (length bodies - S i)%nat b) as (o & Ho & Hst & Hq).
    { rewrite reverse_lookup by lia. rewrite <- Hi. f_equal. lia. }
    exists o. split; [done|]. split; [done|]. rewrite <- Hq. f_equal. lia.
  - intros i Hi. rewrite Hp by lia. apply list_lookup_insert_ne. lia.
Qed.

(** The arguments of a new program.  For strings that fit the frame, the
    copy succeeds and leaves, below index [mc] of the pointer frame, a NULL
    and under it the pointers to the strings in order; each pointer is an
    address of the page at [STACK_START] where its string is stored with its
    terminator, behind the strings that were there before, which stay. *)
Theorem copy_params_ok bodies strs (mc : nat) strings ptrs bytes k :
  c_buffers bodies strs → (length bodies + 1 ≤ mc ≤ length ptrs)%nat → length bytes = 4096%nat →
  (k + room_for bodies ≤ 4096)%nat → (k < 4096)%nat → 4096 ≤ strings → strings + 4096 ≤ 2 ^ 64 → strings mod 4096 = 0 →
  ∃ ptrs' bytes' k', copy_params strs (Z.of_nat mc) strings ptrs bytes k = Some (ptrs', bytes', k')
    ∧ ptrs' !! (mc - 1)%nat = Some 0
    ∧ (∀ i b, bodies !! i = Some b → ∃ o, (k ≤ o ∧ o + length b < k')%nat ∧ stored bytes' o b
         ∧ ptrs' !! (mc - 1 - length bodies + i)%nat = Some (STACK_START + Z.of_nat o))
    ∧ (∀ i, (i < k)%nat → bytes' !! i = bytes !! i)
    ∧ (∀ i, (mc ≤ i)%nat → ptrs' !! i = ptrs !! i).
Proof.
  intros Hb Hmc Hl Hk Hk4 Hs Hs' Hal.
  destruct (copy_params_full bodies strs mc strings ptrs bytes k Hb Hmc Hl Hk Hk4 Hs Hs' Hal) as (p' & b' & k' & H).
  exists p', b', k'. tauto.
Qed.

(** ** A concrete address space

    Areas [0x1000, 0x2000), [0x3000, 0x4000) and [0x6000, 0x7000); two
    further areas that are not in the list. *)

Definition an_area (a b : Z) : vm_map_entry := Vma a b 0 (b - a) 0 PROT_WRITE 0 0 0 (Some do_anon_fault_fn).
Definition area1 : vm_map_entry := an_area 0x1000 0x2000.
Definition area2 : vm_map_entry := an_area 0x3000 0x4000.
Definition area3 : vm_map_entry := an_area 0x6000 0x7000.
Definition demo_areas : list (Z * vm_map_entry) := [(0x20000, area1); (0x30000, area2); (0x40000, area3)].
Definition demo_mm : kst := upd_heap (λ _, list_to_map
  [(0x10000, OMm (Mm 0x20000 0 0 0 0)); (0x20000, OVma (links 0 0x30000 area1));
   (0x30000, OVma (links 0x20000 0x40000 area2)); (0x40000, OVma (links 0x30000 0 area3));
   (0x50000, OVma (an_area 0x4000 0x6000)); (0x60000, OVma (an_area 0x3800 0x5000))]) blank_kst.

Lemma demo_mm_areas : areas_are demo_mm 0x10000 (Mm 0x20000 0 0 0 0) demo_areas.
Proof.
  constructor; [vm_compute; reflexivity| |apply (bool_decide_unpack _); vm_compute; exact I].
  exists 0x40000. repeat (split; [done|]; split; [done|]; eexists; split; [vm_compute; reflexivity|]). done.
Qed.
Lemma demo_sorted : sorted_areas demo_areas.
Proof. cbn. unfold forward, before. cbn. lia. Qed.
Lemma demo_last_ok v : last_ok v demo_areas.
Proof. intros y u [= <- <-]. left. unfold forward. cbn. lia. Qed.

(** A space with its stack, three pages below STACK_START, and an area in the
    middle one of them. *)
Definition stack_area : vm_map_entry := an_area STACK_START (STACK_START - 3 * PAGE_BLOCK_SIZE).
Definition in_stack : vm_map_entry := an_area (STACK_START - 2 * PAGE_BLOCK_SIZE) (STACK_START - PAGE_BLOCK_SIZE).
Definition stack_mm : kst := upd_heap (λ _, list_to_map
  [(0x10000, OMm (Mm 0x20000 0 0 0 0)); (0x20000, OVma (links 0 0x30000 area1));
   (0x30000, OVma (links 0x20000 0 stack_area)); (0x50000, OVma in_stack)]) blank_kst.
Lemma stack_mm_areas : areas_are stack_mm 0x10000 (Mm 0x20000 0 0 0 0) [(0x20000, area1); (0x30000, stack_area)].
Proof.
  constructor; [vm_compute; reflexivity| |apply (bool_decide_unpack _); vm_compute; exact I].
  exists 0x30000. repeat (split; [done|]; split; [done|]; eexists; split; [vm_compute; reflexivity|]). done.
Qed.

Lemma add_vma_refines_witness :
  (∃ s', add_vma 0x10000 0x50000 demo_mm = Ok (0, s')) ∧ (∃ s', add_vma 0x10000 0x60000 demo_mm = Ok (-1, s'))
  ∧ ∃ s', add_vma 0x10000 0x50000 stack_mm = Ok (0, s').
Proof.
  split; [|split].
  - destruct (add_vma_refines demo_mm 0x10000 (Mm 0x20000 0 0 0 0) demo_areas 0x50000 (an_area 0x4000 0x6000)
      demo_mm_areas demo_sorted) as [[[(y & u & Hin & Hf & Ho) _]|[_ (l1 & l2 & s' & m' & _ & E & _)]] _].
    + vm_compute. reflexivity.
    + done.
    + apply (bool_decide_unpack _). vm_compute. exact I.
    + done.
    + apply demo_last_ok.
    + exfalso. unfold demo_areas in Hin. rewrite !elem_of_cons in Hin.
      destruct Hin as [[= -> ->]|[[= -> ->]|[[= -> ->]|Hin]]]; [unfold overlap in Ho; cbn in Ho; lia..|].
      by apply elem_of_nil in Hin.
    + exists s'. exact E.
  - destruct (add_vma_refines demo_mm 0x10000 (Mm 0x20000 0 0 0 0) demo_areas 0x60000 (an_area 0x3800 0x5000)
      demo_mm_areas demo_sorted) as [[[_ (k & E)]|[H _]] _].
    + vm_compute. reflexivity.
    + done.
    + apply (bool_decide_unpack _). vm_compute. exact I.
    + done.
    + apply demo_last_ok.
    + exists (set_k_con k demo_mm). exact E.
    + exfalso. apply (H 0x30000 area2); [apply list_elem_of_lookup; by exists 1%nat|done|done].
  - destruct (add_vma_refines stack_mm 0x10000 (Mm 0x20000 0 0 0 0) [(0x20000, area1); (0x30000, stack_area)] 0x50000 in_stack
      stack_mm_areas) as [_ H].
    + vm_compute. repeat split. discriminate.
    + vm_compute. reflexivity.
    + done.
    + apply (bool_decide_unpack _). vm_compute. exact I.
    + vm_compute. reflexivity.
    + intros y u [= <- <-]. right. vm_compute. discriminate.
    + apply (H [(0x20000, area1)] 0x30000 stack_area eq_refl); [vm_compute; discriminate..|].
      intros z t [= -> ->]%list_elem_of_singleton [_ Ho]. revert Ho. vm_compute. discriminate.
Defined.

Lemma remove_vma_inner_witness :
  ∃ s', remove_vma 0x10000 0x30000 demo_mm = Ok (tt, s')
    ∧ areas_are s' 0x10000 (Mm 0x20000 0 0 0 0) [(0x20000, area1); (0x40000, area3)].
Proof.
  destruct (remove_vma_inner demo_mm 0x10000 (Mm 0x20000 0 0 0 0) [(0x20000, area1)] 0x30000 area2 [(0x40000, area3)]
    demo_mm_areas ltac:(done)) as (s' & E & H & _).
  exists s'. exact (conj E H).
Defined.

Lemma remove_first_area_witness :
  ∃ s' n, remove_vma 0x10000 0x20000 demo_mm = Ok (tt, s') ∧ k_heap s' !! 0x40000 = Some (OVma (links NULL n area3)).
Proof.
  destruct (remove_first_area demo_mm 0x10000 (Mm 0x20000 0 0 0 0) 0x20000 area1 [(0x30000, area2); (0x40000, area3)]
    demo_mm_areas eq_refl) as (s' & n & E & _ & _ & H).
  exists s', n. exact (conj E H).
Defined.

Lemma copy_params_ok_witness :
  ∃ ptrs' bytes' k', copy_params [bytes_of_string "ls" ++ [0]; bytes_of_string "-l" ++ [0]] 512 (kv 0x5000)
      zero_table zero_bytes 0 = Some (ptrs', bytes', k') ∧ ptrs' !! 511%nat = Some 0.
Proof.
  destruct (copy_params_ok [bytes_of_string "ls"; bytes_of_string "-l"]
    [bytes_of_string "ls" ++ [0]; bytes_of_string "-l" ++ [0]] 512 (kv 0x5000) zero_table zero_bytes 0)
    as (p & b & k & E & H & _).
  - constructor; [|constructor; [|constructor]]; (split; [repeat constructor; done|by exists []]).
  - split; apply Nat.leb_le; vm_compute; reflexivity.
  - vm_compute. reflexivity.
  - apply Nat.leb_le. vm_compute. reflexivity.
  - apply Nat.ltb_lt. vm_compute. reflexivity.
  - apply Z.leb_le. vm_compute. reflexivity.
  - apply Z.leb_le. vm_compute. reflexivity.
  - vm_compute. reflexivity.
  - exists p, b, k. exact (conj E H).
Defined.
