(* ===== verification/Process.v ===== *)
(** * Processes (sys/process.c, sys/pit.c)

    Creation, termination and collection of processes: [fork] with its copies
    of descriptors, areas, page tables and kernel stack, [exit], [wait] and
    the timer interrupt.  A kernel stack is one frame of 512 words; the saved
    user registers ([struct reg_list], 21 words) are at its top. *)

From S2P Require Export Scheduler Vma.

(** ** Words of a kernel stack *)

Definition word_get (a : Z) : M kst Z :=
  t ← load as_table (a - a mod 4096); of_option (t !! Z.to_nat (a mod 4096 / 8)).
Definition word_set (a v : Z) : M kst unit :=
  t ← load as_table (a - a mod 4096);
  if (Z.to_nat (a mod 4096 / 8) <? length t)%nat
  then store (a - a mod 4096) (OTable (<[Z.to_nat (a mod 4096 / 8) := v]> t)) else ub.
Fixpoint words_get (n : nat) (a : Z) : M kst (list Z) :=
  match n with O => mret [] | S n' => v ← word_get a; vs ← words_get n' (a + 8); mret (v :: vs) end.
Fixpoint words_set (a : Z) (vs : list Z) : M kst unit :=
  match vs with [] => mret tt | v :: vs' => word_set a v;; words_set (a + 8) vs' end.

(** The fields of [struct reg_list] that are used, and its size in words. *)
Definition REG_WORDS : nat := 21.
Definition REG_SIZE : Z := 168.
Definition reg_rax (regs : Z) : Z := regs + 80.
Definition reg_rip (regs : Z) : Z := regs + 128.
Definition reg_cs (regs : Z) : Z := regs + 136.
Definition reg_rflags (regs : Z) : Z := regs + 144.
Definition reg_sp (regs : Z) : Z := regs + 152.
Definition reg_ss (regs : Z) : Z := regs + 160.

Definition task_reg_list (task : Z) : M kst Z := c ← load as_pcb task; mret (u64 (p_esp0 c - REG_SIZE)).
Definition start_thread (regs user_rsp user_rip : Z) : M kst unit :=
  word_set (reg_rip regs) user_rip;;
  word_set (reg_sp regs) user_rsp;;
  word_set (reg_cs regs) 0x2B;;
  word_set (reg_ss regs) 0x23;;
  word_set (reg_rflags regs) (Z.shiftl 1 9).

(** ** Fork *)

Definition CLONE_VM : Z := 0x100.
Definition CLONE_FS : Z := 0x200.
Definition SIGCHLD : Z := 17.
Definition copy_flags : Z := Z.lor PTE_PRESENT PTE_USERSUPERVISOR.

Definition increment_refcount_of_file (filp : Z) : M kst unit :=
  update_file filp (λ f, set_f_refcount (u64 (f_refcount f + 1)) f).

(** [last_vma] is the copy of the area before; NULL stands for the first
    round. *)
Fixpoint dup_loop (n : nat) (mm old_vma last_vma : Z) : M kst unit :=
  match n with
  | O => timeout
  | S n' =>
      if old_vma =? NULL then mret tt else
      a ← phys_mem_alloc;
      let tmp := kv a in
      v ← load as_vma old_vma;
      store tmp (OVma (set_v_next NULL v));;
      (if last_vma =? NULL then
         update_vma tmp (set_v_prev NULL);;
         update_mm mm (set_mm_vma tmp)
       else
         update_vma tmp (set_v_prev last_vma);;
         update_vma last_vma (set_v_next tmp));;
      nx ← vma_next old_vma;
      dup_loop n' mm nx tmp
  end.
Definition dup_mm (mm old_mm : Z) : M kst unit :=
  m ← load as_mm old_mm;
  n ← fuel;
  dup_loop n mm (mm_vma m) NULL.

Definition copy_mm (clone_flags child parent : Z) : M kst unit :=
  c ← load as_pcb parent;
  let old_mm := p_mm c in
  if old_mm =? NULL then mret tt else
  if negb (Z.land clone_flags CLONE_VM =? 0) then update_pcb child (set_p_mm old_mm) else
  a ← phys_mem_alloc;
  let mm := kv a in
  m ← load as_mm old_mm;
  store mm (OMm m);;
  increment_refcount_of_file (mm_file m);;
  dup_mm mm old_mm;;
  update_pcb child (set_p_mm mm).

(** An area whose end is below its start is read backwards. *)
Definition area_bounds (v : vm_map_entry) : Z * Z :=
  if v_end_addr v <? v_start_addr v then (v_end_addr v, v_start_addr v) else (v_start_addr v, v_end_addr v).

(** [for(i = start; i < end; i += 4096)]: [true] continues, [false] leaves the
    function. *)
Fixpoint page_loop (n : nat) (f : Z → M kst bool) (i vm_end : Z) : M kst bool :=
  match n with
  | O => timeout
  | S n' =>
      if i <? vm_end then go ← f i; if go : bool then page_loop n' f (u64 (i + 4096)) vm_end else mret false
      else mret true
  end.
Definition pages_of (f : Z → M kst bool) (v : vm_map_entry) : M kst bool :=
  let '(a, b) := area_bounds v in page_loop (Z.to_nat ((b - a) / 4096 + 2)) f a b.
Fixpoint areas_loop (n : nat) (f : Z → M kst bool) (vm : Z) : M kst bool :=
  match n with
  | O => timeout
  | S n' =>
      if vm =? NULL then mret true else
      v ← load as_vma vm;
      go ← pages_of f v;
      if go : bool then nx ← vma_next vm; areas_loop n' f nx else mret false
  end.

Definition copy_vm (child parent : Z) : M kst Z :=
  pc ← load as_pcb parent;
  pm ← load as_mm (p_mm pc);
  cc ← load as_pcb child;
  let child_mm := p_mm cc in
  pml4 ← get_pml4;
  cr3 ← copy_page_tables pml4 4;
  update_mm child_mm (set_mm_cr3 cr3);;
  n ← fuel;
  ok ← areas_loop n (λ i,
    err ← change_flags_in_parent_page_tables i (mm_cr3 pm) copy_flags;
    if err <? 0 then
      kprintf (line "Problems where changing flags in parent page tables") [];; mret false
    else mret true) (mm_vma pm);
  if negb ok then mret (-1) else
  pm ← load as_mm (p_mm pc);
  n ← fuel;
  areas_loop n (λ i,
    phys_addr ← walk_pml4 (mm_cr3 pm) i;
    if (phys_addr =? u64 (-1)) || (phys_addr =? 0) then mret true else
    cm ← load as_mm child_mm;
    map_virtual_address_to_physical_address i phys_addr copy_flags (mm_cr3 cm) 0;;
    increment_reference_count_of_page phys_addr;;
    mret true) (mm_vma pm);;
  mret 0.

(** [fork_frame] is 7 words ([struct inactive_process_frame]: r15, r14, r13,
    r12, rbx, rbp and the return address) below the saved registers;
    [ret_from_fork] is the address of the assembly routine. *)
Definition user_registers (childregs fork_frame parent stack_start : Z) : M kst unit :=
  word_set (fork_frame + 32) 0;;
  pregs ← task_reg_list parent;
  regs ← words_get REG_WORDS pregs;
  words_set childregs regs;;
  word_set (reg_rax childregs) 0;;
  when (negb (stack_start =? 0)) (word_set (reg_sp childregs) stack_start).
Definition copy_thread (ret_from_fork child parent stack_start stack_size : Z) : M kst unit :=
  a ← phys_mem_alloc;
  s ← get;
  let kstack := if negb (k_is_paging s =? 0) then kv a else a in
  update_pcb child (set_p_kstack kstack);;
  memset_frame kstack (OTable zero_table);;
  pc ← load as_pcb parent;
  t ← load as_table (p_kstack pc);
  if negb (length t =? 512)%nat then ub else
  store kstack (OTable t);;
  update_pcb child (set_p_esp0 (u64 (kstack + PAGE_BLOCK_SIZE)));;
  childregs ← task_reg_list child;
  let fork_frame := u64 (childregs - 56) in
  word_set (fork_frame + 48) ret_from_fork;;
  update_pcb child (set_p_rsp fork_frame);;
  c ← load as_pcb child;
  if decide (p_flags c = PF_KTHREAD) then
    words_set childregs (replicate REG_WORDS 0);;
    modify (upd_heap (alter zero_first_byte (kstack + PAGE_BLOCK_SIZE)));;
    word_set (fork_frame + 32) stack_start;;
    word_set (fork_frame + 24) stack_size
  else
    user_registers childregs fork_frame parent stack_start.

(** The descriptors up to the first that is not open. *)
Fixpoint fd_prefix (fds : list Z) : list Z :=
  match fds with [] => [] | f :: fds' => if f =? NULL then [] else f :: fd_prefix fds' end.
(** [while(parent->cptr != NULL) parent->cptr = parent->cptr->next]. *)
Fixpoint skip_children (n : nat) (parent : Z) : M kst unit :=
  match n with
  | O => timeout
  | S n' =>
      c ← load as_pcb parent;
      if p_cptr c =? NULL then mret tt else
      nx ← node_next (p_cptr c);
      update_pcb parent (set_p_cptr nx);;
      skip_children n' parent
  end.
Definition new_only_child (parent child : Z) : M kst unit :=
  a ← phys_mem_alloc;
  update_pcb parent (set_p_cptr (kv a));;
  store (kv a) (OProcList (ProcList child NULL)).
Definition add_child (parent child : Z) : M kst unit :=
  c ← load as_pcb parent;
  if p_cptr c =? NULL then new_only_child parent child
  else n ← fuel; skip_children n parent;; new_only_child parent child.

(** A zeroed frame for a string. *)
Definition new_string_page : M kst Z :=
  a ← phys_mem_alloc;
  memset_frame (kv a) (OBytes zero_bytes);;
  mret (kv a).
(** [my_memcpy(dst, src, my_strlen(src) + extra)]. *)
Definition copy_string (dst src extra : Z) : M kst unit :=
  b ← load as_bytes src;
  n ← of_option (my_strlen b);
  d ← load as_bytes dst;
  r ← of_option (my_memcpy d b (n + extra));
  store dst (OBytes r).
Definition copy_names (clone_flags child parent : Z) : M kst unit :=
  cc ← load as_pcb child;
  when (p_command cc =? NULL) (a ← new_string_page; update_pcb child (set_p_command a));;
  cc ← load as_pcb child;
  pc ← load as_pcb parent;
  copy_string (p_command cc) (p_command pc) 1;;
  when (p_cwd cc =? NULL) (a ← new_string_page; update_pcb child (set_p_cwd a));;
  cc ← load as_pcb child;
  pc ← load as_pcb parent;
  if negb (Z.land clone_flags CLONE_FS =? 0) then
    d ← load as_bytes (p_cwd cc);
    r ← of_option (my_memcpy d [chr "/"; 0] 1);
    store (p_cwd cc) (OBytes r)
  else copy_string (p_cwd cc) (p_cwd pc) 0.

Definition do_fork (ret_from_fork clone_flags stack_start stack_size : Z) : M kst Z :=
  a ← phys_mem_alloc;
  s ← get;
  let child := if negb (k_is_paging s =? 0) then kv a else a in
  memset_frame child (OPcb zero_pcb);;
  parent ← get_current_process;
  update_pcb child (λ c, set_p_on_rq 0 (set_p_process_state NEW c));;
  pc ← load as_pcb parent;
  let fds := fd_prefix (take (Z.to_nat MAX_FD) (p_fd pc)) in
  update_pcb child (λ c, set_p_fd (fds ++ drop (length fds) (p_fd c)) c);;
  add_child parent child;;
  update_pcb child (λ c, set_p_time_slice TIME_SLICE (set_p_pptr parent c));;
  copy_names clone_flags child parent;;
  copy_mm clone_flags child parent;;
  err ← (if Z.land clone_flags CLONE_VM =? 0 then copy_vm child parent else mret 0);
  if err <? 0 then mret (-1) else
  update_pcb child (set_p_flags (if negb (Z.land clone_flags CLONE_VM =? 0) then PF_KTHREAD else PF_UTHREAD));;
  copy_thread ret_from_fork child parent stack_start stack_size;;
  update_pcb child (λ c, set_p_thread_state RUNNING (set_p_process_state NORMAL c));;
  pid ← get_pid;
  update_pcb child (set_p_pid pid);;
  err ← insert_allproc child;
  if i32 err <? 0 then mret (-1) else
  add_process_to_queue RunQ child;;
  update_pcb child (set_p_on_rq 1);;
  pid_of child.
Definition sys_fork (ret_from_fork : Z) : M kst Z := do_fork ret_from_fork SIGCHLD 0 0.

(** ** The address space and arguments of a program *)

Definition mm_init (curr : Z) : M kst unit :=
  a ← phys_mem_alloc;
  let mm := kv a in
  memset_frame mm (OMm zero_mm);;
  update_mm mm (set_mm_exec 0);;
  pml4 ← get_pml4;
  cr3 ← copy_page_tables pml4 4;
  update_mm mm (set_mm_cr3 cr3);;
  if mm =? NULL then phys_mem_free mm else
  update_pcb curr (set_p_mm mm).

(** The number of pointers before the NULL that ends the array. *)
Fixpoint count (argv : list Z) : option Z :=
  match argv with
  | [] => None
  | a :: argv' => if a =? NULL then Some 0 else n ← count argv'; Some (n + 1)
  end.

(** The frame is not cleared and the terminator is not copied; [junk] is what
    the frame held. *)
Definition getname (junk filename : list Z) : M kst Z :=
  a ← phys_mem_alloc;
  n ← of_option (my_strlen filename);
  r ← of_option (my_memcpy junk filename n);
  store (kv a) (OBytes r);;
  mret (kv a).

(** ** Exit *)

(** What a system call or interrupt handler does that may call [schedule]: it
    returns, or another process runs from the given stack pointer on. *)
Inductive outcome (A : Type) : Type :=
| Returned (a : A)
| Switched (rsp : Z).
Arguments Returned {A} a.
Arguments Switched {A} rsp.

(** [schedule()] called by [me]; it returns at once when [me] stays current. *)
Definition schedule_from (me rsp : Z) : M kst (outcome unit) :=
  r ← schedule rsp;
  cur ← get_current_process;
  mret (if cur =? me then Returned tt else Switched r).

Definition exit_notify (process : Z) : M kst unit :=
  c ← load as_pcb process;
  when (negb (p_pptr c =? NULL)) (try_to_wake_up WaitingQ (p_pptr c)).

(** [fd] is the table of the process [curr]. *)
Fixpoint exit_files_loop (n : nat) (curr i : Z) : M kst Z :=
  match n with
  | O => ub
  | S n' =>
      c ← load as_pcb curr;
      fp ← fd_at c i;
      if fp =? NULL then mret 1 else
      f ← load as_file fp;
      when (f_refcount f <=? 0) (sys_close i;; install_fd curr i NULL);;
      exit_files_loop n' curr (i + 1)
  end.
Definition exit_files (curr : Z) : M kst Z := exit_files_loop (S FD_MAX) curr 0.

Definition exit_vmmaps (process mm : Z) : M kst Z :=
  m ← load as_mm mm;
  free_vmas mm (mm_vma m);;
  update_mm mm (set_mm_vma NULL);;
  m ← load as_mm mm;
  free_page_range 4 (mm_cr3 m);;
  mret 1.

Fixpoint reparent_loop (n : nat) (childlist : Z) : M kst unit :=
  match n with
  | O => timeout
  | S n' =>
      if childlist =? NULL then mret tt else
      p ← node_process childlist;
      reparent_process_to_init p;;
      nx ← node_next childlist;
      reparent_loop n' nx
  end.
Fixpoint bury_loop (n : nat) (temp current_process : Z) : M kst unit :=
  match n with
  | O => timeout
  | S n' =>
      if temp =? NULL then mret tt else
      p ← node_process temp;
      i ← pid_of p;
      j ← pid_of current_process;
      when (i =? j) (delete_from_allproc current_process;; insert_zombproc current_process;; mret tt);;
      nx ← node_next temp;
      bury_loop n' nx current_process
  end.

Definition sys_exit (status rsp : Z) : M kst (outcome unit) :=
  current_process ← get_current_process;
  c ← load as_pcb current_process;
  if p_pid c =? 0 then kprintf (line "Attempt to kill idle task") [];; mret (Returned tt) else
  n ← fuel;
  reparent_loop n (p_cptr c);;
  exit_files current_process;;
  c ← load as_pcb current_process;
  err ← exit_vmmaps current_process (p_mm c);
  if err <? 0 then mret (Returned tt) else
  n ← fuel;
  h ← gets (λ s, allproc (k_proc s));
  bury_loop n h current_process;;
  update_pcb current_process (λ c, set_p_thread_state STOPPED (set_p_process_state ZOMBIE
    (set_p_process_exit_status status c)));;
  exit_notify current_process;;
  schedule_from current_process rsp.

(** ** Wait *)

(** One pass over the child list: the pid and the status of a child that was
    collected; a collected process whose pid is 0 counts as none. *)
Fixpoint wait_pass (n : nat) (proc child_list : Z) : M kst (option (Z * Z)) :=
  match n with
  | O => timeout
  | S n' =>
      child ← node_process child_list;
      retval ← do_wait_thread child;
      if negb (retval =? 0) then
        update_pcb proc (λ c, set_p_thread_state RUNNING (set_p_process_state NORMAL c));;
        c ← load as_pcb child;
        kprintf (line "successful exit with retval: %d") [KInt retval];;
        mret (Some (retval, p_process_exit_status c))
      else
        nx ← node_next child_list;
        if nx =? NULL then mret None else wait_pass n' proc nx
  end.
(** From the label [repeat] on; it is also where the process goes on when it
    is scheduled again. *)
Fixpoint wait_repeat (n : nat) (proc rsp : Z) : M kst (outcome (Z * option Z)) :=
  match n with
  | O => timeout
  | S n' =>
      c ← load as_pcb proc;
      k ← fuel;
      r ← wait_pass k proc (p_cptr c);
      match r with
      | Some (retval, status) => mret (Returned (retval, Some status))
      | None =>
          o ← schedule_from proc rsp;
          match o with Returned _ => wait_repeat n' proc rsp | Switched r => mret (Switched r) end
      end
  end.
(** The value returned and the word stored at [status]. *)
Definition sys_wait (n : nat) (rsp : Z) : M kst (outcome (Z * option Z)) :=
  proc ← get_current_process;
  c ← load as_pcb proc;
  if p_cptr c =? NULL then mret (Returned (-1, None)) else
  update_pcb proc (λ c, set_p_thread_state WAITING (set_p_process_state NORMAL c));;
  wait_repeat n proc rsp.

(** ** The timer interrupt *)

Definition i86_pit_irq (hw : hardware) (rsp : Z) : M kst (outcome unit) :=
  i86_set_mask hw 1;;
  i86_pic_send_eoi_command 0;;
  n ← fuel;
  process ← q_head SleepingQ;
  sleep_loop n process;;
  current ← get_current_process;
  c ← load as_pcb current;
  o ← (if negb (p_is_sigkill_pending c =? 0) then
         update_pcb current (set_p_is_sigkill_pending 0);; sys_exit 9 rsp
       else if negb (p_is_sigsegv_pending c =? 0) then
         update_pcb current (set_p_is_sigsegv_pending 0);; sys_exit 11 rsp
       else mret (Returned tt));
  match o with
  | Switched r => mret (Switched r)
  | Returned _ =>
      update_pcb current (λ c, set_p_time_slice (u64 (p_time_slice c - 1)) c);;
      c ← load as_pcb current;
      o ← (if p_time_slice c <=? 0 then schedule_from current rsp else mret (Returned tt));
      match o with
      | Switched r => mret (Switched r)
      | Returned _ => i86_clear_mask hw 1;; mret (Returned tt)
      end
  end.

(** ** The process listing *)

(** A fresh frame with the digits and their terminator. *)
Definition itoa (i : Z) : M kst Z :=
  a ← phys_mem_alloc;
  cs ← of_option (itoa_chars i);
  store (kv a) (OBytes (cs ++ [0]));;
  mret (kv a).
(** [my_memcpy(buf + off, str, my_strlen(str) + 1)], with [mem] the memory
    from [buf] on. *)
Definition put_string (mem : list Z) (off str : Z) : M kst (list Z) :=
  b ← load as_bytes str;
  n ← of_option (my_strlen b);
  r ← of_option (my_memcpy (drop (Z.to_nat off) mem) b (n + 1));
  mret (take (Z.to_nat off) mem ++ r).
Definition list_process (process : Z) (mem : list Z) (n_written : Z) : M kst (list Z) :=
  c ← load as_pcb process;
  p_info ← itoa (p_pid c);
  mem ← put_string mem n_written p_info;
  c ← load as_pcb process;
  ppid ← pid_of (p_pptr c);
  p_info ← itoa ppid;
  mem ← put_string mem (n_written + 6) p_info;
  c ← load as_pcb process;
  put_string mem (n_written + 12) (p_command c).
(** [false] when the buffer is full. *)
Fixpoint list_processes (n : nat) (node size : Z) (mem : list Z) (n_written : Z)
    : M kst (bool * list Z * Z) :=
  match n with
  | O => timeout
  | S n' =>
      if node =? NULL then mret (true, mem, n_written) else
      process ← node_process node;
      if process =? NULL then mret (true, mem, n_written) else
      if size <? n_written then
        kprintf (line "size is full") [];; mret (false, mem, n_written)
      else
        mem ← list_process process mem n_written;
        nx ← node_next node;
        list_processes n' nx size mem (n_written + 32)
  end.
(** The test before the second list reads [zombproc_head->process] when
    [zombproc_head] is NULL. *)
Definition sys_getprocs64 (buf size : Z) (mem : list Z) : M kst (Z * list Z) :=
  mem ← of_option (my_memset mem 0 size);
  curr ← get_current_process;
  c ← load as_pcb curr;
  ok ← is_userspace_access_valid (p_mm c) buf size VERIFY_WRITE;
  if ok =? 0 then mret (-1, mem) else
  s ← get;
  let zombproc_head := zombproc (k_proc s) in
  n ← fuel;
  '(go, mem, n_written) ← list_processes n (allproc (k_proc s)) size mem 0;
  if negb go then mret (i32 size, mem) else
  stop ← (if zombproc_head =? NULL then p ← node_process zombproc_head; mret (p =? NULL) else mret false);
  if stop : bool then mret (n_written, mem) else
  n ← fuel;
  '(go, mem, n_written) ← list_processes n zombproc_head size mem n_written;
  mret (if negb go then i32 size else n_written, mem).

(** ** Copying the areas of a parent *)

(** The areas of [l] on the frames from number [k] on. *)
Fixpoint copies (base k : Z) (l : list (Z * vm_map_entry)) : list (Z * vm_map_entry) :=
  match l with [] => [] | (_, v) :: l' => (kv (frame_at base k), v) :: copies base (k + 1) l' end.

Lemma length_copies base k l : length (copies base k l) = length l.
Proof. revert k. induction l as [|[x v] l IH]; intros k; [done|]. cbn. by rewrite IH. Qed.
Lemma copies_contents base k l : (copies base k l).*2 = l.*2.
Proof. revert k. induction l as [|[x v] l IH]; intros k; [done|]. cbn. by rewrite IH. Qed.
Lemma copies_addr base k l a : a ∈ (copies base k l).*1 →
  ∃ j, k ≤ j < k + Z.of_nat (length l) ∧ a = kv (frame_at base j).
Proof.
  revert k. induction l as [|[x v] l IH]; intros k; cbn; [by intros ?%elem_of_nil|].
  intros [->|H]%elem_of_cons; [exists k; lia|]. apply IH in H as (j & ? & ->). exists j. split; [lia|done].
Qed.

Lemma last_addr_snoc d y w : last_addr (d ++ [(y, w)]) = y.
Proof. unfold last_addr. by rewrite last_snoc. Qed.
Lemma last_addr_app d l : l ≠ [] → last_addr (d ++ l) = last_addr l.
Proof.
  intros Hl. destruct l as [|[x v] l _] using rev_ind; [done|]. by rewrite app_assoc, !last_addr_snoc.
Qed.

Section dup.
Context (base : Z).
Implicit Types (s : kst) (k : Z).

(** Nothing is stored at the next frame. *)
Lemma fresh_none k s : frontier base k s → k_heap s !! kv (frame_at base k) = None.
Proof. intros H. pose proof (fr_range _ _ _ H). apply (fr_clean _ _ _ H). lia. Qed.
Lemma fresh_ne k s a o : frontier base k s → k_heap s !! a = Some o → a ≠ kv (frame_at base k).
Proof. intros H Ha ->. by rewrite (fresh_none _ _ H) in Ha. Qed.
Lemma fresh_nonnull k s : frontier base k s → kv (frame_at base k) ≠ 0.
Proof.
  intros H. pose proof (frame_range _ _ _ k H (fr_range _ _ _ H)) as [? _].
  pose proof (kv_ge (frame_at base k) ltac:(lia)). unfold KERNBASE in *. lia.
Qed.

(** A frame is taken and written, and the rest of the store only changes where
    something was. *)
Lemma frontier_new k s s1 h' : frontier base k s → frontier base (k + 1) s1 → n_frames s1 = n_frames s →
  (∀ a, a ≠ kv (frame_at base k) → k_heap s !! a = None → h' !! a = None) →
  frontier base (k + 1) (set_k_heap h' s1).
Proof.
  intros H H1 Hn Hh. apply (frontier_heap base (k + 1) s1 (λ _, h') H1). intros j Hj.
  pose proof (fr_range _ _ _ H). apply Hh; [|apply (fr_clean _ _ _ H); lia].
  intros Ej. apply (frame_inj _ _ _ _ _ H1) in Ej; lia.
Qed.

(** One area after the first. *)
Lemma dup_round n mm k s x y p nx r v w :
  frontier base k s → k < n_frames s → x ≠ 0 → y ≠ 0 → x ≠ y →
  k_heap s !! x = Some (OVma (links p nx v)) → k_heap s !! y = Some (OVma (links r 0 w)) →
  ∃ s', dup_loop (S n) mm x y s = dup_loop n mm nx (kv (frame_at base k)) s'
    ∧ k_heap s' = <[y := OVma (links r (kv (frame_at base k)) w)]>
                  (<[kv (frame_at base k) := OVma (links y 0 v)]> (k_heap s))
    ∧ frontier base (k + 1) s' ∧ n_frames s' = n_frames s.
Proof.
  intros Hf Hk Hx Hy Hxy Hxs Hys. destruct (alloc_frontier base k s Hf Hk) as (s1 & E & Hf1 & Hh & Hn & _).
  pose proof (fresh_ne _ _ _ _ Hf Hxs) as Hxf. pose proof (fresh_ne _ _ _ _ Hf Hys) as Hyf.
  set (F := kv (frame_at base k)) in *. rewrite <- Hh in Hxs, Hys.
  cbn [dup_loop]. rewrite (proj2 (Z.eqb_neq x NULL) Hx), (proj2 (Z.eqb_neq y NULL) Hy).
  mstep E. fold F. mstep (load_vma _ _ _ Hxs).
  mstep (eq_refl : store F (OVma (links p 0 v)) s1 = Ok (tt, upd_heap <[F := OVma (links p 0 v)]> s1)).
  set (s2 := upd_heap <[F := OVma (links p 0 v)]> s1). rewrite bind_assoc.
  mstep (update_vma_ok s2 F _ (set_v_prev y) (lookup_insert_eq (k_heap s1) F _)).
  set (s3 := upd_heap <[F := OVma (links y 0 v)]> s2).
  assert (H3 : k_heap s3 = <[F := OVma (links y 0 v)]> (k_heap s)).
  { unfold s3, s2. cbn. by rewrite insert_insert_eq, Hh. }
  assert (Hy3 : k_heap s3 !! y = Some (OVma (links r 0 w))) by (by rewrite H3, lookup_insert_ne, <- Hh).
  mstep (update_vma_ok s3 y _ (set_v_next F) Hy3).
  set (s4 := upd_heap <[y := OVma (links r F w)]> s3).
  assert (H4 : k_heap s4 = <[y := OVma (links r F w)]> (<[F := OVma (links y 0 v)]> (k_heap s)))
    by (by rewrite <- H3).
  assert (Hx4 : load as_vma x s4 = Ok (links p nx v, s4)).
  { apply load_vma. by rewrite H4, !lookup_insert_ne, <- Hh. }
  unfold vma_next. rewrite bind_assoc. mstep Hx4. exists s4. split; [done|]. split; [done|]. split; [|done].
  change s4 with (set_k_heap (k_heap s4) s1). apply (frontier_new k s); [done..|].
  intros a Ha Hnone. rewrite H4, !lookup_insert_ne; [done|done|]. intros ->. congruence.
Qed.

Lemma dseg_addr h p a l q b x : dseg h p a l q b → x ∈ l.*1 → ∃ v, h !! x = Some (OVma v).
Proof.
  intros Hd ([y u] & -> & Hin)%list_elem_of_fmap.
  apply (dseg_in _ _ _ _ _ _ _ _ Hd) in Hin as (_ & p' & n & Hx). by eexists.
Qed.
Lemma dseg_fresh k s p a l q b : frontier base k s → dseg (k_heap s) p a l q b → kv (frame_at base k) ∉ l.*1.
Proof. intros Hf Hd Hin. destruct (dseg_addr _ _ _ _ _ _ _ Hd Hin) as [v Hv]. by apply (fresh_ne _ _ _ _ Hf Hv). Qed.

(** The new list with one area more. *)
Lemma dup_link k s h' p a d y w v r : frontier base k s → y ∉ d.*1 →
  dseg (k_heap s) p a (d ++ [(y, w)]) y 0 → k_heap s !! y = Some (OVma (links r 0 w)) →
  h' = <[y := OVma (links r (kv (frame_at base k)) w)]>
         (<[kv (frame_at base k) := OVma (links y 0 v)]> (k_heap s)) →
  dseg h' p a ((d ++ [(y, w)]) ++ [(kv (frame_at base k), v)]) (kv (frame_at base k)) 0.
Proof.
  intros Hf Hyd Hnew Hy ->. pose proof (dseg_fresh _ _ _ _ _ _ _ Hf Hnew) as Hn.
  pose proof (fresh_ne _ _ _ _ Hf Hy) as HyF. pose proof (fresh_nonnull k s Hf) as HF0.
  set (F := kv (frame_at base k)) in *. destruct (dseg_set_next _ _ _ _ _ _ _ F Hyd Hnew) as (r' & Hy' & Hd).
  assert (OVma (links r' 0 w) = OVma (links r 0 w)) as Er by congruence.
  assert (r' = r) as -> by exact (f_equal (λ o, from_option v_prev 0 (as_vma o)) Er).
  apply dseg_app. exists y, F. split.
  - eapply dseg_frame; [exact Hd|]. intros b Hb. rewrite !lookup_insert. case_decide; [done|].
    rewrite decide_False; [done|]. by intros ->.
  - split; [done|]. split; [done|]. exists 0. by rewrite lookup_insert_ne, lookup_insert_eq.
Qed.

(** The areas after the first. *)
Lemma dup_rest l : ∀ n mm k s x y p q a d w,
  frontier base k s → k + Z.of_nat (length l) ≤ n_frames s → (length l < n)%nat → y ∉ d.*1 → y ∉ l.*1 →
  dseg (k_heap s) p x l q 0 → dseg (k_heap s) 0 a (d ++ [(y, w)]) y 0 →
  ∃ s' q', dup_loop n mm x y s = Ok (tt, s')
    ∧ dseg (k_heap s') 0 a (d ++ (y, w) :: copies base k l) q' 0
    ∧ frontier base (k + Z.of_nat (length l)) s' ∧ n_frames s' = n_frames s
    ∧ ∀ b o, b ≠ y → k_heap s !! b = Some o → k_heap s' !! b = Some o.
Proof.
  induction l as [|[x' v] l IH]; intros n mm k s x y p q a d w Hf Hk Hn Hyd Hyl Hold Hnew;
    (destruct n as [|n]; [cbn in Hn; lia|]).
  - destruct Hold as [-> ->]. exists s, y. cbn [dup_loop copies]. split; [done|]. split; [done|].
    cbn. rewrite Z.add_0_r. done.
  - destruct Hold as (-> & Hx0 & nx & Hx & Hold). cbn in Hk, Hn, Hyl.
    apply not_elem_of_cons in Hyl as [Hyx Hyl].
    pose proof (dseg_in _ _ _ _ _ _ y w Hnew ltac:(rewrite elem_of_app; right; by left)) as [Hy0 _].
    destruct (dseg_set_next _ _ _ _ _ _ _ (kv (frame_at base k)) Hyd Hnew) as (r & Hy & _).
    destruct (dup_round n mm k s x' y p nx r v w) as (s1 & E & Hh & Hf1 & Hn1); try done; [lia|].
    pose proof (dup_link k s _ 0 a d y w v r Hf Hyd Hnew Hy Hh) as Hnew1.
    pose proof (dseg_fresh _ _ _ _ _ _ _ Hf Hnew) as HFd. pose proof (dseg_fresh _ _ _ _ _ _ _ Hf Hold) as HFl.
    assert (Hkeep : ∀ b o, b ≠ y → k_heap s !! b = Some o → k_heap s1 !! b = Some o).
    { intros b o Hb Ho. rewrite Hh, !lookup_insert_ne; [done|by apply not_eq_sym, (fresh_ne _ _ _ _ Hf Ho)|done]. }
    assert (Hold1 : dseg (k_heap s1) x' nx l q 0).
    { eapply dseg_frame; [exact Hold|]. intros b Hb. destruct (dseg_addr _ _ _ _ _ _ _ Hold Hb) as [u Hu].
      rewrite Hu. apply Hkeep; [|done]. by intros ->. }
    destruct (IH n mm (k + 1) s1 nx _ x' q a (d ++ [(y, w)]) v Hf1 ltac:(lia) ltac:(lia) HFd HFl Hold1 Hnew1)
      as (s' & q' & E' & Hd' & Hf' & Hn' & Hk').
    exists s', q'. rewrite E. split; [done|]. cbn [copies]. rewrite <- app_assoc in Hd'. split; [exact Hd'|].
    cbn [length]. replace (k + Z.of_nat (S (length l))) with (k + 1 + Z.of_nat (length l)) by lia.
    split; [done|]. split; [congruence|]. intros b o Hb Ho. apply Hk'; [|by apply Hkeep].
    by apply (fresh_ne _ _ _ _ Hf Ho).
Qed.

(** The first area. *)
Lemma dup_first n mm k s x p nx v m' :
  frontier base k s → k < n_frames s → x ≠ 0 →
  k_heap s !! x = Some (OVma (links p nx v)) → k_heap s !! mm = Some (OMm m') →
  ∃ s', dup_loop (S n) mm x 0 s = dup_loop n mm nx (kv (frame_at base k)) s'
    ∧ k_heap s' = <[mm := OMm (set_mm_vma (kv (frame_at base k)) m')]>
                  (<[kv (frame_at base k) := OVma (links 0 0 v)]> (k_heap s))
    ∧ frontier base (k + 1) s' ∧ n_frames s' = n_frames s.
Proof.
  intros Hf Hk Hx Hxs Hms. destruct (alloc_frontier base k s Hf Hk) as (s1 & E & Hf1 & Hh & Hn & _).
  pose proof (fresh_ne _ _ _ _ Hf Hxs) as Hxf. pose proof (fresh_ne _ _ _ _ Hf Hms) as Hmf.
  assert (Hxm : x ≠ mm) by (intros ->; congruence).
  set (F := kv (frame_at base k)) in *. rewrite <- Hh in Hxs, Hms.
  cbn [dup_loop]. rewrite (proj2 (Z.eqb_neq x NULL) Hx). change (0 =? NULL) with true.
  mstep E. fold F. mstep (load_vma _ _ _ Hxs).
  mstep (eq_refl : store F (OVma (links p 0 v)) s1 = Ok (tt, upd_heap <[F := OVma (links p 0 v)]> s1)).
  set (s2 := upd_heap <[F := OVma (links p 0 v)]> s1). rewrite bind_assoc.
  mstep (update_vma_ok s2 F _ (set_v_prev NULL) (lookup_insert_eq (k_heap s1) F _)).
  set (s3 := upd_heap <[F := OVma (links 0 0 v)]> s2).
  assert (H3 : k_heap s3 = <[F := OVma (links 0 0 v)]> (k_heap s)).
  { unfold s3, s2. cbn. by rewrite insert_insert_eq, Hh. }
  assert (Hm3 : k_heap s3 !! mm = Some (OMm m')) by (by rewrite H3, lookup_insert_ne, <- Hh).
  mstep (update_ok as_mm OMm mm (OMm m') m' (set_mm_vma F) s3 Hm3 eq_refl).
  set (s4 := upd_heap <[mm := OMm (set_mm_vma F m')]> s3).
  assert (H4 : k_heap s4 = <[mm := OMm (set_mm_vma F m')]> (<[F := OVma (links 0 0 v)]> (k_heap s)))
    by (by rewrite <- H3).
  assert (Hx4 : load as_vma x s4 = Ok (links p nx v, s4)).
  { apply load_vma. by rewrite H4, !lookup_insert_ne, <- Hh. }
  unfold vma_next. rewrite bind_assoc. mstep Hx4. exists s4. split; [done|]. split; [done|]. split; [|done].
  change s4 with (set_k_heap (k_heap s4) s1). apply (frontier_new k s); [done..|].
  intros a Ha Hnone. rewrite H4, !lookup_insert_ne; [done|done|]. intros ->. congruence.
Qed.

Lemma copies_nodup k0 k s l : frontier base k0 s → 0 ≤ k → k + Z.of_nat (length l) ≤ n_frames s →
  NoDup ((copies base k l).*1).
Proof.
  intros Hf. revert k. induction l as [|[x v] l IH]; intros k Hk Hl; [apply NoDup_nil_2|].
  cbn in Hl |- *. apply NoDup_cons. split; [|apply IH; lia].
  intros (j & Hj & Ej)%copies_addr. apply (frame_inj _ _ _ _ _ Hf) in Ej; lia.
Qed.

Lemma areas_frame s s' mm m l : areas_are s mm m l → (∀ a, a = mm ∨ a ∈ l.*1 → k_heap s' !! a = k_heap s !! a) →
  areas_are s' mm m l.
Proof.
  intros [Hm [q Hd] Hnd] Hag. constructor; [rewrite Hag; auto| |done].
  exists q. eapply dseg_frame; [exact Hd|]. auto.
Qed.
(** Objects in use are kept, so areas are. *)
Lemma areas_kept s s' mm m l (P : Z → Prop) : areas_are s mm m l → ¬ P mm → (∀ a, a ∈ l.*1 → ¬ P a) →
  (∀ a o, ¬ P a → k_heap s !! a = Some o → k_heap s' !! a = Some o) → areas_are s' mm m l.
Proof.
  intros Ha HP Hl Hk. apply (areas_frame s); [done|]. intros a [->|Hin].
  - rewrite (ar_mm _ _ _ _ Ha). apply Hk; [done|]. by apply (ar_mm _ _ _ _ Ha).
  - destruct (ar_list _ _ _ _ Ha) as [q Hd]. destruct (dseg_addr _ _ _ _ _ _ _ Hd Hin) as [v Hv].
    rewrite Hv. apply Hk; auto.
Qed.

Lemma dup_mm_ok k s mm om m m' l :
  frontier base k s → k + Z.of_nat (length l) ≤ n_frames s → areas_are s om m l →
  k_heap s !! mm = Some (OMm m') → mm ≠ om → (l = [] → mm_vma m' = 0) →
  ∃ s' m2, dup_mm mm om s = Ok (tt, s') ∧ areas_are s' mm m2 (copies base k l)
    ∧ set_mm_vma 0 m2 = set_mm_vma 0 m' ∧ frontier base (k + Z.of_nat (length l)) s' ∧ n_frames s' = n_frames s
    ∧ ∀ b o, b ≠ mm → k_heap s !! b = Some o → k_heap s' !! b = Some o.
Proof.
  intros Hf Hk Har Hmm Hne Hl0. pose proof Har as [Hom [q Hd] Hnd]. pose proof (areas_fuel _ _ _ _ Har) as Hfu.
  unfold dup_mm, NULL. mstep (load_some as_mm om (OMm m) m s Hom eq_refl).
  mstep (eq_refl : fuel s = Ok (S (size (k_heap s)), s)).
  destruct l as [|[x v] l].
  - destruct Hd as [_ ->]. exists s, m'. split; [done|]. cbn. rewrite Z.add_0_r.
    split; [constructor; [done|exists 0; by rewrite Hl0|by apply NoDup_nil_2]|done].
  - destruct Hd as (Ex & Hx0 & nx & Hx & Hd). rewrite Ex. cbn in Hk, Hfu, Hnd.
    destruct (dup_first (size (k_heap s)) mm k s x 0 nx v m') as (s1 & E & Hh & Hf1 & Hn1); try done; [lia|].
    pose proof (fresh_ne _ _ _ _ Hf Hmm) as HmF. pose proof (fresh_nonnull k s Hf) as HF0.
    pose proof (dseg_fresh _ _ _ _ _ _ _ Hf Hd) as HFl. set (F := kv (frame_at base k)) in *.
    assert (Hkeep : ∀ b o, b ≠ mm → k_heap s !! b = Some o → k_heap s1 !! b = Some o).
    { intros b o Hb Ho. rewrite Hh, !lookup_insert_ne; [done|by apply not_eq_sym, (fresh_ne _ _ _ _ Hf Ho)|done]. }
    destruct (dup_rest l (size (k_heap s)) mm (k + 1) s1 nx F x q F [] v) as (s' & q' & E' & Hd' & Hf' & Hn' & Hk').
    + done.
    + lia.
    + lia.
    + by apply not_elem_of_nil.
    + done.
    + eapply dseg_frame; [exact Hd|]. intros b Hb. destruct (dseg_addr _ _ _ _ _ _ _ Hd Hb) as [u Hu].
      rewrite Hu. apply Hkeep; [|done]. intros ->. congruence.
    + split; [done|]. split; [done|]. exists 0. rewrite Hh, lookup_insert_ne, lookup_insert_eq by done. done.
    + exists s', (set_mm_vma F m'). rewrite E. split; [done|]. split; [constructor|].
      * apply Hk'; [done|]. rewrite Hh. apply lookup_insert_eq.
      * by exists q'.
      * apply (copies_nodup k k s ((x, v) :: l)); [done| |cbn; lia]. pose proof (fr_range _ _ _ Hf). lia.
      * split; [done|]. cbn [length]. replace (k + Z.of_nat (S (length l))) with (k + 1 + Z.of_nat (length l)) by lia.
        split; [done|]. split; [congruence|]. intros b o Hb Ho. apply Hk'; [|by apply Hkeep].
        by apply (fresh_ne _ _ _ _ Hf Ho).
Qed.

Lemma areas_with_pcb s a p p' mm m l : get_pcb s a = Some p → areas_are s mm m l → areas_are (with_pcb a p' s) mm m l.
Proof.
  intros Hp%get_pcb_heap Har. apply (areas_kept s _ _ _ _ (λ b, b = a) Har).
  - intros ->. rewrite (ar_mm _ _ _ _ Har) in Hp. done.
  - intros b Hb ->. destruct (ar_list _ _ _ _ Har) as [q Hd]. destruct (dseg_addr _ _ _ _ _ _ _ Hd Hb) as [v Hv]. congruence.
  - intros b o Hb Ho. cbn. by rewrite lookup_insert_ne.
Qed.
Lemma frontier_with_pcb k s a p p' : get_pcb s a = Some p → frontier base k s → frontier base k (with_pcb a p' s).
Proof.
  intros Hp%get_pcb_heap Hf. apply frontier_heap; [done|]. intros j Hj. rewrite lookup_insert_ne.
  - by apply (fr_clean _ _ _ Hf).
  - intros ->. by rewrite (fr_clean _ _ _ Hf) in Hp.
Qed.

(** The new [mm_struct] and the count of the program file. *)
Lemma copy_mm_start k s m l om f :
  frontier base k s → k < n_frames s → areas_are s om m l → k_heap s !! mm_file m = Some (OFile f) →
  let F := kv (frame_at base k) in
  let f' := set_f_refcount (u64 (f_refcount f + 1)) f in
  ∃ s1 s', phys_mem_alloc s = Ok (frame_at base k, s1) ∧ load as_mm om s1 = Ok (m, s1)
    ∧ (store F (OMm m);; increment_refcount_of_file (mm_file m)) s1 = Ok (tt, s')
    ∧ areas_are s' om m l ∧ frontier base (k + 1) s' ∧ n_frames s' = n_frames s
    ∧ k_heap s' !! F = Some (OMm m) ∧ k_heap s' !! mm_file m = Some (OFile f')
    ∧ ∀ b o, b ≠ mm_file m → k_heap s !! b = Some o → k_heap s' !! b = Some o.
Proof.
  intros Hf Hk Har Hfile F f'. destruct (alloc_frontier base k s Hf Hk) as (s1 & E & Hf1 & Hh1 & Hn1 & _).
  pose proof (ar_mm _ _ _ _ Har) as Hm. pose proof (fresh_ne _ _ _ _ Hf Hfile) as HfF. fold F in HfF.
  exists s1. set (s2 := upd_heap <[F := OMm m]> s1).
  assert (Hf2 : k_heap s2 !! mm_file m = Some (OFile f)) by (cbn; by rewrite lookup_insert_ne, Hh1).
  set (s3 := upd_heap <[mm_file m := OFile f']> s2). exists s3.
  assert (H3 : k_heap s3 = <[mm_file m := OFile f']> (<[F := OMm m]> (k_heap s))) by (cbn; by rewrite Hh1).
  assert (Hkeep : ∀ b o, b ≠ mm_file m → k_heap s !! b = Some o → k_heap s3 !! b = Some o).
  { intros b o Hb Ho. rewrite H3, !lookup_insert_ne; [done| |done]. by apply not_eq_sym, (fresh_ne _ _ _ _ Hf Ho). }
  split; [done|]. split; [apply (load_some as_mm om (OMm m)); [by rewrite Hh1|done]|].
  split; [|split_and!].
  - mstep (eq_refl : store F (OMm m) s1 = Ok (tt, s2)).
    apply (update_ok as_file OFile (mm_file m) _ f (λ f, set_f_refcount (u64 (f_refcount f + 1)) f) s2 Hf2 eq_refl).
  - apply (areas_kept s _ _ _ _ (λ a, a = mm_file m) Har); [congruence| |done].
    intros a Ha ->. destruct (ar_list _ _ _ _ Har) as [q Hd].
    destruct (dseg_addr _ _ _ _ _ _ _ Hd Ha) as [v Hv]. congruence.
  - change s3 with (set_k_heap (k_heap s3) s1). apply (frontier_new k s); [done..|].
    intros a Ha Hnone. rewrite H3, !lookup_insert_ne; [done|done|]. intros <-. congruence.
  - done.
  - by rewrite H3, lookup_insert_ne, lookup_insert_eq.
  - rewrite H3. apply lookup_insert_eq.
  - done.
Qed.
End dup.

(** C21: a fork gives the child a copy of every area of the parent's address
    space, in the same order and on fresh frames; the parent keeps its areas,
    the open program file gains a reference and nothing else changes. *)
Theorem fork_copies_areas base k s flags child parent pc cc m l f :
  frontier base k s → k + 1 + Z.of_nat (length l) ≤ n_frames s →
  get_pcb s parent = Some pc → get_pcb s child = Some cc → p_mm pc ≠ NULL → Z.land flags CLONE_VM = 0 →
  areas_are s (p_mm pc) m l → k_heap s !! mm_file m = Some (OFile f) →
  ∃ s' m', copy_mm flags child parent s = Ok (tt, s')
    ∧ get_pcb s' child = Some (set_p_mm (kv (frame_at base k)) cc)
    ∧ areas_are s' (kv (frame_at base k)) m' (copies base (k + 1) l)
    ∧ set_mm_vma 0 m' = set_mm_vma 0 m ∧ areas_are s' (p_mm pc) m l
    ∧ k_heap s' !! mm_file m = Some (OFile (set_f_refcount (u64 (f_refcount f + 1)) f))
    ∧ frontier base (k + 1 + Z.of_nat (length l)) s'
    ∧ ∀ b o, b ≠ child → b ≠ mm_file m → k_heap s !! b = Some o → k_heap s' !! b = Some o.
Proof.
  intros Hf Hk Hp Hc Hom Hfl Har Hfile. pose proof (get_pcb_heap _ _ _ Hc) as Hch.
  destruct (copy_mm_start base k s m l _ f Hf ltac:(lia) Har Hfile)
    as (s1 & s2 & E1 & E2 & E3 & Har2 & Hfr2 & Hn2 & HF2 & Hf2 & Hk2).
  pose proof (fresh_ne _ _ _ _ _ Hf (ar_mm _ _ _ _ Har)) as HmF. pose proof (fresh_ne _ _ _ _ _ Hf Hfile) as HfF.
  set (F := kv (frame_at base k)) in *.
  destruct (dup_mm_ok base (k + 1) s2 F (p_mm pc) m m l Hfr2) as (s4 & m4 & E4 & Har4 & Em & Hfr4 & _ & Hk4);
    [lia|done..| |].
  { intros ->. by destruct (ar_list _ _ _ _ Har) as [q [_ ?]]. }
  assert (Hc4 : get_pcb s4 child = Some cc).
  { unfold get_pcb. rewrite (Hk4 child (OPcb cc)); [done|by apply (fresh_ne _ _ _ _ _ Hf Hch)|].
    apply Hk2; [congruence|done]. }
  exists (with_pcb child (set_p_mm F cc) s4), m4. split_and!; [|apply get_with_pcb_same|..].
  - unfold copy_mm. mstep (load_some as_pcb parent _ pc s (get_pcb_heap _ _ _ Hp) eq_refl).
    rewrite (proj2 (Z.eqb_neq _ _) Hom), Hfl. cbn [Z.eqb negb]. mstep E1. mstep E2. fold F. rewrite <- bind_assoc.
    mstep E3. mstep E4. by rewrite (update_pcb_ok s4 child cc _ Hc4).
  - by apply (areas_with_pcb s4 child cc).
  - done.
  - apply (areas_with_pcb s4 child cc); [done|]. apply (areas_kept s2 _ _ _ _ (λ a, a = F) Har2); [done| |done].
    intros a Ha ->. destruct (ar_list _ _ _ _ Har2) as [q Hd].
    destruct (dseg_addr _ _ _ _ _ _ _ Hd Ha) as [v Hv]. congruence.
  - apply (heap_with_pcb s4 child cc); [done| |done]. by apply Hk4.
  - by apply (frontier_with_pcb base _ s4 child cc).
  - intros b o Hb Hbf Ho. change (k_heap (with_pcb child (set_p_mm F cc) s4) !! b = Some o). cbn.
    rewrite lookup_insert_ne by done. apply Hk4; [by apply (fresh_ne _ _ _ _ _ Hf Ho)|]. by apply Hk2.
Qed.

(** ** The kernel stack of a new process *)

Section kid.
Context (K child : Z) (s : kst).
Hypothesis K_aligned : K mod 4096 = 0.
Hypothesis K_child : K ≠ child.

(** The state with the process [c] at [child] and the stack [t] at [K]. *)
Definition kid (c : pcb) (t : list Z) : kst :=
  set_k_heap (<[K := OTable t]> (<[child := OPcb c]> (k_heap s))) s.

Lemma kid_heap c t b : b ≠ K → b ≠ child → k_heap (kid c t) !! b = k_heap s !! b.
Proof. intros H1 H2. cbn. by rewrite !lookup_insert_ne. Qed.
Lemma kid_table c t : k_heap (kid c t) !! K = Some (OTable t).
Proof. apply lookup_insert_eq. Qed.
Lemma kid_child c t : k_heap (kid c t) !! child = Some (OPcb c).
Proof. cbn. by rewrite lookup_insert_ne, lookup_insert_eq. Qed.
Lemma kid_set_table c t t' : upd_heap <[K := OTable t']> (kid c t) = kid c t'.
Proof. unfold kid, upd_heap. cbn. by rewrite insert_insert_eq. Qed.
Lemma kid_set_pcb c t c' : upd_heap <[child := OPcb c']> (kid c t) = kid c' t.
Proof. unfold kid, upd_heap. cbn. rewrite insert_insert_ne by done. by rewrite insert_insert_eq. Qed.

Lemma kid_update c t g : update_pcb child g (kid c t) = Ok (tt, kid (g c) t).
Proof.
  rewrite (update_pcb_ok _ child c); [|unfold get_pcb; by rewrite kid_child].
  unfold with_pcb. by rewrite kid_set_pcb.
Qed.

Lemma word_addr i : 0 ≤ i < 512 → (K + 8 * i) - (K + 8 * i) mod 4096 = K ∧ (K + 8 * i) mod 4096 / 8 = i.
Proof.
  intros Hi. assert ((K + 8 * i) mod 4096 = 8 * i) as ->.
  { rewrite Z.add_mod, K_aligned, Z.add_0_l, Z.mod_mod by lia. apply Z.mod_small. lia. }
  split; [lia|]. rewrite Z.mul_comm. by apply Z.div_mul.
Qed.
Lemma kid_word_set c t i v : 0 ≤ i < 512 → length t = 512%nat →
  word_set (K + 8 * i) v (kid c t) = Ok (tt, kid c (<[Z.to_nat i := v]> t)).
Proof.
  intros Hi Ht. unfold word_set. destruct (word_addr i Hi) as [-> ->].
  mstep (load_some as_table K _ t _ (kid_table c t) eq_refl).
  rewrite (proj2 (Nat.ltb_lt _ _)) by lia. unfold store, modify. by rewrite kid_set_table.
Qed.
Lemma kid_words_set c vs : ∀ t i, 0 ≤ i → i + Z.of_nat (length vs) ≤ 512 → length t = 512%nat →
  words_set (K + 8 * i) vs (kid c t)
    = Ok (tt, kid c (take (Z.to_nat i) t ++ vs ++ drop (Z.to_nat i + length vs) t)).
Proof.
  induction vs as [|v vs IH]; intros t i Hi Hl Ht; cbn [words_set length] in *.
  - rewrite Nat.add_0_r. cbn [app]. by rewrite take_drop.
  - mstep (kid_word_set c t i v ltac:(lia) Ht). replace (K + 8 * i + 8) with (K + 8 * (i + 1)) by lia.
    rewrite IH by (rewrite ?length_insert; lia). do 3 f_equal.
    replace (Z.to_nat (i + 1)) with (S (Z.to_nat i)) by lia.
    rewrite (take_S_r _ (Z.to_nat i) v) by (apply list_lookup_insert_eq; lia).
    rewrite take_insert_ge by lia. rewrite drop_insert_lt by lia. cbn. rewrite <- app_assoc. cbn.
    by rewrite Nat.add_succ_r.
Qed.
End kid.

Lemma words_get_ok K s t n i : K mod 4096 = 0 → k_heap s !! K = Some (OTable t) → length t = 512%nat →
  0 ≤ i → i + Z.of_nat n ≤ 512 → words_get n (K + 8 * i) s = Ok (take n (drop (Z.to_nat i) t), s).
Proof.
  intros HK Hs Ht. revert i. induction n as [|n IH]; intros i Hi Hn; [done|]. cbn [words_get].
  destruct (lookup_lt_is_Some_2 t (Z.to_nat i)) as [v Hv]; [lia|].
  assert (E : word_get (K + 8 * i) s = Ok (v, s)).
  { unfold word_get. destruct (word_addr K HK i ltac:(lia)) as [-> ->].
    mstep (load_some as_table K _ t _ Hs eq_refl). by rewrite Hv. }
  mstep E. replace (K + 8 * i + 8) with (K + 8 * (i + 1)) by lia. mstep (IH (i + 1) ltac:(lia) ltac:(lia)).
  rewrite (drop_S t v (Z.to_nat i)) by done. replace (Z.to_nat (i + 1)) with (S (Z.to_nat i)) by lia. done.
Qed.

(** The stack of a forked process: that of the parent, with a frame for the
    first switch to it (words 484 to 490: [rbx] is 0 and the return address
    is [ret_from_fork]) and, in the saved user registers (words 491 to 511),
    0 in [rax] and the new stack pointer when one is given. *)
Definition forked_word (ret stack_start : Z) (i : nat) (w : Z) : Z :=
  if decide (i = 488%nat) then 0
  else if decide (i = 490%nat) then ret
  else if decide (i = 501%nat) then 0
  else if decide (i = 510%nat ∧ stack_start ≠ 0) then stack_start
  else w.
Definition forked_stack (ret stack_start : Z) (t : list Z) : list Z := imap (forked_word ret stack_start) t.

Lemma forked_stack_inserts ret ss t : length t = 512%nat →
  let frame := <[488%nat := 0]> (<[490%nat := ret]> t) in
  let regs := <[501%nat := 0]> (take 491 frame ++ take 21 (drop 491 t) ++ drop (491 + length (take 21 (drop 491 t))) frame) in
  (if ss =? 0 then regs else <[510%nat := ss]> regs) = forked_stack ret ss t.
Proof.
  intros Ht frame regs. assert (Hr : regs = <[501%nat := 0]> frame).
  { unfold regs. f_equal. rewrite length_take, length_drop, Ht. cbn [Nat.min Nat.sub Nat.add].
    rewrite (drop_ge frame 512) by (unfold frame; rewrite !length_insert; lia). rewrite app_nil_r.
    rewrite (take_ge (drop 491 t) 21) by (rewrite length_drop; lia).
    transitivity (take 491 frame ++ drop 491 frame); [|apply take_drop]. f_equal. unfold frame.
    by rewrite !drop_insert_lt by lia. }
  rewrite Hr. unfold frame, forked_stack. apply list_eq. intros i. rewrite list_lookup_imap.
  destruct (decide (i < 512)%nat) as [Hi|Hi].
  2:{ rewrite !lookup_ge_None_2; [done|lia|]. destruct (ss =? 0); rewrite !length_insert; lia. }
  destruct (lookup_lt_is_Some_2 t i ltac:(lia)) as [w Hw]. rewrite Hw. cbn. unfold forked_word.
  assert (E : (<[501%nat := 0]> (<[488%nat := 0]> (<[490%nat := ret]> t))) !! i =
    Some (if decide (i = 488%nat) then 0 else if decide (i = 490%nat) then ret
          else if decide (i = 501%nat) then 0 else w)).
  { rewrite !list_lookup_insert, ?length_insert, Ht. repeat case_decide; try lia; try done. }
  destruct (Z.eqb_spec ss 0) as [->|Hss].
  - rewrite E. f_equal. repeat case_decide; naive_solver lia.
  - rewrite list_lookup_insert, !length_insert, Ht, E; cbn. repeat case_decide; naive_solver lia.
Qed.

(** The saved registers of the child, with the return address in place. *)
Lemma user_registers_ok K child s c t ret ss P parent pc :
  K mod 4096 = 0 → K ≠ child → length t = 512%nat → P mod 4096 = 0 → P ≠ K → P ≠ child →
  k_heap s !! P = Some (OTable t) → parent ≠ child → parent ≠ K → k_heap s !! parent = Some (OPcb pc) →
  u64 (p_esp0 pc - REG_SIZE) = P + 8 * 491 →
  user_registers (K + 8 * 491) (K + 8 * 484) parent ss (kid K child s c (<[490%nat := ret]> t))
    = Ok (tt, kid K child s c (forked_stack ret ss t)).
Proof.
  intros HK Hne Ht HP HPK HPc Hs Hpc HpK Hp Hregs. unfold user_registers.
  replace (K + 8 * 484 + 32) with (K + 8 * 488) by lia.
  mstep (kid_word_set K child s HK c (<[490%nat := ret]> t) 488 0 ltac:(lia) ltac:(by rewrite length_insert)).
  unfold task_reg_list. rewrite bind_assoc.
  rewrite <- (kid_heap K child s c (<[488%nat := 0]> (<[490%nat := ret]> t)) parent) in Hp by done.
  mstep (load_some as_pcb parent _ pc _ Hp eq_refl). rewrite Hregs.
  rewrite <- (kid_heap K child s c (<[488%nat := 0]> (<[490%nat := ret]> t)) P) in Hs by done.
  mstep (words_get_ok P _ t REG_WORDS 491 HP Hs Ht ltac:(lia) ltac:(unfold REG_WORDS; lia)).
  change (Z.to_nat 488) with 488%nat. change (Z.to_nat 491) with 491%nat. unfold REG_WORDS.
  mstep (kid_words_set K child s HK c (take 21 (drop 491 t)) (<[488%nat := 0]> (<[490%nat := ret]> t)) 491
    ltac:(lia) ltac:(rewrite length_take; lia) ltac:(by rewrite !length_insert)).
  unfold reg_rax, reg_sp. replace (K + 8 * 491 + 80) with (K + 8 * 501) by lia.
  replace (K + 8 * 491 + 152) with (K + 8 * 510) by lia. change (Z.to_nat 491) with 491%nat.
  set (regs := take 491 _ ++ _). assert (Hl : length regs = 512%nat).
  { unfold regs. repeat (rewrite length_app || rewrite length_take || rewrite length_drop || rewrite length_insert). lia. }
  mstep (kid_word_set K child s HK c regs 501 0 ltac:(lia) Hl). change (Z.to_nat 501) with 501%nat.
  rewrite <- (forked_stack_inserts ret ss t Ht). fold regs. destruct (ss =? 0); [done|]. cbn [negb when].
  rewrite (kid_word_set K child s HK c _ 510 ss ltac:(lia)); [done|]. by rewrite length_insert.
Qed.

(** The address of a fresh frame and its end. *)
Lemma fresh_stack_range base k s : frontier base k s → k < n_frames s →
  kv (frame_at base k) mod 4096 = 0 ∧ 0 ≤ kv (frame_at base k) ∧ kv (frame_at base k) + 4096 < 2 ^ 64.
Proof.
  intros Hf Hk. pose proof (fr_range _ _ _ Hf). destruct (frame_range _ _ _ k Hf ltac:(lia)) as [H1 H2].
  destruct (frame_range _ _ _ (k + 1) Hf ltac:(lia)) as [H3 _].
  rewrite kv_add by lia. unfold frame_at, KERNBASE in *. split; [|lia].
  rewrite Z.add_mod, H2 by lia. done.
Qed.

Lemma fresh_next_none base k s : frontier base k s → k < n_frames s →
  k_heap s !! (kv (frame_at base k) + PAGE_BLOCK_SIZE) = None.
Proof.
  intros Hf Hk. pose proof (fr_range _ _ _ Hf). destruct (frame_range _ _ _ k Hf ltac:(lia)) as [H1 _].
  destruct (frame_range _ _ _ (k + 1) Hf ltac:(lia)) as [H3 _].
  rewrite frame_next by (unfold frame_at in *; lia). apply (fr_clean _ _ _ Hf). lia.
Qed.

(** The kernel stack of a forked user process.  The child gets a fresh
    stack with the parent's words, from which its first switch returns to
    [ret_from_fork] with the parent's user registers and 0 as the result of
    [fork]; the parent and every other object keep their contents. *)
Theorem forked_process_returns_zero base k s ret child parent pc cc t ss sz :
  frontier base k s → k < n_frames s → k_is_paging s ≠ 0 →
  get_pcb s parent = Some pc → get_pcb s child = Some cc → parent ≠ child → p_flags cc = PF_UTHREAD →
  k_heap s !! p_kstack pc = Some (OTable t) → length t = 512%nat →
  p_kstack pc mod 4096 = 0 → 0 ≤ p_kstack pc < 2 ^ 64 - 4096 → p_esp0 pc = p_kstack pc + 4096 →
  let K := kv (frame_at base k) in
  ∃ s', copy_thread ret child parent ss sz s = Ok (tt, s')
    ∧ k_heap s' !! K = Some (OTable (forked_stack ret ss t))
    ∧ get_pcb s' child = Some (set_p_rsp (K + 8 * 484) (set_p_esp0 (K + 4096) (set_p_kstack K cc)))
    ∧ frontier base (k + 1) s'
    ∧ ∀ b o, b ≠ child → k_heap s !! b = Some o → k_heap s' !! b = Some o.
Proof.
  intros Hf Hk Hpg Hp Hc Hne Hfl Hst Ht Hal HR Hesp K.
  destruct (alloc_frontier base k s Hf Hk) as (s1 & E & Hf1 & Hh & Hn & (m & con & Es)).
  pose proof (fresh_stack_range base k s Hf Hk) as (HK & HK0 & HK1). fold K in HK, HK0, HK1.
  pose proof (get_pcb_heap _ _ _ Hp) as Hph. pose proof (get_pcb_heap _ _ _ Hc) as Hch.
  pose proof (not_eq_sym (fresh_ne _ _ _ _ _ Hf Hch)) as HKc. pose proof (fresh_ne _ _ _ _ _ Hf Hph) as HpK.
  pose proof (fresh_ne _ _ _ _ _ Hf Hst) as HPK. fold K in HKc, HpK, HPK.
  assert (HPc : p_kstack pc ≠ child) by (intros E2; congruence).
  assert (Hmem : k_heap (with_pcb child (set_p_kstack K cc) s1) !! (K + PAGE_BLOCK_SIZE) = None).
  { pose proof (fresh_next_none base k s Hf Hk) as Hnone. fold K in Hnone. cbn.
    rewrite lookup_insert_ne, Hh; [done|]. intros E2. rewrite <- E2 in Hnone. congruence. }
  rewrite <- Hh in Hph, Hch, Hst.
  set (c1 := set_p_kstack K cc). set (c2 := set_p_esp0 (K + 4096) c1). set (c3 := set_p_rsp (K + 8 * 484) c2).
  exists (kid K child s1 c3 (forked_stack ret ss t)). split; [|split; [apply kid_table|split; [|split]]].
  - unfold copy_thread. mstep E. assert (k_is_paging s1 = k_is_paging s) as -> by (by rewrite Es).
    rewrite (proj2 (Z.eqb_neq _ _) Hpg). cbn [negb]. fold K.
    mstep (update_pcb_ok s1 child cc (set_p_kstack K) ltac:(unfold get_pcb; by rewrite Hch)).
    mstep (memset_frame_clean K (OTable zero_table) _ Hmem).
    change (upd_heap _ (with_pcb child _ s1)) with (kid K child s1 c1 zero_table).
    rewrite <- (kid_heap K child s1 c1 zero_table) in Hph, Hst by done.
    mstep (load_some as_pcb parent _ pc _ Hph eq_refl).
    mstep (load_some as_table (p_kstack pc) _ t _ Hst eq_refl). rewrite Ht. cbn [Nat.eqb negb].
    mstep (eq_refl : store K (OTable t) (kid K child s1 c1 zero_table) = Ok (tt, _)).
    rewrite kid_set_table. mstep (kid_update K child s1 HKc c1 t (set_p_esp0 (u64 (K + PAGE_BLOCK_SIZE)))).
    rewrite (u64_small (K + PAGE_BLOCK_SIZE)) by (unfold PAGE_BLOCK_SIZE; lia).
    change (set_p_esp0 (K + PAGE_BLOCK_SIZE) c1) with c2. unfold task_reg_list at 1. rewrite bind_assoc.
    mstep (load_some as_pcb child _ c2 _ (kid_child K child s1 HKc c2 t) eq_refl).
    change (p_esp0 c2 - REG_SIZE) with (K + 4096 - 168).
    replace (K + 4096 - 168) with (K + 8 * 491) by lia. rewrite (u64_small (K + 8 * 491)) by lia.
    replace (K + 8 * 491 - 56) with (K + 8 * 484) by lia. rewrite (u64_small (K + 8 * 484)) by lia.
    replace (K + 8 * 484 + 48) with (K + 8 * 490) by lia.
    mstep (kid_word_set K child s1 HK c2 t 490 ret ltac:(lia) Ht). change (Z.to_nat 490) with 490%nat.
    mstep (kid_update K child s1 HKc c2 (<[490%nat := ret]> t) (set_p_rsp (K + 8 * 484))). fold c3.
    mstep (load_some as_pcb child _ c3 _ (kid_child K child s1 HKc c3 (<[490%nat := ret]> t)) eq_refl).
    rewrite decide_False by (cbn; rewrite Hfl; done).
    apply (user_registers_ok K child s1 c3 t ret ss (p_kstack pc) parent pc); try done.
    + by rewrite kid_heap in Hst.
    + by rewrite kid_heap in Hph.
    + rewrite Hesp. unfold REG_SIZE. rewrite u64_small by lia. lia.
  - unfold get_pcb. by rewrite kid_child.
  - change (kid K child s1 c3 (forked_stack ret ss t)) with
      (set_k_heap (k_heap (kid K child s1 c3 (forked_stack ret ss t))) s1).
    apply (frontier_new base k s); [done..|]. intros a Ha Hnone. rewrite kid_heap; [by rewrite Hh|done|].
    intros ->. congruence.
  - intros b o Hb Ho. rewrite kid_heap; [by rewrite Hh|by apply (fresh_ne _ _ _ _ _ Hf Ho)|done].
Qed.

(** ** A machine with an idle task and one process

    Process 1 has one area, a command, a directory and the children list
    [cptr]; [extra] are more objects, [k] the number of frames in use. *)

Definition life_pcb (pid kstack command cwd mm cptr : Z) : pcb :=
  Pcb (kstack + 4096) (kstack + 2048) kstack PF_UTHREAD 0 0 0 pid 0 (if pid =? 0 then 0 else 1) 1000 cwd 0
    (fr 0) cptr command NORMAL 0 mm (replicate 256 0) RUNNING.
Definition life_area : vm_map_entry := Vma 0x1000 0x2000 0 0x1000 0 PROT_WRITE 0 0 0 (Some do_anon_fault_fn).
Definition life_mm : mm_struct := Mm (fr 7) 0 (fr 10) 0 (frame_at 0x400000 3).
Definition life_objects (cptr : Z) : list (Z * obj) :=
  [(fr 0, OPcb (life_pcb 0 (fr 1) (fr 8) (fr 9) (fr 2) 0)); (fr 1, OTable zero_table);
   (fr 2, OMm (Mm 0 0 0 0 (frame_at 0x400000 3))); (fr 3, OTable zero_table);
   (fr 4, OPcb (life_pcb 1 (fr 5) (fr 8) (fr 9) (fr 6) cptr)); (fr 5, OTable zero_table); (fr 6, OMm life_mm);
   (fr 7, OVma life_area);
   (fr 8, OBytes (bytes_of_string "sh" ++ replicate 4094 0)); (fr 9, OBytes (bytes_of_string "/" ++ replicate 4095 0));
   (fr 10, OFile (File 0 1 0 0 0 0)); (fr 11, OProcList (ProcList (fr 0) (fr 12))); (fr 12, OProcList (ProcList (fr 4) 0))].
Definition life_heap (cptr : Z) (extra : list (Z * obj)) : gmap Z obj := list_to_map (life_objects cptr ++ extra).
Definition life_machine (k : nat) (cptr : Z) (extra : list (Z * obj)) (zombies : Z) : kst :=
  set_k_is_paging 1 (set_k_pml4 (frame_at 0x400000 3)
    (upd_proc (λ _, ProcGlobals (fr 11) zombies (fr 4) (fr 0) (fr 4) 0 0 0 1) (machine k 40 (life_heap cptr extra)))).
Definition life : kst := life_machine 13 0 [] 0.

(** No object at the free frames: checked by evaluation. *)
Definition frames_clean (k n : nat) (h : gmap Z obj) : bool :=
  forallb (λ j, match h !! fr (Z.of_nat j) with None => true | _ => false end) (seq k (n - k + 1)).
Lemma life_frontier k cptr extra zombies : (k ≤ 40)%nat → frames_clean k 40 (life_heap cptr extra) = true →
  frontier 0x400000 (Z.of_nat k) (life_machine k cptr extra zombies).
Proof.
  intros Hk Hc. cut (frontier 0x400000 (Z.of_nat k) (machine k 40 (life_heap cptr extra))).
  { intros []. by constructor. }
  apply machine_frontier; [lia|]. intros j Hj. unfold frames_clean in Hc. rewrite forallb_forall in Hc.
  specialize (Hc j ltac:(apply in_seq; lia)). unfold fr in Hc. by destruct (life_heap cptr extra !! _).
Qed.

(** The frame of a new process is in place. *)
Definition forking : kst := life_machine 14 0 [(fr 13, OPcb zero_pcb)] 0.
Lemma forking_frontier : frontier 0x400000 14 forking.
Proof. by apply (life_frontier 14); [lia|vm_compute]. Qed.

Lemma fork_copies_areas_witness : ∃ s' m', copy_mm SIGCHLD (fr 13) (fr 4) forking = Ok (tt, s')
  ∧ areas_are s' (fr 14) m' [(fr 15, life_area)].
Proof.
  destruct (fork_copies_areas 0x400000 14 forking SIGCHLD (fr 13) (fr 4) (life_pcb 1 (fr 5) (fr 8) (fr 9) (fr 6) 0) zero_pcb
    life_mm [(fr 7, life_area)] (File 0 1 0 0 0 0)) as (s' & m' & E & _ & H & _).
  - apply forking_frontier.
  - vm_compute. discriminate.
  - vm_compute. reflexivity.
  - vm_compute. reflexivity.
  - vm_compute. discriminate.
  - reflexivity.
  - constructor; [vm_compute; reflexivity| |apply NoDup_singleton].
    exists (fr 7). split; [done|]. split; [done|]. exists 0. split; [vm_compute; reflexivity|done].
  - vm_compute. reflexivity.
  - exists s', m'. split; [exact E|exact H].
Defined.

Lemma forked_process_returns_zero_witness :
  ∃ s', copy_thread 0xABC (fr 13) (fr 4) 0 0 forking = Ok (tt, s')
    ∧ k_heap s' !! fr 14 = Some (OTable (forked_stack 0xABC 0 zero_table)).
Proof.
  destruct (forked_process_returns_zero 0x400000 14 forking 0xABC (fr 13) (fr 4) (life_pcb 1 (fr 5) (fr 8) (fr 9) (fr 6) 0)
    zero_pcb zero_table 0 0) as (s' & E & H & _).
  - apply forking_frontier.
  - vm_compute. reflexivity.
  - vm_compute. discriminate.
  - vm_compute. reflexivity.
  - vm_compute. reflexivity.
  - vm_compute. discriminate.
  - reflexivity.
  - vm_compute. reflexivity.
  - vm_compute. reflexivity.
  - vm_compute. reflexivity.
  - vm_compute. split; [discriminate|reflexivity].
  - vm_compute. reflexivity.
  - exists s'. split; [exact E|exact H].
Defined.
