(* ===== verification/Exit.v ===== *)
(** * The end of a process (sys/process.c)

    What [exit] and [wait] do to the process lists, and a complete life of a
    process: [fork], its run, [exit] and the [wait] of its parent. *)

From S2P Require Export Process.

(** ** The lists under a change of one process *)

Lemma get_node_with_pcb s a p p' b : get_pcb s a = Some p → get_node (with_pcb a p' s) b = get_node s b.
Proof.
  intros H%get_pcb_heap. unfold get_node. cbn. destruct (decide (b = a)) as [->|].
  - by rewrite lookup_insert_eq, H.
  - by rewrite lookup_insert_ne.
Qed.
Lemma nodes_with_pcb s a p p' h l : get_pcb s a = Some p → nodes_are s h l → nodes_are (with_pcb a p' s) h l.
Proof.
  intros H [Hc Hk]. split; [|done]. eapply chain_ext; [exact Hc|]. intros x _. unfold lnxt.
  by rewrite (get_node_with_pcb s a p).
Qed.
Lemma lproc_with_pcb s a p p' b : get_pcb s a = Some p → lproc (with_pcb a p' s) b = lproc s b.
Proof. intros H. unfold lproc. by rewrite (get_node_with_pcb s a p). Qed.
Lemma pid_with_pcb s a p p' b : get_pcb s a = Some p → p_pid p' = p_pid p → pid_at (with_pcb a p' s) b = pid_at s b.
Proof.
  intros H E. unfold pid_at. rewrite get_with_pcb. case_decide as Eb; [|done]. subst b. rewrite H. cbn. by rewrite E.
Qed.
Lemma node_pid_with_pcb s a p p' b : get_pcb s a = Some p → p_pid p' = p_pid p →
  node_pid (with_pcb a p' s) b = node_pid s b.
Proof.
  intros H E. unfold node_pid. rewrite (lproc_with_pcb s a p) by done. destruct (lproc s b); [|done]. cbn.
  by apply (pid_with_pcb s a p).
Qed.
Lemma live_with_pcb s a p p' l : get_pcb s a = Some p → p_pid p' = p_pid p → nodes_live s l →
  nodes_live (with_pcb a p' s) l.
Proof.
  intros H E Hl x Hx. destruct (Hl x Hx) as (q & i & H1 & H2 & H3). exists q, i.
  rewrite (lproc_with_pcb s a p), (pid_with_pcb s a p) by done. done.
Qed.
Lemma del_node_ext f g i l : (∀ x, x ∈ l → f x = g x) → del_node f i l = del_node g i l.
Proof.
  assert (Ht : ∀ l, (∀ x, x ∈ l → f x = g x) → del_tail f i l = del_tail g i l).
  { clear l. induction l as [|x l IH]; intros H; [done|]. destruct l as [|y l]; [done|]. cbn [del_tail].
    rewrite (H x) by set_solver. case_decide; [done|]. f_equal. apply IH. set_solver. }
  destruct l as [|x l]; intros H; [done|]. cbn [del_node]. rewrite (H x) by set_solver. case_decide; [done|].
  f_equal. apply Ht. set_solver.
Qed.

(** ** Wait *)

(** A process that [wait] passes over. *)
Definition not_collectable (s : kst) (x : Z) : Prop :=
  ∃ q c, lproc s x = Some q ∧ get_pcb s q = Some c ∧ ¬ (p_process_state c = ZOMBIE ∧ p_thread_state c = STOPPED).

Lemma do_wait_thread_none s q c : get_pcb s q = Some c →
  ¬ (p_process_state c = ZOMBIE ∧ p_thread_state c = STOPPED) → do_wait_thread q s = Ok (0, s).
Proof.
  intros Hc Hn. unfold do_wait_thread. mstep (load_some as_pcb q _ c s (get_pcb_heap _ _ _ Hc) eq_refl).
  case_decide; [done|]. by rewrite decide_False.
Qed.

(** A message with one number in it. *)
Lemma kprintf_text pg l r args con : Forall (λ c, c ≠ chr "%") l →
  ∃ con', kprintf_loop pg (l ++ r) args con = kprintf_loop pg r args con'.
Proof.
  intros H. revert con. induction H as [|c l Hc _ IH]; intros con; [by exists con|].
  cbn [app kprintf_loop]. rewrite (proj2 (Z.eqb_neq _ _) Hc). apply IH.
Qed.
Lemma kprintf_number fmt pre post v s :
  bytes_of_string fmt = pre ++ chr "%" :: chr "d" :: post →
  Forall (λ c, c ≠ chr "%") pre → Forall (λ c, c ≠ chr "%") post →
  ∃ con, kprintf fmt [KInt v] s = Ok (tt, set_k_con con s).
Proof.
  intros E H1 H2. unfold kprintf, kprintf_bytes. mnorm. rewrite E.
  destruct (kprintf_text (k_is_paging s) pre (chr "%" :: chr "d" :: post) [KInt v] (k_con s) H1) as [c1 ->].
  cbn [kprintf_loop]. rewrite !Z.eqb_refl. cbn [negb].
  destruct (i32 v <? 0);
    (edestruct (kprintf_text (k_is_paging s) post [] []) as [c2 E2]; [done|]; rewrite app_nil_r in E2; rewrite E2; by eexists).
Qed.
Lemma collected_message v s :
  ∃ con, kprintf (line "successful exit with retval: %d") [KInt v] s = Ok (tt, set_k_con con s).
Proof.
  apply (kprintf_number _ (bytes_of_string "successful exit with retval: ") [10]); [reflexivity|..];
    apply (bool_decide_unpack _); vm_compute; done.
Qed.

Section collect.
Context (base k : Z) (s : kst) (child : Z) (c : pcb) (lz : list Z).
Hypothesis Hf : frontier base k s.
Hypothesis Hc : get_pcb s child = Some c.
Hypothesis Hz : p_process_state c = ZOMBIE ∧ p_thread_state c = STOPPED.
Hypothesis Hhigh : KERNBASE ≤ child ∧ KERNBASE ≤ p_kstack c.
Hypothesis Hlz : nodes_are s (zombproc (k_proc s)) lz.
Hypothesis Hlive : nodes_live s lz.

Lemma do_wait_thread_collects : let dead := set_p_process_state DEAD c in
  ∃ s', do_wait_thread child s = Ok (p_pid c, s')
    ∧ nodes_are s' (zombproc (k_proc s')) (del_node (node_pid s) (p_pid c) lz)
    ∧ frontier base k s' ∧ plist_frame (with_pcb child dead s) s'.
Proof.
  intros dead. unfold do_wait_thread. mstep (load_some as_pcb child _ c s (get_pcb_heap _ _ _ Hc) eq_refl).
  rewrite decide_False by (destruct Hz; intuition congruence). rewrite decide_True by done.
  mstep (update_pcb_ok s child c (set_p_process_state DEAD) Hc). fold dead.
  pose proof (get_with_pcb_same s child dead) as Hd.
  mstep (load_some as_pcb child _ dead _ (get_pcb_heap _ _ _ Hd) eq_refl).
  destruct (delete_plist_ok base k (with_pcb child dead s) ZombProc child (p_pid c) lz) as (s1 & E & Hl1 & Hf1 & F1 & _).
  - by apply (frontier_with_pcb base k s child c).
  - unfold KERNBASE in Hhigh. lia.
  - unfold pid_at. by rewrite Hd.
  - by apply (nodes_with_pcb s child c).
  - by apply (live_with_pcb s child c).
  - unfold delete_from_zombproc. mstep E. unfold release_task. rewrite bind_assoc.
    assert (Hd1 : get_pcb s1 child = Some dead) by (by rewrite (pf_pcb _ _ F1)).
    mstep (load_some as_pcb child _ dead _ (get_pcb_heap _ _ _ Hd1) eq_refl). rewrite bind_assoc.
    mstep (free_high base s1 (p_kstack c) (fr_inv _ _ _ Hf1) ltac:(unfold KERNBASE in *; lia)).
    pose proof (rebased_frontier _ _ _ Hf1) as Hf2.
    mstep (free_high base (rebased s1) child (fr_inv _ _ _ Hf2) ltac:(unfold KERNBASE in *; lia)).
    exists (rebased (rebased s1)). split; [done|]. split; [|split].
    + assert (Ep : ∀ s, k_proc (rebased s) = k_proc s) by (intros; unfold rebased; by destruct (_ =? _)).
      rewrite !Ep. do 2 apply nodes_rebased. cbn [pl_head] in Hl1.
      erewrite del_node_ext; [exact Hl1|]. intros x _. symmetry. by apply (node_pid_with_pcb s child c).
    + by apply rebased_frontier.
    + eapply pf_trans; [exact F1|]. eapply pf_trans; apply pf_rebased.
Qed.

(** The effect of a successful pass. *)
Definition collected (proc : Z) (pp : pcb) (s' : kst) : Prop :=
  get_pcb s' proc = Some (set_p_thread_state RUNNING (set_p_process_state NORMAL pp))
  ∧ get_pcb s' child = Some (set_p_process_state DEAD c)
  ∧ (∀ a, a ≠ proc → a ≠ child → get_pcb s' a = get_pcb s a)
  ∧ nodes_are s' (zombproc (k_proc s')) (del_node (node_pid s) (p_pid c) lz)
  ∧ frontier base k s'.
Lemma wait_pass_collects n proc pp x :
  get_pcb s proc = Some pp → proc ≠ child → lproc s x = Some child → p_pid c ≠ 0 →
  ∃ s', wait_pass (S n) proc x s = Ok (Some (p_pid c, p_process_exit_status c), s') ∧ collected proc pp s'.
Proof.
  intros Hp Hne Hx Hpid. destruct do_wait_thread_collects as (s2 & E2 & Hl2 & Hf2 & F2).
  set (p3 := set_p_thread_state RUNNING (set_p_process_state NORMAL pp)). set (s3 := with_pcb proc p3 s2).
  assert (Hp2 : get_pcb s2 proc = Some pp) by (by rewrite (pf_pcb _ _ F2), get_with_pcb, decide_False).
  assert (Hc3 : get_pcb s3 child = Some (set_p_process_state DEAD c)).
  { unfold s3. rewrite get_with_pcb, decide_False by done. by rewrite (pf_pcb _ _ F2), get_with_pcb, decide_True. }
  destruct (collected_message (p_pid c) s3) as [con E3]. exists (set_k_con con s3). split.
  - cbn [wait_pass]. mstep (node_process_ok _ _ _ Hx). mstep E2. rewrite (proj2 (Z.eqb_neq _ _) Hpid). cbn [negb].
    mstep (update_pcb_ok s2 proc pp (λ c, set_p_thread_state RUNNING (set_p_process_state NORMAL c)) Hp2).
    fold p3 s3. mstep (load_some as_pcb child _ _ s3 (get_pcb_heap _ _ _ Hc3) eq_refl). by mstep E3.
  - assert (Hg : ∀ a, get_pcb (set_k_con con s3) a = get_pcb s3 a) by done.
    unfold collected. rewrite !Hg. split_and!.
    + apply get_with_pcb_same.
    + done.
    + intros a Ha1 Ha2. rewrite Hg. unfold s3.
      by rewrite get_with_pcb, decide_False, (pf_pcb _ _ F2), get_with_pcb, decide_False by done.
    + change (k_proc (set_k_con con s3)) with (k_proc s2). apply (nodes_heap s3); [|done].
      by apply (nodes_with_pcb s2 proc pp).
    + assert (Hf3 : frontier base k s3) by (by apply (frontier_with_pcb base k s2 proc pp)).
      by destruct Hf3; constructor.
Qed.
End collect.
Lemma not_collectable_frame s s' x : plist_frame s s' → not_collectable s x → not_collectable s' x.
Proof.
  intros F (q & c & H1 & H2 & H3). exists q, c. by rewrite (pf_pcb _ _ F), (pf_proc _ _ F _ _ H1).
Qed.
Lemma not_collectable_with_pcb s a p p' x : get_pcb s a = Some p → p_process_state p' = NORMAL →
  not_collectable s x → not_collectable (with_pcb a p' s) x.
Proof.
  intros Hp E (q & c & H1 & H2 & H3). exists q. rewrite (lproc_with_pcb s a p) by done. rewrite get_with_pcb.
  case_decide; [exists p'|exists c]; split; try done. split; [done|]. rewrite E. by intros [??].
Qed.

(** The pass reaches the first child that can be collected. *)
Lemma wait_pass_skip proc s l1 x l2 : ∀ n h, nodes_are s h (l1 ++ x :: l2) → Forall (not_collectable s) l1 →
  wait_pass (length l1 + n) proc h s = wait_pass n proc x s.
Proof.
  induction l1 as [|y l1 IH]; intros n h [Hc Hk] Hn; cbn [app length Nat.add] in *.
  - by apply chain_cons_inv in Hc as (-> & _).
  - apply chain_cons_inv in Hc as (-> & Hy & b & Hb & Hc). apply Forall_cons in Hn as [(q & c & H1 & H2 & H3) Hn].
    cbn [wait_pass]. mstep (node_process_ok _ _ _ H1). mstep (do_wait_thread_none s q c H2 H3).
    cbn [Z.eqb negb]. mstep (node_next_ok _ _ _ Hb). apply Forall_cons in Hk as [_ Hk].
    destruct (Z.eqb_spec b NULL) as [->|]; [apply chain_zero in Hc; by destruct l1|]. by apply IH.
Qed.

(** C23: [wait] collects a child that has exited.  When a child of the caller
    is a zombie and the children listed before it are not, the call returns
    the pid and the exit status of that child without giving up the CPU; the
    child is dead afterwards and no longer in the list of zombies, the caller
    runs, and no other process changes. *)
Theorem wait_collects_zombie base k s n rsp proc pp child c l1 x l2 lz :
  frontier base k s → current (k_proc s) = proc → get_pcb s proc = Some pp → get_pcb s child = Some c →
  proc ≠ child → p_process_state c = ZOMBIE ∧ p_thread_state c = STOPPED → p_pid c ≠ 0 →
  KERNBASE ≤ child ∧ KERNBASE ≤ p_kstack c →
  nodes_are s (p_cptr pp) (l1 ++ x :: l2) → lproc s x = Some child → Forall (not_collectable s) l1 →
  nodes_are s (zombproc (k_proc s)) lz → nodes_live s lz →
  ∃ s', sys_wait (S n) rsp s = Ok (Returned (p_pid c, Some (p_process_exit_status c)), s')
    ∧ collected base k s child c lz proc pp s'.
Proof.
  intros Hf Hcur Hp Hc Hne Hz Hpid Hhigh Hl Hx Hl1 Hlz Hlive.
  set (p1 := set_p_thread_state WAITING (set_p_process_state NORMAL pp)). set (s1 := with_pcb proc p1 s).
  assert (Hp1 : get_pcb s1 proc = Some p1) by apply get_with_pcb_same.
  destruct (wait_pass_collects base k s1 child c lz) with (n := (size (k_heap s1) - length l1)%nat)
    (proc := proc) (pp := p1) (x := x) as (s' & E & H1 & H2 & H3 & H4 & H5); try done.
  { by apply (frontier_with_pcb base k s proc pp). }
  { unfold s1. by rewrite get_with_pcb, decide_False. }
  { by apply (nodes_with_pcb s proc pp). }
  { by apply (live_with_pcb s proc pp). }
  { unfold s1. by rewrite (lproc_with_pcb s proc pp). }
  exists s'. split.
  - unfold sys_wait, get_current_process. mnorm. rewrite Hcur.
    mstep (load_some as_pcb proc _ pp s (get_pcb_heap _ _ _ Hp) eq_refl).
    assert (p_cptr pp ≠ NULL) as Hnn%Z.eqb_neq.
    { destruct Hl as [Hch _]. intros E0. rewrite E0 in Hch. apply chain_zero in Hch. by destruct l1. }
    rewrite Hnn. mstep (update_pcb_ok s proc pp (λ c, set_p_thread_state WAITING (set_p_process_state NORMAL c)) Hp).
    fold p1 s1. cbn [wait_repeat]. mstep (load_some as_pcb proc _ p1 s1 (get_pcb_heap _ _ _ Hp1) eq_refl).
    change (p_cptr p1) with (p_cptr pp). unfold fuel. mnorm.
    assert (Hl' : nodes_are s1 (p_cptr pp) (l1 ++ x :: l2)) by (by apply (nodes_with_pcb s proc pp)).
    pose proof (nodes_fuel _ _ _ Hl') as Hfu. rewrite length_app in Hfu. cbn [length] in Hfu.
    replace (S (size (k_heap s1))) with (length l1 + S (size (k_heap s1) - length l1))%nat by lia.
    rewrite <- (wait_pass_skip proc s1 l1 x l2 _ _ Hl') in E; [by mstep E|].
    eapply Forall_impl; [exact Hl1|]. intros y Hy. by apply (not_collectable_with_pcb s proc pp).
  - split_and!; [exact H1|exact H2| |..|exact H5].
    + intros a Ha1 Ha2. rewrite (H3 a Ha1 Ha2). unfold s1. by rewrite get_with_pcb, decide_False.
    + erewrite del_node_ext; [exact H4|]. intros y _. symmetry. by apply (node_pid_with_pcb s proc pp).
Qed.

(** ** Exit *)

(** The walk over processes with other pids. *)
Lemma bury_skip cur i s l : ∀ n h m, seg (lnxt s) h l m → nodes_live s l → pid_at s cur = Some i →
  (∀ y, y ∈ l → node_pid s y ≠ Some i) → bury_loop (length l + n) h cur s = bury_loop n m cur s.
Proof.
  induction l as [|y l IH]; intros n h m Hseg Hlive Hi Hno; [by inversion Hseg|].
  inversion Hseg as [|? b ? ? Hy Hb Hs]; subst. cbn [length Nat.add bury_loop].
  destruct (Hlive y) as (p & j & Hp & _ & Hj); [set_solver|].
  rewrite (proj2 (Z.eqb_neq y NULL) Hy). mstep (node_process_ok _ _ _ Hp). mstep (pid_of_ok _ _ _ Hj).
  mstep (pid_of_ok _ _ _ Hi).
  assert (j ≠ i). { intros ->. apply (Hno y); [set_solver|]. unfold node_pid. by rewrite Hp. }
  rewrite (proj2 (Z.eqb_neq j i)) by done. cbn [when]. mnorm. mstep (node_next_ok _ _ _ Hb).
  apply IH; [done| |done|]; intros z Hz; [apply Hlive|apply Hno]; set_solver.
Qed.

(** The node of the process goes from one list to the other. *)
Lemma bury_move base k s cur i l1 x l2 lz :
  frontier base k s → k < n_frames s → cur ≠ 0 → pid_at s cur = Some i →
  nodes_are s (allproc (k_proc s)) (l1 ++ x :: l2) → nodes_live s (l1 ++ x :: l2) →
  node_pid s x = Some i → (∀ y, y ∈ l1 → node_pid s y ≠ Some i) →
  nodes_are s (zombproc (k_proc s)) lz → (∀ y, y ∈ lz → y ∉ l1 ++ x :: l2) →
  let new := kv (frame_at base k) in
  ∃ s' b, (delete_from_allproc cur;; insert_zombproc cur;; mret tt) s = Ok (tt, s')
    ∧ nodes_are s' (allproc (k_proc s')) (l1 ++ l2) ∧ nodes_are s' (zombproc (k_proc s')) (lz ++ [new])
    ∧ lproc s' new = Some cur ∧ frontier base (k + 1) s' ∧ plist_frame s s'
    ∧ lnxt s' x = Some b ∧ chain (lnxt s') b l2.
Proof.
  intros Hf Hk Hcur Hi Hl Hlive Hx Hl1 Hlz Hdis new.
  destruct (delete_plist_ok base k s AllProc cur i _ Hf Hcur Hi Hl Hlive) as (s1 & E1 & Hl1' & Hf1 & F1 & Hn1 & Hh1 & Hk1).
  rewrite del_node_in in Hl1' by done. cbn [pl_head] in Hl1'.
  assert (Hlz1 : nodes_are s1 (zombproc (k_proc s1)) lz).
  { change (zombproc (k_proc s1)) with (pl_head ZombProc (k_proc s1)). rewrite (Hh1 ZombProc ltac:(done)). split; [|apply Hlz]. eapply chain_ext; [apply Hlz|]. intros y Hy.
    apply Hk1. left. by apply Hdis. }
  assert (Hx1 : nodes_are s1 x (x :: l2)).
  { pose proof (proj1 (seg_app _ _ _ _ _) (proj1 Hl)) as (m & _ & H2).
    apply chain_cons_inv in H2 as (-> & Hx0 & b & Hb & H2).
    pose proof (proj1 (seg_app _ _ _ _ _) (proj1 Hl1')) as (m' & _ & H2').
    split; [|destruct Hl as [_ HF]; by apply Forall_app in HF as [_ HF]].
    apply seg_cons with b; [done|by rewrite Hk1 by auto|].
    destruct l2 as [|z l2]; [inversion H2; subst; constructor|].
    apply chain_cons_inv in H2 as (-> & _). by apply chain_cons_inv in H2' as (-> & ? & ? & ? & ?); econstructor. }
  destruct (insert_plist_ok base k s1 ZombProc cur lz Hf1) as (s2 & E2 & Hl2 & Hlp & Hf2 & F2 & Hh2 & Hk2); [lia|done..|].
  assert (Hx2 : nodes_are s2 x (x :: l2)).
  { apply Hk2; [done|]. intros y Hy Hy2. apply (Hdis y Hy). set_solver. }
  destruct Hx2 as [(_ & _ & b & Hb & Hc)%chain_cons_inv _]. exists s2, b. split.
  { mstep (E1 : delete_from_allproc cur s = _). by mstep (E2 : insert_zombproc cur s1 = _). }
  split_and!; try done.
  - change (allproc (k_proc s2)) with (pl_head AllProc (k_proc s2)). rewrite (Hh2 AllProc ltac:(done)). apply Hk2; [done|]. intros y Hy Hy2. apply (Hdis y Hy). set_solver.
  - by eapply pf_trans.
Qed.

(** C24: an exiting process goes from the list of processes to the list of
    zombies.  Its node leaves [allproc], which keeps the order of the others,
    a new node for it ends [zombproc], and no process changes; the walk
    returns although it goes on from the node it has just unlinked. *)
Theorem exit_moves_process_to_zombies base k s cur i l1 x l2 lz :
  frontier base k s → k < n_frames s → cur ≠ 0 → pid_at s cur = Some i →
  nodes_are s (allproc (k_proc s)) (l1 ++ x :: l2) → nodes_live s (l1 ++ x :: l2) →
  node_pid s x = Some i → (∀ y, y ∈ l1 ++ l2 → node_pid s y ≠ Some i) →
  nodes_are s (zombproc (k_proc s)) lz → (∀ y, y ∈ lz → y ∉ l1 ++ x :: l2) →
  let new := kv (frame_at base k) in
  ∃ s', bury_loop (S (size (k_heap s))) (allproc (k_proc s)) cur s = Ok (tt, s')
    ∧ nodes_are s' (allproc (k_proc s')) (l1 ++ l2) ∧ nodes_are s' (zombproc (k_proc s')) (lz ++ [new])
    ∧ lproc s' new = Some cur ∧ frontier base (k + 1) s' ∧ plist_frame s s'.
Proof.
  intros Hf Hk Hcur Hi Hl Hlive Hx Hno Hlz Hdis new.
  destruct (bury_move base k s cur i l1 x l2 lz) as (s' & b & E & Ha & Hz & Hp & Hf' & F & Hb & Hc); try done.
  { intros y Hy. apply Hno. set_solver. }
  exists s'. split; [|done]. pose proof (nodes_fuel _ _ _ Hl) as Hfu. rewrite length_app in Hfu. cbn [length] in Hfu.
  pose proof (proj1 (seg_app _ _ _ _ _) (proj1 Hl)) as (m & H1 & H2).
  apply chain_cons_inv in H2 as (-> & Hx0 & b0 & Hb0 & H2).
  replace (S (size (k_heap s))) with (length l1 + S (length l2 + S (size (k_heap s) - length l1 - S (length l2))))%nat by lia.
  rewrite (bury_skip cur i s l1 _ _ x H1).
  - cbn [bury_loop]. rewrite (proj2 (Z.eqb_neq x NULL) Hx0).
    destruct (Hlive x) as (p & j & Hpx & _ & Hj); [set_solver|].
    mstep (node_process_ok _ _ _ Hpx). mstep (pid_of_ok _ _ _ Hj). mstep (pid_of_ok _ _ _ Hi).
    assert (j = i) as -> by (unfold node_pid in Hx; rewrite Hpx in Hx; cbn in Hx; congruence).
    rewrite Z.eqb_refl. cbn [when]. mstep E. mstep (node_next_ok _ _ _ Hb).
    rewrite (bury_skip cur i s' l2 _ _ 0 Hc); [done|..].
    + apply (nodes_live_frame s); [done|]. intros y Hy. apply Hlive. set_solver.
    + by rewrite (pf_pid _ _ _ F).
    + intros y Hy Hn. destruct (Hlive y) as (q & j & Hq & _ & Hj'); [set_solver|].
      apply (Hno y); [set_solver|]. rewrite <- Hn. symmetry. apply (pf_node_pid s s' y j) in F as ->;
        unfold node_pid; by rewrite Hq.
  - intros y Hy. apply Hlive. set_solver.
  - done.
  - intros y Hy. apply Hno. set_solver.
Qed.

(** ** The list of children *)

Lemma skip_children_ok parent pc l : ∀ n h s, get_pcb s parent = Some (set_p_cptr h pc) → nodes_are s h l →
  (length l < n)%nat → skip_children n parent s = Ok (tt, with_pcb parent (set_p_cptr 0 pc) s).
Proof.
  induction l as [|x l IH]; intros n h s Hp Hl Hn; (destruct n as [|n]; [cbn in Hn; lia|]); cbn [skip_children];
    mstep (load_some as_pcb parent _ _ s (get_pcb_heap _ _ _ Hp) eq_refl);
    change (p_cptr (set_p_cptr h pc)) with h.
  - destruct Hl as [Hc _]. assert (h = 0) as -> by (by inversion Hc). cbn.
    unfold with_pcb, upd_heap. rewrite insert_id; [by destruct s|]. by apply get_pcb_heap.
  - destruct Hl as [Hc Hk]. apply chain_cons_inv in Hc as (-> & Hx & b & Hb & Hc).
    rewrite (proj2 (Z.eqb_neq x NULL) Hx). mstep (node_next_ok _ _ _ Hb).
    mstep (update_pcb_ok s parent _ (set_p_cptr b) Hp).
    change (set_p_cptr b (set_p_cptr x pc)) with (set_p_cptr b pc).
    rewrite (IH n b (with_pcb parent (set_p_cptr b pc) s)).
    + unfold with_pcb, upd_heap. cbn. by rewrite insert_insert_eq.
    + apply get_with_pcb_same.
    + apply (nodes_with_pcb s parent _ _ _ _ Hp). split; [done|]. by apply Forall_cons in Hk as [_ Hk].
    + cbn in Hn. lia.
Qed.

Lemma new_only_child_ok base k s parent child c h pc :
  frontier base k s → k < n_frames s → get_pcb s parent = Some c → set_p_cptr h c = set_p_cptr h pc →
  let new := kv (frame_at base k) in
  ∃ s', new_only_child parent child s = Ok (tt, s')
    ∧ get_pcb s' parent = Some (set_p_cptr new pc) ∧ nodes_are s' new [new] ∧ lproc s' new = Some child
    ∧ frontier base (k + 1) s' ∧ ∀ b o, b ≠ parent → k_heap s !! b = Some o → k_heap s' !! b = Some o.
Proof.
  intros Hf Hk Hp Ec new. destruct (alloc_frontier base k s Hf Hk) as (s1 & E & Hf1 & Hh & Hn & _).
  pose proof (get_pcb_heap _ _ _ Hp) as Hph. pose proof (fresh_ne _ _ _ _ _ Hf Hph) as Hne. fold new in Hne.
  assert (Hp1 : get_pcb s1 parent = Some c) by (unfold get_pcb; by rewrite Hh).
  assert (Ec' : set_p_cptr new c = set_p_cptr new pc) by exact (f_equal (set_p_cptr new) Ec).
  unfold new_only_child. mstep E. fold new. mstep (update_pcb_ok s1 parent c (set_p_cptr new) Hp1). rewrite Ec'.
  set (s2 := with_pcb parent (set_p_cptr new pc) s1).
  exists (upd_heap <[new := OProcList (ProcList child NULL)]> s2). split; [done|].
  assert (Hg : get_node (upd_heap <[new := OProcList (ProcList child NULL)]> s2) new = Some (ProcList child NULL))
    by (by rewrite get_node_insert, decide_True). split_and!.
  - unfold get_pcb. cbn. rewrite lookup_insert_ne, lookup_insert_eq by done. done.
  - destruct (frame_range _ _ _ k Hf (fr_range _ _ _ Hf)) as [Hr _]. pose proof (kv_ge (frame_at base k) ltac:(lia)) as Hge.
    split; [|by constructor]. apply seg_cons with 0; [fold new in Hge; unfold KERNBASE in Hge; lia| |constructor].
    unfold lnxt. by rewrite Hg.
  - unfold lproc. by rewrite Hg.
  - apply (frontier_new base k s s1); [done..|]. intros a Ha Hnone. rewrite lookup_insert_ne by done. cbn.
    rewrite lookup_insert_ne; [by rewrite Hh|]. intros ->. congruence.
  - intros b o Hb Ho. cbn. rewrite !lookup_insert_ne; [by rewrite Hh|done|].
    by apply not_eq_sym, (fresh_ne _ _ _ _ _ Hf Ho).
Qed.

(** [fork] forgets the children a process already has.  Whatever the list
    of children was, afterwards it is one node, for the new child; the older
    children can no longer be collected by [wait]. *)
Theorem fork_keeps_only_last_child base k s parent child pc l :
  frontier base k s → k < n_frames s → get_pcb s parent = Some pc → nodes_are s (p_cptr pc) l →
  let new := kv (frame_at base k) in
  ∃ s', add_child parent child s = Ok (tt, s')
    ∧ get_pcb s' parent = Some (set_p_cptr new pc) ∧ nodes_are s' new [new] ∧ lproc s' new = Some child
    ∧ frontier base (k + 1) s' ∧ ∀ b o, b ≠ parent → k_heap s !! b = Some o → k_heap s' !! b = Some o.
Proof.
  intros Hf Hk Hp Hl new. unfold add_child. mstep (load_some as_pcb parent _ pc s (get_pcb_heap _ _ _ Hp) eq_refl).
  destruct (Z.eqb_spec (p_cptr pc) NULL) as [E0|_].
  { by apply (new_only_child_ok base k s parent child pc 0 pc). }
  unfold fuel. mnorm. pose proof (nodes_fuel _ _ _ Hl) as Hfu.
  assert (Hp' : get_pcb s parent = Some (set_p_cptr (p_cptr pc) pc)) by (rewrite Hp; by destruct pc).
  mstep (skip_children_ok parent pc l (S (size (k_heap s))) (p_cptr pc) s Hp' Hl ltac:(lia)).
  destruct (new_only_child_ok base k (with_pcb parent (set_p_cptr 0 pc) s) parent child (set_p_cptr 0 pc) 0 pc)
    as (s' & E & H1 & H2 & H3 & H4 & H5); [|done|apply get_with_pcb_same|done|].
  { by apply (frontier_with_pcb base k s parent pc). }
  exists s'. split_and!; try done. intros b o Hb Ho. apply H5; [done|]. cbn. by rewrite lookup_insert_ne.
Qed.

(** ** A complete run *)

Definition a_life : M kst (Z * outcome (Z * option Z) * outcome unit * outcome (Z * option Z)) :=
  pid ← sys_fork 0xABC;
  w ← sys_wait 5 0x111;
  e ← sys_exit 7 0x222;
  parent ← get_current_process;
  w' ← wait_repeat 5 parent 0x111;
  mret (pid, w, e, w').

(** A complete life.  On a machine with an idle task and one process,
    [fork] returns the new pid 2; the [wait] of the parent switches to the
    frame [fork] built on the child's stack; the [exit] of the child with
    status 7 switches back to the parent, whose [wait] then returns the pid
    and the status. *)
Theorem life_of_a_process :
  match a_life life with
  | Ok (r, s) => Some (r, current (k_proc s), zombproc (k_proc s), p_process_state <$> get_pcb s (fr 13))
  | _ => None
  end = Some ((2, Switched (fr 20 + 8 * 484), Switched 0x111, Returned (2, Some 7)), fr 4, 0, Some DEAD).
Proof. vm_compute. reflexivity. Qed.

(** ** Witnesses *)

Definition zombie : pcb :=
  set_p_thread_state STOPPED (set_p_process_state ZOMBIE (set_p_process_exit_status 7 (life_pcb 2 (fr 1) 0 0 0 0))).
(** The process 2 is a zombie and a child of process 1. *)
Definition with_zombie : kst :=
  life_machine 16 (fr 14) [(fr 13, OPcb zombie); (fr 14, OProcList (ProcList (fr 13) 0)); (fr 15, OProcList (ProcList (fr 13) 0))]
    (fr 15).
Lemma with_zombie_frontier : frontier 0x400000 16 with_zombie.
Proof. by apply (life_frontier 16); [lia|vm_compute]. Qed.
Lemma one_node s x c : get_node s x = Some c → pl_next c = 0 → KERNBASE ≤ x → nodes_are s x [x].
Proof.
  intros Hc Hn Hx. split; [|by constructor]. apply seg_cons with 0; [unfold KERNBASE in Hx; lia| |constructor].
  unfold lnxt. rewrite Hc. cbn. by rewrite Hn.
Qed.
Lemma one_live s x p i : lproc s x = Some p → p ≠ 0 → pid_at s p = Some i → nodes_live s [x].
Proof. intros H1 H2 H3 y ->%list_elem_of_singleton. eauto. Qed.

Lemma wait_collects_zombie_witness : ∃ s', sys_wait 1 0x111 with_zombie = Ok (Returned (2, Some 7), s')
  ∧ p_process_state <$> get_pcb s' (fr 13) = Some DEAD.
Proof.
  destruct (wait_collects_zombie 0x400000 16 with_zombie 0 0x111 (fr 4) (life_pcb 1 (fr 5) (fr 8) (fr 9) (fr 6) (fr 14))
    (fr 13) zombie [] (fr 14) [] [fr 15]) as (s' & E & _ & H & _).
  - apply with_zombie_frontier.
  - vm_compute. reflexivity.
  - vm_compute. reflexivity.
  - vm_compute. reflexivity.
  - vm_compute. discriminate.
  - split; reflexivity.
  - vm_compute. discriminate.
  - vm_compute. split; discriminate.
  - by apply (one_node _ _ (ProcList (fr 13) 0)).
  - vm_compute. reflexivity.
  - by constructor.
  - by apply (one_node _ _ (ProcList (fr 13) 0)).
  - by apply (one_live _ _ (fr 13) 2).
  - exists s'. rewrite H. split; [exact E|done].
Defined.

Lemma exit_moves_process_to_zombies_witness : ∃ s', bury_loop (S (size (k_heap life))) (fr 11) (fr 4) life = Ok (tt, s')
  ∧ lproc s' (fr 13) = Some (fr 4).
Proof.
  destruct (exit_moves_process_to_zombies 0x400000 13 life (fr 4) 1 [fr 11] (fr 12) [] []) as (s' & E & _ & _ & H & _).
  - by apply (life_frontier 13); [lia|vm_compute].
  - vm_compute. reflexivity.
  - vm_compute. discriminate.
  - vm_compute. reflexivity.
  - split; [|by repeat constructor]. do 2 (eapply seg_cons; [done|vm_compute; reflexivity|]). constructor.
  - intros x Hx. assert (x = fr 11 ∨ x = fr 12) as [->| ->] by set_solver;
      (eexists _, _; split_and!; [vm_compute; reflexivity|done|vm_compute; reflexivity]).
  - vm_compute. reflexivity.
  - intros y ->%list_elem_of_singleton. by vm_compute.
  - split; constructor.
  - intros y Hy. by apply elem_of_nil in Hy.
  - exists s'. split; [exact E|exact H].
Defined.

Lemma fork_keeps_only_last_child_witness : ∃ s', add_child (fr 4) (fr 0) with_zombie = Ok (tt, s')
  ∧ p_cptr <$> get_pcb s' (fr 4) = Some (fr 16).
Proof.
  destruct (fork_keeps_only_last_child 0x400000 16 with_zombie (fr 4) (fr 0) (life_pcb 1 (fr 5) (fr 8) (fr 9) (fr 6) (fr 14)) [fr 14])
    as (s' & E & H & _).
  - apply with_zombie_frontier.
  - vm_compute. reflexivity.
  - vm_compute. reflexivity.
  - by apply (one_node _ _ (ProcList (fr 13) 0)).
  - exists s'. rewrite H. split; [exact E|done].
Defined.
