(* ===== verification/PageFault.v ===== *)
(** * Page faults (sys/page_faults.c)

    The handler looks for the area of the faulting address and lets its
    callback bring the page in.  The kernel reads and writes the page through
    its user address; the memory unit translates it with the tables in [cr3],
    here by the abstract translation, and an address that is not mapped is
    undefined.  Kernel accesses ignore the write flag of a page.  [junk] are
    the bytes a frame holds when it is taken, [tar] is the file system image,
    and [rsp] the stack pointer of the caller, for the calls that may end in
    [schedule]. *)

From S2P Require Export Process.

(** ** Model *)

Definition PG_FAULT_PRESENT : Z := 0x1.
Definition PG_FAULT_WRITE : Z := 0x2.

(** [a & b] in a condition. *)
Definition has (a b : Z) : bool := negb (Z.land a b =? 0).

(** The frame behind a user address, and accesses inside one page. *)
Definition mmu (addr : Z) : M kst Z :=
  s ← get; of_option (translate (k_heap s) (cr3 (k_cpu s)) addr).
Definition user_page (addr : Z) : M kst (list Z) := f ← mmu addr; load as_bytes (kv f).
Definition user_put (addr : Z) (bytes : list Z) : M kst unit :=
  f ← mmu addr;
  b ← load as_bytes (kv f);
  let o := Z.to_nat (addr mod 4096) in
  if (o + length bytes <=? length b)%nat
  then store (kv f) (OBytes (take o b ++ bytes ++ drop (o + length bytes) b)) else ub.
(** [my_memset((void * )addr, 0, n)] at the start of a page. *)
Definition user_memset (addr n : Z) : M kst unit :=
  f ← mmu addr;
  b ← load as_bytes (kv f);
  r ← of_option (my_memset b 0 n);
  store (kv f) (OBytes r).

(** A frame for user data. *)
Definition user_frame (junk : list Z) : M kst Z :=
  a ← phys_mem_alloc; store (kv a) (OBytes junk);; mret a.

Definition copy_regs (regs : Z) : M kst Z :=
  current ← get_current_process;
  k_regs ← task_reg_list current;
  ws ← words_get REG_WORDS regs;
  words_set k_regs ws;;
  mret k_regs.

Definition write_flags : Z := Z.lor (Z.lor PTE_PRESENT PTE_READWRITE) PTE_USERSUPERVISOR.
Definition read_flags : Z := Z.lor PTE_PRESENT PTE_USERSUPERVISOR.
Definition area_flags (v : vm_map_entry) : Z := if has (v_protection v) PROT_WRITE then write_flags else read_flags.

Definition do_copy_on_write_fault (junk : list Z) (mm vma addr : Z) : M kst Z :=
  m ← load as_mm mm;
  page ← find_page_from_virt addr (mm_cr3 m);
  if reference_count page =? 1 then
    m ← load as_mm mm;
    err ← change_flags_in_parent_page_tables addr (mm_cr3 m) write_flags;
    if err <? 0 then mret (-1) else
    m ← load as_mm mm;
    set_pml4 (mm_cr3 m);;
    mret 1
  else if 1 <? reference_count page then
    phys_addr ← user_frame junk;
    b ← user_page addr;
    d ← load as_bytes (kv phys_addr);
    r ← of_option (my_memcpy d b (PAGE_BLOCK_SIZE - 1));
    store (kv phys_addr) (OBytes r);;
    m ← load as_mm mm;
    map_virtual_address_to_physical_address addr phys_addr write_flags (mm_cr3 m) 0;;
    decrement_reference_count_of_page page;;
    m ← load as_mm mm;
    set_pml4 (mm_cr3 m);;
    mret 1
  else kprintf (line "Page ref count should not be 0") [];; mret (-1).

Definition do_anon_fault (junk : list Z) (mm vma address : Z) : M kst Z :=
  v ← load as_vma vma;
  let flags := area_flags v in
  when (v_file v =? NULL)
    (let address := page_round_up address in
     page ← user_frame junk;
     m ← load as_mm mm;
     change_flags_in_parent_page_tables address (mm_cr3 m) flags;;
     m ← load as_mm mm;
     map_virtual_address_to_physical_address address page flags (mm_cr3 m) 0;;
     user_memset address (PAGE_BLOCK_SIZE - 1));;
  mret 1.

Section faults.
Context (tar : list Z).

(** What the three cases of [do_file_fault] read: the address the bytes go to,
    the number of bytes and the place in the file; [None] when the page is
    past the area.  [to_read] and [to_offset] are [int]. *)
Definition file_window (v : vm_map_entry) (align_address : Z) : option (Z * Z * Z) :=
  let page_end := u64 (align_address + PAGE_BLOCK_SIZE) in
  if align_address <? v_start_addr v then
    let diff := i32 (v_start_addr v - align_address) in
    let to_read := if page_end <=? v_end_addr v then i32 (page_end - v_start_addr v)
                   else i32 (v_end_addr v - v_start_addr v) in
    Some (u64 (align_address + diff), to_read, i32 (v_fileoffset v))
  else if (v_start_addr v <? align_address) && (align_address <? v_end_addr v) then
    let to_read := if page_end <=? v_end_addr v then PAGE_BLOCK_SIZE else i32 (v_end_addr v - align_address) in
    Some (align_address, to_read, i32 (v_fileoffset v + (align_address - v_start_addr v)))
  else if v_start_addr v =? align_address then
    let to_read := if page_end <=? v_end_addr v then PAGE_BLOCK_SIZE else i32 (v_end_addr v - v_start_addr v) in
    Some (align_address, to_read, i32 (v_fileoffset v))
  else None.

(** A read that falls short is noticed in the third case only. *)
Definition do_file_fault (junk : list Z) (mm vma address : Z) : M kst Z :=
  v ← load as_vma vma;
  let align_address := page_round_up address in
  let flags := area_flags v in
  phys_addr ← user_frame junk;
  m ← load as_mm mm;
  map_virtual_address_to_physical_address align_address phys_addr flags (mm_cr3 m) 0;;
  user_memset align_address (PAGE_BLOCK_SIZE - 1);;
  v ← load as_vma vma;
  match file_window v align_address with
  | None => mret 1
  | Some (buf, to_read, to_offset) =>
      m ← load as_mm mm;
      '(num, bytes) ← vfs_read tar (mm_file m) (u64 to_read) (u64 to_offset);
      user_put buf bytes;;
      let num_read := i32 num in
      if (v_start_addr v =? align_address) && ((num_read <=? 0) || (num_read <? to_read))
      then phys_mem_free phys_addr;; mret 0
      else mret 1
  end.

Definition fault_of (f : option fault_fn) (junk : list Z) (mm vma address : Z) : M kst Z :=
  match f with
  | Some do_file_fault_fn => do_file_fault junk mm vma address
  | Some do_anon_fault_fn => do_anon_fault junk mm vma address
  | None => ub
  end.

(** [if(!closest_vma)] reads the area when there is none. *)
Definition do_page_fault (junk : list Z) (regs error_code address rsp : Z) : M kst unit :=
  if (KERNBASE <? address) && (error_code <? 4) then mret tt else
  current_process ← get_current_process;
  c ← load as_pcb current_process;
  let mm := p_mm c in
  vma ← find_vma mm address;
  if vma =? NULL then
    closest_vma ← find_closest_vma mm address;
    if closest_vma =? NULL then
      v ← load as_vma closest_vma;
      when (v_start_addr v =? STACK_START)
        (err ← expand_stack mm address;
         when (err <? 0) (c ← load as_pcb current_process; sys_kill (p_pid c) 11 rsp;; mret tt))
    else c ← load as_pcb current_process; sys_kill (p_pid c) 11 rsp;; mret tt
  else
    let address := page_round_up address in
    if has error_code PG_FAULT_PRESENT && has error_code PG_FAULT_WRITE then
      v ← load as_vma vma;
      when (has (v_protection v) PROT_WRITE) (do_copy_on_write_fault junk mm vma address;; mret tt)
    else
      v ← load as_vma vma;
      fault_of (v_fault v) junk mm vma address;; mret tt.

(** [cr2] is the address the processor reports. *)
Definition page_fault_handler (junk : list Z) (cr2 regs error_code rsp : Z) : M kst unit :=
  do_page_fault junk regs error_code cr2 rsp.
End faults.

(** ** Setting flags keeps the address space *)

Lemma flags_addr flags : 0 ≤ flags < 4096 → Z.land flags ADDR = 0.
Proof.
  intros H. apply Z.bits_inj'. intros i Hi. rewrite Z.land_spec, addr_bit, Z.bits_0 by done.
  destruct (Z_lt_le_dec i 12).
  - rewrite (proj2 (Z.leb_gt 12 i)) by lia. by rewrite andb_false_r.
  - rewrite (testbit_high flags 12 i) by lia. done.
Qed.
Lemma lor_flags_addr e flags : 0 ≤ flags < 4096 → Z.land (Z.lor e flags) ADDR = Z.land e ADDR.
Proof. intros H. by rewrite Z.land_lor_distr_l, (flags_addr flags H), Z.lor_0_r. Qed.
Lemma lor_present e flags : present e = true → present (Z.lor e flags) = true.
Proof. rewrite !present_bit, Z.lor_spec. by intros ->. Qed.

(** The same tables behind the same entries. *)
Record same_space (h h' : gmap Z obj) : Prop := {
  ss_child : ∀ a i, child h' a i = child h a i;
  ss_pte : ∀ a i, pte h' a i = pte h a i;
  ss_table : ∀ a, is_table h a → is_table h' a;
}.
Lemma ss_refl h : same_space h h.
Proof. constructor; auto with kernel. Qed.
Lemma ss_trans h1 h2 h3 : same_space h1 h2 → same_space h2 h3 → same_space h1 h3.
Proof.
  intros [A1 B1 C1] [A2 B2 C2]. constructor.
  - intros. by rewrite A2, A1.
  - intros. by rewrite B2, B1.
  - auto.
Qed.
Lemma ss_node h h' r p : same_space h h' → node h' r p = node h r p.
Proof.
  intros H. induction p as [|i p IH] using rev_ind; [done|]. rewrite !node_snoc, IH.
  destruct (node h r p); [|done]. cbn. apply (ss_child _ _ H).
Qed.
Lemma ss_translate h h' r v : same_space h h' → translate h' r v = translate h r v.
Proof.
  intros H. unfold translate. rewrite (ss_node h h' r _ H). destruct (node h r (path v)); [|done]. cbn.
  apply (ss_pte _ _ H).
Qed.
Lemma ss_wf h h' r : same_space h h' → tree_wf h r → tree_wf h' r.
Proof.
  intros H [Ht Hi]. constructor.
  - intros p a Hp. rewrite (ss_node _ _ _ _ H). intros Hn. destruct (Ht p a Hp Hn) as [? ?].
    split; [done|]. by apply (ss_table _ _ H).
  - intros p q a Hp Hq. rewrite !(ss_node _ _ _ _ H). by apply Hi.
Qed.

Lemma or_same_space h a i e t flags :
  h !! kv a = Some (OTable t) → t !! Z.to_nat i = Some e → present e = true → 0 ≤ flags < 4096 →
  same_space h (<[kv a := OTable (<[Z.to_nat i := Z.lor e flags]> t)]> h).
Proof.
  intros Ha Ht He Hf. assert (Hg : ∀ b j, tget (<[kv a := OTable (<[Z.to_nat i := Z.lor e flags]> t)]> h) b j
    = if decide (kv b = kv a ∧ Z.to_nat j = Z.to_nat i) then Some (Z.lor e flags) else tget h b j).
  { intros b j. unfold tget. rewrite lookup_insert. case_decide as Eb.
    - rewrite <- Eb, Ha, list_lookup_insert. pose proof (lookup_lt_Some _ _ _ Ht).
      repeat case_decide; try done; naive_solver.
    - rewrite decide_False; [done|]. intros [E _]. by rewrite E in Eb. }
  assert (Hb : ∀ b j, kv b = kv a ∧ Z.to_nat j = Z.to_nat i → tget h b j = Some e).
  { intros b j [E1 E2]. unfold tget. by rewrite E1, Ha, E2. }
  constructor.
  - intros b j. unfold child. rewrite Hg. case_decide as E; [|done]. rewrite (Hb _ _ E). cbn.
    by rewrite lor_present, He, lor_flags_addr.
  - intros b j. unfold pte. rewrite Hg. case_decide as E; [|done]. rewrite (Hb _ _ E). cbn.
    by rewrite lor_flags_addr.
  - intros b (t' & Hb' & Hl). unfold is_table. rewrite lookup_insert. case_decide as Eb; [|by exists t'].
    eexists. split; [done|]. rewrite length_insert. congruence.
Qed.

(** Only existing objects are written. *)
Definition no_new (h h' : gmap Z obj) : Prop := ∀ x, h !! x = None → h' !! x = None.
Lemma no_new_insert h x o o' : h !! x = Some o → no_new h (<[x := o']> h).
Proof. intros Hx y Hy. rewrite lookup_insert_ne; [done|]. congruence. Qed.

Lemma or_flags_ok s r p a i flags :
  tree_wf (k_heap s) r → valid_path p → node (k_heap s) r p = Some a → 0 ≤ i < 512 → 0 ≤ flags < 4096 →
  ∃ h', or_flags (kv a) i flags s = Ok (node (k_heap s) r (p ++ [i]), set_k_heap h' s)
    ∧ same_space (k_heap s) h' ∧ keeps_objects (k_heap s) h' ∧ no_new (k_heap s) h' ∧ (∀ x, x ≠ kv a → h' !! x = k_heap s !! x)
    ∧ Z.land (hw_walk h' r (p ++ [i])).2 flags = Z.land (hw_walk (k_heap s) r p).2 flags.
Proof.
  intros Hwf Hp Hn Hi Hf. destruct (tget_some (k_heap s) a i) as (e & t & He & Ht & Hl & Hte);
    [exact (proj2 (tw_table _ _ Hwf _ _ Hp Hn))|done|].
  unfold or_flags. mstep (entry_get_ok a i e s He). rewrite node_snoc, Hn. cbn [mbind option_bind].
  destruct (present e) eqn:Hpe; cbn [negb].
  - mstep (entry_set_ok a i (Z.lor e flags) t s Ht ltac:(lia)).
    set (h' := <[kv a := OTable (<[Z.to_nat i := Z.lor e flags]> t)]> (k_heap s)).
    assert (He' : tget (k_heap (set_k_heap h' s)) a i = Some (Z.lor e flags)).
    { cbn. unfold h'. rewrite tget_insert_eq. apply list_lookup_insert_eq. lia. }
    mstep (entry_get_ok a i _ (set_k_heap h' s) He'). exists h'. split.
    + unfold get_physical_address_of_pdpt_from_pml. change PMLE_PDPTE_ADDRESS with ADDR.
      rewrite lor_flags_addr by done. unfold child. rewrite He. cbn. by rewrite Hpe.
    + split; [by apply or_same_space|]. split; [by apply (keeps_insert _ (kv a) t)|]. split; [by apply (no_new_insert _ _ (OTable t))|].
      split; [intros x Hx; unfold h'; by rewrite lookup_insert_ne|].
      rewrite hw_walk_snoc. unfold h'. rewrite (walk_insert _ _ p) by done. unfold hw_step.
      rewrite hw_walk_node, Hn, tget_insert_eq, list_lookup_insert_eq by lia.
      rewrite present_bit in Hpe. rewrite Z.lor_spec, Hpe. cbn [orb snd]. by rewrite <- Z.land_assoc, entry_grants.
  - exists (k_heap s). split; [|split; [apply ss_refl|split; [apply keeps_refl|split; [by intros x|split; [done|]]]]].
    + unfold child. rewrite He. cbn. rewrite Hpe. by destruct s.
    + rewrite hw_walk_snoc. unfold hw_step. rewrite hw_walk_node, Hn, He. rewrite present_bit in Hpe. by rewrite Hpe.
Qed.

(** The same address space up to flags. *)
Record flagged (r : Z) (h h' : gmap Z obj) : Prop := {
  fl_wf : tree_wf h' r;
  fl_translate : ∀ w, translate h' r w = translate h r w;
  fl_keeps : keeps_objects h h';
  fl_new : no_new h h';
}.
Lemma flagged_space r h h' : tree_wf h r → same_space h h' → keeps_objects h h' → no_new h h' → flagged r h h'.
Proof.
  intros Hwf H Hk Hn. constructor; [by apply (ss_wf h)|intros w; by apply ss_translate|done..].
Qed.
Lemma flagged_trans r h1 h2 h3 : flagged r h1 h2 → flagged r h2 h3 → flagged r h1 h3.
Proof.
  intros [? T1 K1 N1] [? T2 K2 N2]. constructor; [done| |by eapply keeps_trans|intros x Hx; auto].
  intros w. by rewrite T2, T1.
Qed.

(** The last step. *)
Lemma leaf_flags_ok s r v pt flags :
  tree_wf (k_heap s) r → node (k_heap s) r (path v) = Some pt → 0 ≤ flags < 4096 →
  ∃ e h', leaf_entry (k_heap s) r v = Some e
    ∧ (e ← entry_get (kv pt) (get_index_of_pt v);
       entry_set (kv pt) (get_index_of_pt v) (Z.lor e flags)) s = Ok (tt, set_k_heap h' s)
    ∧ flagged r (k_heap s) h'
    ∧ (∀ w, leaf_entry h' r w = if decide (page_number w = page_number v) then Some (Z.lor e flags) else leaf_entry (k_heap s) r w)
    ∧ hw_walk h' r (path v) = hw_walk (k_heap s) r (path v).
Proof.
  intros Hwf Hn Hf. destruct (tw_table _ _ Hwf _ _ (valid_path_of v) Hn) as [Hptf Hptt]. rewrite pt_index_code.
  destruct (tget_some _ _ (pt_index v) Hptt (pt_index_range v)) as (e & t & He & Ht & Hl & Hte).
  pose proof (pt_index_range v) as Hir.
  set (h' := <[kv pt := OTable (<[Z.to_nat (pt_index v) := Z.lor e flags]> t)]> (k_heap s)).
  exists e, h'. split; [unfold leaf_entry; by rewrite Hn|]. split.
  { mstep (entry_get_ok _ _ _ _ He). apply (entry_set_ok pt (pt_index v) (Z.lor e flags) t s Ht). lia. }
  split; [constructor|split].
  - apply (leaf_wf _ _ (path v) pt _ _ t); auto with kernel.
  - intros w. unfold h'. rewrite (leaf_translate _ _ (path v)) by auto with kernel. case_decide as E; [|done].
    rewrite lor_flags_addr by done. unfold translate. rewrite (proj1 E), Hn. cbn. unfold pte.
    rewrite (proj2 E), He. done.
  - by apply (keeps_insert _ _ t).
  - by apply (no_new_insert _ _ (OTable t)).
  - intros w. unfold h'. rewrite (leaf_entry_set _ _ (path v)) by auto with kernel.
    destruct (decide (page_number w = page_number v)) as [E|Hne].
    + rewrite decide_True; [done|]. by apply page_number_path.
    + rewrite decide_False; [done|]. intros [? ?]. by apply Hne, path_inj.
  - apply (walk_insert _ _ (path v)); auto with kernel.
Qed.

(** One upper level, seen from the last-level entries. *)
Lemma or_flags_leaf s r p a i flags :
  tree_wf (k_heap s) r → valid_path p → (length p ≤ 2)%nat → node (k_heap s) r p = Some a → 0 ≤ i < 512 → 0 ≤ flags < 4096 →
  ∃ h', or_flags (kv a) i flags s = Ok (node h' r (p ++ [i]), set_k_heap h' s)
    ∧ flagged r (k_heap s) h' ∧ (∀ v, leaf_entry h' r v = leaf_entry (k_heap s) r v)
    ∧ Z.land (hw_walk h' r (p ++ [i])).2 flags = Z.land (hw_walk (k_heap s) r p).2 flags.
Proof.
  intros Hwf Hp Hlen Hn Hi Hf. destruct (or_flags_ok s r p a i flags Hwf Hp Hn Hi Hf) as (h' & E & S & K & N & Hk & R).
  exists h'. rewrite (ss_node _ _ _ _ S). split; [done|]. split; [by apply flagged_space|]. split; [|done]. intros v.
  unfold leaf_entry. rewrite (ss_node _ _ _ _ S). destruct (node (k_heap s) r (path v)) as [pt|] eqn:Ept; [|done].
  cbn. unfold tget. rewrite Hk; [done|]. apply (wf_kv_ne (k_heap s) r (path v) p); auto with kernel.
  intros E'. rewrite <- E' in Hlen. cbn in Hlen. lia.
Qed.

Lemma leaf_none h r v n : node h r (take n (path v)) = None → leaf_entry h r v = None.
Proof.
  intros Hn. unfold leaf_entry. replace (node h r (path v)) with (@None Z); [done|].
  rewrite <- (take_drop n (path v)). unfold node in *. rewrite foldl_app, Hn.
  generalize (drop n (path v)). intros l. induction l; [done|]. cbn. done.
Qed.

(** What the flag update makes of the entries: the entry of [v], when there is
    one, gets the flags, no other last-level entry changes, and the tables on
    the way to [v] all grant them. *)
Record granting (r v flags : Z) (h h' : gmap Z obj) : Prop := {
  gt_leaf : ∀ w, leaf_entry h' r w
    = if decide (page_number w = page_number v) then (λ e, Z.lor e flags) <$> leaf_entry h r v else leaf_entry h r w;
  gt_rights : Z.land (table_rights h' r v) flags = Z.land 7 flags;
}.
(** A table is missing on the way. *)
Lemma granting_missing r v flags h h' n :
  (∀ w, leaf_entry h' r w = leaf_entry h r w) → node h' r (take n (path v)) = None →
  Z.land (hw_walk h' r (take n (path v))).2 flags = Z.land 7 flags → granting r v flags h h'.
Proof.
  intros L N R. constructor.
  - intros w. rewrite L. case_decide as E; [|done]. rewrite (leaf_entry_page _ _ _ _ E), <- L.
    by rewrite (leaf_none _ _ _ n).
  - unfold table_rights. rewrite <- (take_drop n (path v)), hw_walk_stopped by done. done.
Qed.

(** [change_flags_in_parent_page_tables] returns 0, changes no translation and
    adds flags; it never takes one away. *)
Lemma change_flags_ok s r v flags :
  tree_wf (k_heap s) r → 0 ≤ flags < 4096 →
  ∃ h' c, change_flags_in_parent_page_tables v r flags s = Ok (0, set_k_cpu c (set_k_heap h' s))
    ∧ flagged r (k_heap s) h' ∧ granting r v flags (k_heap s) h'.
Proof.
  intros Hwf Hf. unfold change_flags_in_parent_page_tables.
  destruct (or_flags_leaf s r [] r (get_index_of_pml4 v) flags Hwf valid_nil ltac:(cbn; lia) eq_refl (index_range v 39) Hf)
    as (h1 & E1 & F1 & L1 & R1). mstep E1. change (hw_walk (k_heap s) r []).2 with 7 in R1.
  change ([] ++ [get_index_of_pml4 v]) with [get_index_of_pml4 v] in *. destruct (node h1 r [get_index_of_pml4 v]) as [a1|] eqn:N1.
  2:{ exists h1, (k_cpu s). split; [by destruct s|]. split; [done|]. apply (granting_missing _ _ _ _ _ 1); by rewrite ?path_code. }
  destruct (or_flags_leaf (set_k_heap h1 s) r [get_index_of_pml4 v] a1 (get_index_of_pdpt v) flags (fl_wf _ _ _ F1)
    (valid_path_1 v) ltac:(cbn; lia) N1 (index_range v 30) Hf) as (h2 & E2 & F2 & L2 & R2). mstep E2.
  change (k_heap (set_k_heap h1 s)) with h1 in *. pose proof (flagged_trans _ _ _ _ F1 F2) as F12.
  assert (L12 : ∀ w, leaf_entry h2 r w = leaf_entry (k_heap s) r w) by (intros w; by rewrite L2, L1).
  change ([get_index_of_pml4 v] ++ [get_index_of_pdpt v]) with [get_index_of_pml4 v; get_index_of_pdpt v] in *.
  rewrite R1 in R2. destruct (node h2 r [get_index_of_pml4 v; get_index_of_pdpt v]) as [a2|] eqn:N2.
  2:{ exists h2, (k_cpu s). split; [by destruct s|]. split; [done|]. apply (granting_missing _ _ _ _ _ 2); by rewrite ?path_code. }
  destruct (or_flags_leaf (set_k_heap h2 s) r [get_index_of_pml4 v; get_index_of_pdpt v] a2 (get_index_of_pdt v) flags
    (fl_wf _ _ _ F2) (valid_path_2 v) ltac:(cbn; lia) N2 (index_range v 21) Hf) as (h3 & E3 & F3 & L3 & R3). mstep E3.
  change (k_heap (set_k_heap h2 s)) with h2 in *. pose proof (flagged_trans _ _ _ _ F12 F3) as F13.
  assert (L13 : ∀ w, leaf_entry h3 r w = leaf_entry (k_heap s) r w) by (intros w; by rewrite L3, L12).
  rewrite R2 in R3. change ([get_index_of_pml4 v; get_index_of_pdpt v] ++ [get_index_of_pdt v])
    with [get_index_of_pml4 v; get_index_of_pdpt v; get_index_of_pdt v] in *. rewrite <- path_code in *.
  destruct (node h3 r (path v)) as [pt|] eqn:N3.
  2:{ exists h3, (k_cpu s). split; [by destruct s|]. split; [done|]. by apply (granting_missing _ _ _ _ _ 3). }
  destruct (leaf_flags_ok (set_k_heap h3 s) r v pt flags (fl_wf _ _ _ F3) N3 Hf) as (e & h4 & He & E4 & F4 & L4 & R4).
  rewrite <- bind_assoc. mstep E4. exists h4. eexists. split; [reflexivity|]. split; [by eapply flagged_trans|].
  change (k_heap (set_k_heap h3 s)) with h3 in *. constructor.
  - intros w. rewrite L4, L13, <- (L13 v), He. done.
  - unfold table_rights. by rewrite R4.
Qed.

(** ** Writing data frames keeps the tables *)

Definition same_entries (h h' : gmap Z obj) : Prop := ∀ a i, tget h' a i = tget h a i.
Lemma obj_entries h x o : (∀ t, h !! x ≠ Some (OTable t)) → (∀ t, o ≠ OTable t) → same_entries h (<[x := o]> h).
Proof.
  intros Hx Ho a i. unfold tget. rewrite lookup_insert. case_decide as E; [|done]. subst x.
  destruct o; try (by edestruct Ho); destruct (h !! kv a) as [o'|] eqn:Eh; try done; destruct o'; try done; by edestruct Hx.
Qed.
Section entries.
Context (h h' : gmap Z obj) (r v : Z).
Hypothesis H : same_entries h h'.

Lemma se_walk p : hw_walk h' r p = hw_walk h r p.
Proof.
  induction p as [|i p IH] using rev_ind; [done|]. rewrite !hw_walk_snoc, IH. unfold hw_step.
  destruct ((hw_walk h r p).1); [|done]. by rewrite H.
Qed.
Lemma se_leaf : leaf_entry h' r v = leaf_entry h r v.
Proof. unfold leaf_entry. rewrite <- !hw_walk_node, se_walk. destruct ((hw_walk h r (path v)).1); [|done]. apply H. Qed.
Lemma se_lookup : mmu_lookup h' r v = mmu_lookup h r v.
Proof. rewrite !mmu_lookup_leaf, se_leaf. unfold table_rights. by rewrite se_walk. Qed.
End entries.

Lemma obj_space h x o : (∀ t, h !! x ≠ Some (OTable t)) → (∀ t, o ≠ OTable t) → same_space h (<[x := o]> h).
Proof.
  intros Hx Ho. pose proof (obj_entries h x o Hx Ho) as Hg. constructor.
  - intros a i. unfold child. by rewrite Hg.
  - intros a i. unfold pte. by rewrite Hg.
  - intros a (t & Ht & Hl). exists t. split; [|done]. rewrite lookup_insert_ne; [done|]. intros ->. by destruct (Hx t).
Qed.
Lemma data_space h x b : (∀ t, h !! x ≠ Some (OTable t)) → same_space h (<[x := OBytes b]> h).
Proof. intros Hx. by apply obj_space. Qed.

(** A fresh frame of user data. *)
Lemma user_frame_ok base k s junk : frontier base k s → k < n_frames s →
  let F := kv (frame_at base k) in
  ∃ s', user_frame junk s = Ok (frame_at base k, s') ∧ k_heap s' = <[F := OBytes junk]> (k_heap s)
    ∧ same_space (k_heap s) (k_heap s') ∧ keeps_objects (k_heap s) (k_heap s')
    ∧ frontier base (k + 1) s' ∧ n_frames s' = n_frames s ∧ k_cpu s' = k_cpu s ∧ k_fs s' = k_fs s.
Proof.
  intros Hf Hk F. destruct (alloc_frontier base k s Hf Hk) as (s1 & E & Hf1 & Hh & Hn & (m & c & Es)).
  pose proof (fresh_none base k s Hf) as Hnone. fold F in Hnone.
  unfold user_frame. mstep E. fold F. exists (upd_heap <[F := OBytes junk]> s1). split; [done|].
  assert (Hh' : k_heap (upd_heap <[F := OBytes junk]> s1) = <[F := OBytes junk]> (k_heap s)) by (cbn; by rewrite Hh).
  split; [done|]. rewrite Hh'. split; [apply data_space; intros t; by rewrite Hnone|].
  split; [by apply keeps_fresh|]. split; [|split; [done|split; by rewrite Es]].
  apply (frontier_new base k s s1); [done..|]. intros a Ha Hn'. by rewrite Hh, lookup_insert_ne.
Qed.

Lemma my_memset_page junk : length junk = 4096%nat → my_memset junk 0 4095 = Some zero_bytes.
Proof.
  intros Hl. unfold my_memset. cbn [Z.eqb]. rewrite (proj2 (Z.leb_gt _ _)) by lia.
  change (Z.to_nat 4095) with 4095%nat. rewrite drop_ge by lia. reflexivity.
Qed.

Lemma user_memset_ok s addr f junk :
  translate (k_heap s) (cr3 (k_cpu s)) addr = Some f → k_heap s !! kv f = Some (OBytes junk) → length junk = 4096%nat →
  user_memset addr (PAGE_BLOCK_SIZE - 1) s = Ok (tt, upd_heap <[kv f := OBytes zero_bytes]> s).
Proof.
  intros Ht Hf Hl. unfold user_memset, mmu. rewrite bind_assoc. mnorm. rewrite Ht. cbn [of_option]. mnorm.
  mstep (load_some as_bytes (kv f) _ junk s Hf eq_refl). change (PAGE_BLOCK_SIZE - 1) with 4095.
  by rewrite (my_memset_page junk Hl).
Qed.

(** What bringing in a page at [v] promises: the page and no other address
    now translates to [f], which holds [bytes]; objects other than tables and
    those in [ex] are kept. *)
Record brought_in (base k r v f : Z) (bytes : list Z) (ex : list Z) (s s' : kst) : Prop := {
  bi_wf : tree_wf (k_heap s') r;
  bi_translate : ∀ w, translate (k_heap s') r w
    = if decide (page_number w = page_number v) then Some f else translate (k_heap s) r w;
  bi_bytes : k_heap s' !! kv f = Some (OBytes bytes);
  bi_keeps : ∀ x o, x ∉ ex → k_heap s !! x = Some o → (∀ t, o ≠ OTable t) → k_heap s' !! x = Some o;
  bi_frontier : ∃ k', frontier base k' s' ∧ k ≤ k' ≤ k + 5;
  bi_cr3 : cr3 (k_cpu s') = r;
}.

Lemma area_flags_ok v : present (area_flags v) = true ∧ 0 ≤ area_flags v < 4096.
Proof. unfold area_flags. by destruct (has _ _). Qed.

Lemma data_frame_range base k s : frontier base k s → k < n_frames s →
  frame_at base k mod 4096 = 0 ∧ 0 < frame_at base k < 2 ^ 52.
Proof.
  intros Hf Hk. destruct (frame_range _ _ _ k Hf (fr_range _ _ _ Hf)) as [H1 H2]. split; [done|lia].
Qed.

Lemma frontier_no_new base k s h' c : frontier base k s → no_new (k_heap s) h' →
  frontier base k (set_k_cpu c (set_k_heap h' s)).
Proof.
  intros Hf Hn. assert (frontier base k (upd_heap (λ _, h') s)) as [].
  { apply frontier_heap; [done|]. intros j Hj. by apply Hn, (fr_clean _ _ _ Hf). }
  by constructor.
Qed.

(** Mapping the fresh frame [f] and clearing it. *)
Lemma map_and_clear base k s r v f flags junk :
  frontier base k s → k + 3 ≤ n_frames s → tree_wf (k_heap s) r → present flags = true → 0 ≤ flags < 4096 →
  v mod 4096 = 0 → f mod 4096 = 0 → 0 < f < 2 ^ 52 → k_heap s !! kv f = Some (OBytes junk) → length junk = 4096%nat →
  ∃ k' s', (map_virtual_address_to_physical_address v f flags r 0;; user_memset v (PAGE_BLOCK_SIZE - 1)) s = Ok (tt, s')
    ∧ frontier base k' s' ∧ k ≤ k' ≤ k + 3 ∧ n_frames s' = n_frames s ∧ tree_wf (k_heap s') r
    ∧ (∀ w, translate (k_heap s') r w
        = if decide (page_number w = page_number v) then Some f else translate (k_heap s) r w)
    ∧ k_heap s' !! kv f = Some (OBytes zero_bytes)
    ∧ (∀ x o, x ≠ kv f → k_heap s !! x = Some o → (∀ t, o ≠ OTable t) → k_heap s' !! x = Some o)
    ∧ cr3 (k_cpu s') = r ∧ k_fs s' = k_fs s ∧ page_granted r v f flags (k_heap s) (k_heap s').
Proof.
  intros Hf Hk Hwf Hp Hfl Hv Hfa Hfr Hj Hl.
  destruct (map_page_full base k s r v f flags Hf Hk Hwf Hp Hfl Hv Hfa Hfr)
    as (k' & s1 & E & Hf1 & Hk1 & Hn1 & Hwf1 & Ht1 & Hkp & Hc & Hfs & _ & _ & rt & Hm & R1 & R2).
  assert (Hj1 : k_heap s1 !! kv f = Some (OBytes junk)) by (by apply Hkp).
  assert (Htv : translate (k_heap s1) (cr3 (k_cpu s1)) v = Some f) by (rewrite Hc, Ht1; by rewrite decide_True).
  exists k', (upd_heap <[kv f := OBytes zero_bytes]> s1).
  assert (Hss : same_space (k_heap s1) (<[kv f := OBytes zero_bytes]> (k_heap s1))).
  { apply data_space. intros t. by rewrite Hj1. }
  split; [mstep E; by apply user_memset_ok with junk|]. split; [by eapply frontier_insert|].
  split; [lia|]. split; [done|]. split; [by apply (ss_wf _ _ _ Hss)|].
  split; [|split; [apply lookup_insert_eq|split; [|split; [done|split; [done|]]]]].
  - intros w. change (k_heap (upd_heap <[kv f := OBytes zero_bytes]> s1)) with (<[kv f := OBytes zero_bytes]> (k_heap s1)).
    by rewrite (ss_translate _ _ _ _ Hss).
  - intros x o Hx Ho Ht. cbn. rewrite lookup_insert_ne by done. by apply Hkp.
  - exists rt. split; [|done]. intros w. rewrite <- Hm. apply se_lookup, obj_entries; [|done]. intros t. by rewrite Hj1.
Qed.

Lemma page_round_up_start a : 4096 ≤ a < 2 ^ 64 →
  page_round_up a mod 4096 = 0 ∧ page_number (page_round_up a) = page_number a.
Proof.
  intros Ha. assert (page_round_up a = 4096 * (a / 4096)) as ->.
  { unfold page_round_up. rewrite (proj2 (Z.ltb_ge a 4096)) by lia. apply land_not_fff. lia. }
  split; [rewrite Z.mul_comm; by apply Z.mod_mul|]. unfold page_number. rewrite Z.mul_comm, Z.div_mul by lia. done.
Qed.

(** The flags of an area: present and for the user, writable as the area is. *)
Lemma area_flags_bits v : Z.land 7 (area_flags v) = area_flags v ∧ Z.testbit (area_flags v) 0 = true
  ∧ Z.testbit (area_flags v) 2 = true ∧ Z.testbit (area_flags v) 1 = negb (Z.land (v_protection v) PROT_WRITE =? 0).
Proof. unfold area_flags, has. by destruct (Z.land _ _ =? 0). Qed.

(** The rights of a page mapped after the flag update. *)
Lemma granted_rights r v pa flags h0 h h' : granting r v flags h0 h → page_granted r v pa flags h h' → Z.land 7 flags = flags →
  ∃ rt, (∀ w, page_number w = page_number v → mmu_lookup h' r w = Some (pa + w mod 4096, rt))
    ∧ (∀ w, page_number w ≠ page_number v → fst <$> mmu_lookup h' r w = fst <$> mmu_lookup h0 r w)
    ∧ (∀ b, 0 ≤ b → Z.testbit flags b = true → Z.testbit rt b = true)
    ∧ (∀ b, 0 ≤ b → Z.testbit rt b = true → Z.testbit flags b = true ∨ Z.testbit (leaf_word h0 r v) b = true).
Proof.
  intros [L R] (rt & Hm & R1 & R2) H7. exists rt. rewrite R, H7 in R1. split_and!.
  - intros w Hw. by rewrite Hm, decide_True.
  - intros w Hw. rewrite Hm, decide_False, !mmu_lookup_leaf, L, decide_False by done.
    destruct (leaf_entry h0 r w) as [e|]; [|done]. cbn [mbind option_bind]. by destruct (Z.testbit e 0).
  - intros b Hb Hfl. rewrite <- R1, Z.land_spec in Hfl. by apply andb_prop in Hfl as [? _].
  - intros b Hb Hrt. assert (Z.testbit (Z.ldiff rt (Z.lor flags (leaf_word h r v))) b = false) as E by (by rewrite R2, Z.bits_0).
    rewrite Z.ldiff_spec, Hrt, Z.lor_spec in E. unfold leaf_word in *. rewrite L, decide_True in E by done.
    destruct (leaf_entry h0 r v) as [e|]; cbn in E |- *; rewrite ?Z.lor_spec, ?Z.bits_0 in *;
      destruct (Z.testbit flags b); auto. destruct (Z.testbit e b); auto.
Qed.

(** C19: an anonymous page.  A fault in an area without a file, at an address
    past the first page, returns 1; the page of the address, and no other
    address, is then mapped to a fresh frame of zeros, and no object other
    than page tables changes.  The processor finds the page there, present and
    open to the user; it may be written when the area is writable, and
    otherwise only if the entry had the write bit before.  Every other address
    is found where it was. *)
Theorem anon_fault_zero_fills base k s junk mm m vma v addr :
  frontier base k s → k + 4 ≤ n_frames s → k_heap s !! mm = Some (OMm m) → tree_wf (k_heap s) (mm_cr3 m) →
  k_heap s !! vma = Some (OVma v) → v_file v = 0 → 4096 ≤ addr < 2 ^ 64 → length junk = 4096%nat →
  ∃ s', do_anon_fault junk mm vma addr s = Ok (1, s')
    ∧ brought_in base k (mm_cr3 m) addr (frame_at base k) zero_bytes [] s s'
    ∧ (∃ rt, (∀ w, page_number w = page_number addr →
                mmu_lookup (k_heap s') (mm_cr3 m) w = Some (frame_at base k + w mod 4096, rt))
         ∧ Z.testbit rt 0 = true ∧ Z.testbit rt 2 = true
         ∧ (Z.land (v_protection v) PROT_WRITE ≠ 0 → Z.testbit rt 1 = true)
         ∧ (Z.testbit rt 1 = true → Z.land (v_protection v) PROT_WRITE ≠ 0
              ∨ Z.testbit (leaf_word (k_heap s) (mm_cr3 m) addr) 1 = true))
    ∧ ∀ w, page_number w ≠ page_number addr →
        fst <$> mmu_lookup (k_heap s') (mm_cr3 m) w = fst <$> mmu_lookup (k_heap s) (mm_cr3 m) w.
Proof.
  intros Hf Hk Hm Hwf Hv Hfile Ha Hj. destruct (page_round_up_start addr Ha) as [Hal Hpn].
  destruct (area_flags_ok v) as [Hpf Hfr]. destruct (data_frame_range base k s Hf ltac:(lia)) as [Hfa Hf0].
  destruct (user_frame_ok base k s junk Hf ltac:(lia)) as (s1 & E1 & Hh1 & S1 & K1 & Hf1 & Hn1 & Hc1 & _).
  pose proof (ss_wf _ _ _ S1 Hwf) as Hwf1. set (r := mm_cr3 m) in *.
  destruct (change_flags_ok s1 r (page_round_up addr) (area_flags v) Hwf1 Hfr) as (h2 & c2 & E2 & F2 & G2).
  set (s2 := set_k_cpu c2 (set_k_heap h2 s1)) in *.
  assert (Hf2 : frontier base (k + 1) s2).
  { by apply (frontier_no_new base (k + 1) s1), (fl_new _ _ _ F2). }
  assert (HF1 : k_heap s1 !! kv (frame_at base k) = Some (OBytes junk)) by (rewrite Hh1; apply lookup_insert_eq).
  assert (HF2 : k_heap s2 !! kv (frame_at base k) = Some (OBytes junk)) by (by apply (fl_keeps _ _ _ F2)).
  assert (Hm1 : k_heap s1 !! mm = Some (OMm m)) by (by apply K1).
  assert (Hm2 : k_heap s2 !! mm = Some (OMm m)) by (by apply (fl_keeps _ _ _ F2)).
  destruct (map_and_clear base (k + 1) s2 r (page_round_up addr) (frame_at base k) (area_flags v) junk)
    as (k' & s3 & E3 & Hf3 & Hk3 & _ & Hwf3 & Ht3 & Hb3 & Hk3' & Hc3 & _ & P3); try done.
  { change (n_frames s2) with (n_frames s1). lia. }
  { apply (fl_wf _ _ _ F2). }
  assert (N1 : same_entries (k_heap s) (k_heap s1)).
  { rewrite Hh1. apply obj_entries; [|done]. intros t. by rewrite (fresh_none base k s Hf). }
  destruct (area_flags_bits v) as (A7 & A0 & A2 & A1).
  destruct (granted_rights _ _ _ _ _ _ _ G2 P3 A7) as (rt & Hp & Hoth & Hin & Hout).
  exists s3. split; [|split; [|split]].
  - unfold do_anon_fault. mstep (load_vma s vma v Hv). rewrite Hfile. cbn [Z.eqb NULL when]. rewrite bind_assoc.
    mstep E1. rewrite bind_assoc. mstep (load_some as_mm mm _ m s1 Hm1 eq_refl). rewrite bind_assoc. fold r.
    mstep E2. rewrite bind_assoc. mstep (load_some as_mm mm _ m s2 Hm2 eq_refl). fold r.
    by mstep E3.
  - constructor; [done| |done| |exists k'; split; [done|lia]|done].
    + intros w. rewrite Ht3, Hpn. case_decide; [done|]. change (k_heap s2) with h2.
      by rewrite (fl_translate _ _ _ F2), (ss_translate _ _ _ _ S1).
    + intros x o _ Hx Ho. apply Hk3'; [by apply (fresh_ne _ _ _ _ _ Hf Hx)| |done].
      apply (fl_keeps _ _ _ F2); [by apply K1|done].
  - exists rt. split; [intros w Hw; apply Hp; congruence|]. split; [by apply Hin|]. split; [by apply Hin|]. split.
    + intros Hw. apply Hin; [lia|]. rewrite A1. by apply negb_true_iff, Z.eqb_neq.
    + intros Hw. apply Hout in Hw as [Hw|Hw]; [|right|lia].
      * left. rewrite A1 in Hw. by apply negb_true_iff, Z.eqb_neq in Hw.
      * rewrite <- Hw. unfold leaf_word. rewrite (se_leaf _ _ r _ N1), (leaf_entry_page _ r _ _ Hpn). done.
  - intros w Hw. rewrite Hoth by congruence. f_equal. apply (se_lookup _ _ r _ N1).
Qed.

(** ** An address space with one anonymous area and nothing mapped *)
Definition anon_area : vm_map_entry := Vma 0x4000 0x8000 0 0x4000 0 PROT_WRITE 0 0 0 (Some do_anon_fault_fn).
Definition anon_mm : mm_struct := Mm (fr 2) 0 0 0 (frame_at 0x400000 0).
Definition anon_state : kst := machine 3 10 (list_to_map
  [(fr 0, OTable zero_table); (fr 1, OMm anon_mm); (fr 2, OVma anon_area)]).
Lemma anon_fault_zero_fills_witness : ∃ s', do_anon_fault (replicate 4096 5) (fr 1) (fr 2) 0x5123 anon_state = Ok (1, s')
  ∧ translate (k_heap s') (frame_at 0x400000 0) 0x5fff = Some (frame_at 0x400000 3)
  ∧ (∃ rt, mmu_lookup (k_heap s') (frame_at 0x400000 0) 0x5fff = Some (frame_at 0x400000 3 + 0xfff, rt)
       ∧ Z.testbit rt 1 = true ∧ Z.testbit rt 2 = true)
  ∧ k_heap s' !! fr 3 = Some (OBytes zero_bytes).
Proof.
  destruct (anon_fault_zero_fills 0x400000 3 anon_state (replicate 4096 5) (fr 1) anon_mm (fr 2) anon_area 0x5123)
    as (s' & E & B & (rt & Hm & _ & Hu & Hw & _) & _).
  - apply (machine_frontier 3 10); [lia|]. intros j Hj.
    do 3 (destruct j as [|j]; [lia|]). do 8 (destruct j as [|j]; [vm_compute; reflexivity|]). lia.
  - vm_compute. discriminate.
  - vm_compute. reflexivity.
  - apply empty_tree_wf; [vm_compute; reflexivity|]. vm_compute. repeat split.
  - vm_compute. reflexivity.
  - reflexivity.
  - vm_compute. split; [discriminate|reflexivity].
  - vm_compute. reflexivity.
  - exists s'. split; [exact E|]. split; [rewrite (bi_translate _ _ _ _ _ _ _ _ _ B); vm_compute; reflexivity|].
    split; [|exact (bi_bytes _ _ _ _ _ _ _ _ _ B)]. exists rt.
    split; [exact (Hm 0x5fff eq_refl)|split; [apply Hw; vm_compute; discriminate|exact Hu]].
Defined.
