(* ===== verification/Cow.v ===== *)
(** * Copy on write (sys/page_faults.c, sys/phys_mmgr.c)

    What a write to a shared page does: the writer gets a copy on a fresh
    frame and the shared frame loses one reference; and what the flags fork
    sets do to pages that are writable and to pages that are not there. *)

From S2P Require Export PageFault.

(** ** Actions that keep the reference counts

    [steady base m]: whenever [m] returns, the allocator invariant holds and
    every frame that was in use has the count it had. *)

Definition counts_kept (s s' : kst) : Prop :=
  ∀ a c, abs_pages (the_pages s) !! a = Some c → abs_pages (the_pages s') !! a = Some c.
Definition steady (base : Z) {A : Type} (m : M kst A) : Prop :=
  ∀ s x s', phys_inv base s → m s = Ok (x, s') → phys_inv base s' ∧ counts_kept s s'.

Lemma counts_refl s : counts_kept s s.
Proof. by intros a c. Qed.

Create HintDb steady discriminated.

Section steady.
Context (base : Z).

Lemma steady_bind {A B : Type} (m : M kst A) (f : A → M kst B) :
  steady base m → (∀ a, steady base (f a)) → steady base (m ≫= f).
Proof.
  intros Hm Hf s x s' Hi (a & s1 & E1 & E2)%bind_inv. destruct (Hm _ _ _ Hi E1) as [Hi1 C1].
  destruct (Hf a _ _ _ Hi1 E2) as [Hi2 C2]. split; [done|]. intros b c Hb. auto.
Qed.
Lemma steady_ret {A : Type} (a : A) : steady base (mret a : M kst A).
Proof. intros s x s' Hi [= <- <-]. split; [done|apply counts_refl]. Qed.
Lemma steady_ub {A : Type} : steady base (ub : M kst A).
Proof. by intros s x s' Hi. Qed.
Lemma steady_of_option {A : Type} (o : option A) : steady base (of_option o : M kst A).
Proof. destruct o; [apply steady_ret|apply steady_ub]. Qed.
Lemma steady_get : steady base (get : M kst kst).
Proof. intros s x s' Hi [= <- <-]. split; [done|apply counts_refl]. Qed.
Lemma steady_load {A : Type} (as_ : obj → option A) a : steady base (load as_ a).
Proof. intros s x s' Hi [-> _]%load_inv. split; [done|apply counts_refl]. Qed.
(** Changes of anything but the allocator. *)
Lemma steady_modify (f : kst → kst) : (∀ s, k_phys (f s) = k_phys s) → steady base (modify f).
Proof.
  intros Hf s x s' Hi [= <- <-]. unfold counts_kept, phys_inv, the_pages in *. by rewrite Hf.
Qed.
Lemma steady_store a o : steady base (store a o).
Proof. by apply steady_modify. Qed.
Lemma steady_memset a o : steady base (memset_frame a o).
Proof. by apply steady_modify. Qed.
Lemma steady_set_pml4 a : steady base (set_pml4 a).
Proof. by apply steady_modify. Qed.
Lemma steady_when (b : bool) m : steady base m → steady base (when b m).
Proof. intros H. destruct b; [done|apply steady_ret]. Qed.
Lemma steady_if {A : Type} (b : bool) (m1 m2 : M kst A) : steady base m1 → steady base m2 → steady base (if b then m1 else m2).
Proof. by destruct b. Qed.
Lemma steady_alloc : steady base phys_mem_alloc.
Proof.
  intros s x s' Hi E. destruct (alloc_refines base s Hi) as (r & s1 & E1 & Hi1 & _ & _ & Hs).
  rewrite E in E1. injection E1 as <- <-. split; [done|]. intros a c Ha.
  inversion Hs; subst; [|done]. rewrite lookup_insert_ne; [done|]. congruence.
Qed.
End steady.
#[export] Hint Resolve steady_ret steady_ub steady_of_option steady_get steady_load steady_store steady_memset
  steady_set_pml4 steady_alloc : steady.
Ltac steady := repeat first [ solve [auto with steady] | apply steady_when | apply steady_if | apply steady_bind; [|intros ?] ].

Lemma steady_entry_get base t i : steady base (entry_get t i).
Proof. unfold entry_get. steady. Qed.
Lemma steady_entry_set base t i e : steady base (entry_set t i e).
Proof. unfold entry_set. steady. Qed.
#[export] Hint Resolve steady_entry_get steady_entry_set : steady.
Lemma steady_next_table base t i f : steady base (next_table t i f).
Proof. unfold next_table. steady. Qed.
#[export] Hint Resolve steady_next_table : steady.
Lemma steady_map base v p f c x : steady base (map_virtual_address_to_physical_address v p f c x).
Proof. unfold map_virtual_address_to_physical_address. steady. Qed.
Lemma steady_user_frame base junk : steady base (user_frame junk).
Proof. unfold user_frame. steady. Qed.

(** ** Finding a frame by its address *)

Lemma find_page_loop_ok a suf : ∀ pre s p, the_pages s = pre ++ suf → NoDup (addrs suf) → p ∈ suf → phys_addr_of_page p = a →
  find_page_loop (length suf) (Z.of_nat (length pre)) a s = Ok (Some p, s).
Proof.
  induction suf as [|q suf IH]; intros pre s p Hs Hnd Hin Hp; [by apply elem_of_nil in Hin|].
  cbn [find_page_loop length]. assert (Hl : the_pages s !! length pre = Some q) by (rewrite Hs; apply lookup_mid).
  mstep (page_at_ok _ _ _ Hl). cbn in Hnd. apply NoDup_cons in Hnd as [Hn Hnd]. apply elem_of_cons in Hin as [->|Hin].
  - by rewrite Hp, Z.eqb_refl.
  - assert (phys_addr_of_page q ≠ a).
    { intros E. apply Hn. apply list_elem_of_lookup in Hin as [i Hi]. apply list_elem_of_lookup. exists i.
      rewrite addrs_lookup, Hi. cbn. congruence. }
    rewrite (proj2 (Z.eqb_neq _ _)) by done. rewrite (len_snoc pre q). apply IH; [|done..]. by rewrite Hs, snoc_mid.
Qed.

Lemma abs_pages_inv l a c : abs_pages l !! a = Some c → ∃ p, p ∈ l ∧ phys_addr_of_page p = a ∧ used p = true ∧ reference_count p = c.
Proof.
  induction l as [|p l IH]; cbn; [done|]. destruct (used p) eqn:Eu.
  - rewrite lookup_insert. case_decide as E.
    + intros [= <-]. exists p. split; [by left|done].
    + intros (q & Hq & H)%IH. exists q. split; [by right|done].
  - intros (q & Hq & H)%IH. exists q. split; [by right|done].
Qed.

(** [get_page_from_phys_addr] takes a frame for good, and finds the page. *)
Lemma get_page_ok base k s a c : frontier base k s → k < n_frames s → abs_pages (the_pages s) !! a = Some c →
  let F := kv (frame_at base k) in
  ∃ p s', get_page_from_phys_addr a s = Ok (p, s') ∧ phys_addr_of_page p = a ∧ reference_count p = c
    ∧ k_heap s' = <[F := OBytes zero_bytes]> (k_heap s) ∧ frontier base (k + 1) s' ∧ n_frames s' = n_frames s
    ∧ k_cpu s' = k_cpu s ∧ counts_kept s s'.
Proof.
  intros Hf Hk Ha F. destruct (alloc_zeroed base k s (OBytes zero_bytes) Hf Hk) as (s1 & E1 & E2 & Hf1 & Hh1 & Hn1 & (m & co & Es) & _).
  pose proof (proj2 (steady_alloc base s _ s1 (fr_inv _ _ _ Hf) E1)) as Hc1.
  fold F in E2, Hf1. unfold get_page_from_phys_addr. mstep E1. fold F. mstep E2. set (s2 := upd_heap <[F := OBytes zero_bytes]> s1) in *.
  mstep (rebase_ok s2). destruct (fr_inv _ _ _ Hf1) as [Hwf Hcl].
  rewrite rebased_number, (wf_len _ _ Hwf), Nat2Z.id.
  destruct (abs_pages_inv (the_pages s2) a c (Hc1 a c Ha)) as (p & Hp & Hpa & _ & Hpc).
  pose proof (phys_wf_nodup _ _ Hwf) as Hnd.
  mstep (find_page_loop_ok a (the_pages s2) [] (rebased s2) p (rebased_pages s2) Hnd Hp Hpa).
  exists p, (rebased s2). split; [done|]. split; [done|]. split; [done|].
  rewrite rebased_heap. split; [cbn; by rewrite Hh1|]. split; [by apply rebased_frontier|].
  split; [unfold n_frames; rewrite rebased_number; exact Hn1|]. split.
  - unfold rebased. destruct (_ =? _); unfold s2; by rewrite Es.
  - intros b d Hb. rewrite rebased_pages. by apply Hc1.
Qed.

(** A change of one reference count. *)
Lemma adjust_frontier base k s a c d : frontier base k s → abs_pages (the_pages s) !! a = Some c → 1 ≤ c + d < 2 ^ 32 →
  let s' := rebased (with_pages (adjust_page a d <$> the_pages s) s) in
  frontier base k s' ∧ k_heap s' = k_heap s ∧ k_cpu s' = k_cpu s ∧ n_frames s' = n_frames s
    ∧ abs_pages (the_pages s') = <[a := c + d]> (abs_pages (the_pages s)).
Proof.
  intros Hf Ha Hc s'. destruct (fr_inv _ _ _ Hf) as [Hwf Hcl].
  pose proof (phys_wf_nodup _ _ Hwf) as Hnd. fold (the_pages s) in Hnd.
  destruct (adjust_present a c d (the_pages s) Hnd Hcl Ha Hc) as (Habs & Hcl').
  destruct (inv_after base (adjust_page a d <$> the_pages s) s s' Hwf (addrs_adjust a d _) Hcl' (sbc_refl _)) as (Hinv & Hp & Hh).
  assert (Hn : n_frames s' = n_frames s) by (unfold n_frames, s'; by rewrite rebased_number).
  split; [|split; [done|split; [unfold s', rebased; by destruct (_ =? _)|split; [done|by rewrite Hp]]]].
  constructor; [done| | |].
  - rewrite Hn. apply (fr_range _ _ _ Hf).
  - intros j Hj. rewrite Hn in Hj. rewrite Hp, Habs, <- (fr_used _ _ _ Hf j Hj), lookup_insert.
    case_decide as E; [|done]. rewrite <- E, Ha. split; by eexists.
  - intros j Hj. rewrite Hn in Hj. rewrite Hh. by apply (fr_clean _ _ _ Hf).
Qed.
(** One reference less. *)
Lemma decrement_ok base k s p c : frontier base k s → abs_pages (the_pages s) !! phys_addr_of_page p = Some c → 2 ≤ c →
  ∃ s', decrement_reference_count_of_page p s = Ok (tt, s') ∧ frontier base k s' ∧ k_heap s' = k_heap s ∧ k_cpu s' = k_cpu s
    ∧ n_frames s' = n_frames s
    ∧ abs_pages (the_pages s') = <[phys_addr_of_page p := c - 1]> (abs_pages (the_pages s)).
Proof.
  intros Hf Ha Hc. destruct (fr_inv _ _ _ Hf) as [Hwf Hcl]. pose proof (counts_pos _ _ _ Hcl Ha) as Hr.
  eexists. split; [|by apply (adjust_frontier base k s _ c (-1)); [..|lia]].
  unfold decrement_reference_count_of_page. mstep (rebase_ok s). rewrite rebased_number, (wf_len _ _ Hwf), Nat2Z.id.
  etrans; [exact (count_loop_adjust _ (-1) (the_pages s) [] (rebased s) (rebased_pages s))|].
  by rewrite rebased_with_pages.
Qed.

Lemma walk_mapped s r v p : tree_wf (k_heap s) r → translate (k_heap s) r v = Some p → walk_pml4 r v s = Ok (p, s).
Proof.
  intros Hwf Ht. destruct (walk_correct r v s Hwf) as (w & E & Hw & _). rewrite Ht in Hw.
  destruct ((w =? u64 (-1)) || (w =? 0)); [done|]. by injection Hw as ->.
Qed.

Lemma user_page_ok s addr p b : translate (k_heap s) (cr3 (k_cpu s)) addr = Some p → k_heap s !! kv p = Some (OBytes b) →
  user_page addr s = Ok (b, s).
Proof.
  intros Ht Hp. unfold user_page, mmu. rewrite bind_assoc. mnorm. rewrite Ht. cbn [of_option]. mnorm.
  by rewrite (load_some as_bytes (kv p) _ b s Hp eq_refl).
Qed.

Definition copied (b junk : list Z) : list Z := take 4095 b ++ drop 4095 junk.

(** The copy of the shared page, before it is mapped. *)
Lemma cow_copy base k s junk mm m addr p c b :
  frontier base k s → k + 2 ≤ n_frames s → k_heap s !! mm = Some (OMm m) → cr3 (k_cpu s) = mm_cr3 m →
  tree_wf (k_heap s) (mm_cr3 m) → translate (k_heap s) (mm_cr3 m) addr = Some p → abs_pages (the_pages s) !! p = Some c →
  k_heap s !! kv p = Some (OBytes b) → length b = 4096%nat → length junk = 4096%nat →
  let f := frame_at base (k + 1) in
  ∃ pg s1 s', find_page_from_virt addr (mm_cr3 m) s = Ok (pg, s1) ∧ phys_addr_of_page pg = p ∧ reference_count pg = c
    ∧ (phys_addr ← user_frame junk;
       b ← user_page addr;
       d ← load as_bytes (kv phys_addr);
       r ← of_option (my_memcpy d b (PAGE_BLOCK_SIZE - 1));
       store (kv phys_addr) (OBytes r);;
       mret phys_addr) s1 = Ok (f, s')
    ∧ k_heap s' !! kv f = Some (OBytes (copied b junk)) ∧ same_space (k_heap s) (k_heap s')
    ∧ keeps_objects (k_heap s) (k_heap s') ∧ frontier base (k + 2) s' ∧ n_frames s' = n_frames s ∧ counts_kept s s'.
Proof.
  intros Hf Hk Hm Hcr Hwf Ht Hc Hb Hlb Hlj f.
  destruct (get_page_ok base k s p c Hf ltac:(lia) Hc) as (pg & s1 & E1 & Hpa & Hpc & Hh1 & Hf1 & Hn1 & Hcpu1 & Hc1).
  pose proof (fresh_none base k s Hf) as Hnone. set (F0 := kv (frame_at base k)) in *.
  assert (S1 : same_space (k_heap s) (k_heap s1)) by (rewrite Hh1; apply data_space; intros t; by rewrite Hnone).
  assert (K1 : keeps_objects (k_heap s) (k_heap s1)) by (rewrite Hh1; by apply keeps_fresh).
  destruct (user_frame_ok base (k + 1) s1 junk Hf1 ltac:(lia)) as (s2 & E2 & Hh2 & S2 & K2 & Hf2 & Hn2 & Hcpu2 & _). fold f in E2, Hh2.
  pose proof (proj2 (steady_user_frame base junk _ _ _ (fr_inv _ _ _ Hf1) E2)) as Hc2.
  pose proof (ss_trans _ _ _ S1 S2) as S12. pose proof (keeps_trans _ _ _ K1 K2) as K12.
  assert (Hj2 : k_heap s2 !! kv f = Some (OBytes junk)) by (rewrite Hh2; apply lookup_insert_eq).
  exists pg, s1, (upd_heap <[kv f := OBytes (copied b junk)]> s2). split_and!.
  - unfold find_page_from_virt. by mstep (walk_mapped s _ _ _ Hwf Ht).
  - done.
  - done.
  - mstep E2. mstep (user_page_ok s2 addr p b ltac:(by rewrite (ss_translate _ _ _ _ S12), Hcpu2, Hcpu1, Hcr) ltac:(by apply K12)).
    mstep (load_some as_bytes (kv f) _ junk s2 Hj2 eq_refl). change (PAGE_BLOCK_SIZE - 1) with 4095.
    unfold my_memcpy. change (Z.to_nat 4095) with 4095%nat.
    rewrite (proj2 (Nat.leb_le _ _)), (proj2 (Nat.leb_le _ _)) by lia. done.
  - apply lookup_insert_eq.
  - eapply ss_trans; [exact S12|]. apply data_space. intros t. by rewrite Hj2.
  - intros x o Hx Ho. cbn. rewrite lookup_insert_ne; [by apply K12|]. intros <-.
    assert (k_heap s1 !! kv f = Some o) as Hx1 by (by apply K1).
    unfold f in Hx1. by rewrite (fresh_none base (k + 1) s1 Hf1) in Hx1.
  - replace (k + 2) with (k + 1 + 1) by lia. by eapply frontier_insert.
  - transitivity (n_frames s2); [done|congruence].
  - intros a d Ha. by apply Hc2, Hc1.
Qed.

(** C4: a write to a shared page.  When the frame behind the page has more
    than one reference, the fault returns 1 and maps the page, and no other
    address, to a fresh frame; the shared frame keeps its contents and loses
    one reference.  The new frame has the first 4095 bytes of the shared one:
    the last byte of the page is not copied. *)
Theorem cow_fault_copies base k s junk mm m vma addr p c b :
  frontier base k s → k + 5 ≤ n_frames s → k_heap s !! mm = Some (OMm m) → cr3 (k_cpu s) = mm_cr3 m →
  tree_wf (k_heap s) (mm_cr3 m) → translate (k_heap s) (mm_cr3 m) addr = Some p → addr mod 4096 = 0 →
  abs_pages (the_pages s) !! p = Some c → 2 ≤ c →
  k_heap s !! kv p = Some (OBytes b) → length b = 4096%nat → length junk = 4096%nat →
  ∃ s', do_copy_on_write_fault junk mm vma addr s = Ok (1, s')
    ∧ brought_in base k (mm_cr3 m) addr (frame_at base (k + 1)) (copied b junk) [] s s'
    ∧ abs_pages (the_pages s') !! p = Some (c - 1).
Proof.
  intros Hf Hk Hm Hcr Hwf Ht Hal Hc Hc2 Hb Hlb Hlj.
  destruct (cow_copy base k s junk mm m addr p c b Hf ltac:(lia) Hm Hcr Hwf Ht Hc Hb Hlb Hlj)
    as (pg & s1 & s2 & E1 & Hpa & Hpc & E2 & HF & S2 & K2 & Hf2 & Hn2 & Hck2).
  set (f := frame_at base (k + 1)) in *. set (r := mm_cr3 m) in *.
  pose proof (fr_range _ _ _ Hf) as Hr. destruct (frame_range base k s (k + 1) Hf ltac:(lia)) as [Hf0 Hfa].
  destruct (map_page_correct base (k + 2) s2 r addr f write_flags Hf2 ltac:(lia) (ss_wf _ _ _ S2 Hwf) eq_refl ltac:(done)
    Hal Hfa ltac:(fold f in Hf0; lia)) as (k' & s3 & E3 & Hf3 & Hk3 & Hn3 & Hwf3 & Ht3 & K3 & Hcr3 & _).
  assert (Hc3 : abs_pages (the_pages s3) !! phys_addr_of_page pg = Some c).
  { rewrite Hpa. apply (steady_map base _ _ _ _ _ _ _ _ (fr_inv _ _ _ Hf2) E3). by apply Hck2. }
  destruct (decrement_ok base k' s3 pg c Hf3 Hc3 Hc2) as (s4 & E4 & Hf4 & Hh4 & Hcpu4 & Hn4 & Ha4).
  assert (Hm2 : k_heap s2 !! mm = Some (OMm m)) by (by apply K2).
  assert (Hm4 : k_heap s4 !! mm = Some (OMm m)) by (rewrite Hh4; by apply K3).
  exists (upd_cpu (set_cr3 r) s4). split_and!.
  - unfold do_copy_on_write_fault. mstep (load_some as_mm mm _ m s Hm eq_refl). fold r. mstep E1.
    rewrite Hpc, (proj2 (Z.eqb_neq c 1)), (proj2 (Z.ltb_lt 1 c)) by lia.
    apply bind_inv in E2 as (x1 & u1 & A1 & E2). mstep A1. apply bind_inv in E2 as (x2 & u2 & A2 & E2). mstep A2.
    apply bind_inv in E2 as (x3 & u3 & A3 & E2). mstep A3. apply bind_inv in E2 as (x4 & u4 & A4 & E2). mstep A4.
    apply bind_inv in E2 as (x5 & u5 & A5 & E2). mstep A5. injection E2 as -> ->.
    mstep (load_some as_mm mm _ m s2 Hm2 eq_refl). fold r. mstep E3. mstep E4.
    by mstep (load_some as_mm mm _ m s4 Hm4 eq_refl).
  - constructor.
    + cbn. by rewrite Hh4.
    + intros w. change (k_heap (upd_cpu (set_cr3 r) s4)) with (k_heap s4). rewrite Hh4, Ht3.
      by rewrite (ss_translate _ _ _ _ S2).
    + change (k_heap (upd_cpu (set_cr3 r) s4)) with (k_heap s4). rewrite Hh4. by apply K3.
    + change (k_heap (upd_cpu (set_cr3 r) s4)) with (k_heap s4). rewrite Hh4. intros x o _. by eapply keeps_trans.
    + exists k'. split; [by destruct Hf4; constructor|lia].
    + done.
  - change (the_pages (upd_cpu (set_cr3 r) s4)) with (the_pages s4). rewrite Ha4, Hpa. apply lookup_insert_eq.
Qed.

(** ** A shared page

    Frame 0 holds the top-level table of an address space whose page at
    0x5000 is mapped to frame 2, which has two references. *)
Definition cow_page : list Z := replicate 4095 7 ++ [9].
Definition cow_mm : mm_struct := Mm 0 0 0 0 (frame_at 0x400000 0).
Definition cow_start : kst := machine 3 16 (list_to_map
  [(fr 0, OTable zero_table); (fr 1, OMm cow_mm); (fr 2, OBytes cow_page)]).
Definition share_page : M kst unit :=
  map_virtual_address_to_physical_address 0x5000 (frame_at 0x400000 2) read_flags (frame_at 0x400000 0) 0;;
  increment_reference_count_of_page (frame_at 0x400000 2).
Definition cow_state : kst := match share_page cow_start with Ok (_, s) => s | _ => cow_start end.

Lemma cow_start_frontier : frontier 0x400000 3 cow_start.
Proof.
  apply (machine_frontier 3 16); [lia|]. intros j Hj.
  do 3 (destruct j as [|j]; [lia|]). do 14 (destruct j as [|j]; [vm_compute; reflexivity|]). lia.
Qed.
Lemma cow_state_ok : let r := frame_at 0x400000 0 in let p := frame_at 0x400000 2 in
  ∃ k, frontier 0x400000 k cow_state ∧ k ≤ 6 ∧ n_frames cow_state = 16 ∧ tree_wf (k_heap cow_state) r
    ∧ translate (k_heap cow_state) r 0x5000 = Some p ∧ abs_pages (the_pages cow_state) !! p = Some 2
    ∧ k_heap cow_state !! fr 1 = Some (OMm cow_mm) ∧ k_heap cow_state !! kv p = Some (OBytes cow_page)
    ∧ cr3 (k_cpu cow_state) = r.
Proof.
  intros r p. destruct (map_page_correct 0x400000 3 cow_start r 0x5000 p read_flags cow_start_frontier)
    as (k' & s1 & E1 & Hf1 & Hk1 & Hn1 & Hwf1 & Ht1 & K1 & Hc1 & _).
  { vm_compute. discriminate. }
  { apply empty_tree_wf; [vm_compute; reflexivity|]. vm_compute. repeat split. }
  { reflexivity. } { vm_compute. by split. } { reflexivity. } { reflexivity. } { vm_compute. by split. }
  assert (Hp1 : abs_pages (the_pages s1) !! p = Some 1).
  { apply (steady_map 0x400000 _ _ _ _ _ _ _ _ (fr_inv _ _ _ cow_start_frontier) E1). vm_compute. reflexivity. }
  destruct (adjust_frontier 0x400000 k' s1 p 1 1 Hf1 Hp1 ltac:(lia)) as (Hf2 & Hh2 & Hc2 & Hn2 & Ha2).
  assert (cow_state = rebased (with_pages (adjust_page p 1 <$> the_pages s1) s1)) as ->.
  { unfold cow_state, share_page. fold r p. rewrite (bind_ok _ _ _ _ _ E1).
    by rewrite (increment_adjust 0x400000 p s1 (proj1 (fr_inv _ _ _ Hf1))). }
  exists k'. rewrite Hh2, Hc2, Hn2, Ha2. split; [done|]. split; [lia|]. split; [by rewrite Hn1|]. split; [done|].
  split; [rewrite Ht1; by rewrite decide_True|]. split; [apply lookup_insert_eq|].
  split; [apply K1; [vm_compute; reflexivity|done]|]. split; [apply K1; [vm_compute; reflexivity|done]|done].
Qed.

Lemma cow_fault_copies_witness : ∃ s', do_copy_on_write_fault zero_bytes (fr 1) 0 0x5000 cow_state = Ok (1, s')
  ∧ abs_pages (the_pages s') !! frame_at 0x400000 2 = Some 1.
Proof.
  destruct cow_state_ok as (k & Hf & Hk & Hn & Hwf & Ht & Ha & Hm & Hb & Hc).
  destruct (cow_fault_copies 0x400000 k cow_state zero_bytes (fr 1) cow_mm 0 0x5000 (frame_at 0x400000 2) 2 cow_page
    Hf ltac:(lia) Hm Hc Hwf Ht eq_refl Ha ltac:(lia) Hb eq_refl eq_refl) as (s' & E & _ & H).
  exists s'. split; [exact E|exact H].
Defined.

(** C36: sharing does not write-protect.  The flags [fork] gives to the pages
    of the parent are added to the entry: a page the parent could write stays
    writable, with the same translation, so the parent's writes reach the
    frame it shares with the child. *)
Theorem write_permission_survives_fork s r v e :
  tree_wf (k_heap s) r → leaf_entry (k_heap s) r v = Some e → Z.testbit e 1 = true →
  ∃ s' e', change_flags_in_parent_page_tables v r copy_flags s = Ok (0, s')
    ∧ leaf_entry (k_heap s') r v = Some e' ∧ Z.testbit e' 1 = true
    ∧ ∀ w, translate (k_heap s') r w = translate (k_heap s) r w.
Proof.
  intros Hwf He Hb. destruct (change_flags_ok s r v copy_flags Hwf ltac:(done)) as (h' & c & E & F & G).
  exists (set_k_cpu c (set_k_heap h' s)), (Z.lor e copy_flags). split; [done|].
  split; [change (k_heap (set_k_cpu c (set_k_heap h' s))) with h'; by rewrite (gt_leaf _ _ _ _ _ G), decide_True, He|].
  split; [rewrite Z.lor_spec; by rewrite Hb|]. apply (fl_translate _ _ _ F).
Qed.
Definition writable_state : kst :=
  match map_virtual_address_to_physical_address 0x5000 (frame_at 0x400000 2) write_flags (frame_at 0x400000 0) 0 cow_start with
  | Ok (_, s) => s | _ => cow_start end.
Lemma writable_wf : tree_wf (k_heap writable_state) (frame_at 0x400000 0).
Proof.
  destruct (map_page_correct 0x400000 3 cow_start (frame_at 0x400000 0) 0x5000 (frame_at 0x400000 2) write_flags cow_start_frontier)
    as (k' & s1 & E1 & _ & _ & _ & Hwf1 & _).
  - vm_compute. discriminate.
  - apply empty_tree_wf; [vm_compute; reflexivity|]. vm_compute. repeat split.
  - reflexivity.
  - vm_compute. by split.
  - reflexivity.
  - reflexivity.
  - vm_compute. by split.
  - unfold writable_state. by rewrite E1.
Qed.
Lemma write_permission_survives_fork_witness :
  ∃ s' e', change_flags_in_parent_page_tables 0x5000 (frame_at 0x400000 0) copy_flags writable_state = Ok (0, s')
    ∧ leaf_entry (k_heap s') (frame_at 0x400000 0) 0x5000 = Some e' ∧ Z.testbit e' 1 = true.
Proof.
  destruct (write_permission_survives_fork writable_state (frame_at 0x400000 0) 0x5000 (Z.lor (frame_at 0x400000 2) 7) writable_wf
    ltac:(vm_compute; reflexivity) ltac:(vm_compute; reflexivity)) as (s' & e' & E & H1 & H2 & _).
  exists s', e'. split; [exact E|]. split; [exact H1|exact H2].
Defined.


