(* ===== verification/Faults.v ===== *)
(** * Faults outside every area (sys/page_faults.c, sys/signal.c)

    What the handler does with an address no area contains, and with pages
    of a file. *)

From S2P Require Export PageFault.

Lemma find_none s test l : ∀ n p a q, dseg (k_heap s) p a l q 0 → (length l < n)%nat →
  (∀ x v p n, (x, v) ∈ l → test (links p n v) = false) → find_loop n test a s = Ok (NULL, s).
Proof.
  induction l as [|[x v] l IH]; intros n p a q Hd Hn Hno; (destruct n as [|n]; [cbn in Hn; lia|]); cbn [find_loop].
  - by destruct Hd as [_ ->].
  - destruct Hd as (-> & Hx & b & Hb & Hd). rewrite (proj2 (Z.eqb_neq x NULL) Hx). mstep (load_vma s x _ Hb).
    rewrite (Hno x) by (by left). cbn in Hn. apply (IH n x b q Hd); [lia|]. intros y w p' n' Hin. apply (Hno y). by right.
Qed.

(** The walk returns an area as soon as one starts above the address. *)
Lemma closest_some s addr l : ∀ n p a q, dseg (k_heap s) p a l q 0 → (length l < n)%nat →
  (p = 0 ∨ ∃ u, k_heap s !! p = Some (OVma u)) → (∃ x v, (x, v) ∈ l ∧ addr < v_start_addr v) →
  ∃ y, closest_loop n addr a s = Ok (y, s) ∧ y ≠ 0.
Proof.
  induction l as [|[x v] l IH]; intros n p a q Hd Hn Hp (x' & v' & Hin & Hlt); [by apply elem_of_nil in Hin|].
  destruct n as [|n]; [cbn in Hn; lia|]. destruct Hd as (-> & Hx & b & Hb & Hd). cbn [closest_loop].
  rewrite (proj2 (Z.eqb_neq x NULL) Hx). mstep (load_vma s x _ Hb).
  change (v_start_addr (links p b v)) with (v_start_addr v). change (v_prev (links p b v)) with p.
  change (v_next (links p b v)) with b. destruct (Z.ltb_spec addr (v_start_addr v)) as [Hl|Hl].
  - destruct (Z.eqb_spec p NULL) as [->|Hp0]; cbn [negb]; [by exists x|]. destruct Hp as [->|[u Hu]]; [done|].
    mstep (load_vma s p u Hu). destruct (_ <=? _); [by exists x|by exists p].
  - cbn in Hn. apply (IH n x b q Hd); [lia|right; by eexists|].
    apply elem_of_cons in Hin as [[= -> ->]|Hin]; [lia|]. by exists x', v'.
Qed.
Lemma closest_none s addr l : ∀ n p a q, dseg (k_heap s) p a l q 0 → (length l < n)%nat →
  (∀ x v, (x, v) ∈ l → v_start_addr v ≤ addr) → closest_loop n addr a s = Ok (NULL, s).
Proof.
  induction l as [|[x v] l IH]; intros n p a q Hd Hn Hno; (destruct n as [|n]; [cbn in Hn; lia|]); cbn [closest_loop].
  - by destruct Hd as [_ ->].
  - destruct Hd as (-> & Hx & b & Hb & Hd). rewrite (proj2 (Z.eqb_neq x NULL) Hx). mstep (load_vma s x _ Hb).
    change (v_start_addr (links p b v)) with (v_start_addr v).
    rewrite (proj2 (Z.ltb_ge _ _)) by (apply (Hno x); by left). cbn in Hn.
    apply (IH n x b q Hd); [lia|]. intros y w Hin. apply (Hno y). by right.
Qed.

(** A signal a process sends to itself only prints. *)
Lemma kill_self s cur c sig rsp : current (k_proc s) = cur → get_pcb s cur = Some c → 0 ≤ p_pid c →
  ∃ r con, sys_kill (p_pid c) sig rsp s = Ok (r, set_k_con con s).
Proof.
  intros Hcur Hc Hpid. unfold sys_kill, get_current_process. mnorm. rewrite Hcur.
  rewrite (proj2 (Z.ltb_ge _ _)) by lia. destruct ((p_pid c =? 0) || (p_pid c =? 1)).
  - eexists _, _. reflexivity.
  - mstep (load_some as_pcb cur _ c s (get_pcb_heap _ _ _ Hc) eq_refl). rewrite Z.eqb_refl.
    eexists _, _. reflexivity.
Qed.

(** C35: a fault outside every area.  When no area contains the address, the
    handler never ends the process: if some area starts above the address it
    only prints a message, and the instruction that faulted is run again;
    if none does, it reads the area at address 0. *)
Theorem fault_outside_areas tar junk s regs err addr rsp cur c m l :
  current (k_proc s) = cur → get_pcb s cur = Some c → 0 ≤ p_pid c → areas_are s (p_mm c) m l →
  (KERNBASE <? addr) && (err <? 4) = false → (∀ x v, (x, v) ∈ l → in_area v addr = false) →
  ((∃ x v, (x, v) ∈ l ∧ addr < v_start_addr v) →
     ∃ con, do_page_fault tar junk regs err addr rsp s = Ok (tt, set_k_con con s))
  ∧ ((∀ x v, (x, v) ∈ l → v_start_addr v ≤ addr) → k_heap s !! 0 = None →
     do_page_fault tar junk regs err addr rsp s = Ub).
Proof.
  intros Hcur Hc Hpid Har Hk Hno. pose proof (areas_fuel _ _ _ _ Har) as Hfu. pose proof Har as [Hm [q Hd] _].
  assert (Hf : find_vma (p_mm c) addr s = Ok (NULL, s)).
  { unfold find_vma. mstep (load_some as_mm _ _ m s Hm eq_refl). unfold fuel. mnorm.
    apply (find_none s _ l _ 0 _ q Hd Hfu). intros x v p n Hin. exact (Hno x v Hin). }
  assert (Hstart : ∀ y, find_closest_vma (p_mm c) addr s = Ok (y, s) → do_page_fault tar junk regs err addr rsp s =
    (if y =? NULL then
      v ← load as_vma y;
      when (v_start_addr v =? STACK_START)
        (err ← expand_stack (p_mm c) addr;
         when (err <? 0) (c ← load as_pcb cur; sys_kill (p_pid c) 11 rsp;; mret tt))
     else c ← load as_pcb cur; sys_kill (p_pid c) 11 rsp;; mret tt) s).
  { intros y Hy. unfold do_page_fault, get_current_process. rewrite Hk. mnorm. rewrite Hcur.
    mstep (load_some as_pcb cur _ c s (get_pcb_heap _ _ _ Hc) eq_refl). mstep Hf. change (NULL =? NULL) with true. cbv iota. by mstep Hy. }
  assert (Hcl : ∀ y, closest_loop (S (size (k_heap s))) addr (mm_vma m) s = Ok (y, s) →
    find_closest_vma (p_mm c) addr s = Ok (y, s)).
  { intros y Hy. unfold find_closest_vma. by mstep (load_some as_mm _ _ m s Hm eq_refl). }
  split.
  - intros Hex. destruct (closest_some s addr l _ 0 _ q Hd Hfu ltac:(by left) Hex) as (y & Ey & Hy0).
    rewrite (Hstart y (Hcl y Ey)), (proj2 (Z.eqb_neq y NULL) Hy0).
    mstep (load_some as_pcb cur _ c s (get_pcb_heap _ _ _ Hc) eq_refl).
    destruct (kill_self s cur c 11 rsp Hcur Hc Hpid) as (r & con & E). mstep E. by exists con.
  - intros Hall H0. rewrite (Hstart NULL (Hcl _ (closest_none s addr l _ 0 _ q Hd Hfu Hall))). cbn [Z.eqb NULL].
    apply bind_ub. unfold load. change NULL with 0. by rewrite H0.
Qed.

(** ** Pages of a file *)

(** Loads of objects other than tables. *)
Lemma load_keeps {A} (as_ : obj → option A) s s' a x : (∀ t, as_ (OTable t) = None) →
  keeps_objects (k_heap s) (k_heap s') → load as_ a s = Ok (x, s) → load as_ a s' = Ok (x, s').
Proof.
  intros Hn Hk (_ & o & Ho & Hx)%load_inv. apply (load_some as_ a o); [|done]. apply Hk; [done|].
  intros t ->. by rewrite Hn in Hx.
Qed.
Lemma tar_file_keeps tar s s' fp f i d : keeps_objects (k_heap s) (k_heap s') → k_fs s' = k_fs s →
  tar_file tar s fp f i d → tar_file tar s' fp f i d.
Proof.
  intros Hk Hfs [H1 (o & H2 & H2') H3 H4 H5 H6]. constructor; try done.
  - by apply Hk.
  - exists o. split; [by apply (load_keeps as_fops s)|done].
  - eapply (get_inode_state s); [intros ? ?; by apply (load_keeps _ s)..|done|exact H3].
Qed.

(** A read anywhere inside the file. *)
Lemma vfs_read_at tar s fp f i d n o : tar_file tar s fp f i d → 0 ≤ o → 0 ≤ n < 2 ^ 31 → o + n ≤ i_size i →
  let buf := take (Z.to_nat n) (drop (Z.to_nat o) (contents tar i d)) in
  vfs_read tar fp n o s = Ok ((n, buf), with_file fp (set_f_offset (u64 (f_offset f + n)) f) s)
  ∧ length buf = Z.to_nat n.
Proof.
  intros [H1 (op & H2 & H2') H3 H4 (H5 & H6 & H7) H8] Ho Hn Hon buf. split.
  - pose proof (load_some as_file _ _ f s H1 eq_refl) as Hl. unfold vfs_read. mstep Hl. mstep H2. rewrite H2'.
    unfold tarfs_read. mstep Hl. mstep H3. rewrite (u64_small (i_size i)), (u64_small (o + n)) by lia.
    assert ((if i_size i <=? o + n then i64 (i_size i - o) else i64 n) = n) as ->.
    { destruct (Z.leb_spec (i_size i) (o + n)); rewrite i64_small by lia; lia. }
    mstep (copy_from_ok tar s i d o n H4 ltac:(lia) ltac:(lia) ltac:(lia) ltac:(lia) ltac:(lia) ltac:(lia)).
    by rewrite (bind_ok _ _ _ _ _ (update_ok as_file OFile fp _ f _ s H1 eq_refl)).
  - unfold buf. rewrite length_take, length_drop, contents_length by lia. lia.
Qed.

(** The part of the file behind a page that starts inside the area. *)
Lemma file_window_inside v al : v_start_addr v ≤ al < v_end_addr v → 0 ≤ v_start_addr v → v_end_addr v < 2 ^ 63 →
  let n := Z.min 4096 (v_end_addr v - al) in
  let o := v_fileoffset v + (al - v_start_addr v) in
  0 ≤ o < 2 ^ 31 → file_window v al = Some (al, n, o).
Proof.
  intros Hal H0 He n o Ho. unfold file_window. change PAGE_BLOCK_SIZE with 4096. rewrite (u64_small (al + 4096)) by lia.
  rewrite (proj2 (Z.ltb_ge al _)), (proj2 (Z.ltb_lt al (v_end_addr v))) by lia.
  destruct (Z.ltb_spec (v_start_addr v) al) as [Hlt|Hge]; cbn [andb].
  - fold o. rewrite (i32_small o) by lia. f_equal. f_equal. f_equal.
    destruct (Z.leb_spec (al + 4096) (v_end_addr v)); [lia|]. rewrite i32_small; lia.
  - rewrite (proj2 (Z.eqb_eq _ _)) by lia. replace (v_fileoffset v) with o by lia. rewrite (i32_small o) by lia.
    f_equal. f_equal. f_equal. destruct (Z.leb_spec (al + 4096) (v_end_addr v)); [lia|]. rewrite i32_small; lia.
Qed.

Lemma user_put_start s addr f b bytes : addr mod 4096 = 0 → translate (k_heap s) (cr3 (k_cpu s)) addr = Some f →
  k_heap s !! kv f = Some (OBytes b) → (length bytes ≤ length b)%nat →
  user_put addr bytes s = Ok (tt, upd_heap <[kv f := OBytes (bytes ++ drop (length bytes) b)]> s).
Proof.
  intros Ha Ht Hb Hl. unfold user_put, mmu. rewrite bind_assoc. mnorm. rewrite Ht. cbn [of_option]. mnorm.
  mstep (load_some as_bytes (kv f) _ b s Hb eq_refl). rewrite Ha. change (Z.to_nat 0) with 0%nat. cbn [Nat.add take app].
  by rewrite (proj2 (Nat.leb_le _ _)).
Qed.

(** The page mapped and cleared, with everything else in place. *)
Lemma file_page_ready base k s junk m v addr : frontier base k s → k + 4 ≤ n_frames s → tree_wf (k_heap s) (mm_cr3 m) →
  4096 ≤ addr < 2 ^ 64 → length junk = 4096%nat →
  let f := frame_at base k in
  ∃ s1 s', user_frame junk s = Ok (f, s1) ∧ keeps_objects (k_heap s) (k_heap s1)
    ∧ (map_virtual_address_to_physical_address (page_round_up addr) f (area_flags v) (mm_cr3 m) 0;;
       user_memset (page_round_up addr) (PAGE_BLOCK_SIZE - 1)) s1 = Ok (tt, s')
    ∧ brought_in base k (mm_cr3 m) addr f zero_bytes [] s s' ∧ k_fs s' = k_fs s.
Proof.
  intros Hf Hk Hwf Ha Hj f. destruct (page_round_up_start addr Ha) as [Hal Hpn].
  destruct (area_flags_ok v) as [Hpf Hfr]. destruct (data_frame_range base k s Hf ltac:(lia)) as [Hfa Hf0].
  destruct (user_frame_ok base k s junk Hf ltac:(lia)) as (s1 & E1 & Hh1 & S1 & K1 & Hf1 & Hn1 & _ & Hfs1).
  destruct (map_and_clear base (k + 1) s1 (mm_cr3 m) (page_round_up addr) f (area_flags v) junk)
    as (k' & s2 & E2 & Hf2 & Hk2 & _ & Hwf2 & Ht2 & Hb2 & Hk2' & Hc2 & Hfs2 & _); try done.
  { lia. }
  { by apply (ss_wf _ _ _ S1). }
  { rewrite Hh1. apply lookup_insert_eq. }
  exists s1, s2. split_and!; [done..| |congruence].
  constructor; [done| |done| |exists k'; split; [done|lia]|done].
  - intros w. rewrite Ht2, Hpn. case_decide; [done|]. by rewrite (ss_translate _ _ _ _ S1).
  - intros x o _ Hx Ho. apply Hk2'; [by apply (fresh_ne _ _ _ _ _ Hf Hx)|by apply K1|done].
Qed.

(** C18: a page of a file.  A fault in an area backed by an open file, on a
    page that starts inside the area and whose part of the file exists,
    returns 1; the page, and no other address, is then mapped to a fresh
    frame that holds the bytes of the file up to the end of the area,
    followed by zeros. *)
Theorem file_fault_reads_page tar base k s junk mm m vma v addr f i d :
  frontier base k s → k + 4 ≤ n_frames s → k_heap s !! mm = Some (OMm m) → tree_wf (k_heap s) (mm_cr3 m) →
  k_heap s !! vma = Some (OVma v) → tar_file tar s (mm_file m) f i d →
  4096 ≤ addr < 2 ^ 64 → length junk = 4096%nat →
  let al := page_round_up addr in
  v_start_addr v ≤ al < v_end_addr v → 0 ≤ v_start_addr v → v_end_addr v < 2 ^ 63 → 0 ≤ v_fileoffset v →
  let n := Z.min 4096 (v_end_addr v - al) in
  let o := v_fileoffset v + (al - v_start_addr v) in
  o + n ≤ i_size i →
  ∃ s', do_file_fault tar junk mm vma addr s = Ok (1, s')
    ∧ brought_in base k (mm_cr3 m) addr (frame_at base k)
        (take (Z.to_nat n) (drop (Z.to_nat o) (contents tar i d)) ++ drop (Z.to_nat n) zero_bytes) [mm_file m] s s'.
Proof.
  intros Hf Hk Hm Hwf Hv Htf Ha Hj al Hal H0 He Hfo n o Hon. pose proof (tf_bounds _ _ _ _ _ _ Htf) as (Hd & Hsz & _).
  destruct (file_page_ready base k s junk m v addr Hf Hk Hwf Ha Hj) as (s1 & s2 & E1 & K1 & E2 & B & Hfs).
  pose proof (page_round_up_start addr Ha) as [Hal0 Hpn]. fold al in Hal0, Hpn, E2.
  assert (K2 : keeps_objects (k_heap s) (k_heap s2)).
  { intros x o' Hx Ho'. by apply (bi_keeps _ _ _ _ _ _ _ _ _ B); [apply not_elem_of_nil|..]. }
  pose proof (tar_file_keeps tar s s2 _ f i d K2 Hfs Htf) as Htf2.
  destruct (vfs_read_at tar s2 (mm_file m) f i d n o Htf2 ltac:(lia) ltac:(lia) Hon) as [E3 Hlen].
  set (bytes := take (Z.to_nat n) (drop (Z.to_nat o) (contents tar i d))) in *.
  set (f' := set_f_offset (u64 (f_offset f + n)) f) in *. set (s3 := with_file (mm_file m) f' s2) in *.
  pose proof (tf_file _ _ _ _ _ _ Htf2) as Hfp2. pose proof (bi_bytes _ _ _ _ _ _ _ _ _ B) as HF2.
  set (F := frame_at base k) in *. assert (Hne : mm_file m ≠ kv F) by (intros E; rewrite E in Hfp2; congruence).
  assert (S3 : same_space (k_heap s2) (k_heap s3)) by (apply obj_space; [intros t; by rewrite Hfp2|done]).
  assert (HF3 : k_heap s3 !! kv F = Some (OBytes zero_bytes)) by (cbn; by rewrite lookup_insert_ne).
  assert (Hu : translate (k_heap s3) (cr3 (k_cpu s3)) al = Some F).
  { rewrite (ss_translate _ _ _ _ S3). change (k_cpu s3) with (k_cpu s2).
    rewrite (bi_cr3 _ _ _ _ _ _ _ _ _ B), (bi_translate _ _ _ _ _ _ _ _ _ B). by rewrite decide_True. }
  pose proof (user_put_start s3 al F zero_bytes bytes Hal0 Hu HF3 ltac:(change (length zero_bytes) with 4096%nat; lia)) as E4.
  rewrite Hlen in E4. set (s4 := upd_heap _ s3) in E4.
  assert (S4 : same_space (k_heap s3) (k_heap s4)) by (apply data_space; intros t; by rewrite HF3).
  exists s4. split.
  - unfold do_file_fault. mstep (load_vma s vma v Hv). mstep E1.
    mstep (load_some as_mm mm _ m s1 ltac:(by apply K1) eq_refl). fold F al. rewrite <- bind_assoc. mstep E2.
    mstep (load_vma s2 vma v ltac:(by apply K2)). rewrite (file_window_inside v al Hal H0 He) by lia. fold n o.
    mstep (load_some as_mm mm _ m s2 ltac:(by apply K2) eq_refl). rewrite (u64_small n), (u64_small o) by lia.
    mstep E3. mstep E4. rewrite (i32_small n) by lia.
    rewrite (proj2 (Z.leb_gt n 0)), (proj2 (Z.ltb_ge n n)) by lia. by rewrite andb_false_r.
  - constructor.
    + apply (ss_wf _ _ _ S4), (ss_wf _ _ _ S3), (bi_wf _ _ _ _ _ _ _ _ _ B).
    + intros w. by rewrite (ss_translate _ _ _ _ S4), (ss_translate _ _ _ _ S3), (bi_translate _ _ _ _ _ _ _ _ _ B).
    + apply lookup_insert_eq.
    + intros x o' Hx Ho' Ht. cbn. rewrite !lookup_insert_ne; [by apply K2|set_solver|].
      by apply not_eq_sym, (fresh_ne _ _ _ _ _ Hf Ho').
    + destruct (bi_frontier _ _ _ _ _ _ _ _ _ B) as (k' & Hf' & Hk'). exists k'. split; [|done].
      eapply frontier_insert; [|exact HF3]. by eapply frontier_insert.
    + apply (bi_cr3 _ _ _ _ _ _ _ _ _ B).
Qed.

(** ** Witnesses *)

(** A process with one area from 0x4000 to 0x8000. *)
Definition outside_state : kst :=
  upd_proc (set_current (fr 3)) (upd_heap <[fr 3 := OPcb (set_p_mm (fr 1) (mk_proc 5 0))]> anon_state).
Lemma fault_outside_areas_witness :
  (∃ con, do_page_fault [] [] 0 6 0x1000 0 outside_state = Ok (tt, set_k_con con outside_state))
  ∧ do_page_fault [] [] 0 6 0x9000 0 outside_state = Ub.
Proof.
  assert (Har : areas_are outside_state (fr 1) anon_mm [(fr 2, anon_area)]).
  { constructor; [vm_compute; reflexivity| |apply NoDup_singleton].
    exists (fr 2). split; [done|]. split; [done|]. exists 0. split; [vm_compute; reflexivity|done]. }
  split.
  - apply (fault_outside_areas [] [] outside_state 0 6 0x1000 0 (fr 3) (set_p_mm (fr 1) (mk_proc 5 0)) anon_mm [(fr 2, anon_area)]).
    + reflexivity.
    + vm_compute. reflexivity.
    + vm_compute. discriminate.
    + exact Har.
    + reflexivity.
    + intros x v [= -> ->]%list_elem_of_singleton. reflexivity.
    + exists (fr 2), anon_area. split; [by left|]. reflexivity.
  - apply (fault_outside_areas [] [] outside_state 0 6 0x9000 0 (fr 3) (set_p_mm (fr 1) (mk_proc 5 0)) anon_mm [(fr 2, anon_area)]).
    + reflexivity.
    + vm_compute. reflexivity.
    + vm_compute. discriminate.
    + exact Har.
    + reflexivity.
    + intros x v [= -> ->]%list_elem_of_singleton. reflexivity.
    + intros x v [= -> ->]%list_elem_of_singleton. vm_compute. discriminate.
    + vm_compute. reflexivity.
Defined.

(** The five characters of a file as an area at 0x4000. *)
Definition text_area : vm_map_entry := Vma 0x4000 0x4005 5 5 0 PROT_READ (kv 0x2000) 0 0 (Some do_file_fault_fn).
Definition text_mm : mm_struct := Mm (fr 2) 0 (kv 0x2000) 0 (frame_at 0x400000 0).
Definition text_state : kst :=
  set_k_fs (FsGlobals 0 (kv 0x6000) (kv 0x5000) 0 100 0) (machine 3 10
    (<[fr 0 := OTable zero_table]> (<[fr 1 := OMm text_mm]> (<[fr 2 := OVma text_area]> demo_heap)))).
Lemma file_fault_reads_page_witness : ∃ s', do_file_fault demo_tar zero_bytes (fr 1) (fr 2) 0x4003 text_state = Ok (1, s')
  ∧ k_heap s' !! fr 3 = Some (OBytes (bytes_of_string "hello" ++ drop 5 zero_bytes)).
Proof.
  destruct (file_fault_reads_page demo_tar 0x400000 3 text_state zero_bytes (fr 1) text_mm (fr 2) text_area 0x4003
    (File 0 1 0 0 (kv 0x3000) (kv 0x4000)) (Inode 3 5 (chr "0") (Some 2) 0 0 (kv 0x3000)) 2) as (s' & E & B).
  - cut (frontier 0x400000 3 (set_k_fs (k_fs blank_kst) text_state)); [intros []; by constructor|].
    apply (machine_frontier 3 10); [lia|]. intros j Hj.
    do 3 (destruct j as [|j]; [lia|]). do 8 (destruct j as [|j]; [vm_compute; reflexivity|]). lia.
  - vm_compute. discriminate.
  - vm_compute. reflexivity.
  - apply empty_tree_wf; [vm_compute; reflexivity|]. vm_compute. repeat split.
  - vm_compute. reflexivity.
  - constructor; [vm_compute; reflexivity|eexists; split; vm_compute; reflexivity|vm_compute; reflexivity|done| |by cbn].
    split; [done|]. split; [done|]. by vm_compute.
  - vm_compute. split; [discriminate|reflexivity].
  - vm_compute. reflexivity.
  - vm_compute. split; [discriminate|reflexivity].
  - vm_compute. discriminate.
  - vm_compute. reflexivity.
  - vm_compute. discriminate.
  - vm_compute. discriminate.
  - exists s'. split; [exact E|exact (bi_bytes _ _ _ _ _ _ _ _ _ B)].
Defined.
