(* ===== verification/Frames.v ===== *)
(** * Routines that only take new frames

    [extends base k k' s s']: between the two states the frames from [k] to
    [k'] were taken, everything that was in the store is still there, and
    only the allocator, the screen and the store have changed.  The lemmas
    run an allocation and the writes to a frame taken since [s]. *)

From S2P Require Export Process.

Definition same_but_memory (s s' : kst) : Prop := ∃ m c h, s' = set_k_heap h (set_k_con c (set_k_phys m s)).

Record extends (base k k' : Z) (s s' : kst) : Prop := {
  ex_frontier : frontier base k' s';
  ex_range : k ≤ k';
  ex_frames : n_frames s' = n_frames s;
  ex_keeps : k_heap s ⊆ k_heap s';
  ex_rest : same_but_memory s s'
}.

Section extends.
Context (base : Z).

Lemma same_but_memory_trans s1 s2 s3 : same_but_memory s1 s2 → same_but_memory s2 s3 → same_but_memory s1 s3.
Proof. intros (m & c & h & ->) (m' & c' & h' & ->). by exists m', c', h'. Qed.
Lemma ex_fs k k' s s' : extends base k k' s s' → k_fs s' = k_fs s.
Proof. by intros [_ _ _ _ (m & c & h & ->)]. Qed.
Lemma ex_proc k k' s s' : extends base k k' s s' → k_proc s' = k_proc s.
Proof. by intros [_ _ _ _ (m & c & h & ->)]. Qed.
Lemma ex_paging k k' s s' : extends base k k' s s' → k_is_paging s' = k_is_paging s.
Proof. by intros [_ _ _ _ (m & c & h & ->)]. Qed.
Lemma ex_cpu k k' s s' : extends base k k' s s' → k_cpu s' = k_cpu s.
Proof. by intros [_ _ _ _ (m & c & h & ->)]. Qed.

Lemma extends_refl k s : frontier base k s → extends base k k s s.
Proof.
  intros H. constructor; [done|lia|done|done|].
  exists (k_phys s), (k_con s), (k_heap s). by destruct s.
Qed.
Lemma extends_trans k1 k2 k3 s1 s2 s3 :
  extends base k1 k2 s1 s2 → extends base k2 k3 s2 s3 → extends base k1 k3 s1 s3.
Proof.
  intros [] []. constructor; [done|lia|congruence|by etransitivity|by eapply same_but_memory_trans].
Qed.

(** What was in the store is read as before. *)
Lemma ex_lookup k k' s s' a o : extends base k k' s s' → k_heap s !! a = Some o → k_heap s' !! a = Some o.
Proof. intros H Ha. by eapply lookup_weaken; [|apply (ex_keeps _ _ _ _ _ H)]. Qed.
Lemma ex_load {A} (as_ : obj → option A) k k' s s' a x : extends base k k' s s' →
  load as_ a s = Ok (x, s) → load as_ a s' = Ok (x, s').
Proof.
  intros H (_ & o & Ho & Hx)%load_inv. eapply load_some; [|exact Hx]. by eapply ex_lookup.
Qed.

(** Taking a frame, in the middle of a routine that started in [s]. *)
Lemma extends_alloc k k1 s s1 : extends base k k1 s s1 → k1 < n_frames s →
  ∃ s2, phys_mem_alloc s1 = Ok (frame_at base k1, s2) ∧ extends base k (k1 + 1) s s2 ∧ k_heap s2 = k_heap s1.
Proof.
  intros H Hk. destruct (alloc_frontier base k1 s1 (ex_frontier _ _ _ _ _ H)) as (s2 & E & Hf & Hh & Hn & (m & c & ->)).
  { rewrite (ex_frames _ _ _ _ _ H). lia. }
  eexists. split; [exact E|]. split; [|exact Hh].
  apply (extends_trans _ k1 _ _ s1); [done|]. constructor; [done|lia|done|by rewrite Hh|].
  exists m, c, (k_heap s1). by destruct s1.
Qed.

(** A frame taken since [s] is not in the store of [s]. *)
Lemma new_frame k j s : frontier base k s → k ≤ j ≤ n_frames s → k_heap s !! kv (frame_at base j) = None.
Proof. intros H Hj. by apply (fr_clean _ _ _ H). Qed.

Lemma ex_top k k1 s s1 : extends base k k1 s s1 → k1 ≤ n_frames s.
Proof. intros H. rewrite <- (ex_frames _ _ _ _ _ H). apply (fr_range _ _ _ (ex_frontier _ _ _ _ _ H)). Qed.
Lemma ex_bottom k k1 s s1 : extends base k k1 s s1 → 0 ≤ k1.
Proof. intros H. apply (fr_range _ _ _ (ex_frontier _ _ _ _ _ H)). Qed.

Lemma extends_store k k1 s s1 j o : frontier base k s → extends base k k1 s s1 → k ≤ j < k1 →
  extends base k k1 s (upd_heap <[kv (frame_at base j) := o]> s1).
Proof.
  intros Hf H Hj. pose proof (ex_top _ _ _ _ H) as Ht. pose proof (fr_range _ _ _ Hf).
  pose proof (new_frame k j s Hf ltac:(lia)) as Hn. destruct H as [H1 H2 H3 H4 H5]. constructor.
  - apply frontier_heap; [done|]. intros j' Hj'. rewrite lookup_insert_ne; [by apply (fr_clean _ _ _ H1)|].
    intros E. apply (frame_inj _ _ _ _ _ H1) in E; lia.
  - done.
  - done.
  - cbn. by apply insert_subseteq_r.
  - apply (same_but_memory_trans _ s1); [done|]. by exists (k_phys s1), (k_con s1), (<[kv (frame_at base j) := o]> (k_heap s1)).
Qed.

(** Clearing the last frame taken touches no other. *)
Lemma memset_last k s o : frontier base k s → 0 ≤ k - 1 →
  memset_frame (kv (frame_at base (k - 1))) o s = Ok (tt, upd_heap <[kv (frame_at base (k - 1)) := o]> s).
Proof.
  intros Hf Hk. pose proof (fr_range _ _ _ Hf) as Hr. apply memset_frame_clean.
  pose proof (frame_range _ _ _ (k - 1) Hf ltac:(lia)). pose proof (frame_range _ _ _ k Hf ltac:(lia)).
  rewrite frame_next by (unfold frame_at in *; lia). replace (k - 1 + 1) with k by lia.
  apply (fr_clean _ _ _ Hf). lia.
Qed.

(** A frame is not at an address of another frame or of an object of [s]. *)
Lemma frame_ne k s i j : frontier base k s → 0 ≤ i ≤ n_frames s → 0 ≤ j ≤ n_frames s → i ≠ j →
  kv (frame_at base i) ≠ kv (frame_at base j).
Proof. intros H Hi Hj Hij E. by apply (frame_inj _ _ _ _ _ H) in E. Qed.
Lemma frame_nz k s j : frontier base k s → 0 ≤ j ≤ n_frames s → kv (frame_at base j) ≠ 0.
Proof.
  intros H Hj. pose proof (kv_kern _ (is_frame_at _ _ _ _ H Hj)). unfold KERNBASE in *. lia.
Qed.
End extends.

(** A write outside the store of [s] and the frames still free. *)
Lemma extends_store_at base k k1 s s1 a o : extends base k k1 s s1 → k_heap s !! a = None →
  (∀ j, k1 ≤ j ≤ n_frames s → a ≠ kv (frame_at base j)) → extends base k k1 s (upd_heap <[a := o]> s1).
Proof.
  intros [H1 H2 H3 H4 H5] Ha Hj. constructor; [|done|done| |].
  - apply frontier_heap; [done|]. intros j Hr. rewrite lookup_insert_ne; [by apply (fr_clean _ _ _ H1)|].
    apply Hj. lia.
  - cbn. by apply insert_subseteq_r.
  - apply (same_but_memory_trans _ s1); [done|]. by exists (k_phys s1), (k_con s1), (<[a := o]> (k_heap s1)).
Qed.

(** The file-system globals play no part. *)
Lemma frontier_fs base k f s : frontier base k s → frontier base k (upd_fs f s).
Proof. by intros []. Qed.
Lemma extends_fs base k k' f s s' : extends base k k' s s' → extends base k k' (upd_fs f s) (upd_fs f s').
Proof.
  intros [H1 H2 H3 H4 (m & c & h & ->)]. constructor; [by apply frontier_fs|done|done|done|]. by exists m, c, h.
Qed.
