(* ===== verification/Tarfs.v ===== *)
(** * The tar file system (sys/tarfs.c, sys/fs.c)

    [tarfs_init] goes through the tar image and lists every entry of it in
    the inode array and in the cache of directory entries; opening a file
    looks its path up in the cache; [sys_getdents] lists a directory.  The
    archive is specified by the relation [archive] between a list of entries
    and an image. *)

From S2P Require Export Frames.

(** ** Paths *)

(** [while(temps != filename && *temps != '/') temps--] from index [i]. *)
Fixpoint back_to_slash (b : list Z) (i : nat) : nat :=
  match i with
  | O => O
  | S i' => if bool_decide (b !! i = Some (chr "/")) then i else back_to_slash b i'
  end.
(** [for(k = 0; *(ntemps + k) != '/'; k++)]. *)
Fixpoint to_slash (b : list Z) : option nat :=
  match b with
  | [] => None
  | c :: b' => if c =? chr "/" then Some 0%nat else S <$> to_slash b'
  end.

Section tarfs.
(** The image, the address of the literal that the root's name is, and what a
    new frame of characters holds. *)
Context (tar : list Z) (slash : Z) (junk : list Z).

(** A path that ends in a slash: the parent is the root, the child the part
    before the first slash, without a terminator. *)
Definition directory_parts (temp filename : Z) : M kst unit :=
  p ← phys_mem_alloc;
  update_name temp (set_n_parent (kv p));;
  store (kv p) (OBytes (chr "/" :: 0 :: drop 2 junk));;
  q ← phys_mem_alloc;
  update_name temp (set_n_child (kv q));;
  b ← load as_bytes filename;
  k ← of_option (to_slash b);
  store (kv q) (OBytes (take k b ++ drop k junk)).
(** Any other path: the parts before and after its last slash, at [i]. *)
Definition file_parts (temp filename : Z) (i : nat) : M kst unit :=
  if (i =? 0)%nat then
    update_name temp (set_n_child filename);;
    update_name temp (set_n_parent slash)
  else
    update_name temp (set_n_child (filename + Z.of_nat i + 1));;
    p ← phys_mem_alloc;
    update_name temp (set_n_parent (kv p));;
    b ← load as_bytes filename;
    store (kv p) (OBytes (take i b ++ 0 :: drop (S i) junk)).
(** Pointers to the parent and the child part of a path, in a new frame.  For
    the empty path the character before it is read. *)
Definition get_parent_and_child_directories (filename : Z) : M kst Z :=
  a ← phys_mem_alloc;
  let temp := kv a in
  memset_frame temp (OName (Name 0 0));;
  if filename =? NULL then
    update_name temp (set_n_parent NULL);; update_name temp (set_n_child NULL);; mret temp
  else
    b ← load as_bytes filename;
    n ← of_option (my_strlen b);
    c ← of_option (if n =? 0 then None else b !! Z.to_nat (n - 1));
    (if c =? chr "/" then directory_parts temp filename
     else file_parts temp filename (back_to_slash b (Z.to_nat (n - 1))));;
    mret temp.

(** The first inode whose directory entry matches the name. *)
Fixpoint parent_loop (l : list inode) (parent : list Z) : M kst Z :=
  match l with
  | [] => ub
  | i :: l' =>
      if i_number i =? 0 then mret NULL else
      d ← load as_dentry (i_dentry i);
      m ← name_matches (d_name d) parent;
      if m : bool then mret (i_dentry i) else parent_loop l' parent
  end.
Definition get_parent_dentry (name : Z) : M kst Z :=
  temp ← get_parent_and_child_directories name;
  t ← load as_name temp;
  if n_parent t =? NULL then mret NULL else
  s ← get;
  l ← load as_inodes (s_inodes (k_fs s));
  p ← load as_bytes (n_parent t);
  parent_loop l p.

(** ** Directory entries *)

Definition zero_dentry : dentry := Dentry (replicate 100 0) 0 0.
Definition new_dentry_operations (d : Z) : M kst unit :=
  o ← phys_mem_alloc;
  update_dentry d (set_d_op (kv o));;
  store (kv o) (ODops (Dops NULL NULL)).

Definition dentry_for_this_inode (name : Z) : M kst Z :=
  a ← phys_mem_alloc;
  let tarfs_dentry := kv a in
  store tarfs_dentry (ODentry zero_dentry);;
  b ← load as_bytes name;
  d ← load as_dentry tarfs_dentry;
  n ← of_option (my_memcpy (d_name d) b 100);
  update_dentry tarfs_dentry (set_d_name n);;
  p ← get_parent_dentry name;
  update_dentry tarfs_dentry (set_d_parent p);;
  new_dentry_operations tarfs_dentry;;
  mret tarfs_dentry.

Definition create_root_dentry : M kst Z :=
  a ← phys_mem_alloc;
  let d_root := kv a in
  store d_root (ODentry zero_dentry);;
  n ← of_option (my_memcpy (d_name zero_dentry) [chr "/"; 0] 1);
  update_dentry d_root (set_d_name n);;
  update_dentry d_root (set_d_parent NULL);;
  new_dentry_operations d_root;;
  insert_inode_into_superblock (set_i_dentry d_root (set_i_number 2 bare_inode));;
  insert_dentry_into_dentry_cache 2 d_root;;
  mret d_root.

(** ** The image *)

(** [n] bytes of the image from offset [off] on. *)
Definition tar_at (off n : Z) : option (list Z) :=
  if (0 <=? off) && (off + n <=? Z.of_nat (length tar))
  then Some (take (Z.to_nat n) (drop (Z.to_nat off) tar)) else None.
(** [my_memcmp(temp + 257, "ustar", 5) == 0]. *)
Definition is_header (temp : Z) : M kst bool :=
  m ← of_option (tar_at (temp + 257) 5);
  r ← of_option (my_memcmp m (bytes_of_string "ustar") 5);
  mret (r =? 0).
Definition size_of_entry (temp : Z) : M kst Z :=
  d ← of_option (tar_at (temp + 124) 11);
  of_option (oct2dec d 11).
(** [temp += (((filesize + 511) / 512) + 1) * 512]. *)
Definition next_header (temp filesize : Z) : Z := u64 (temp + (u64 (filesize + 511) / 512 + 1) * 512).

Fixpoint print_loop (n : nat) (temp : Z) : M kst unit :=
  match n with
  | O => timeout
  | S n' =>
      h ← is_header temp;
      if negb h then mret tt else
      filesize ← size_of_entry temp;
      print_loop n' (next_header temp filesize)
  end.
(** A header takes 512 bytes of the image. *)
Definition image_fuel : nat := S (length tar).
Definition tarfs_print_all_contents : M kst unit := print_loop image_fuel 0.

Definition null_inode_operations : inode_operations := Iops 0 0 0 0 0 0 0 0 0.

(** One round: [temp] is the offset of the header, [name] the frame the name
    is copied to. *)
Definition init_entry (name temp inode_num filesize : Z) : M kst unit :=
  t ← of_option (tar_at (temp + 156) 1);
  typeflag ← of_option (t !! 0%nat);
  s ← get;
  let i_data := if typeflag =? chr "0" then Some (temp + 512) else None in
  op ← phys_mem_alloc;
  store (kv op) (OIops null_inode_operations);;
  b ← load as_bytes name;
  h ← of_option (tar_at temp 100);
  b' ← of_option (my_memcpy b h 100);
  store name (OBytes b');;
  tarfs_dentry ← dentry_for_this_inode name;
  insert_inode_into_superblock
    (Inode inode_num (i32 filesize) typeflag i_data (tarfs_sb (k_fs s)) (kv op) tarfs_dentry);;
  insert_dentry_into_dentry_cache (i32 inode_num) tarfs_dentry.
Fixpoint init_loop (n : nat) (name temp inode_num : Z) : M kst unit :=
  match n with
  | O => timeout
  | S n' =>
      h ← is_header temp;
      if negb h then mret tt else
      filesize ← size_of_entry temp;
      init_entry name temp inode_num filesize;;
      init_loop n' name (next_header temp filesize) (u32 (inode_num + 1))
  end.

(** A frame of inodes: 85 of 48 bytes. *)
Definition zero_inodes : list inode := replicate 85 bare_inode.

Definition rebase_tarfs : M kst unit :=
  s ← get;
  when (k_is_paging s =? 1)
    (modify (upd_fs (λ f, set_dentry_cache_array (kv (dentry_cache_array f)) (set_tarfs_sb (kv (tarfs_sb f)) f)))).
(** The superblock and the empty inode array; the result is the buffer for
    names. *)
Definition tarfs_tables : M kst Z :=
  a ← phys_mem_alloc;
  let name := kv a in
  memset_frame name (OBytes zero_bytes);;
  rebase_tarfs;;
  o ← phys_mem_alloc;
  modify (upd_fs (set_s_op (kv o)));;
  store (kv o) (OSops (Sops (Some tarfs_alloc_inode_fn) (Some tarfs_destroy_inode_fn) None None None None None));;
  i ← phys_mem_alloc;
  modify (upd_fs (set_s_inodes (kv i)));;
  memset_frame (kv i) (OInodes zero_inodes);;
  mret name.
Definition tarfs_init : M kst unit :=
  name ← tarfs_tables;
  d_root ← create_root_dentry;
  modify (upd_fs (set_s_root d_root));;
  modify (upd_fs (set_s_magic 100));;
  init_loop image_fuel name 0 3.

(** ** Lookup *)

(** [sizeof(dentry_name)] is the size of a pointer; the end of the entries is
    not tested. *)
Fixpoint dentry_cache_loop (n : nat) (l : list dentry_cache) (dentry_name : list Z) : M kst Z :=
  match n, l with
  | O, _ => mret NULL
  | S _, [] => ub
  | S n', e :: l' =>
      d ← load as_dentry (dc_dentry_elem e);
      r ← of_option (my_memcmp (d_name d) dentry_name 8);
      if r =? 0 then mret (dc_dentry_elem e) else dentry_cache_loop n' l' dentry_name
  end.
Definition check_dentry_cache (dentry_name : list Z) : M kst Z :=
  s ← get;
  l ← load as_dcache (dentry_cache_array (k_fs s));
  dentry_cache_loop MAX_DENTRIES_IN_CACHE l dentry_name.

Definition do_find_dentry (pathname flags : Z) : M kst Z :=
  b ← load as_bytes pathname;
  c ← of_option (b !! 0%nat);
  temp_pathname ←
    (if c =? chr "/" then
       a ← new_string_page;
       copy_string a pathname 0;;
       mret a
     else
       curr ← get_current_process;
       p ← load as_pcb curr;
       cwd ← load as_bytes (p_cwd p);
       my_strcat cwd b);
  t ← load as_bytes temp_pathname;
  check_correct_file (drop 1 t).

(** ** Open *)

(** The file structure and the operations of an opened entry. *)
Definition new_tarfs_file (d_entry flags mode : Z) : M kst Z :=
  a ← phys_mem_alloc;
  let fp := kv a in
  memset_frame fp (OFile zero_file);;
  update_file fp (λ f, set_f_dentry d_entry (set_f_flags flags (set_f_mode mode
    (set_f_refcount (u64 (f_refcount f + 1)) (set_f_offset 0 f)))));;
  b ← phys_mem_alloc;
  update_file fp (set_f_op (kv b));;
  store (kv b) (OFops (Fops (Some tarfs_read_fn) None (Some tarfs_close_fn)));;
  mret fp.

(** [.] stands for [/bin/]; any other path gets a slash before it: the test is
    on the first character of the new frame, which is 0. *)
Definition prefix_path (pathname : Z) : M kst unit :=
  b ← load as_bytes pathname;
  m ← of_option (my_memcmp b [chr "."; 0] 1);
  if m =? 0 then
    r ← of_option (my_memcpy b (bytes_of_string "/bin/") 5);
    store pathname (OBytes r)
  else
    tempname ← new_string_page;
    t ← load as_bytes tempname;
    c ← of_option (t !! 0%nat);
    when (negb (c =? chr "/")) (store tempname (OBytes (<[0%nat := chr "/"]> t)));;
    t ← load as_bytes tempname;
    b ← load as_bytes pathname;
    n ← of_option (my_strlen b);
    r ← of_option (my_memcpy (drop 1 t) b n);
    store tempname (OBytes (take 1 t ++ r));;
    t ← load as_bytes tempname;
    n ← of_option (my_strlen t);
    r ← of_option (my_memcpy b t n);
    store pathname (OBytes r).

Definition tarfs_open (pathname flags mode : Z) : M kst Z :=
  current_process ← get_current_process;
  prefix_path pathname;;
  fd ← available_fd current_process;
  if fd <? 0 then phys_mem_free pathname;; mret (-1) else
  d_entry ← do_find_dentry pathname flags;
  if d_entry =? NULL then phys_mem_free pathname;; mret (-1) else
  fp ← new_tarfs_file d_entry flags mode;
  install_fd current_process fd fp;;
  mret fd.

(** The copy of the path is that of [getname]. *)
Definition sys_open (pathname : option (list Z)) (flags mode : Z) : M kst Z :=
  match pathname with
  | Some p => k_pathname ← getname junk p; tarfs_open k_pathname flags mode
  | None => terminal_open flags mode
  end.

Definition do_open_exec (filename : list Z) (flags mode : Z) : M kst Z :=
  k_pathname ← getname junk filename;
  d_entry ← do_find_dentry k_pathname flags;
  if d_entry =? NULL then phys_mem_free k_pathname;; mret NULL else
  current_process ← get_current_process;
  fd ← available_fd current_process;
  if fd <? 0 then phys_mem_free k_pathname;; mret NULL else
  fp ← new_tarfs_file d_entry flags mode;
  install_fd current_process fd fp;;
  mret fp.

(** ** Listing a directory *)

Definition FS_DIRECTORY : Z := 0x2.

(** The name of the parent of an entry; [d_name] is the first field, so its
    address is NULL when there is no parent. *)
Definition parent_name (e : dentry_cache) : M kst (option (list Z)) :=
  d ← load as_dentry (dc_dentry_elem e);
  if d_parent d =? NULL then mret None else
  p ← load as_dentry (d_parent d);
  mret (Some (d_name p)).
(** [my_memcmp(dir, parent, my_strlen(dir)) == 0]. *)
Definition is_child_of (dir : list Z) (e : dentry_cache) : M kst bool :=
  p ← parent_name e;
  match p with
  | None => mret false
  | Some pn =>
      n ← of_option (my_strlen dir);
      r ← of_option (my_memcmp dir pn n);
      mret (r =? 0)
  end.

(** [mem] is the user's buffer from [data] on: a name every 32 bytes. *)
Fixpoint getdents_loop (l : list dentry_cache) (dir : list Z) (size : Z) (mem : list Z) (n_written : Z)
    : M kst (Z * list Z) :=
  match l with
  | [] => ub
  | e :: l' =>
      if dc_inode_num e =? 0 then mret (n_written, mem) else
      if size <? n_written then mret (size, mem) else
      c ← is_child_of dir e;
      if c : bool then
        d ← load as_dentry (dc_dentry_elem e);
        n ← of_option (my_strlen (d_name d));
        r ← of_option (my_memcpy (drop (Z.to_nat n_written) mem) (d_name d) n);
        getdents_loop l' dir size (take (Z.to_nat n_written) mem ++ r) (i32 (n_written + 32))
      else getdents_loop l' dir size mem n_written
  end.
(** The result is a [size_t]. *)
Definition sys_getdents (fd : Z) (mem : list Z) (size : Z) : M kst (Z * list Z) :=
  mem ← of_option (my_memset mem 0 (u64 size));
  fp ← get_file_from_fd fd;
  f ← load as_file fp;
  if negb (f_flags f =? FS_DIRECTORY) then mret (0, mem) else
  ex_dentry ← load as_dentry (f_dentry f);
  s ← get;
  l ← load as_dcache (dentry_cache_array (k_fs s));
  r ← getdents_loop l (d_name ex_dentry) size mem 0;
  mret (u64 r.1, r.2).

(** [i] is the static variable; the result and its new value. *)
Fixpoint child_loop (n : nat) (l : list dentry_cache) (dir : list Z) (index i : Z) : M kst (dentry_cache * Z) :=
  match n, l with
  | O, _ => mret (DentryCache 0 0, i)
  | S _, [] => ub
  | S n', e :: l' =>
      c ← is_child_of dir e;
      if c : bool then mret (e, index) else child_loop n' l' dir (index + 1) i
  end.
Definition return_child_dentry_cache_entry (cmp_dentry i : Z) : M kst (dentry_cache * Z) :=
  s ← get;
  l ← load as_dcache (dentry_cache_array (k_fs s));
  d ← load as_dentry cmp_dentry;
  child_loop (MAX_DENTRIES_IN_CACHE - Z.to_nat i) (drop (Z.to_nat i) l) (d_name d) i i.
End tarfs.

(** ** Archives *)

(** An entry of an archive: its name, type and contents. *)
Record entry : Type := Entry { e_name : list Z; e_type : Z; e_data : list Z }.

(** A name in a field of 100 characters. *)
Definition padded (n : list Z) : list Z := n ++ replicate (100 - length n) 0.

(** The name and the size of the contents fit their fields. *)
Record entry_ok (e : entry) : Prop := {
  eo_bytes : Forall is_char (e_name e);
  eo_length : (0 < length (e_name e) < 100)%nat;
  eo_size : Z.of_nat (length (e_data e)) < 2 ^ 31
}.

(** The fields of a header block that the kernel reads. *)
Record header_of (e : entry) (h : list Z) : Prop := {
  ho_length : length h = 512%nat;
  ho_name : take 100 h = padded (e_name e);
  ho_size : take 11 (drop 124 h) = oct_digits 11 (Z.of_nat (length (e_data e)));
  ho_type : h !! 156%nat = Some (e_type e);
  ho_magic : take 5 (drop 257 h) = bytes_of_string "ustar"
}.

(** The number of bytes the contents take, in blocks of 512. *)
Definition blocks (e : entry) : nat := (512 * ((length (e_data e) + 511) / 512))%nat.

(** An image of the entries: a header and the contents in whole blocks for
    each; at the end a block without the mark of a header. *)
Inductive archive : list entry → list Z → Prop :=
| archive_end r : (512 ≤ length r)%nat → take 5 (drop 257 r) = replicate 5 0 → archive [] r
| archive_entry e es h pad r : entry_ok e → header_of e h → length (e_data e ++ pad) = blocks e →
    archive es r → archive (e :: es) (h ++ (e_data e ++ pad) ++ r).

(** The part of a path before its last slash; the root for a path without
    one, or that ends in one. *)
Definition parent_of (p : list Z) : list Z :=
  if bool_decide (last p = Some (chr "/")) then [chr "/"] else
  let i := back_to_slash p (length p - 1) in
  if (i =? 0)%nat then [chr "/"] else take i p.

(** ** The parent of a path *)

Lemma is_char_nz l : Forall is_char l → Forall (λ c, c ≠ 0) l.
Proof. intros H. eapply Forall_impl; [exact H|]. unfold is_char. lia. Qed.
Lemma is_char_byte l : Forall is_char l → Forall is_byte l.
Proof. intros H. eapply Forall_impl; [exact H|]. unfold is_char, is_byte. lia. Qed.
#[local] Hint Resolve is_char_nz is_char_byte : kernel.

Lemma back_to_slash_le b i : (back_to_slash b i ≤ i)%nat.
Proof. induction i as [|i IH]; cbn; [lia|]. case_bool_decide; lia. Qed.
Lemma back_to_slash_app p r i : (i < length p)%nat → back_to_slash (p ++ r) i = back_to_slash p i.
Proof.
  induction i as [|i IH]; intros Hi; [done|]. cbn [back_to_slash].
  rewrite lookup_app_l by done. by rewrite IH by lia.
Qed.
Lemma to_slash_some p r : chr "/" ∈ p → ∃ k, to_slash (p ++ r) = Some k.
Proof.
  induction p as [|c p IH]; cbn [to_slash app]; [by intros ?%not_elem_of_nil|].
  destruct (Z.eqb_spec c (chr "/")) as [_|Hc]; [by eexists|].
  intros [E|H]%elem_of_cons; [done|]. destruct (IH H) as [k ->]. by eexists.
Qed.

Section paths.
Context (base slash : Z) (junk : list Z).

(** The literal of the root's name is in the store. *)
Definition has_slash (s : kst) : Prop := slash ≠ 0 ∧ k_heap s !! slash = Some (OBytes [chr "/"; 0]).
Lemma has_slash_extends k k' s s' : extends base k k' s s' → has_slash s → has_slash s'.
Proof. intros H [H1 H2]. split; [done|]. by eapply ex_lookup. Qed.

Lemma last_char (p : list Z) c r : last p = Some c → (p ++ r) !! Z.to_nat (Z.of_nat (length p) - 1) = Some c.
Proof.
  intros H. rewrite last_lookup in H. replace (Z.to_nat _) with (pred (length p)) by lia.
  by apply lookup_app_l_Some.
Qed.

(** [temp] has been filled with a pointer to the string [q]. *)
Definition parent_set (k k' : Z) (s s' : kst) (q : list Z) : Prop :=
  extends base k k' s s' ∧ ∃ t r, k_heap s' !! kv (frame_at base k) = Some (OName t) ∧ n_parent t ≠ 0
    ∧ k_heap s' !! n_parent t = Some (OBytes (q ++ 0 :: r)).

Section parts.
(** [s1] is the state with the new frame for the result. *)
Context (k : Z) (s s1 : kst) (nm : Z) (p r : list Z).
Let F := kv (frame_at base k).
Hypothesis Hf : frontier base k s.
Hypothesis Hk : k + 3 ≤ n_frames s.
Hypothesis Hx : extends base k (k + 1) s s1.
Hypothesis HF : k_heap s1 !! F = Some (OName (Name 0 0)).
Hypothesis Hb : k_heap s !! nm = Some (OBytes (p ++ 0 :: r)).

Lemma directory_parts_ok : last p = Some (chr "/") →
  ∃ s', directory_parts junk F nm s1 = Ok (tt, s') ∧ parent_set k (k + 3) s s' [chr "/"].
Proof.
  intros Hl. pose proof (fr_range _ _ _ Hf) as Hr. unfold directory_parts.
  destruct (extends_alloc base k (k + 1) s s1 Hx ltac:(lia)) as (s3 & E3 & X3 & Hh3). mstep E3.
  set (G := kv (frame_at base (k + 1))) in *.
  assert (F ≠ G) by (apply (frame_ne base k s); [done|lia..]).
  rewrite <- Hh3 in HF. mstep (update_ok as_name OName F _ _ (set_n_parent G) s3 HF eq_refl).
  unfold store. mnorm.
  pose proof (extends_store _ _ _ _ _ k (OName (Name G 0)) Hf X3 ltac:(lia)) as X4.
  pose proof (extends_store _ _ _ _ _ (k + 1) (OBytes (chr "/" :: 0 :: drop 2 junk)) Hf X4 ltac:(lia)) as X5.
  fold F in X4, X5. fold G in X5. set (s5 := upd_heap _ (upd_heap _ s3)) in *.
  destruct (extends_alloc base k _ s s5 X5 ltac:(lia)) as (s6 & E6 & X6 & Hh6). mstep E6.
  set (Q := kv (frame_at base (k + 1 + 1))) in *.
  assert (F ≠ Q ∧ G ≠ Q) as [? ?] by (split; apply (frame_ne base k s); (done || lia)).
  assert (HF6 : k_heap s6 !! F = Some (OName (Name G 0))).
  { rewrite Hh6. cbn. rewrite lookup_insert_ne by done. apply lookup_insert_eq. }
  mstep (update_ok as_name OName F _ _ (set_n_child Q) s6 HF6 eq_refl).
  pose proof (extends_store _ _ _ _ _ k (OName (Name G Q)) Hf X6 ltac:(lia)) as X7. fold F in X7.
  mstep (load_some as_bytes _ _ _ _ (ex_lookup _ _ _ _ _ _ _ X7 Hb) eq_refl).
  destruct (to_slash_some p (0 :: r)) as [j Hj]. { by apply last_Some_elem_of. }
  rewrite Hj. cbn [of_option]. mnorm.
  pose proof (extends_store _ _ _ _ _ (k + 1 + 1) (OBytes (take j (p ++ 0 :: r) ++ drop j junk)) Hf X7 ltac:(lia)) as X8.
  fold Q in X8. replace (k + 1 + 1 + 1) with (k + 3) in X8 by lia.
  eexists. split; [reflexivity|]. split; [exact X8|]. eexists _, _. fold F.
  split; [cbn; rewrite lookup_insert_ne by done; apply lookup_insert_eq|].
  split; [by apply (frame_nz base k s); [|lia]|].
  cbn. rewrite !lookup_insert_ne by done. rewrite Hh6. cbn. rewrite lookup_insert_eq. done.
Qed.

Lemma file_parts_ok i : (i < length p)%nat → has_slash s →
  ∃ k' s', file_parts slash junk F nm i s1 = Ok (tt, s') ∧ k' ≤ k + 3
    ∧ parent_set k k' s s' (if (i =? 0)%nat then [chr "/"] else take i p).
Proof.
  intros Hi [Hsl Hs]. pose proof (fr_range _ _ _ Hf) as Hr. unfold file_parts.
  destruct (i =? 0)%nat.
  - mstep (update_ok as_name OName F _ _ (set_n_child nm) s1 HF eq_refl).
    pose proof (extends_store _ _ _ _ _ k (OName (Name 0 nm)) Hf Hx ltac:(lia)) as X2. fold F in X2.
    pose proof (extends_store _ _ _ _ _ k (OName (Name slash nm)) Hf X2 ltac:(lia)) as X3. fold F in X3.
    eexists _, _. split; [eapply (update_ok as_name OName F); [apply lookup_insert_eq|done]|].
    split; [|split; [exact X3|]]; [lia|]. eexists _, _. split; [apply lookup_insert_eq|]. split; [done|].
    exact (ex_lookup _ _ _ _ _ _ _ X3 Hs).
  - mstep (update_ok as_name OName F _ _ (set_n_child (nm + Z.of_nat i + 1)) s1 HF eq_refl).
    pose proof (extends_store _ _ _ _ _ k (OName (Name 0 (nm + Z.of_nat i + 1))) Hf Hx ltac:(lia)) as X2. fold F in X2.
    set (s2 := upd_heap _ s1) in *.
    destruct (extends_alloc base k _ s s2 X2 ltac:(lia)) as (s3 & E3 & X3 & Hh3). mstep E3.
    set (G := kv (frame_at base (k + 1))) in *.
    assert (F ≠ G) by (apply (frame_ne base k s); [done|lia..]).
    assert (HF3 : k_heap s3 !! F = Some (OName (Name 0 (nm + Z.of_nat i + 1)))) by (rewrite Hh3; apply lookup_insert_eq).
    mstep (update_ok as_name OName F _ _ (set_n_parent G) s3 HF3 eq_refl).
    pose proof (extends_store _ _ _ _ _ k (OName (Name G (nm + Z.of_nat i + 1))) Hf X3 ltac:(lia)) as X4. fold F in X4.
    mstep (load_some as_bytes _ _ _ _ (ex_lookup _ _ _ _ _ _ _ X4 Hb) eq_refl).
    rewrite take_app_le by lia.
    pose proof (extends_store _ _ _ _ _ (k + 1) (OBytes (take i p ++ 0 :: drop (S i) junk)) Hf X4 ltac:(lia)) as X5.
    fold G in X5. eexists _, _. split; [reflexivity|]. split; [|split; [exact X5|]]; [lia|]. eexists _, _. fold F.
    split; [cbn; rewrite lookup_insert_ne by done; apply lookup_insert_eq|].
    split; [by apply (frame_nz base k s); [|lia]|]. cbn. apply lookup_insert_eq.
Qed.
End parts.

(** The routine leaves a pointer to the parent of the path. *)
Lemma parent_path_ok k s nm p r :
  frontier base k s → k + 3 ≤ n_frames s → has_slash s → nm ≠ 0 →
  k_heap s !! nm = Some (OBytes (p ++ 0 :: r)) → Forall is_char p → p ≠ [] →
  ∃ k' s', get_parent_and_child_directories slash junk nm s = Ok (kv (frame_at base k), s') ∧ k' ≤ k + 3
    ∧ parent_set k k' s s' (parent_of p).
Proof.
  intros Hf Hk Hs Hnm Hb Hp Hne. pose proof (fr_range _ _ _ Hf) as Hr.
  destruct (extends_alloc base k k s s (extends_refl _ _ _ Hf) ltac:(lia)) as (s1 & E1 & X1 & Hh1).
  pose proof (memset_last base (k + 1) s1 (OName (Name 0 0)) (ex_frontier _ _ _ _ _ X1) ltac:(lia)) as Em.
  replace (k + 1 - 1) with k in Em by lia. unfold get_parent_and_child_directories. mstep E1. mstep Em.
  pose proof (extends_store base k (k + 1) s s1 k (OName (Name 0 0)) Hf X1 ltac:(lia)) as X2.
  set (s2 := upd_heap _ s1) in *. rewrite (proj2 (Z.eqb_neq nm NULL) Hnm).
  assert (HF2 : k_heap s2 !! kv (frame_at base k) = Some (OName (Name 0 0))) by apply lookup_insert_eq.
  mstep (load_some as_bytes _ _ _ _ (ex_lookup _ _ _ _ _ _ _ X2 Hb) eq_refl).
  rewrite my_strlen_app by eauto with kernel. cbn [of_option]. mnorm.
  assert (0 < length p)%nat by (destruct p; [done|simpl; lia]).
  rewrite (proj2 (Z.eqb_neq (Z.of_nat (length p)) 0)) by lia.
  destruct (last p) as [c|] eqn:Hl; [|by apply last_None in Hl].
  rewrite (last_char p c _ Hl). cbn [of_option]. mnorm.
  unfold parent_of. rewrite Hl. destruct (Z.eqb_spec c (chr "/")) as [->|Hc].
  - rewrite bool_decide_true by done. destruct (directory_parts_ok k s s2 nm p r Hf Hk X2 HF2 Hb Hl) as (s' & E & H').
    mstep E. by exists (k + 3), s'.
  - rewrite bool_decide_false by congruence. replace (Z.to_nat _) with (length p - 1)%nat by lia.
    rewrite back_to_slash_app by lia. pose proof (back_to_slash_le p (length p - 1)).
    destruct (file_parts_ok k s s2 nm p r Hf Hk X2 HF2 Hb (back_to_slash p (length p - 1)) ltac:(lia) Hs) as (k' & s' & E & H').
    mstep E. by exists k', s'.
Qed.
End paths.

(** ** The lists of entries *)

(** A listed entry: its number, directory entry, name, parent and inode. *)
Record row : Type := Row { r_num : Z; r_addr : Z; r_name : list Z; r_parent : Z; r_inode : inode }.
Definition row_cache (r : row) : dentry_cache := DentryCache (r_num r) (r_addr r).
Definition row_entry (r : row) : Z * list Z := (r_addr r, padded (r_name r)).

Record row_ok (h : gmap Z obj) (r : row) : Prop := {
  ro_num : r_num r ≠ 0;
  ro_inode : i_number (r_inode r) = r_num r ∧ i_dentry (r_inode r) = r_addr r;
  ro_dentry : ∃ op, h !! r_addr r = Some (ODentry (Dentry (padded (r_name r)) (r_parent r) op));
  ro_name : Forall is_char (r_name r) ∧ (length (r_name r) < 100)%nat;
  ro_addr : r_addr r ≠ 0
}.
Definition cache_of (rows : list row) : list dentry_cache :=
  (row_cache <$> rows) ++ replicate (256 - length rows) (DentryCache 0 0).
Definition inodes_of (rows : list row) : list inode := (r_inode <$> rows) ++ replicate (85 - length rows) bare_inode.

(** The cache and the inode array hold the rows, in order. *)
Record listed (s : kst) (rows : list row) : Prop := {
  ls_cache : k_heap s !! dentry_cache_array (k_fs s) = Some (ODcache (cache_of rows));
  ls_inodes : k_heap s !! s_inodes (k_fs s) = Some (OInodes (inodes_of rows));
  ls_rows : Forall (row_ok (k_heap s)) rows
}.

Lemma row_ok_weaken h h' r : h ⊆ h' → row_ok h r → row_ok h' r.
Proof. intros H [H1 H2 (op & H3) H4 H5]. constructor; [done|done| |done|done]. exists op. by eapply lookup_weaken. Qed.
Lemma listed_extends base k k' s s' rows : extends base k k' s s' → listed s rows → listed s' rows.
Proof.
  intros X [H1 H2 H3]. constructor; rewrite ?(ex_fs _ _ _ _ _ X); [by eapply ex_lookup..|].
  eapply Forall_impl; [exact H3|]. intros r. by apply row_ok_weaken, X.
Qed.

Lemma padded_length n : (length n < 100)%nat → length (padded n) = 100%nat.
Proof. intros H. unfold padded. rewrite length_app, length_replicate. lia. Qed.
Lemma padded_cons n : (length n < 100)%nat → padded n = n ++ 0 :: replicate (99 - length n) 0.
Proof. intros H. unfold padded. by replace (100 - length n)%nat with (S (99 - length n)) by lia. Qed.
Lemma padded_bytes n : Forall is_char n → Forall is_byte (padded n).
Proof. intros H. apply Forall_app. split; [by apply is_char_byte|]. apply Forall_replicate. unfold is_byte. lia. Qed.

Lemma load_row h s r : k_heap s = h → row_ok h r →
  ∃ d, load as_dentry (i_dentry (r_inode r)) s = Ok (d, s) ∧ d_name d = padded (r_name r).
Proof.
  intros <- [_ [_ ->] (op & H) _ _]. eexists. split; [by eapply load_some|done].
Qed.

Lemma parent_loop_ok s rows m q r :
  Forall (row_ok (k_heap s)) rows → (0 < m)%nat → Forall is_char q → (length q ≤ 100)%nat →
  parent_loop ((r_inode <$> rows) ++ replicate m bare_inode) (q ++ 0 :: r) s
  = Ok (first_with_sum q (row_entry <$> rows), s).
Proof.
  intros Hr Hm Hq Hl. induction Hr as [|x rows Hx Hr IH]; cbn [fmap list_fmap app].
  - destruct m; [lia|done].
  - cbn [parent_loop]. pose proof Hx as [Hn [-> Ea] _ [Hc Hlen] _]. rewrite (proj2 (Z.eqb_neq _ 0) Hn).
    destruct (load_row _ s x eq_refl Hx) as (d & Hd & En). mstep Hd. rewrite En.
    mstep (name_matches_ok s (padded (r_name x)) q r (padded_length _ Hlen) (padded_bytes _ Hc) (is_char_byte _ Hq)
             (is_char_nz _ Hq) Hl).
    cbn [first_with_sum row_entry]. destruct (decide _) as [E|E].
    + rewrite bool_decide_true by done. by rewrite Ea.
    + by rewrite bool_decide_false.
Qed.

Lemma parent_of_char p : Forall is_char p → Forall is_char (parent_of p).
Proof.
  intros H. unfold parent_of. repeat case_match; try (repeat constructor; done). by apply Forall_take.
Qed.
Lemma parent_of_length p : (0 < length p)%nat → (length (parent_of p) ≤ length p)%nat.
Proof. intros H. unfold parent_of. repeat case_match; cbn; try lia. rewrite length_take. lia. Qed.

(** Appending to the two lists. *)
Lemma insert_inode_ok rows i : Forall (λ r, i_number (r_inode r) ≠ 0) rows → (length rows < 85)%nat →
  insert_inode (inodes_of rows) i = Some ((r_inode <$> rows) ++ i :: replicate (84 - length rows) bare_inode).
Proof.
  intros Hr Hl. unfold inodes_of. replace (85 - length rows)%nat with (S (84 - length rows)) by lia.
  generalize (84 - length rows)%nat. clear Hl. intros m. induction Hr as [|x rows Hx Hr IH]; [done|].
  cbn. rewrite (proj2 (Z.eqb_neq _ 0) Hx). cbn in IH. by rewrite IH.
Qed.
Lemma insert_entry_ok rows e : Forall (λ r, r_num r ≠ 0) rows → (length rows < 256)%nat →
  insert_entry (cache_of rows) e = Some ((row_cache <$> rows) ++ e :: replicate (255 - length rows) (DentryCache 0 0)).
Proof.
  intros Hr Hl. unfold cache_of. replace (256 - length rows)%nat with (S (255 - length rows)) by lia.
  generalize (255 - length rows)%nat. clear Hl. intros m. induction Hr as [|x rows Hx Hr IH]; [done|].
  cbn. rewrite (proj2 (Z.eqb_neq _ 0) Hx). cbn in IH. by rewrite IH.
Qed.
Lemma inodes_of_snoc rows x : (length rows < 85)%nat →
  (r_inode <$> rows) ++ r_inode x :: replicate (84 - length rows) bare_inode = inodes_of (rows ++ [x]).
Proof.
  intros H. unfold inodes_of. rewrite fmap_app, <- app_assoc, length_app. cbn. do 3 f_equal. lia.
Qed.
Lemma cache_of_snoc rows x : (length rows < 256)%nat →
  (row_cache <$> rows) ++ row_cache x :: replicate (255 - length rows) (DentryCache 0 0) = cache_of (rows ++ [x]).
Proof.
  intros H. unfold cache_of. rewrite fmap_app, <- app_assoc, length_app. cbn. do 3 f_equal. lia.
Qed.

(** ** One round of the initialisation *)

Section init.
Context (base : Z) (tar : list Z) (slash : Z) (junk : list Z).

Lemma new_dentry_operations_ok k0 k s0 s j d : frontier base k0 s0 → extends base k0 k s0 s → k < n_frames s0 →
  k0 ≤ j < k → k_heap s !! kv (frame_at base j) = Some (ODentry d) →
  ∃ s', new_dentry_operations (kv (frame_at base j)) s = Ok (tt, s') ∧ extends base k0 (k + 1) s0 s'
    ∧ ∃ op o, k_heap s' = <[kv (frame_at base k) := ODops o]> (<[kv (frame_at base j) := ODentry (set_d_op op d)]> (k_heap s)).
Proof.
  intros Hf X Hk Hj Hd. unfold new_dentry_operations.
  destruct (extends_alloc base k0 k s0 s X Hk) as (s1 & E1 & X1 & Hh1). mstep E1. rewrite <- Hh1 in Hd.
  mstep (update_ok as_dentry ODentry _ _ _ (set_d_op (kv (frame_at base k))) s1 Hd eq_refl). unfold store, modify.
  eexists. split; [reflexivity|]. split; [|rewrite <- Hh1; eexists _, _; reflexivity].
  apply extends_store; [done| |pose proof (ex_range _ _ _ _ _ X); lia].
  apply extends_store; [done|exact X1|lia].
Qed.

(** The parent of a name among the rows. *)
Lemma get_parent_dentry_ok k s nm p r rows :
  frontier base k s → k + 3 ≤ n_frames s → has_slash slash s → nm ≠ 0 →
  k_heap s !! nm = Some (OBytes (p ++ 0 :: r)) → Forall is_char p → (0 < length p < 100)%nat →
  listed s rows → (length rows < 85)%nat →
  ∃ k' s', get_parent_dentry slash junk nm s = Ok (first_with_sum (parent_of p) (row_entry <$> rows), s')
    ∧ extends base k k' s s' ∧ k' ≤ k + 3.
Proof.
  intros Hf Hk Hs Hnm Hb Hp Hlen Hls Hrows.
  destruct (parent_path_ok base slash junk k s nm p r Hf Hk Hs Hnm Hb Hp ltac:(intros ->; cbn in Hlen; lia))
    as (k' & s4 & E4 & Hk' & X4 & t & r' & Ht & Hnz & Hq).
  unfold get_parent_dentry. mstep E4. mstep (load_some as_name _ _ _ _ Ht eq_refl).
  rewrite (proj2 (Z.eqb_neq _ NULL) Hnz). mnorm.
  pose proof (listed_extends _ _ _ _ _ _ X4 Hls) as Hls4.
  mstep (load_some as_inodes _ _ _ _ (ls_inodes _ _ Hls4) eq_refl).
  mstep (load_some as_bytes _ _ _ _ Hq eq_refl). pose proof (parent_of_length p ltac:(lia)).
  exists k', s4. split; [|done].
  by apply parent_loop_ok; [apply Hls4|lia|apply parent_of_char|lia].
Qed.

Lemma memcpy_name p z : (length p < 100)%nat → my_memcpy (d_name zero_dentry) (padded p ++ z) 100 = Some (padded p).
Proof.
  intros Hl. apply padded_length in Hl. unfold my_memcpy.
  rewrite (proj2 (Nat.leb_le _ (length (padded p ++ z)))) by (rewrite length_app; lia).
  change (_ && true) with true. cbn match. change (Z.to_nat 100) with 100%nat.
  rewrite take_app_le, <- Hl, firstn_all by lia. by rewrite Hl, app_nil_r.
Qed.

(** The directory entry of a name. *)
Lemma dentry_for_ok k s nm p z rows :
  frontier base k s → k + 5 ≤ n_frames s → has_slash slash s → nm ≠ 0 →
  k_heap s !! nm = Some (OBytes (padded p ++ z)) → Forall is_char p → (0 < length p < 100)%nat →
  listed s rows → (length rows < 85)%nat →
  ∃ k' s', dentry_for_this_inode slash junk nm s = Ok (kv (frame_at base k), s') ∧ extends base k k' s s' ∧ k' ≤ k + 5
    ∧ k < k' ∧ ∃ op, k_heap s' !! kv (frame_at base k)
        = Some (ODentry (Dentry (padded p) (first_with_sum (parent_of p) (row_entry <$> rows)) op)).
Proof.
  intros Hf Hk Hs Hnm Hb Hp Hlen Hls Hrows. pose proof (fr_range _ _ _ Hf) as Hr.
  unfold dentry_for_this_inode.
  destruct (extends_alloc base k k s s (extends_refl _ _ _ Hf) ltac:(lia)) as (s1 & E1 & X1 & Hh1). mstep E1.
  unfold store. mnorm. pose proof (extends_store _ _ _ _ _ k (ODentry zero_dentry) Hf X1 ltac:(lia)) as X2.
  set (F := kv (frame_at base k)) in *. mstep (load_some as_bytes _ _ _ _ (ex_lookup _ _ _ _ _ _ _ X2 Hb) eq_refl).
  set (s2 := upd_heap _ s1) in *. assert (HF : k_heap s2 !! F = Some (ODentry zero_dentry)) by apply lookup_insert_eq.
  mstep (load_some as_dentry _ _ _ _ HF eq_refl). rewrite memcpy_name by lia. cbn [of_option]. mnorm.
  mstep (update_ok as_dentry ODentry F _ _ (set_d_name (padded p)) s2 HF eq_refl).
  pose proof (extends_store _ _ _ _ _ k (ODentry (Dentry (padded p) 0 0)) Hf X2 ltac:(lia)) as X3. fold F in X3.
  change (ODentry (set_d_name (padded p) zero_dentry)) with (ODentry (Dentry (padded p) 0 0)).
  set (s3 := upd_heap <[F := _]> s2) in *.
  assert (HF3 : k_heap s3 !! F = Some (ODentry (Dentry (padded p) 0 0))) by apply lookup_insert_eq.
  pose proof (ex_lookup _ _ _ _ _ _ _ X3 Hb) as Hb3. rewrite padded_cons, <- app_assoc in Hb3 by lia.
  destruct (get_parent_dentry_ok (k + 1) s3 nm p _ rows (ex_frontier _ _ _ _ _ X3)
    ltac:(rewrite (ex_frames _ _ _ _ _ X3); lia) (has_slash_extends _ _ _ _ _ _ X3 Hs) Hnm Hb3 Hp Hlen
    (listed_extends _ _ _ _ _ _ X3 Hls) Hrows) as (k' & s4 & E4 & X4 & Hk').
  mstep E4. set (q := first_with_sum _ _) in *.
  pose proof (ex_lookup _ _ _ _ _ _ _ X4 HF3) as HF4. pose proof (extends_trans _ _ _ _ _ _ _ X3 X4) as X5.
  pose proof (ex_range _ _ _ _ _ X4).
  mstep (update_ok as_dentry ODentry F _ _ (set_d_parent q) s4 HF4 eq_refl).
  pose proof (extends_store _ _ _ _ _ k (ODentry (Dentry (padded p) q 0)) Hf X5 ltac:(lia)) as X6. fold F in X6.
  destruct (new_dentry_operations_ok k k' s _ k (Dentry (padded p) q 0) Hf X6 ltac:(lia) ltac:(lia)) as (s7 & E7 & X7 & op & o & Hh7).
  { apply lookup_insert_eq. }
  fold F in E7, Hh7. mstep E7. exists (k' + 1), s7. split; [done|]. split; [done|]. split; [lia|]. split; [lia|].
  exists op. rewrite Hh7, lookup_insert_ne, lookup_insert_eq; [done|].
  apply (frame_ne base k s); [done|lia..].
Qed.

(** The places of the lists, in a state [s0] before they are filled: the
    cache is outside the frames taken since, the inode array and the buffer
    for names are in such frames. *)
Record places (k0 : Z) (s0 : kst) (ji jn : Z) : Prop := {
  pl_frontier : frontier base k0 s0;
  pl_slash : has_slash slash s0;
  pl_cache_new : k_heap s0 !! dentry_cache_array (k_fs s0) = None;
  pl_cache_frame : ∀ j, k0 ≤ j ≤ n_frames s0 → dentry_cache_array (k_fs s0) ≠ kv (frame_at base j);
  pl_inodes : s_inodes (k_fs s0) = kv (frame_at base ji);
  pl_range : k0 ≤ ji ∧ k0 ≤ jn
}.

Lemma row_ok_insert h a o r : (∀ d, h !! a ≠ Some (ODentry d)) → row_ok h r → row_ok (<[a := o]> h) r.
Proof.
  intros Ha [H1 H2 (op & H3) H4 H5]. constructor; [done|done| |done|done]. exists op.
  rewrite lookup_insert_ne; [done|]. intros ->. by eapply Ha.
Qed.

(** A row goes to the end of both lists. *)
Lemma list_row_ok k0 s0 ji jn k s rows x :
  places k0 s0 ji jn → extends base k0 k s0 s → ji < k → listed s rows → (length rows < 85)%nat → row_ok (k_heap s) x →
  ∃ s', (insert_inode_into_superblock (r_inode x);; insert_dentry_into_dentry_cache (r_num x) (r_addr x)) s = Ok (tt, s')
    ∧ extends base k0 k s0 s' ∧ listed s' (rows ++ [x])
    ∧ ∀ a b, k_heap s !! a = Some (OBytes b) → k_heap s' !! a = Some (OBytes b).
Proof.
  intros [Hf _ Hc Hcf HI Hj] X Hji [H1 H2 H3] Hl Hx. pose proof (ex_range _ _ _ _ _ X) as Hk.
  pose proof (ex_fs _ _ _ _ _ X) as Hfs. rewrite Hfs in H1, H2. rewrite HI in H2.
  set (D := dentry_cache_array (k_fs s0)) in *. set (I := kv (frame_at base ji)) in *.
  assert (D ≠ I) as Hne by (intros E; rewrite E in H1; congruence).
  pose proof (extends_store _ _ _ _ _ ji (OInodes (inodes_of (rows ++ [x]))) Hf X ltac:(lia)) as X1. fold I in X1.
  pose proof (extends_store_at _ _ _ _ _ D (ODcache (cache_of (rows ++ [x]))) X1 Hc ltac:(intros j ?; apply Hcf; lia)) as X2.
  eexists. split; [|split; [exact X2|split]].
  - unfold insert_inode_into_superblock, insert_dentry_into_dentry_cache. rewrite bind_assoc. mnorm. rewrite Hfs, HI. fold I.
    rewrite bind_assoc. mstep (load_some as_inodes _ _ _ _ H2 eq_refl).
    rewrite insert_inode_ok; [|eapply Forall_impl; [exact H3|]; intros r [Hn [-> _] _ _ _]; done|done].
    cbn [of_option]. rewrite bind_assoc. mnorm. unfold store. mnorm. cbn [k_fs upd_heap set_k_heap]. rewrite Hfs. fold D.
    rewrite (inodes_of_snoc rows x Hl).
    assert (H1' : k_heap (upd_heap <[I := OInodes (inodes_of (rows ++ [x]))]> s) !! D = Some (ODcache (cache_of rows))).
    { cbn. by rewrite lookup_insert_ne. }
    mstep (load_some as_dcache _ _ _ _ H1' eq_refl).
    rewrite insert_entry_ok; [|eapply Forall_impl; [exact H3|]; by intros r []|lia].
    cbn [of_option]. mnorm. change (DentryCache (r_num x) (r_addr x)) with (row_cache x).
    by rewrite (cache_of_snoc rows x ltac:(lia)).
  - constructor; rewrite ?(ex_fs _ _ _ _ _ X2), ?HI; fold D; fold I; cbn [k_heap upd_heap set_k_heap].
    + apply lookup_insert_eq.
    + rewrite lookup_insert_ne by done. apply lookup_insert_eq.
    + apply Forall_app. split; [|constructor; [|constructor]].
      * eapply Forall_impl; [exact H3|]. intros r Hr. apply row_ok_insert, row_ok_insert; [|by intros d; rewrite H2|done].
        intros d. rewrite lookup_insert_ne by done. by rewrite H1.
      * apply row_ok_insert, row_ok_insert; [|by intros d; rewrite H2|done].
        intros d. rewrite lookup_insert_ne by done. by rewrite H1.
  - intros a b Ha. cbn. rewrite !lookup_insert_ne; [done|intros <-; congruence..].
Qed.

(** What the row of an entry holds: [prev] are the rows before it, [temp] the
    offset of its header. *)
Record row_of (sb : Z) (prev : list row) (num temp : Z) (e : entry) (x : row) : Prop := {
  rw_num : r_num x = num;
  rw_name : r_name x = e_name e;
  rw_parent : r_parent x = first_with_sum (parent_of (e_name e)) (row_entry <$> prev);
  rw_size : i_size (r_inode x) = Z.of_nat (length (e_data e));
  rw_type : i_typeflag (r_inode x) = e_type e;
  rw_data : i_data (r_inode x) = if e_type e =? chr "0" then Some (temp + 512) else None;
  rw_sb : i_sb (r_inode x) = sb
}.

Lemma tar_at_ok pre h rest off n : tar = pre ++ h ++ rest → 0 ≤ off → 0 ≤ n → off + n ≤ Z.of_nat (length h) →
  tar_at tar (Z.of_nat (length pre) + off) n = Some (take (Z.to_nat n) (drop (Z.to_nat off) h)).
Proof.
  intros -> Ho Hn Hl. unfold tar_at.
  rewrite (proj2 (Z.leb_le 0 _)), (proj2 (Z.leb_le _ (Z.of_nat (length (pre ++ h ++ rest))))) by (rewrite ?length_app; lia).
  cbn [andb]. f_equal. rewrite Z2Nat.inj_add, Nat2Z.id, <- drop_drop, drop_app_length by lia.
  rewrite drop_app_le by lia. rewrite take_app_le by (rewrite length_drop; lia). done.
Qed.
Lemma take_one {A} (l : list A) i x : l !! i = Some x → take 1 (drop i l) = [x].
Proof. intros H. by rewrite (drop_S l x i H). Qed.

(** A write to an object that is not part of the lists. *)
Definition unlisted (o : obj) : Prop := match o with ODentry _ | ODcache _ | OInodes _ => False | _ => True end.
Lemma listed_insert s rows a o o' : listed s rows → k_heap s !! a = Some o → unlisted o →
  listed (upd_heap <[a := o']> s) rows.
Proof.
  intros [H1 H2 H3] Ha Ho. constructor; cbn [k_fs k_heap upd_heap set_k_heap].
  - rewrite lookup_insert_ne; [done|]. intros ->. rewrite H1 in Ha. by injection Ha as <-.
  - rewrite lookup_insert_ne; [done|]. intros ->. rewrite H2 in Ha. by injection Ha as <-.
  - eapply Forall_impl; [exact H3|]. intros r. apply row_ok_insert. intros d E. rewrite E in Ha. by injection Ha as <-.
Qed.
Lemma memcpy_field b z p : length b = 100%nat → length p = 100%nat → my_memcpy (b ++ z) p 100 = Some (p ++ z).
Proof.
  intros Hb Hp. unfold my_memcpy. change (Z.to_nat 100) with 100%nat. rewrite length_app, Hb, Hp. cbn.
  by rewrite <- Hp, firstn_all, Hp, <- Hb, drop_app_length.
Qed.

Section round.
Context (k0 : Z) (s0 : kst) (ji jn k : Z) (s : kst) (rows : list row).
Hypothesis Hp : places k0 s0 ji jn.
Hypothesis X : extends base k0 k s0 s.
Hypothesis Hj : ji < k ∧ jn < k.
Hypothesis Hk : k + 6 ≤ n_frames s0.
Hypothesis Hls : listed s rows.
Hypothesis Hrows : (length rows < 85)%nat.
Let nm := kv (frame_at base jn).

Lemma init_entry_ok b z pre h rest e num :
  k_heap s !! nm = Some (OBytes (b ++ z)) → length b = 100%nat → tar = pre ++ h ++ rest →
  entry_ok e → header_of e h → 0 < num < 2 ^ 31 →
  ∃ k' s' x, init_entry tar slash junk nm (Z.of_nat (length pre)) num (Z.of_nat (length (e_data e))) s = Ok (tt, s')
    ∧ k ≤ k' ≤ k + 6 ∧ extends base k0 k' s0 s' ∧ listed s' (rows ++ [x])
    ∧ k_heap s' !! nm = Some (OBytes (padded (e_name e) ++ z))
    ∧ row_of (tarfs_sb (k_fs s0)) rows num (Z.of_nat (length pre)) e x.
Proof.
  intros Hnm Hb Ht [Hc Hlen Hsz] [Hh1 Hh2 _ Hh4 _] Hnum. pose proof Hp as [Hf Hs _ _ _ Hr].
  pose proof (fr_range _ _ _ Hf) as Hfr. unfold init_entry.
  rewrite (tar_at_ok pre h rest 156 1 Ht) by lia. change (Z.to_nat 156) with 156%nat.
  change (Z.to_nat 1) with 1%nat. rewrite (take_one _ _ _ Hh4). cbn [of_option]. mnorm.
  cbn [lookup list_lookup of_option]. mnorm.
  pose proof (ex_frontier _ _ _ _ _ X) as Hfk. pose proof (ex_frames _ _ _ _ _ X) as Hn.
  destruct (extends_alloc base k k s s (extends_refl _ _ _ Hfk) ltac:(lia)) as (s1 & E1 & X1 & Hh). mstep E1. unfold store. mnorm.
  pose proof (extends_store _ _ _ _ _ k (OIops null_inode_operations) Hfk X1 ltac:(lia)) as X2.
  set (s2 := upd_heap _ s1) in *. pose proof (ex_lookup _ _ _ _ _ _ _ X2 Hnm) as Hnm2.
  mstep (load_some as_bytes _ _ _ _ Hnm2 eq_refl).
  rewrite <- (Z.add_0_r (Z.of_nat (length pre))), (tar_at_ok pre h rest 0 100 Ht), Z.add_0_r by lia.
  change (Z.to_nat 100) with 100%nat. rewrite drop_0, Hh2. cbn [of_option]. mnorm.
  rewrite memcpy_field by (done || by apply padded_length; lia). cbn [of_option]. mnorm.
  pose proof (extends_trans _ _ _ _ _ _ _ X X2) as X2'.
  pose proof (extends_store _ _ _ _ _ jn (OBytes (padded (e_name e) ++ z)) Hf X2' ltac:(lia)) as X3. fold nm in X3.
  pose proof (listed_insert _ _ nm _ (OBytes (padded (e_name e) ++ z)) (listed_extends _ _ _ _ _ _ X2 Hls) Hnm2 I) as Hls3.
  set (s3 := upd_heap _ s2) in *.
  assert (Hnm3 : k_heap s3 !! nm = Some (OBytes (padded (e_name e) ++ z))) by apply lookup_insert_eq.
  destruct (dentry_for_ok (k + 1) s3 nm (e_name e) z rows (ex_frontier _ _ _ _ _ X3)
    ltac:(rewrite (ex_frames _ _ _ _ _ X3); lia) (has_slash_extends _ _ _ _ _ _ X3 Hs)
    ltac:(apply (frame_nz base k0 s0); [done|lia]) Hnm3 Hc Hlen Hls3 Hrows) as (k' & s4 & E4 & X4 & Hk' & Hk'' & op & Hd).
  mstep E4. pose proof (extends_trans _ _ _ _ _ _ _ X3 X4) as X4'.
  set (x := Row num (kv (frame_at base (k + 1))) (e_name e) (first_with_sum (parent_of (e_name e)) (row_entry <$> rows))
    (Inode num (i32 (Z.of_nat (length (e_data e)))) (e_type e)
       (if e_type e =? chr "0" then Some (Z.of_nat (length pre) + 512) else None) (tarfs_sb (k_fs s)) (kv (frame_at base k))
       (kv (frame_at base (k + 1))))).
  destruct (list_row_ok k0 s0 ji jn k' s4 rows x Hp X4' ltac:(lia) (listed_extends _ _ _ _ _ _ X4 Hls3) Hrows)
    as (s5 & E5 & X5 & Hls5 & Hby).
  { constructor; [cbn; lia|done|by exists op|split; [done|cbn; lia]|]. apply (frame_nz base k0 s0); [done|lia]. }
  exists k', s5, x. rewrite (i32_small num) by lia. split; [exact E5|]. split; [lia|]. split; [done|]. split; [done|].
  split; [by apply Hby, (ex_lookup _ _ _ _ _ _ _ X4)|].
  constructor; try done; cbn; [apply i32_small; lia|]. by rewrite (ex_fs _ _ _ _ _ X).
Qed.
End round.

(** The rows of the entries of an archive that starts at [temp]. *)
Fixpoint rows_match (sb : Z) (prev : list row) (num temp : Z) (es : list entry) (xs : list row) : Prop :=
  match es, xs with
  | [], [] => True
  | e :: es', x :: xs' =>
      row_of sb prev num temp e x ∧ rows_match sb (prev ++ [x]) (num + 1) (temp + 512 + Z.of_nat (blocks e)) es' xs'
  | _, _ => False
  end.

Lemma is_header_entry pre h rest e s : tar = pre ++ h ++ rest → header_of e h →
  is_header tar (Z.of_nat (length pre)) s = Ok (true, s).
Proof.
  intros Ht [H1 _ _ _ H5]. unfold is_header. rewrite (tar_at_ok pre h rest 257 5 Ht) by lia.
  change (Z.to_nat 257) with 257%nat. change (Z.to_nat 5) with 5%nat. by rewrite H5.
Qed.
Lemma is_header_end pre r s : tar = pre ++ r → (512 ≤ length r)%nat → take 5 (drop 257 r) = replicate 5 0 →
  is_header tar (Z.of_nat (length pre)) s = Ok (false, s).
Proof.
  intros Ht H1 H5. unfold is_header. rewrite <- (app_nil_r r) in Ht. rewrite (tar_at_ok pre r [] 257 5 Ht) by lia.
  change (Z.to_nat 257) with 257%nat. change (Z.to_nat 5) with 5%nat. by rewrite H5.
Qed.
Lemma size_of_entry_ok pre h rest e s : tar = pre ++ h ++ rest → header_of e h → entry_ok e →
  size_of_entry tar (Z.of_nat (length pre)) s = Ok (Z.of_nat (length (e_data e)), s).
Proof.
  intros Ht [H1 _ H3 _ _] [_ _ Hs]. unfold size_of_entry. rewrite (tar_at_ok pre h rest 124 11 Ht) by lia.
  change (Z.to_nat 124) with 124%nat. change (Z.to_nat 11) with 11%nat. rewrite H3. cbn [of_option]. mnorm.
  rewrite <- (app_nil_r (oct_digits _ _)). change 11 with (Z.of_nat 11). 
  by rewrite oct2dec_digits; [|lia|split; [lia|]; change (8 ^ Z.of_nat 11) with (2 ^ 33); lia].
Qed.
Lemma next_header_ok (pre : list Z) e : Z.of_nat (length pre) + 512 + Z.of_nat (blocks e) < 2 ^ 31 → Z.of_nat (length (e_data e)) < 2 ^ 31 →
  next_header (Z.of_nat (length pre)) (Z.of_nat (length (e_data e))) = Z.of_nat (length pre) + 512 + Z.of_nat (blocks e).
Proof.
  intros H Hs. unfold next_header. rewrite (u64_small (_ + 511)) by lia.
  assert (Z.of_nat (blocks e) = 512 * ((Z.of_nat (length (e_data e)) + 511) / 512)) as Eb.
  { unfold blocks. rewrite Nat2Z.inj_mul, Nat2Z.inj_div, Nat2Z.inj_add. done. }
  rewrite u64_small; lia.
Qed.

(** The whole loop. *)
Lemma init_loop_ok k0 s0 ji jn z es img :
  places k0 s0 ji jn → archive es img → Z.of_nat (length tar) < 2 ^ 31 →
  ∀ n pre k s rows num b, tar = pre ++ img → (length es < n)%nat →
  extends base k0 k s0 s → ji < k ∧ jn < k → k + 6 * Z.of_nat (length es) ≤ n_frames s0 → listed s rows →
  (length rows + length es ≤ 84)%nat → 0 < num → num + Z.of_nat (length es) < 2 ^ 31 →
  k_heap s !! kv (frame_at base jn) = Some (OBytes (b ++ z)) → length b = 100%nat →
  ∃ k' s' xs, init_loop tar slash junk n (kv (frame_at base jn)) (Z.of_nat (length pre)) num s = Ok (tt, s')
    ∧ extends base k0 k' s0 s' ∧ k' ≤ k + 6 * Z.of_nat (length es) ∧ listed s' (rows ++ xs)
    ∧ rows_match (tarfs_sb (k_fs s0)) rows num (Z.of_nat (length pre)) es xs.
Proof.
  intros Hp Har Hlt. induction Har as [r Hr H5|e es h pad r He Hh Hpad Har IH];
    intros n pre k s rows num b Ht Hn X Hj Hk Hls Hrows Hnum Hmax Hnm Hb; (destruct n as [|n]; [cbn in Hn; lia|]); cbn [init_loop].
  - mstep (is_header_end pre r s Ht Hr H5). exists k, s, []. rewrite app_nil_r. split; [done|]. split; [done|]. split; [cbn; lia|done].
  - cbn [length] in *. mstep (is_header_entry pre h _ e s Ht Hh). cbn [negb]. mstep (size_of_entry_ok pre h _ e s Ht Hh He).
    destruct (init_entry_ok k0 s0 ji jn k s rows Hp X Hj ltac:(lia) Hls ltac:(lia) b z pre h _ e num Hnm Hb Ht He Hh ltac:(lia))
      as (k1 & s1 & x & E1 & Hk1 & X1 & Hls1 & Hnm1 & Hx). mstep E1.
    pose proof (f_equal length Ht) as Hlen. rewrite !length_app, (ho_length _ _ Hh), <- length_app, Hpad in Hlen.
    rewrite next_header_ok by (pose proof (eo_size _ He); lia). rewrite (u32_small (num + 1)) by lia.
    assert (Hpre : Z.of_nat (length (pre ++ h ++ e_data e ++ pad)) = Z.of_nat (length pre) + 512 + Z.of_nat (blocks e)).
    { rewrite length_app, (length_app h), (ho_length _ _ Hh), Hpad. lia. }
    destruct (IH n (pre ++ h ++ e_data e ++ pad) k1 s1 (rows ++ [x]) (num + 1) (padded (e_name e))) as (k2 & s2 & xs & E2 & X2 & Hk2 & Hls2 & Hm).
    + rewrite Ht, <- !app_assoc. done.
    + lia.
    + done.
    + lia.
    + lia.
    + done.
    + rewrite length_app. cbn. lia.
    + lia.
    + lia.
    + done.
    + apply padded_length, (eo_length _ He).
    + rewrite Hpre in E2, Hm. exists k2, s2, (x :: xs). split; [done|]. split; [done|]. split; [lia|]. rewrite <- app_assoc in Hls2.
      split; [done|]. by split.
Qed.

(** *** The root *)

Definition root_inode (d : Z) : inode := Inode 2 0 0 None 0 0 d.
Definition root_row (d : Z) : row := Row 2 d [chr "/"] NULL (root_inode d).

Lemma create_root_ok k0 s0 ji jn k s :
  places k0 s0 ji jn → extends base k0 k s0 s → ji < k → k + 2 ≤ n_frames s0 → listed s [] →
  ∃ s', create_root_dentry s = Ok (kv (frame_at base k), s') ∧ extends base k0 (k + 2) s0 s'
    ∧ listed s' [root_row (kv (frame_at base k))]
    ∧ ∀ a b, k_heap s !! a = Some (OBytes b) → k_heap s' !! a = Some (OBytes b).
Proof.
  intros Hp X Hji Hk Hls. pose proof Hp as [Hf _ _ _ _ Hr]. pose proof (fr_range _ _ _ Hf) as Hfr.
  pose proof (ex_frontier _ _ _ _ _ X) as Hfk. pose proof (ex_frames _ _ _ _ _ X) as Hn. pose proof (fr_range _ _ _ Hfk).
  unfold create_root_dentry.
  destruct (extends_alloc base k k s s (extends_refl _ _ _ Hfk) ltac:(lia)) as (s1 & E1 & X1 & _). mstep E1. unfold store. mnorm.
  set (F := kv (frame_at base k)) in *.
  change (my_memcpy (d_name zero_dentry) [chr "/"; 0] 1) with (Some (padded [chr "/"])). cbn [of_option]. mnorm.
  pose proof (extends_store _ _ _ _ _ k (ODentry zero_dentry) Hfk X1 ltac:(lia)) as X2. fold F in X2.
  mstep (update_ok as_dentry ODentry F _ zero_dentry (set_d_name (padded [chr "/"])) (upd_heap <[F := ODentry zero_dentry]> s1)
    (lookup_insert_eq _ _ _) eq_refl).
  pose proof (extends_store _ _ _ _ _ k (ODentry (Dentry (padded [chr "/"]) 0 0)) Hfk X2 ltac:(lia)) as X3. fold F in X3.
  set (s3 := upd_heap <[F := ODentry (Dentry (padded [chr "/"]) 0 0)]> _) in *.
  mstep (update_ok as_dentry ODentry F _ (Dentry (padded [chr "/"]) 0 0) (set_d_parent NULL) s3 (lookup_insert_eq _ _ _) eq_refl).
  pose proof (extends_store _ _ _ _ _ k (ODentry (Dentry (padded [chr "/"]) 0 0)) Hfk X3 ltac:(lia)) as X4. fold F in X4.
  destruct (new_dentry_operations_ok k (k + 1) s _ k (Dentry (padded [chr "/"]) 0 0) Hfk X4 ltac:(lia) ltac:(lia))
    as (s5 & E5 & X5 & op & o & Hh5); [apply lookup_insert_eq|].
  fold F in E5, Hh5. mstep E5. pose proof (extends_trans _ _ _ _ _ _ _ X X5) as X6. replace (k + 1 + 1) with (k + 2) in * by lia.
  destruct (list_row_ok k0 s0 ji jn (k + 2) s5 [] (root_row F) Hp X6 ltac:(lia) (listed_extends _ _ _ _ _ _ X5 Hls))
    as (s6 & E6 & X7 & Hls6 & Hby).
  - cbn. lia.
  - constructor; [done|done| | |].
    + exists op. rewrite Hh5, lookup_insert_ne, lookup_insert_eq; [done|]. apply (frame_ne base k s); [done|lia..].
    + split; [repeat constructor; done|cbn; lia].
    + apply (frame_nz base k s); [done|lia].
  - exists s6. split; [|split; [done|]; split; [done|]; intros a b Ha; by apply Hby, (ex_lookup _ _ _ _ _ _ _ X5)].
    change (set_i_dentry F (set_i_number 2 bare_inode)) with (r_inode (root_row F)).
    cbn [r_num r_addr root_row] in E6. rewrite <- bind_assoc. by mstep E6.
Qed.

(** *** The whole initialisation *)

(** The globals of the file system afterwards. *)
Definition mounted_fs (k : Z) (f : fs_globals) : fs_globals :=
  FsGlobals (kv (tarfs_sb f)) (kv (dentry_cache_array f)) (kv (frame_at base (k + 2))) (kv (frame_at base (k + 3))) 100
    (kv (frame_at base (k + 1))).

(** The file system holds the entries [es] of the image: a root and a row for
    each entry, in order. *)
Definition mounted (s : kst) (es : list entry) : Prop :=
  ∃ xs, listed s (root_row (s_root (k_fs s)) :: xs)
    ∧ rows_match (tarfs_sb (k_fs s)) [root_row (s_root (k_fs s))] 3 0 es xs.

Lemma archive_length es img : archive es img → (512 * length es < length img)%nat.
Proof.
  induction 1 as [r Hr|e es h pad r He Hh Hpad Har IH]; cbn; [lia|].
  rewrite !length_app in *. rewrite (ho_length _ _ Hh). lia.
Qed.

(** The state the initialisation starts from, without the cache. *)
Section whole.
Context (k : Z) (s : kst).
Let D := kv (dentry_cache_array (k_fs s)).
Let s_ := upd_heap (delete D) s.
Let name := kv (frame_at base k).
Hypothesis Hf : frontier base k s.
Hypothesis Hpg : k_is_paging s = 1.
Hypothesis Hs : has_slash slash s.
Hypothesis Hc : k_heap s !! D = Some (ODcache zero_dcache).

Lemma without_cache : frontier base k s_ ∧ extends base k k s_ s.
Proof.
  assert (frontier base k s_).
  { apply frontier_heap; [done|]. intros j Hj. rewrite lookup_delete_None. right. by apply (fr_clean _ _ _ Hf). }
  split; [done|]. constructor; [done|lia|done|cbn; apply delete_subseteq|].
  exists (k_phys s), (k_con s), (k_heap s). by destruct s.
Qed.
Lemma places_ok f : dentry_cache_array (f (k_fs s)) = D → s_inodes (f (k_fs s)) = kv (frame_at base (k + 2)) →
  places k (upd_fs f s_) (k + 2) k.
Proof.
  intros H1 H2. destruct without_cache as [Hf_ X0]. constructor.
  - by apply frontier_fs.
  - destruct Hs as [Hs1 Hs2]. split; [done|]. cbn. rewrite lookup_delete_ne; [done|]. intros <-. congruence.
  - cbn. rewrite H1. apply lookup_delete_eq.
  - intros j Hj. cbn. rewrite H1. exact (frontier_ne base k s j D _ Hf Hj Hc).
  - exact H2.
  - lia.
Qed.

Definition tables_fs (f : fs_globals) : fs_globals :=
  set_s_inodes (kv (frame_at base (k + 2))) (set_s_op (kv (frame_at base (k + 1)))
    (set_dentry_cache_array (kv (dentry_cache_array f)) (set_tarfs_sb (kv (tarfs_sb f)) f))).

Lemma tarfs_tables_ok : k + 3 ≤ n_frames s →
  ∃ s', tarfs_tables s = Ok (name, s') ∧ extends base k (k + 3) (upd_fs tables_fs s_) s' ∧ listed s' []
    ∧ k_heap s' !! name = Some (OBytes zero_bytes).
Proof.
  intros Hk. destruct without_cache as [Hf_ X0]. pose proof (fr_range _ _ _ Hf) as Hr.
  unfold tarfs_tables. destruct (extends_alloc _ _ _ _ _ X0) as (s1 & E1 & X1 & Hh1). { change (n_frames s_) with (n_frames s). lia. }
  mstep E1. pose proof (memset_last base (k + 1) s1 (OBytes zero_bytes) (ex_frontier _ _ _ _ _ X1) ltac:(lia)) as Em.
  replace (k + 1 - 1) with k in Em by lia. fold name in Em |- *. mstep Em.
  pose proof (extends_store _ _ _ _ _ k (OBytes zero_bytes) Hf_ X1 ltac:(lia)) as X2. fold name in X2.
  set (s2 := upd_heap _ s1) in *. assert (Hn2 : k_heap s2 !! name = Some (OBytes zero_bytes)) by apply lookup_insert_eq.
  assert (Hc2 : k_heap s2 !! D = Some (ODcache zero_dcache)).
  { cbn. rewrite lookup_insert_ne, Hh1; [done|]. apply not_eq_sym. eapply (frontier_ne base k s); [done| |done]. lia. }
  unfold rebase_tarfs. mnorm. rewrite bind_assoc. mnorm. rewrite (ex_paging _ _ _ _ _ X2). change (k_is_paging s_) with (k_is_paging s).
  rewrite Hpg. cbn [Z.eqb Pos.eqb when]. mnorm.
  set (f1 := λ f : fs_globals, _). apply (extends_fs _ _ _ f1) in X2. pose proof (frontier_fs _ _ f1 _ Hf_) as Hf1.
  destruct (extends_alloc _ _ _ _ _ X2) as (s4 & E4 & X4 & Hh4). { change (n_frames (upd_fs f1 s_)) with (n_frames s). lia. }
  mstep E4. set (O := kv (frame_at base (k + 1))) in *. set (f2 := set_s_op O).
  apply (extends_fs _ _ _ f2) in X4. pose proof (frontier_fs _ _ f2 _ Hf1) as Hf2. unfold store. mnorm.
  set (so := OSops _). pose proof (extends_store _ _ _ _ _ (k + 1) so Hf2 X4 ltac:(lia)) as X5. fold O in X5.
  destruct (extends_alloc _ _ _ _ _ X5) as (s6 & E6 & X6 & Hh6). { change (n_frames (upd_fs f2 (upd_fs f1 s_))) with (n_frames s). lia. }
  mstep E6. replace (k + 1 + 1) with (k + 2) in * by lia. set (I := kv (frame_at base (k + 2))) in *. set (f3 := set_s_inodes I).
  apply (extends_fs _ _ _ f3) in X6. pose proof (frontier_fs _ _ f3 _ Hf2) as Hf3.
  pose proof (memset_last base (k + 3) (upd_fs f3 s6) (OInodes zero_inodes)) as Em'. replace (k + 3 - 1) with (k + 2) in Em' by lia.
  replace (k + 2 + 1) with (k + 3) in X6 by lia. fold I in Em'. mstep (Em' (ex_frontier _ _ _ _ _ X6) ltac:(lia)).
  pose proof (extends_store _ _ _ _ _ (k + 2) (OInodes zero_inodes) Hf3 X6 ltac:(lia)) as X7. fold I in X7.
  assert (name ≠ O ∧ name ≠ I ∧ D ≠ O ∧ D ≠ I) as (? & ? & ? & ?).
  { split_and!; [apply (frame_ne base k s); (done || lia)..| |]; (eapply (frontier_ne base k s); [done|lia|done]). }
  eexists. split; [reflexivity|]. split; [exact X7|]. cbn in Hh4. split; [constructor|].
  - rewrite (ex_fs _ _ _ _ _ X7). change (dentry_cache_array _) with D. cbn. rewrite lookup_insert_ne, Hh6 by done.
    cbn. by rewrite lookup_insert_ne, Hh4.
  - rewrite (ex_fs _ _ _ _ _ X7). apply lookup_insert_eq.
  - constructor.
  - cbn. rewrite lookup_insert_ne, Hh6 by done. cbn. by rewrite lookup_insert_ne, Hh4.
Qed.

Lemma tarfs_init_ok es :
  k + 5 + 6 * Z.of_nat (length es) ≤ n_frames s → archive es tar → Z.of_nat (length tar) < 2 ^ 31 → (length es ≤ 83)%nat →
  ∃ k' s', tarfs_init tar slash junk s = Ok (tt, s') ∧ mounted s' es ∧ extends base k k' (upd_fs (mounted_fs k) s_) s'
    ∧ k' ≤ k + 5 + 6 * Z.of_nat (length es).
Proof.
  intros Hk Har Hlt Hes. destruct (tarfs_tables_ok ltac:(lia)) as (s1 & E1 & X1 & Hls1 & Hn1). pose proof (fr_range _ _ _ Hf) as Hr.
  pose proof (places_ok tables_fs eq_refl eq_refl) as Hp1.
  destruct (create_root_ok k _ (k + 2) k (k + 3) s1 Hp1 X1 ltac:(lia)) as (s2 & E2 & X2 & Hls2 & Hby);
    [change (n_frames (upd_fs tables_fs s_)) with (n_frames s); lia|done|].
  set (R := kv (frame_at base (k + 3))) in *. unfold tarfs_init. mstep E1. mstep E2.
  apply (extends_fs _ _ _ (set_s_root R)), (extends_fs _ _ _ (set_s_magic 100)) in X2.
  set (s3 := upd_fs (set_s_magic 100) (upd_fs (set_s_root R) s2)) in *.
  change (upd_fs (set_s_magic 100) (upd_fs (set_s_root R) (upd_fs tables_fs s_))) with (upd_fs (mounted_fs k) s_) in X2.
  assert (Hls3 : listed s3 [root_row R]). { destruct Hls2. by constructor. }
  pose proof (places_ok (mounted_fs k) eq_refl eq_refl) as Hp3. pose proof (archive_length _ _ Har).
  destruct (init_loop_ok k _ (k + 2) k (replicate 3996 0) es tar Hp3 Har Hlt (image_fuel tar) [] (k + 5) s3 [root_row R] 3 (replicate 100 0))
    as (k' & s4 & xs & E4 & X4 & Hk' & Hls4 & Hm).
  - done.
  - unfold image_fuel. lia.
  - by replace (k + 5) with (k + 3 + 2) by lia.
  - lia.
  - done.
  - done.
  - cbn. lia.
  - lia.
  - lia.
  - by apply Hby.
  - done.
  - exists k', s4. split; [exact E4|]. split; [|done]. exists xs. rewrite (ex_fs _ _ _ _ _ X4). done.
Qed.
End whole.
End init.

(** C7: [tarfs_init] lists the archive.  From the state boot leaves (paging on,
    an empty cache, enough free frames) and an image of at most 83 entries,
    the initialisation returns and the file system holds the root and, in the
    order of the archive, one directory entry and one inode for each entry:
    its name, its number from 3 on, its size and type, the offset of its
    contents for a plain file, and as parent the first entry whose name has
    the sum of characters of the part of its path before the last slash.
    Nothing else in the store and no process global changes. *)
Theorem tarfs_init_lists_archive base tar slash junk k s es :
  frontier base k s → k + 5 + 6 * Z.of_nat (length es) ≤ n_frames s → k_is_paging s = 1 → has_slash slash s →
  k_heap s !! kv (dentry_cache_array (k_fs s)) = Some (ODcache zero_dcache) →
  archive es tar → Z.of_nat (length tar) < 2 ^ 31 → (length es ≤ 83)%nat →
  ∃ s', tarfs_init tar slash junk s = Ok (tt, s') ∧ mounted s' es ∧ k_proc s' = k_proc s
    ∧ (∃ k', frontier base k' s' ∧ k' ≤ k + 5 + 6 * Z.of_nat (length es))
    ∧ ∀ a o, a ≠ kv (dentry_cache_array (k_fs s)) → k_heap s !! a = Some o → k_heap s' !! a = Some o.
Proof.
  intros Hf Hk Hpg Hs Hc Har Hlt Hes.
  destruct (tarfs_init_ok base tar slash junk k s Hf Hpg Hs Hc es Hk Har Hlt Hes) as (k' & s' & E & Hm & X & Hk').
  exists s'. split; [done|]. split; [done|]. split; [apply (ex_proc _ _ _ _ _ X)|]. split; [exists k'; split; [apply X|done]|].
  intros a o Ha Ho. apply (ex_lookup _ _ _ _ _ _ _ X). cbn. by rewrite lookup_delete_ne.
Qed.

(** ** Writing an archive

    The image of any list of entries that fit: the other fields of the
    headers are zero and two empty blocks end the image. *)

Definition header (e : entry) : list Z :=
  padded (e_name e) ++ replicate 24 0 ++ oct_digits 11 (Z.of_nat (length (e_data e))) ++ replicate 21 0
  ++ [e_type e] ++ replicate 100 0 ++ bytes_of_string "ustar" ++ replicate 250 0.
Definition tar_entry (e : entry) : list Z :=
  header e ++ e_data e ++ replicate (blocks e - length (e_data e)) 0.
Fixpoint tar_image (es : list entry) : list Z :=
  match es with [] => replicate 1024 0 | e :: es' => tar_entry e ++ tar_image es' end.

Lemma blocks_ge e : (length (e_data e) ≤ blocks e)%nat.
Proof. unfold blocks. pose proof (Nat.div_mod (length (e_data e) + 511) 512 ltac:(lia)).
  pose proof (Nat.mod_upper_bound (length (e_data e) + 511) 512 ltac:(lia)). lia. Qed.
Lemma drop_more {A} n m (l1 l2 : list A) : length l1 = n → drop (n + m) (l1 ++ l2) = drop m l2.
Proof. intros <-. by rewrite <- drop_drop, drop_app_length. Qed.

Lemma header_ok e : entry_ok e → header_of e (header e).
Proof.
  intros [_ [_ Hl] _]. pose proof (padded_length _ Hl) as Hp. pose proof (length_oct_digits 11 (Z.of_nat (length (e_data e)))) as Ho.
  unfold header. constructor.
  - rewrite !length_app, Hp, Ho, !length_replicate. done.
  - by rewrite <- Hp, take_app_length.
  - change 124%nat with (100 + (24 + 0))%nat. rewrite (drop_more 100), (drop_more 24), drop_0 by (done || apply length_replicate).
    by rewrite <- Ho at 1; rewrite take_app_length.
  - rewrite lookup_app_r, Hp, lookup_app_r, length_replicate, lookup_app_r, Ho, lookup_app_r, length_replicate
      by (rewrite ?Hp, ?Ho, ?length_replicate; lia). done.
  - change 257%nat with (100 + (24 + (11 + (21 + (1 + (100 + 0))))))%nat.
    by rewrite (drop_more 100), (drop_more 24), (drop_more 11), (drop_more 21), (drop_more 1), (drop_more 100) by (done || apply length_replicate).
Qed.
Lemma tar_image_archive es : Forall entry_ok es → archive es (tar_image es).
Proof.
  induction 1 as [|e es He _ IH]; cbn [tar_image].
  - constructor; [rewrite length_replicate; lia|done].
  - unfold tar_entry. rewrite <- app_assoc. constructor; [done|by apply header_ok| |done].
    rewrite length_app, length_replicate. pose proof (blocks_ge e). lia.
Qed.

(** ** A directory with a file *)

Definition ls_entry : entry := Entry (bytes_of_string "bin/ls") (chr "0") (bytes_of_string "hello").
Definition two_entries : list entry := [Entry (bytes_of_string "bin/") (chr "5") []; ls_entry].
Definition two_files : list Z := tar_image two_entries.
Definition bin_ls_machine : kst :=
  set_k_is_paging 1 (set_k_fs (FsGlobals 0x31F000 0x5000 0 0 0 0) (upd_proc (set_current (kv 0x6000))
    (machine 0 32 (list_to_map
      [(kv 0x5000, ODcache zero_dcache); (kv 0x6000, OPcb zero_pcb); (kv 0x200000, OBytes [chr "/"; 0])])))).

Lemma bin_ls_frontier : frontier 0x400000 0 bin_ls_machine.
Proof.
  cut (frontier 0x400000 0 (set_k_is_paging 0 (set_k_fs (k_fs blank_kst) (set_k_proc (k_proc blank_kst) bin_ls_machine)))).
  { intros []. by constructor. }
  apply (machine_frontier 0 32); [lia|]. intros j Hj. apply not_elem_of_list_to_map.
  intros [E|[E|[E|[]%elem_of_nil]%elem_of_cons]%elem_of_cons]%elem_of_cons; cbn in E; apply kv_inj in E;
    unfold frame_at in *; lia.
Qed.
Lemma two_entries_ok : Forall entry_ok two_entries.
Proof. repeat constructor; cbn; unfold is_char; lia. Qed.
Lemma two_files_archive : archive two_entries two_files.
Proof. apply tar_image_archive, two_entries_ok. Qed.

Lemma tarfs_init_lists_archive_witness :
  ∃ s', tarfs_init two_files (kv 0x200000) zero_bytes bin_ls_machine = Ok (tt, s') ∧ mounted s' two_entries.
Proof.
  destruct (tarfs_init_lists_archive 0x400000 two_files (kv 0x200000) zero_bytes 0 bin_ls_machine two_entries) as (s' & E & Hm & _).
  - exact bin_ls_frontier.
  - vm_compute. discriminate.
  - vm_compute. reflexivity.
  - split; [vm_compute; discriminate|vm_compute; reflexivity].
  - vm_compute. reflexivity.
  - exact two_files_archive.
  - vm_compute. reflexivity.
  - apply Nat.leb_le. reflexivity.
  - exists s'. exact (conj E Hm).
Defined.
