(* ===== verification/Open.v ===== *)
(** * Opening files (sys/fs.c)

    The path of a file from [sys_open] to its contents: the copies of the
    path, the lookup in the cache, the new file structure and descriptor, and
    the reads through it, against the archive the file system was made
    from. *)

From S2P Require Export Tarfs.

(** ** Lookup among the rows *)

(** The first row whose name has the sum of characters of [q]. *)
Fixpoint first_row (q : list Z) (rows : list row) : option row :=
  match rows with
  | [] => None
  | x :: rows' =>
      if decide (sum (take (length q) (padded (r_name x))) = sum q) then Some x else first_row q rows'
  end.
Lemma first_row_entry q rows : first_with_sum q (row_entry <$> rows) = from_option r_addr NULL (first_row q rows).
Proof. induction rows as [|x rows IH]; [done|]. cbn. by destruct (decide _). Qed.

Lemma inode_loop_ok s rows m q r :
  Forall (row_ok (k_heap s)) rows → (0 < m)%nat → Forall is_char q → (length q ≤ 100)%nat →
  inode_loop ((r_inode <$> rows) ++ replicate m bare_inode) (q ++ 0 :: r) s
  = Ok (from_option r_inode bare_inode (first_row q rows), s).
Proof.
  intros Hr Hm Hq Hl. induction Hr as [|x rows Hx Hr IH]; cbn [fmap list_fmap app].
  - destruct m; [lia|done].
  - cbn [inode_loop]. pose proof Hx as [Hn [-> Ea] _ [Hc Hlen] _]. rewrite (proj2 (Z.eqb_neq _ 0) Hn).
    destruct (load_row _ s x eq_refl Hx) as (d & Hd & En). mstep Hd. rewrite En.
    mstep (name_matches_ok s (padded (r_name x)) q r (padded_length _ Hlen) (padded_bytes _ Hc) (is_char_byte _ Hq)
             (is_char_nz _ Hq) Hl).
    cbn [first_row]. destruct (decide _) as [E|E].
    + by rewrite bool_decide_true.
    + by rewrite bool_decide_false.
Qed.

Lemma listed_cached s rows : listed s rows → cached s (row_cache <$> rows) (row_entry <$> rows).
Proof.
  intros [_ _ H]. induction H as [|x rows [Hn [_ Ea] (op & Hd) [Hc Hl] _] Hr IH]; cbn; constructor; [|done].
  split; [done|]. split; [done|]. split.
  - eexists. split; [by eapply load_some|done].
  - split; [by apply padded_length|by apply padded_bytes].
Qed.

Lemma check_correct_file_rows s rows q r : listed s rows → (length rows < 256)%nat →
  Forall is_char q → (length q ≤ 100)%nat →
  check_correct_file (q ++ 0 :: r) s = Ok (from_option r_addr NULL (first_row q rows), s).
Proof.
  intros Hls Hl Hq Hlen. rewrite <- first_row_entry.
  apply (check_correct_file_ok s (row_cache <$> rows) (row_entry <$> rows) (DentryCache 0 0)
    (replicate (255 - length rows) (DentryCache 0 0))).
  - eapply load_some; [apply (ls_cache _ _ Hls)|]. unfold cache_of. cbn [as_dcache].
    by replace (256 - length rows)%nat with (S (255 - length rows)) by lia.
  - done.
  - by apply listed_cached.
  - rewrite length_fmap. lia.
  - by apply is_char_byte.
  - by apply is_char_nz.
  - done.
Qed.

(** The inode of the entry found for a name is that of the first row with the
    sum of characters of its own name. *)
Lemma get_inode_rows s rows x : listed s rows → (length rows < 85)%nat → x ∈ rows →
  get_inode_from_dentry (r_addr x) s = Ok (from_option r_inode bare_inode (first_row (r_name x) rows), s).
Proof.
  intros Hls Hl Hx. unfold get_inode_from_dentry. mnorm.
  mstep (load_some as_inodes _ _ _ _ (ls_inodes _ _ Hls) eq_refl).
  pose proof (proj1 (Forall_forall _ _) (ls_rows _ _ Hls) x Hx) as [_ _ (op & Hd) [Hc Hlen] _].
  mstep (load_some as_dentry _ _ _ _ Hd eq_refl). cbn [d_name]. rewrite padded_cons by done.
  apply inode_loop_ok; [apply Hls|lia|done|lia].
Qed.

(** ** The steps of [sys_open] *)

Section open.
Context (base : Z) (junk : list Z).

Lemma new_string_page_ok k0 k s0 s : frontier base k0 s0 → extends base k0 k s0 s → k < n_frames s0 →
  ∃ s', new_string_page s = Ok (kv (frame_at base k), s') ∧ extends base k0 (k + 1) s0 s'
    ∧ k_heap s' = <[kv (frame_at base k) := OBytes zero_bytes]> (k_heap s).
Proof.
  intros Hf X Hk. pose proof (ex_bottom _ _ _ _ _ X). pose proof (ex_range _ _ _ _ _ X). unfold new_string_page.
  destruct (extends_alloc base k0 k s0 s X Hk) as (s1 & E1 & X1 & Hh1). mstep E1.
  pose proof (memset_last base (k + 1) s1 (OBytes zero_bytes) (ex_frontier _ _ _ _ _ X1) ltac:(lia)) as Em.
  replace (k + 1 - 1) with k in Em by lia. mstep Em.
  eexists. split; [reflexivity|]. split; [by apply extends_store; [..|lia]|]. cbn. by rewrite Hh1.
Qed.

Lemma memcpy_prefix (d q r : list Z) : (length q ≤ length d)%nat →
  my_memcpy d (q ++ r) (Z.of_nat (length q)) = Some (q ++ drop (length q) d).
Proof.
  intros H. unfold my_memcpy. rewrite Nat2Z.id, length_app.
  rewrite (proj2 (Nat.leb_le _ _)), (proj2 (Nat.leb_le _ (length q + length r))) by lia.
  cbn [andb]. by rewrite take_app_length.
Qed.

Lemma getname_ok k s q r : frontier base k s → k < n_frames s → Forall is_char q → (length q ≤ length junk)%nat →
  ∃ s', getname junk (q ++ 0 :: r) s = Ok (kv (frame_at base k), s') ∧ extends base k (k + 1) s s'
    ∧ k_heap s' = <[kv (frame_at base k) := OBytes (q ++ drop (length q) junk)]> (k_heap s).
Proof.
  intros Hf Hk Hq Hl. unfold getname.
  destruct (extends_alloc base k k s s (extends_refl _ _ _ Hf) Hk) as (s1 & E1 & X1 & Hh1). mstep E1.
  rewrite my_strlen_app by (by apply is_char_nz). cbn [of_option]. mnorm.
  rewrite memcpy_prefix by done. cbn [of_option]. mnorm. unfold store. mnorm.
  eexists. split; [reflexivity|]. split; [by apply extends_store; [..|lia]|]. cbn. by rewrite Hh1.
Qed.

(** The path gets a slash before it. *)
Lemma prefix_path_ok k0 k s0 s j q u : frontier base k0 s0 → extends base k0 k s0 s → k < n_frames s0 → k0 ≤ j < k →
  k_heap s !! kv (frame_at base j) = Some (OBytes (q ++ 0 :: 0 :: u)) →
  Forall is_char q → (0 < length q ≤ 4000)%nat → q !! 0%nat ≠ Some (chr ".") →
  ∃ s', prefix_path (kv (frame_at base j)) s = Ok (tt, s') ∧ extends base k0 (k + 1) s0 s'
    ∧ k_heap s' !! kv (frame_at base j) = Some (OBytes ((chr "/" :: q) ++ 0 :: u)).
Proof.
  intros Hf X Hk Hj Hb Hq Hlen Hdot. unfold prefix_path. set (P := kv (frame_at base j)) in *.
  mstep (load_some as_bytes _ _ _ _ Hb eq_refl).
  assert (∃ m, my_memcmp (q ++ 0 :: 0 :: u) [chr "."; 0] 1 = Some m ∧ m ≠ 0) as (m & -> & Hm).
  { destruct q as [|c q]; [cbn in Hlen; lia|]. apply Forall_cons in Hq as [Hc _]. unfold is_char in Hc.
    eexists. split; [reflexivity|]. change (chr ".") with 46 in *. change (chr "0") with 48.
    rewrite i32_small by lia. intros E. apply Hdot. cbn. f_equal. lia. }
  cbn [of_option]. mnorm. rewrite (proj2 (Z.eqb_neq m 0) Hm).
  destruct (new_string_page_ok k0 k s0 s Hf X Hk) as (s1 & E1 & X1 & Hh1). mstep E1. set (T := kv (frame_at base k)) in *.
  assert (HT : k_heap s1 !! T = Some (OBytes zero_bytes)) by (rewrite Hh1; apply lookup_insert_eq).
  assert (HTP : T ≠ P) by (apply (frame_ne base k0 s0); [done|pose proof (fr_range _ _ _ Hf); lia..]).
  mstep (load_some as_bytes _ _ _ _ HT eq_refl). change (zero_bytes !! 0%nat) with (Some 0). cbn [of_option]. mnorm.
  change (negb (0 =? chr "/")) with true. cbn [when]. unfold store. mnorm.
  set (t := <[0%nat := chr "/"]> zero_bytes). set (s2 := upd_heap <[T := OBytes t]> s1).
  assert (HP2 : k_heap s2 !! P = Some (OBytes (q ++ 0 :: 0 :: u))).
  { cbn. by rewrite lookup_insert_ne, Hh1, lookup_insert_ne. }
  mstep (load_some as_bytes T _ t s2 (lookup_insert_eq _ _ _) eq_refl). mstep (load_some as_bytes _ _ _ _ HP2 eq_refl).
  rewrite my_strlen_app by (by apply is_char_nz). cbn [of_option]. mnorm.
  change (drop 1 t) with (replicate 4095 0). rewrite memcpy_prefix by (rewrite length_replicate; lia). cbn [of_option]. mnorm.
  change (take 1 t) with [chr "/"]. cbn [app]. set (s3 := upd_heap _ s2).
  mstep (load_some as_bytes T _ _ s3 (lookup_insert_eq _ _ _) eq_refl).
  rewrite drop_replicate. replace (4095 - length q)%nat with (S (4094 - length q)) by lia. cbn [replicate].
  change (chr "/" :: q ++ 0 :: ?z) with ((chr "/" :: q) ++ 0 :: z).
  rewrite my_strlen_app by (constructor; [done|by apply is_char_nz]). cbn [of_option]. mnorm.
  rewrite memcpy_prefix by (rewrite length_app; cbn; lia). cbn [of_option]. mnorm.
  eexists. split; [reflexivity|].
  split; [|cbn [k_heap upd_heap set_k_heap]; rewrite lookup_insert_eq; do 3 f_equal].
  - apply extends_store; [done| |pose proof (ex_range _ _ _ _ _ X); lia].
    apply extends_store; [done| |pose proof (ex_range _ _ _ _ _ X); lia].
    apply extends_store; [done|done|pose proof (ex_range _ _ _ _ _ X); lia].
  - change (length (chr "/" :: q)) with (S (length q)). rewrite <- Nat.add_1_r, <- drop_drop, drop_app_length. done.
Qed.

(** A path with a slash in front is looked up without it. *)
Lemma do_find_dentry_ok k0 k s0 s P q u rows flags :
  frontier base k0 s0 → extends base k0 k s0 s → k < n_frames s0 →
  k_heap s !! P = Some (OBytes ((chr "/" :: q) ++ 0 :: u)) → Forall is_char q → (length q ≤ 100)%nat →
  listed s0 rows → (length rows < 256)%nat →
  ∃ s', do_find_dentry P flags s = Ok (from_option r_addr NULL (first_row q rows), s') ∧ extends base k0 (k + 1) s0 s'.
Proof.
  intros Hf X Hk Hb Hq Hlen Hls Hrows. unfold do_find_dentry.
  mstep (load_some as_bytes _ _ _ _ Hb eq_refl). cbn [app lookup list_lookup of_option]. mnorm.
  change (chr "/" =? chr "/") with true. cbn match. rewrite bind_assoc.
  pose proof (ex_frontier _ _ _ _ _ X) as Hfk. pose proof (ex_frames _ _ _ _ _ X) as Hn.
  assert (HTP : kv (frame_at base k) ≠ P) by (apply not_eq_sym; eapply (frontier_ne base k s); [done|lia|done]).
  destruct (new_string_page_ok k0 k s0 s Hf X Hk) as (s1 & E1 & X1 & Hh1). mstep E1. set (T := kv (frame_at base k)) in *.
  assert (HP1 : k_heap s1 !! P = Some (OBytes ((chr "/" :: q) ++ 0 :: u))) by (by rewrite Hh1, lookup_insert_ne).
  assert (HT : k_heap s1 !! T = Some (OBytes zero_bytes)) by (rewrite Hh1; apply lookup_insert_eq).
  unfold copy_string. rewrite !bind_assoc. mstep (load_some as_bytes _ _ _ _ HP1 eq_refl).
  rewrite my_strlen_app by (constructor; [done|by apply is_char_nz]). cbn [of_option]. rewrite bind_assoc. mnorm.
  rewrite bind_assoc. mstep (load_some as_bytes _ _ _ _ HT eq_refl). rewrite Z.add_0_r.
  rewrite memcpy_prefix by (change (length zero_bytes) with 4096%nat; cbn; lia). cbn [of_option]. rewrite bind_assoc. mnorm.
  unfold store. mnorm.
  set (s2 := upd_heap _ s1) in *. mstep (load_some as_bytes T _ _ s2 (lookup_insert_eq _ _ _) eq_refl).
  pose proof (ex_range _ _ _ _ _ X).
  assert (X2 : extends base k0 (k + 1) s0 s2) by (by apply extends_store; [..|lia]).
  exists s2. split; [|done]. unfold zero_bytes. rewrite drop_replicate. cbn [length app drop].
  replace (4096 - S (length q))%nat with (S (4094 - length q)) by lia. cbn [replicate].
  apply check_correct_file_rows; [by eapply listed_extends|done..].
Qed.

Lemma new_tarfs_file_ok k0 k s0 s d flags mode : frontier base k0 s0 → extends base k0 k s0 s → k + 2 ≤ n_frames s0 →
  ∃ s', new_tarfs_file d flags mode s = Ok (kv (frame_at base k), s') ∧ extends base k0 (k + 2) s0 s'
    ∧ k_heap s' !! kv (frame_at base k) = Some (OFile (File 0 1 mode flags d (kv (frame_at base (k + 1)))))
    ∧ k_heap s' !! kv (frame_at base (k + 1)) = Some (OFops (Fops (Some tarfs_read_fn) None (Some tarfs_close_fn))).
Proof.
  intros Hf X Hk. pose proof (ex_bottom _ _ _ _ _ X). pose proof (ex_range _ _ _ _ _ X). unfold new_tarfs_file.
  destruct (extends_alloc base k0 k s0 s X ltac:(lia)) as (s1 & E1 & X1 & Hh1). mstep E1. set (F := kv (frame_at base k)) in *.
  pose proof (memset_last base (k + 1) s1 (OFile zero_file) (ex_frontier _ _ _ _ _ X1) ltac:(lia)) as Em.
  replace (k + 1 - 1) with k in Em by lia. fold F in Em. mstep Em.
  pose proof (extends_store _ _ _ _ _ k (OFile zero_file) Hf X1 ltac:(lia)) as X2. fold F in X2. set (s2 := upd_heap _ s1) in *.
  set (g := λ f : file, _). mstep (update_ok as_file OFile F _ zero_file g s2 (lookup_insert_eq _ _ _) eq_refl).
  change (g zero_file) with (File 0 1 mode flags d 0).
  pose proof (extends_store _ _ _ _ _ k (OFile (File 0 1 mode flags d 0)) Hf X2 ltac:(lia)) as X3. fold F in X3. set (s3 := upd_heap _ s2) in *.
  destruct (extends_alloc base k0 (k + 1) s0 s3 X3 ltac:(lia)) as (s4 & E4 & X4 & Hh4). mstep E4. set (G := kv (frame_at base (k + 1))) in *.
  assert (HF4 : k_heap s4 !! F = Some (OFile (File 0 1 mode flags d 0))) by (rewrite Hh4; apply lookup_insert_eq).
  mstep (update_ok as_file OFile F _ _ (set_f_op G) s4 HF4 eq_refl).
  pose proof (extends_store _ _ _ _ _ k (OFile (File 0 1 mode flags d G)) Hf X4 ltac:(lia)) as X5. fold F in X5.
  set (fo := OFops _). pose proof (extends_store _ _ _ _ _ (k + 1) fo Hf X5 ltac:(lia)) as X6. fold G in X6.
  replace (k + 1 + 1) with (k + 2) in X6 by lia.
  unfold store. mnorm. eexists. split; [reflexivity|]. split; [exact X6|]. cbn [k_heap upd_heap set_k_heap].
  split; [|apply lookup_insert_eq]. rewrite lookup_insert_ne; [apply lookup_insert_eq|].
  apply (frame_ne base k0 s0); [done|pose proof (fr_range _ _ _ Hf); lia..].
Qed.
End open.

(** ** From the archive to the descriptor *)

(** A name [n] is taken for the path [q]. *)
Definition same_sum (q n : list Z) : Prop := sum (take (length q) (padded n)) = sum q.
Lemma same_sum_refl q : same_sum q q.
Proof. unfold same_sum, padded. by rewrite take_app_length. Qed.

Lemma first_row_lookup q rows i x : rows !! i = Some x → same_sum q (r_name x) →
  (∀ j y, (j < i)%nat → rows !! j = Some y → ¬ same_sum q (r_name y)) → first_row q rows = Some x.
Proof.
  revert i. induction rows as [|y rows IH]; intros i Hi Hx Hj; [done|]. cbn [first_row].
  destruct i as [|i]; [injection Hi as ->; by rewrite decide_True|].
  rewrite decide_False; [|by apply (Hj 0%nat y); [lia|]].
  apply (IH i); [done..|]. intros j z Hlt Hz. apply (Hj (S j)); [lia|done].
Qed.

(** The row of an entry, and its contents in the image. *)
Lemma rows_match_lookup sb es img : archive es img → ∀ prev num pre xs tar i e, tar = pre ++ img →
  rows_match sb prev num (Z.of_nat (length pre)) es xs → es !! i = Some e →
  ∃ x prev' num' off, xs !! i = Some x ∧ row_of sb prev' num' (Z.of_nat off) e x
    ∧ take (length (e_data e)) (drop (off + 512) tar) = e_data e
    ∧ (off + 512 + length (e_data e) ≤ length tar)%nat.
Proof.
  induction 1 as [r Hr H5|e0 es h pad r He Hh Hpad Har IH]; intros prev num pre xs tar i e Ht Hm Hi; [done|].
  destruct xs as [|x xs]; [done|]. destruct Hm as [Hx Hm]. destruct i as [|i].
  - injection Hi as <-. exists x, prev, num, (length pre). split; [done|]. split; [done|].
    rewrite Ht, !length_app, (ho_length _ _ Hh). split; [|lia].
    rewrite <- drop_drop, drop_app_length, <- (ho_length _ _ Hh), drop_app_length, <- app_assoc. by rewrite take_app_length.
  - destruct (IH (prev ++ [x]) (num + 1) (pre ++ h ++ e_data e0 ++ pad) xs tar i e) as (y & prev' & num' & off & H1 & H2).
    + rewrite Ht, <- !app_assoc. done.
    + rewrite length_app, (length_app h), (ho_length _ _ Hh), Hpad.
      by replace (Z.of_nat (length pre + (512 + blocks e0))) with (Z.of_nat (length pre) + 512 + Z.of_nat (blocks e0)) by lia.
    + done.
    + by exists y, prev', num', off.
Qed.
Lemma rows_match_length sb prev num temp es xs : rows_match sb prev num temp es xs → length xs = length es.
Proof.
  revert prev num temp xs. induction es as [|e es IH]; intros prev num temp [|x xs]; cbn; try done.
  intros [_ H]. f_equal. by eapply IH.
Qed.

(** The first row found for the name of an entry that no earlier name is taken
    for is the row of the entry. *)
Lemma mounted_lookup tar s es i e : archive es tar → mounted s es → (length es ≤ 83)%nat → es !! i = Some e →
  ¬ same_sum (e_name e) [chr "/"] →
  (∀ j e', (j < i)%nat → es !! j = Some e' → ¬ same_sum (e_name e) (e_name e')) →
  ∃ rows x off, listed s rows ∧ (length rows < 85)%nat ∧ x ∈ rows ∧ r_name x = e_name e ∧ first_row (e_name e) rows = Some x
    ∧ i_size (r_inode x) = Z.of_nat (length (e_data e))
    ∧ i_data (r_inode x) = (if e_type e =? chr "0" then Some (Z.of_nat off + 512) else None)
    ∧ take (length (e_data e)) (drop (off + 512) tar) = e_data e ∧ (off + 512 + length (e_data e) ≤ length tar)%nat.
Proof.
  intros Har (xs & Hls & Hm) Hes Hi Hroot Hj.
  destruct (rows_match_lookup _ _ _ Har _ _ [] xs tar i e eq_refl Hm Hi) as (x & prev & num & off & Hx & Hrow & Hd & Hle).
  exists (root_row (s_root (k_fs s)) :: xs), x, off. destruct Hrow as [_ Hn _ Hsz _ Hdat _].
  pose proof (rows_match_length _ _ _ _ _ _ Hm). split; [done|]. split; [cbn; lia|]. split; [right; by eapply list_elem_of_lookup_2|].
  split; [done|]. split; [|done]. apply (first_row_lookup _ _ (S i)); [done|rewrite Hn; apply same_sum_refl|].
  intros [|j] y Hlt Hy; [injection Hy as <-; done|]. destruct (lookup_lt_is_Some_2 es j) as [e' He'].
  { apply lookup_lt_Some in Hy. cbn in Hy. lia. }
  destruct (rows_match_lookup _ _ _ Har _ _ [] xs tar j e' eq_refl Hm He') as (y' & ? & ? & ? & Hy' & [_ Hn' _ _ _ _ _] & _).
  change (xs !! j = Some y) in Hy. rewrite Hy in Hy'. injection Hy' as <-. rewrite Hn'. apply (Hj j); [lia|done].
Qed.

Lemma available_fd_ok s cur c : load as_pcb cur s = Ok (c, s) → (free_fd (take FD_MAX (p_fd c)) 0 < FD_MAX)%nat →
  available_fd cur s = Ok (Z.of_nat (free_fd (take FD_MAX (p_fd c)) 0), s).
Proof.
  intros Hc Hf. unfold available_fd. mstep Hc. by rewrite (proj2 (Nat.eqb_neq _ _)) by lia.
Qed.

Section opening.
Context (base : Z) (tar junk : list Z).

(** A descriptor open on a file in state [s']. *)
Definition opened (s' : kst) (fd : Z) (e : entry) : Prop :=
  ∃ fp f i d, open_at s' fd fp ∧ fp ≠ NULL ∧ tar_file tar s' fp f i d ∧ f_offset f = 0 ∧ contents tar i d = e_data e.

(** The end of [tarfs_open] and [do_open_exec]: the file of the row [x] gets
    the first free descriptor. *)
Lemma open_row_ok k0 k s0 s cur c rows x e off flags mode :
  let fd := free_fd (take FD_MAX (p_fd c)) 0 in
  frontier base k0 s0 → extends base k0 k s0 s → k + 2 ≤ n_frames s0 →
  current (k_proc s0) = cur → k_heap s0 !! cur = Some (OPcb c) → length (p_fd c) = 256%nat → (fd < FD_MAX)%nat →
  listed s0 rows → (length rows < 85)%nat → x ∈ rows → first_row (r_name x) rows = Some x →
  i_size (r_inode x) = Z.of_nat (length (e_data e)) → i_data (r_inode x) = Some (Z.of_nat off + 512) →
  take (length (e_data e)) (drop (off + 512) tar) = e_data e → (off + 512 + length (e_data e) ≤ length tar)%nat →
  Z.of_nat (length tar) < 2 ^ 31 →
  ∃ s', (fp ← new_tarfs_file (r_addr x) flags mode; install_fd cur (Z.of_nat fd) fp;; mret fp) s
      = Ok (kv (frame_at base k), s') ∧ opened s' (Z.of_nat fd) e.
Proof.
  intros fd Hf X Hk Hcur Hc Hfds Hfd Hls Hrows Hx Hfirst Hsz Hdat Hd Hle Hlt.
  destruct (new_tarfs_file_ok base k0 k s0 s (r_addr x) flags mode Hf X Hk) as (s1 & E1 & X1 & HF & HG). mstep E1.
  set (F := kv (frame_at base k)) in *. set (G := kv (frame_at base (k + 1))) in *.
  pose proof (fr_range _ _ _ Hf). pose proof (ex_range _ _ _ _ _ X).
  assert (cur ≠ F ∧ cur ≠ G) as [? ?] by (split; (eapply (frontier_ne base k0 s0); [done|lia|done])).
  pose proof (ex_lookup _ _ _ _ _ _ _ X1 Hc) as Hc1. unfold install_fd.
  mstep (update_ok as_pcb OPcb cur _ c (λ c, set_p_fd (<[Z.to_nat (Z.of_nat fd) := F]> (p_fd c)) c) s1 Hc1 eq_refl).
  set (c' := set_p_fd _ c). set (s2 := upd_heap _ s1). exists s2. split; [done|].
  assert (Hls2 : listed s2 rows) by (eapply (listed_insert s1); [by eapply listed_extends|done|done]).
  set (f := File 0 1 mode flags (r_addr x) G) in *.
  exists F, f, (r_inode x), (Z.of_nat off + 512). split; [|split; [|split; [constructor|]]].
  - exists c'. change (k_proc s2) with (k_proc s1). rewrite (ex_proc _ _ _ _ _ X1), Hcur.
    split; [eapply load_some; [apply lookup_insert_eq|done]|]. unfold fd_at.
    rewrite (proj2 (Z.leb_le 0 _)), (proj2 (Z.ltb_lt _ 256)) by (unfold FD_MAX in *; lia). cbn [andb].
    unfold c'. rewrite Nat2Z.id. cbn [p_fd set_p_fd]. rewrite list_lookup_insert_eq; [done|]. rewrite Hfds. exact Hfd.
  - apply (frame_nz base k0 s0); [done|lia].
  - cbn. by rewrite lookup_insert_ne.
  - exists (Fops (Some tarfs_read_fn) None (Some tarfs_close_fn)). split; [|done]. eapply load_some; [cbn; rewrite lookup_insert_ne by done; exact HG|done].
  - cbn [f_dentry f]. by rewrite (get_inode_rows s2 rows x Hls2 Hrows Hx), Hfirst.
  - done.
  - rewrite Hsz. lia.
  - cbn. lia.
  - split; [done|]. unfold contents. rewrite Hsz, Nat2Z.id. replace (Z.to_nat _) with (off + 512)%nat by lia. done.
Qed.

(** C8: a file that is in the archive can be read.  On a mounted file system
    [sys_open] of the name of a plain file of the archive that no earlier name
    is taken for (names are compared by sums of characters) returns the first
    free descriptor of the current process, and reads of any sizes through it
    return the contents the archive has for that name, in order and up to
    their end.  The frame the path is copied to is assumed to hold zeros after
    the path, the copy brings no terminator. *)
Theorem open_reads_archive k s es i e c u flags mode :
  frontier base k s → k + 5 ≤ n_frames s → archive es tar → Z.of_nat (length tar) < 2 ^ 31 → mounted s es → (length es ≤ 83)%nat →
  k_heap s !! current (k_proc s) = Some (OPcb c) → length (p_fd c) = 256%nat → (free_fd (take FD_MAX (p_fd c)) 0 < FD_MAX)%nat →
  es !! i = Some e → entry_ok e → e_type e = chr "0" → e_name e !! 0%nat ≠ Some (chr ".") →
  ¬ same_sum (e_name e) [chr "/"] →
  (∀ j e', (j < i)%nat → es !! j = Some e' → ¬ same_sum (e_name e) (e_name e')) →
  (∃ j', drop (length (e_name e)) junk = 0 :: 0 :: j') → (length (e_name e) ≤ length junk)%nat →
  let fd := Z.of_nat (free_fd (take FD_MAX (p_fd c)) 0) in
  ∃ s', sys_open junk (Some (e_name e ++ 0 :: u)) flags mode s = Ok (fd, s')
    ∧ ∀ counts, Forall (λ n, 0 ≤ n < 2 ^ 31) counts →
      ∃ s'', read_all tar fd counts s' = Ok (take (Z.to_nat (sum counts)) (e_data e), s'').
Proof.
  intros Hf Hk Har Hlt Hm Hes Hc Hfds Hfd Hi [Hch Hlen _] Hty Hdot Hroot Hj (j' & Hjunk) Hjl fd.
  destruct (mounted_lookup tar s es i e Har Hm Hes Hi Hroot Hj)
    as (rows & x & off & Hls & Hrows & Hx & Hn & Hfirst & Hsz & Hdat & Hd & Hle). rewrite Hty in Hdat. cbn in Hdat.
  destruct (getname_ok base junk k s (e_name e) u Hf ltac:(lia) Hch Hjl) as (s1 & E1 & X1 & Hh1). rewrite Hjunk in Hh1.
  destruct (prefix_path_ok base k (k + 1) s s1 k (e_name e) j' Hf X1 ltac:(lia) ltac:(lia)) as (s2 & E2 & X2 & Hb2);
    [rewrite Hh1; apply lookup_insert_eq|done|lia|done|].
  destruct (do_find_dentry_ok base k (k + 1 + 1) s s2 _ (e_name e) j' rows flags Hf X2 ltac:(lia) Hb2 Hch ltac:(lia) Hls ltac:(lia))
    as (s3 & E3 & X3). rewrite Hfirst in E3. cbn [from_option] in E3.
  rewrite <- Hn in Hfirst.
  destruct (open_row_ok k (k + 1 + 1 + 1) s s3 _ c rows x e off flags mode Hf X3 ltac:(lia) eq_refl Hc Hfds Hfd Hls Hrows Hx Hfirst
    Hsz Hdat Hd Hle Hlt) as (s4 & E4 & Hopen). fold fd in E4, Hopen.
  exists s4. split.
  - unfold sys_open. mstep E1. unfold tarfs_open, get_current_process. mnorm. mstep E2.
    rewrite (ex_proc _ _ _ _ _ X1).
    mstep (available_fd_ok s2 _ c (load_some as_pcb _ _ _ _ (ex_lookup _ _ _ _ _ _ _ X2 Hc) eq_refl) Hfd). fold fd.
    rewrite (proj2 (Z.ltb_ge fd 0)) by (unfold fd; lia). mstep E3.
    pose proof (proj1 (Forall_forall _ _) (ls_rows _ _ Hls) x Hx) as [_ _ _ _ Hnz].
    rewrite (proj2 (Z.eqb_neq (r_addr x) NULL) Hnz).
    apply bind_inv in E4 as (fp & s5 & E5 & E6). mstep E5. apply bind_inv in E6 as (? & s6 & E6 & E7). mstep E6.
    by injection E7 as _ <-.
  - destruct Hopen as (fp & f & i' & d & Ho & Hne & Htf & H0 & Hcont). intros counts Hcs.
    destruct (read_all_ok tar s4 fd fp f i' d counts Ho Hne Htf Hcs) as (s'' & E). exists s''. by rewrite E, H0, Hcont.
Qed.
End opening.

(** ** A file of the archive *)

Lemma open_reads_archive_witness :
  ∃ s0 s' s'', tarfs_init two_files (kv 0x200000) zero_bytes bin_ls_machine = Ok (tt, s0)
    ∧ sys_open zero_bytes (Some (bytes_of_string "bin/ls" ++ [0])) 0 0 s0 = Ok (0, s')
    ∧ read_all two_files 0 [2; 10] s' = Ok (bytes_of_string "hello", s'').
Proof.
  destruct (tarfs_init_ok 0x400000 two_files (kv 0x200000) zero_bytes 0 bin_ls_machine bin_ls_frontier ltac:(vm_compute; reflexivity)) with (es := two_entries)
    as (k & s0 & E0 & Hm & X & Hk).
  - split; [vm_compute; discriminate|vm_compute; reflexivity].
  - vm_compute. reflexivity.
  - vm_compute. discriminate.
  - exact two_files_archive.
  - vm_compute. reflexivity.
  - apply Nat.leb_le. reflexivity.
  - destruct (open_reads_archive 0x400000 two_files zero_bytes k s0 two_entries 1 ls_entry zero_pcb [] 0 0) as (s' & E & Hr).
    + apply X.
    + rewrite (ex_frames _ _ _ _ _ X). cbn in Hk |- *. lia.
    + exact two_files_archive.
    + vm_compute. reflexivity.
    + exact Hm.
    + apply Nat.leb_le. reflexivity.
    + rewrite (ex_proc _ _ _ _ _ X). by apply (ex_lookup _ _ _ _ _ _ _ X).
    + reflexivity.
    + apply Nat.ltb_lt. reflexivity.
    + reflexivity.
    + exact (proj1 (proj1 (Forall_cons _ _ _) (proj2 (proj1 (Forall_cons _ _ _) two_entries_ok)))).
    + reflexivity.
    + vm_compute. discriminate.
    + vm_compute. discriminate.
    + intros [|j] e' Hj He; [injection He as <-; vm_compute; discriminate|lia].
    + by eexists.
    + apply Nat.leb_le. reflexivity.
    + destruct (Hr [2; 10]) as (s'' & Er); [repeat constructor; lia|]. exists s0, s', s''. exact (conj E0 (conj E Er)).
Defined.
