(* ===== verification/Elf.v ===== *)
(** * Programs (sys/elf.c, [do_execve] of sys/process.c)

    The ELF loader reads the header and the program headers of a file into
    two frames and makes an area of every segment to load; [execve] builds an
    address space from it, with a heap and a stack, and sets the registers
    the process starts from. *)

From S2P Require Export Open Faults.

(** ** The ELF format *)

Record Elf64_Ehdr : Type := Ehdr {
  e_ident : list Z;
  eh_type : Z;
  e_machine : Z;
  e_version : Z;
  e_entry : Z;
  e_phoff : Z;
  e_shoff : Z;
  e_flags : Z;
  e_ehsize : Z;
  e_phentsize : Z;
  e_phnum : Z;
  e_shentsize : Z;
  e_shnum : Z;
  e_shstrndx : Z
}.
Record Elf64_Phdr : Type := Phdr {
  p_type : Z;
  ph_flags : Z;
  p_offset : Z;
  p_vaddr : Z;
  p_paddr : Z;
  p_filesz : Z;
  p_memsz : Z;
  p_align : Z
}.

(** A little-endian number of [n] bytes at [off]. *)
Fixpoint le (b : list Z) : Z := match b with [] => 0 | x :: b' => x + 256 * le b' end.
Definition field (b : list Z) (off n : nat) : option Z :=
  if (off + n <=? length b)%nat then Some (le (take n (drop off b))) else None.

(** The structures a pointer to bytes is cast to. *)
Definition ehdr_at (b : list Z) : option Elf64_Ehdr :=
  e_type ← field b 16 2; e_machine ← field b 18 2; e_version ← field b 20 4; e_entry ← field b 24 8;
  e_phoff ← field b 32 8; e_shoff ← field b 40 8; e_flags ← field b 48 4; e_ehsize ← field b 52 2;
  e_phentsize ← field b 54 2; e_phnum ← field b 56 2; e_shentsize ← field b 58 2; e_shnum ← field b 60 2;
  e_shstrndx ← field b 62 2;
  Some (Ehdr (take 16 b) e_type e_machine e_version e_entry e_phoff e_shoff e_flags e_ehsize e_phentsize e_phnum
          e_shentsize e_shnum e_shstrndx).
Definition phdr_at (b : list Z) : option Elf64_Phdr :=
  p_type ← field b 0 4; p_flags ← field b 4 4; p_offset ← field b 8 8; p_vaddr ← field b 16 8; p_paddr ← field b 24 8;
  p_filesz ← field b 32 8; p_memsz ← field b 40 8; p_align ← field b 48 8;
  Some (Phdr p_type p_flags p_offset p_vaddr p_paddr p_filesz p_memsz p_align).
Definition EHDR_SIZE : Z := 64.
Definition PHDR_SIZE : Z := 56.

Definition ELFMAG0 : Z := 0x7f.
Definition ELFMAG1 : Z := chr "E".
Definition ELFMAG2 : Z := chr "L".
Definition ELFMAG3 : Z := chr "F".
Definition ELFCLASS64 : Z := 2.
Definition ELFDATA2LSB : Z := 1.
Definition PT_LOAD : Z := 1.
Definition PF_R : Z := 0x4.
Definition PF_W : Z := 0x2.
Definition PF_X : Z := 0x1.
Definition ELF_READ : Z := PF_R.
Definition ELF_WRITE : Z := Z.lor PF_R PF_W.
Definition ELF_EXECUTE : Z := Z.lor PF_R PF_X.

(** ** The loader *)

Definition ehdr (elf_hdr : Z) : M kst Elf64_Ehdr := b ← load as_bytes elf_hdr; of_option (ehdr_at b).

(** A byte of [e_ident] against what it should be. *)
Definition ident_is (elf_hdr : Z) (i : nat) (v : Z) (msg : string) (rest : M kst Z) : M kst Z :=
  h ← ehdr elf_hdr;
  c ← of_option (e_ident h !! i);
  if negb (c =? v) then kprintf (line msg) [];; mret 0 else rest.
Definition check_elf_magic (elf_hdr : Z) : M kst Z :=
  if elf_hdr =? NULL then mret 0 else
  ident_is elf_hdr 0 ELFMAG0 "first byte of magic invalid"
  (ident_is elf_hdr 1 ELFMAG1 "second byte of magic invalid"
  (ident_is elf_hdr 2 ELFMAG2 "third byte of magic invalid"
  (ident_is elf_hdr 3 ELFMAG3 "fourth byte of magic invalid" (mret 1)))).
Definition check_elf_file_validity (elf_hdr : Z) : M kst Z :=
  m ← check_elf_magic elf_hdr;
  if m =? 0 then mret 0 else
  ident_is elf_hdr 4 ELFCLASS64 "elf file belongs to different architecture"
  (ident_is elf_hdr 5 ELFDATA2LSB "elf file does not have correct byte order" (mret 1)).

Section elf.
(** The tar image and what the new frames hold: bytes, and an area. *)
Context (tar junk : list Z) (vjunk : vm_map_entry).

(** A new frame with [size] bytes of the file from [offset] on; NULL when the
    read fails. *)
Definition read_frame (file size offset : Z) : M kst Z :=
  a ← phys_mem_alloc;
  let p := kv a in
  '(n, buf) ← vfs_read tar file (u64 size) offset;
  (if (length buf <=? length junk)%nat then store p (OBytes (buf ++ drop (length buf) junk)) else ub);;
  if i32 n <? 0 then phys_mem_free p;; mret NULL else mret p.
Definition load_elf_ehdr (file : Z) : M kst Z := read_frame file EHDR_SIZE 0.
Definition load_elf_phdr (ehdr_ : Z) (file : Z) : M kst Z :=
  h ← ehdr ehdr_;
  read_frame file (i32 (PHDR_SIZE * e_phnum h)) (e_phoff h).

(** The first test that holds gives the protection. *)
Definition elf_prot (flags : Z) : Z :=
  if negb (Z.land flags ELF_READ =? 0) then PROT_READ
  else if negb (Z.land flags ELF_WRITE =? 0) then PROT_WRITE
  else if negb (Z.land flags ELF_EXECUTE =? 0) then PROT_EXEC
  else 0.
Definition elf_map (file : Z) (phdr : Elf64_Phdr) : M kst Z :=
  mmap_region vjunk file (p_vaddr phdr) (p_filesz phdr) (p_memsz phdr) (p_offset phdr) (elf_prot (ph_flags phdr)).

(** [n] program headers from the [i]-th on; [err] is an [int]. *)
Fixpoint segments_loop (n i : nat) (filp phdr : Z) : M kst Z :=
  match n with
  | O => mret 0
  | S n' =>
      b ← load as_bytes phdr;
      ppnt ← of_option (phdr_at (drop (Z.to_nat PHDR_SIZE * i) b));
      if p_type ppnt =? PT_LOAD then
        err ← elf_map filp ppnt;
        if i32 err <? 0 then kprintf (line "error in mapping elf file") [];; mret (i32 err)
        else segments_loop n' (S i) filp phdr
      else segments_loop n' (S i) filp phdr
  end.
Definition load_elf_binary (mm : Z) : M kst Z :=
  m ← load as_mm mm;
  let filp := mm_file m in
  ehdr_ ← load_elf_ehdr filp;
  ok ← check_elf_file_validity ehdr_;
  if ok =? 0 then mret (-1) else
  h ← ehdr ehdr_;
  update_mm mm (set_mm_rip (e_entry h));;
  phdr ← load_elf_phdr ehdr_ filp;
  h ← ehdr ehdr_;
  segments_loop (Z.to_nat (e_phnum h)) 0 filp phdr.

(** ** execve *)

Definition O_RDONLY : Z := 0.

(** The name of the command, in the frame the process has for it. *)
Definition set_command (current_process filename : Z) : M kst unit :=
  c ← load as_pcb current_process;
  when (negb (p_command c =? NULL))
    (memset_frame (p_command c) (OBytes zero_bytes);; copy_string (p_command c) filename 1).

(** The program, its heap and its stack; a step that fails ends in
    [read_out]. *)
Definition build_image (curr_mm : Z) (argv envp : option (list (list Z))) : M kst Z :=
  err ← load_elf_binary curr_mm;
  if err <? 0 then mret err else
  err ← do_heap_vma vjunk curr_mm;
  if err <? 0 then mret err else
  do_stack_vma vjunk curr_mm argv envp.

Definition do_execve (filename : Z) (argv envp : option (list (list Z))) : M kst Z :=
  current_process ← get_current_process;
  b ← load as_bytes filename;
  pathname ← getname junk b;
  b ← load as_bytes pathname;
  fp ← do_open_exec junk b O_RDONLY 0;
  buf ← phys_mem_alloc;
  set_command current_process filename;;
  mm_init current_process;;
  c ← load as_pcb current_process;
  let curr_mm := p_mm c in
  update_mm curr_mm (set_mm_file fp);;
  err ← build_image curr_mm argv envp;
  if err <? 0 then phys_mem_free (kv buf);; mret (-1) else
  registers ← task_reg_list current_process;
  m ← load as_mm curr_mm;
  start_thread registers (mm_exec m) (mm_rip m);;
  mret 0.
Definition sys_execve (filename : list Z) (argv envp : option (list (list Z))) : M kst Z :=
  pathname ← getname junk filename;
  do_execve pathname argv envp.
End elf.

(** ** ELF files *)

Lemma field_app b r off n : (off + n ≤ length b)%nat → field (b ++ r) off n = field b off n.
Proof.
  intros H. unfold field. rewrite (proj2 (Nat.leb_le _ (length b)) H), (proj2 (Nat.leb_le _ _)) by (rewrite length_app; lia).
  rewrite drop_app_le by lia. by rewrite take_app_le by (rewrite length_drop; lia).
Qed.
Lemma ehdr_at_app b r : length b = 64%nat → ehdr_at (b ++ r) = ehdr_at b.
Proof.
  intros H. unfold ehdr_at. rewrite !field_app by lia. by rewrite take_app_le by lia.
Qed.
Lemma phdr_at_app b r : length b = 56%nat → phdr_at (b ++ r) = phdr_at b.
Proof. intros H. unfold phdr_at. by rewrite !field_app by lia. Qed.

(** [img] is a 64-bit little-endian ELF file with the header [h] and the
    program headers [phs], which fit in a frame. *)
Record elf_file (img : list Z) (h : Elf64_Ehdr) (phs : list Elf64_Phdr) : Prop := {
  ef_size : (64 ≤ length img)%nat;
  ef_header : ehdr_at (take 64 img) = Some h;
  ef_ident : take 6 (e_ident h) = [ELFMAG0; ELFMAG1; ELFMAG2; ELFMAG3; ELFCLASS64; ELFDATA2LSB];
  ef_phnum : e_phnum h = Z.of_nat (length phs);
  ef_phoff : 0 ≤ e_phoff h ∧ e_phoff h + 56 * Z.of_nat (length phs) ≤ Z.of_nat (length img);
  ef_phdrs : ∀ i ph, phs !! i = Some ph → phdr_at (take 56 (drop (Z.to_nat (e_phoff h) + 56 * i) img)) = Some ph;
  ef_fit : (56 * length phs ≤ 4096)%nat
}.

(** The segments to load. *)
Definition loads (phs : list Elf64_Phdr) : list Elf64_Phdr := filter (λ ph, p_type ph = PT_LOAD) phs.

(** A segment with contents, below 2 GiB: [load_elf_binary] takes an address
    with bit 31 set for an error. *)
Record segment_ok (ph : Elf64_Phdr) : Prop := {
  so_vaddr : 0 ≤ p_vaddr ph;
  so_sizes : 0 < p_filesz ph ≤ p_memsz ph;
  so_end : p_vaddr ph + p_filesz ph < 2 ^ 31
}.

(** ** What loading leaves in place *)

(** Objects other than areas, address spaces and open files. *)
Definition stable (o : obj) : Prop := match o with OVma _ | OMm _ | OFile _ => False | _ => True end.

Record carries (base k k' : Z) (s s' : kst) : Prop := {
  ca_frontier : frontier base k' s';
  ca_range : k ≤ k';
  ca_frames : n_frames s' = n_frames s;
  ca_proc : k_proc s' = k_proc s;
  ca_fs : k_fs s' = k_fs s;
  ca_keeps : ∀ a o, k_heap s !! a = Some o → stable o → k_heap s' !! a = Some o
}.

Lemma carries_refl base k s : frontier base k s → carries base k k s s.
Proof. intros H. by constructor. Qed.
Lemma carries_trans base k1 k2 k3 s1 s2 s3 : carries base k1 k2 s1 s2 → carries base k2 k3 s2 s3 → carries base k1 k3 s1 s3.
Proof. intros [? ? ? ? ? H1] [? ? ? ? ? H2]. constructor; [done|lia|congruence..|]. intros a o Ha Ho. by apply H2; [apply H1|]. Qed.
Lemma extends_carries base k k' s s' : extends base k k' s s' → carries base k k' s s'.
Proof.
  intros X. constructor; [apply X|apply X|apply X|by eapply ex_proc|by eapply ex_fs|]. intros a o Ha _. by eapply ex_lookup.
Qed.
(** A write to an object that is not stable. *)
Lemma carries_insert base k k' s s' a o o' : carries base k k' s s' → k_heap s' !! a = Some o → ¬ stable o →
  carries base k k' s (upd_heap <[a := o']> s').
Proof.
  intros [H1 H2 H3 H4 H5 H6] Ha Ho. constructor; try done; [by eapply frontier_insert|].
  intros b ob Hb Hs. cbn. rewrite lookup_insert_ne; [by apply H6|]. intros <-. pose proof (H6 a ob Hb Hs). congruence.
Qed.
(** A change of existing areas and address spaces. *)
Lemma carries_only_at base k k' s s' s2 l : carries base k k' s s' → only_at s' s2 l →
  (∀ a, a ∈ l → ∃ o, k_heap s' !! a = Some o ∧ ¬ stable o) → carries base k k' s s2.
Proof.
  intros [H1 H2 H3 H4 H5 H6] (h & -> & Hh) Hl. constructor; try done.
  - apply (frontier_heap _ _ _ (λ _, h) H1). intros j Hj. rewrite Hh; [by apply (fr_clean _ _ _ H1)|].
    intros Hin. apply Hl in Hin as (o & Ho & _). by rewrite (fr_clean _ _ _ H1 j Hj) in Ho.
  - intros a o Ha Ho. cbn. rewrite Hh; [by apply H6|]. intros Hin. apply Hl in Hin as (o' & Ho' & Hn).
    pose proof (H6 a o Ha Ho). congruence.
Qed.

Lemma areas_are_frame s s' mm m l : areas_are s mm m l → k_heap s' !! mm = Some (OMm m) →
  (∀ a v, k_heap s !! a = Some (OVma v) → k_heap s' !! a = Some (OVma v)) → areas_are s' mm m l.
Proof.
  intros [H1 [q H2] H3] Hm Hv. constructor; [done| |done]. exists q. eapply dseg_frame; [done|].
  intros x Hx. apply list_elem_of_fmap in Hx as ([y v] & -> & Hin).
  apply (dseg_in _ _ _ _ _ _ _ _ H2) in Hin as (_ & p & n & Hh). cbn. rewrite Hh. by apply Hv.
Qed.

Section loading.
Context (base : Z) (tar junk : list Z) (vjunk : vm_map_entry).
Hypothesis Hjunk : length junk = 4096%nat.

(** *** Reading the headers *)

Lemma read_frame_ok k s fp f i d n o : frontier base k s → k < n_frames s → tar_file tar s fp f i d →
  0 ≤ o → 0 ≤ n ≤ 4096 → o + n ≤ i_size i →
  ∃ s', read_frame tar junk fp n o s = Ok (kv (frame_at base k), s') ∧ carries base k (k + 1) s s'
    ∧ k_heap s' = <[kv (frame_at base k) := OBytes (take (Z.to_nat n) (drop (Z.to_nat o) (contents tar i d)) ++ drop (Z.to_nat n) junk)]>
        (<[fp := OFile (set_f_offset (u64 (f_offset f + n)) f)]> (k_heap s)).
Proof.
  intros Hf Hk Htf Ho Hn Hon. unfold read_frame. pose proof (fr_range _ _ _ Hf) as Hr.
  destruct (extends_alloc base k k s s (extends_refl _ _ _ Hf) Hk) as (s1 & E1 & X1 & Hh1). mstep E1.
  set (F := kv (frame_at base k)) in *.
  assert (Htf1 : tar_file tar s1 fp f i d).
  { apply (tar_file_keeps tar s); [rewrite Hh1; apply keeps_refl|by eapply ex_fs|done]. }
  destruct (vfs_read_at tar s1 fp f i d n o Htf1 Ho ltac:(lia) Hon) as [E2 Hlen].
  rewrite u64_small by lia. mstep E2. rewrite Hlen, Hjunk, (proj2 (Nat.leb_le _ _)) by lia.
  pose proof (tf_file _ _ _ _ _ _ Htf1) as Hfp. set (s2 := with_file _ _ s1).
  unfold store. mnorm. rewrite i32_small, (proj2 (Z.ltb_ge n 0)) by lia.
  eexists. split; [reflexivity|]. split; [|cbn; by rewrite Hh1].
  pose proof (carries_insert _ _ _ _ _ fp _ (OFile (set_f_offset (u64 (f_offset f + n)) f)) (extends_carries _ _ _ _ _ X1) Hfp ltac:(intros []))
    as [C1 C2 C3 C4 C5 C6].
  constructor; try done.
  - apply frontier_heap; [exact C1|]. intros j Hj. rewrite lookup_insert_ne; [by apply (fr_clean _ _ _ C1)|].
    apply (frame_ne base (k + 1) s1); [apply X1|rewrite (ex_frames _ _ _ _ _ X1); lia| |lia].
    change (n_frames s2) with (n_frames s1) in Hj. lia.
  - intros a ob Ha Hob. cbn. rewrite lookup_insert_ne; [by apply C6|]. apply not_eq_sym.
    eapply (frontier_ne base k s); [done|lia|done].
Qed.

(** *** Mapping a segment *)

Definition area_of (fp : Z) (ph : Elf64_Phdr) : vm_map_entry :=
  Vma (p_vaddr ph) (p_vaddr ph + p_filesz ph) (p_filesz ph) (p_memsz ph) (p_offset ph) (elf_prot (ph_flags ph)) fp
    (v_next vjunk) (v_prev vjunk) (Some do_file_fault_fn).

Lemma areas_in s mm m l a : areas_are s mm m l → a ∈ mm :: l.*1 → ∃ o, k_heap s !! a = Some o ∧ ¬ stable o.
Proof.
  intros [H1 [q H2] _] [->|Hin]%elem_of_cons; [exists (OMm m); split; [done|intros []]|].
  apply list_elem_of_fmap in Hin as ([y v] & -> & Hin).
  apply (dseg_in _ _ _ _ _ _ _ _ H2) in Hin as (_ & p & n & Hh). eexists. split; [done|intros []].
Qed.

Lemma elf_map_ok k s c mm m l fp ph :
  frontier base k s → k < n_frames s → k_heap s !! current (k_proc s) = Some (OPcb c) → p_mm c = mm →
  areas_are s mm m l → sorted_areas l → Forall (λ a, forward a.2) l → fp ≠ 0 → segment_ok ph →
  (∀ a, a ∈ l → ¬ overlap a.2 (area_of fp ph)) →
  ∃ s' m' l', elf_map vjunk fp ph s = Ok (p_vaddr ph, s') ∧ carries base k (k + 1) s s' ∧ areas_are s' mm m' l'
    ∧ sorted_areas l' ∧ Forall (λ a, forward a.2) l' ∧ l'.*2 ≡ₚ area_of fp ph :: l.*2 ∧ set_mm_vma 0 m' = set_mm_vma 0 m.
Proof.
  intros Hf Hk Hc Hmm Har Hs Hfw Hfp [S1 S2 S3] Hov. pose proof (fr_range _ _ _ Hf) as Hr.
  unfold elf_map, mmap_region, get_current_process. mnorm.
  mstep (load_some as_pcb _ _ _ _ Hc eq_refl). rewrite (proj2 (Z.eqb_neq fp NULL) Hfp), Hmm.
  rewrite (proj2 (Z.ltb_ge KERNBASE (p_vaddr ph))) by (unfold KERNBASE; lia).
  destruct (extends_alloc base k k s s (extends_refl _ _ _ Hf) Hk) as (s1 & E1 & X1 & Hh1). mstep E1.
  pose proof (frame_range _ _ _ k Hf ltac:(lia)) as [Hpos _].
  rewrite (proj2 (Z.eqb_neq (frame_at base k) NULL)) by (unfold NULL; lia). set (F := kv (frame_at base k)) in *.
  unfold store. mnorm. rewrite (proj2 (Z.ltb_ge (p_memsz ph) _)) by lia.
  set (v0 := set_v_start_addr _ _). set (g := λ v : vm_map_entry, _).
  mstep (update_vma_ok (upd_heap <[F := OVma v0]> s1) F v0 g (lookup_insert_eq _ _ _)).
  assert (g v0 = area_of fp ph) as -> by (unfold g, v0, area_of; cbn; by rewrite u64_small by lia).
  set (s2 := upd_heap <[F := OVma (area_of fp ph)]> _).
  assert (X2 : extends base k (k + 1) s s2).
  { apply extends_store; [done| |lia]. apply extends_store; [done|done|lia]. }
  assert (Har2 : areas_are s2 mm m l).
  { apply (areas_are_frame s); [done|by eapply ex_lookup, Har|]. intros a v Ha. by eapply ex_lookup. }
  assert (HF : F ∉ l.*1).
  { intros Hin. destruct (areas_in s mm m l F Har) as (o & Ho & _); [by right|].
    by eapply (frontier_ne base k s k F); [done|lia|done|]. }
  destruct (add_vma_ok s2 mm m l F (area_of fp ph) Har2 Hs) as [[(y & u & Hin & _ & Ho) _]|[_ Hadd]].
  - apply lookup_insert_eq.
  - apply (frame_nz base k s); [done|lia].
  - done.
  - unfold forward. cbn. lia.
  - intros y u Hl. left. by apply (proj1 (Forall_forall _ _) Hfw (y, u)), last_Some_elem_of.
  - by destruct (Hov (y, u) Hin).
  - destruct Hadd as (l1 & l2 & s3 & m3 & -> & E3 & Har3 & Hs3 & Honly & Em3). mstep E3.
    exists s3, m3, (l1 ++ (F, area_of fp ph) :: l2). split; [done|]. split.
    { apply (carries_only_at _ _ _ _ s2 _ _ (extends_carries _ _ _ _ _ X2) Honly).
      intros a [->|[->|Hin]%elem_of_cons]%elem_of_cons.
      - by apply (areas_in _ _ _ _ _ Har2); left.
      - eexists. split; [apply lookup_insert_eq|intros []].
      - by apply (areas_in _ _ _ _ _ Har2); right. }
    split; [done|]. split; [done|]. split.
    { apply Forall_app in Hfw as [Hf1 Hf2]. apply Forall_app. split; [done|]. constructor; [unfold forward; cbn; lia|done]. }
    split; [|done]. rewrite !fmap_app. cbn. symmetry. apply Permutation_middle.
Qed.

(** *** The header *)

Lemma ehdr_ok s a b h : k_heap s !! a = Some (OBytes b) → ehdr_at b = Some h → ehdr a s = Ok (h, s).
Proof. intros Ha Hh. unfold ehdr. mstep (load_some as_bytes _ _ _ _ Ha eq_refl). by rewrite Hh. Qed.

Lemma ident_is_ok s a h i v msg rest : ehdr a s = Ok (h, s) → e_ident h !! i = Some v → ident_is a i v msg rest s = rest s.
Proof. intros Hh Hi. unfold ident_is. mstep Hh. rewrite Hi. cbn [of_option]. mnorm. by rewrite Z.eqb_refl. Qed.

Lemma check_elf_ok s a h : a ≠ 0 → ehdr a s = Ok (h, s) →
  take 6 (e_ident h) = [ELFMAG0; ELFMAG1; ELFMAG2; ELFMAG3; ELFCLASS64; ELFDATA2LSB] →
  check_elf_file_validity a s = Ok (1, s).
Proof.
  intros Ha Hh Hid. assert (Hi : ∀ i, (i < 6)%nat → e_ident h !! i = take 6 (e_ident h) !! i).
  { intros i Hi. by rewrite lookup_take_lt. }
  rewrite Hid in Hi. unfold check_elf_file_validity, check_elf_magic. rewrite (proj2 (Z.eqb_neq a NULL) Ha).
  assert (E : ident_is a 0 ELFMAG0 "first byte of magic invalid" (ident_is a 1 ELFMAG1 "second byte of magic invalid"
    (ident_is a 2 ELFMAG2 "third byte of magic invalid" (ident_is a 3 ELFMAG3 "fourth byte of magic invalid" (mret 1)))) s = Ok (1, s)).
  { rewrite !(ident_is_ok s a h) by (done || (rewrite Hi by lia; done)). done. }
  mstep E. cbn [Z.eqb]. rewrite !(ident_is_ok s a h) by (done || (rewrite Hi by lia; done)). done.
Qed.

(** *** All the segments *)

Lemma segments_loop_ok fp mm P tbl phs2 : ∀ (phs1 : list Elf64_Phdr) k s c m l,
  frontier base k s → k + Z.of_nat (length (loads phs2)) ≤ n_frames s →
  k_heap s !! current (k_proc s) = Some (OPcb c) → p_mm c = mm →
  k_heap s !! P = Some (OBytes tbl) →
  (∀ i ph, phs2 !! i = Some ph → phdr_at (drop (56 * (length phs1 + i)) tbl) = Some ph) →
  areas_are s mm m l → sorted_areas l → Forall (λ a, forward a.2) l → fp ≠ 0 →
  Forall segment_ok (loads phs2) → (∀ a ph, a ∈ l → ph ∈ loads phs2 → ¬ overlap a.2 (area_of fp ph)) →
  ForallOrdPairs (λ a b, ¬ overlap (area_of fp a) (area_of fp b)) (loads phs2) →
  ∃ s' m' l', segments_loop vjunk (length phs2) (length phs1) fp P s = Ok (0, s')
    ∧ carries base k (k + Z.of_nat (length (loads phs2))) s s' ∧ areas_are s' mm m' l'
    ∧ sorted_areas l' ∧ Forall (λ a, forward a.2) l' ∧ l'.*2 ≡ₚ (area_of fp <$> loads phs2) ++ l.*2
    ∧ set_mm_vma 0 m' = set_mm_vma 0 m.
Proof.
  induction phs2 as [|ph phs2 IH]; intros phs1 k s c m l Hf Hk Hc Hmm HP Hph Har Hs Hfw Hfp Hok Hov Hpair.
  { exists s, m, l. rewrite Z.add_0_r. split; [done|]. split; [by apply carries_refl|]. done. }
  cbn [length segments_loop]. mstep (load_some as_bytes _ _ _ _ HP eq_refl).
  pose proof (Hph 0%nat ph eq_refl) as H0. rewrite Nat.add_0_r in H0. change (Z.to_nat PHDR_SIZE) with 56%nat.
  rewrite H0. cbn [of_option]. mnorm.
  assert (Hnext : ∀ i ph', phs2 !! i = Some ph' → phdr_at (drop (56 * (length (phs1 ++ [ph]) + i)) tbl) = Some ph').
  { intros i ph' Hi. rewrite length_app, <- Nat.add_assoc. by apply (Hph (S i)). }
  assert (HS : length (phs1 ++ [ph]) = S (length phs1)) by (rewrite length_app; cbn; lia). rewrite <- HS.
  unfold loads in *. rewrite filter_cons in *. destruct (decide (p_type ph = PT_LOAD)) as [Et|Et].
  - rewrite (proj2 (Z.eqb_eq _ _) Et). apply Forall_cons in Hok as [Hok1 Hok]. cbn [length] in Hk.
    destruct (elf_map_ok k s c mm m l fp ph Hf ltac:(lia) Hc Hmm Har Hs Hfw Hfp Hok1) as (s1 & m1 & l1 & E1 & C1 & Har1 & Hs1 & Hfw1 & Hp1 & Em1).
    { intros a Ha. apply Hov; [done|]. by left. }
    mstep E1. pose proof Hok1 as [? ? ?]. rewrite i32_small, (proj2 (Z.ltb_ge _ 0)) by lia.
    inversion_clear Hpair as [|? ? Hhd Htl].
    destruct (IH (phs1 ++ [ph]) (k + 1) s1 c m1 l1) as (s2 & m2 & l2 & E2 & C2 & Har2 & Hs2 & Hfw2 & Hp2 & Em2).
    + apply C1.
    + rewrite (ca_frames _ _ _ _ _ C1). lia.
    + rewrite (ca_proc _ _ _ _ _ C1). by apply (ca_keeps _ _ _ _ _ C1).
    + done.
    + by apply (ca_keeps _ _ _ _ _ C1).
    + done.
    + done.
    + done.
    + done.
    + done.
    + done.
    + intros a ph' Ha Hin. assert (Ha2 : a.2 ∈ l1.*2) by (by apply list_elem_of_fmap_2).
      rewrite Hp1 in Ha2. apply elem_of_cons in Ha2 as [->|Ha2].
      * by apply (proj1 (Forall_forall _ _) Hhd).
      * apply list_elem_of_fmap in Ha2 as (a' & -> & Ha'). apply Hov; [done|]. by right.
    + done.
    + exists s2, m2, l2. split; [done|]. cbn [length]. split.
      { replace (k + Z.of_nat (S (length (filter (λ ph, p_type ph = PT_LOAD) phs2))))
          with (k + 1 + Z.of_nat (length (filter (λ ph, p_type ph = PT_LOAD) phs2))) by lia. by eapply carries_trans. }
      split; [done|]. split; [done|]. split; [done|]. split; [|congruence].
      rewrite Hp2, Hp1. cbn. symmetry. apply Permutation_middle.
  - rewrite (proj2 (Z.eqb_neq _ _) Et). destruct (IH (phs1 ++ [ph]) k s c m l) as (s2 & m2 & l2 & H2); try done. by exists s2, m2, l2.
Qed.

(** *** The file *)

(** The program headers in the frame they are read into. *)
Lemma phdr_in_frame img h phs i ph r : elf_file img h phs → phs !! i = Some ph →
  phdr_at (drop (56 * i) (take (56 * length phs) (drop (Z.to_nat (e_phoff h)) img) ++ r)) = Some ph.
Proof.
  intros [_ _ _ _ [H1 H2] H3 _] Hi. pose proof (lookup_lt_Some _ _ _ Hi) as Hlt.
  set (t := take (56 * length phs) (drop (Z.to_nat (e_phoff h)) img)).
  assert (Hl : length t = (56 * length phs)%nat) by (unfold t; rewrite length_take, length_drop; lia).
  rewrite drop_app_le, <- (take_drop 56 (drop (56 * i) t)), <- app_assoc by lia.
  rewrite phdr_at_app by (rewrite length_take, length_drop; lia).
  rewrite <- (H3 i ph Hi). unfold t. rewrite skipn_firstn_comm, take_take, drop_drop. do 2 f_equal. lia.
Qed.

(** What [read_frame] leaves of the areas and of the file. *)
Lemma areas_are_read s s' F fp f f' b mm m l : areas_are s mm m l → k_heap s !! F = None → k_heap s !! fp = Some (OFile f) →
  k_heap s' = <[F := OBytes b]> (<[fp := OFile f']> (k_heap s)) → areas_are s' mm m l.
Proof.
  intros Har HF Hfp Hh. assert (Hk : ∀ a o, k_heap s !! a = Some o → (∀ g, o ≠ OFile g) → k_heap s' !! a = Some o).
  { intros a o Ha Ho. rewrite Hh, !lookup_insert_ne; [done|intros ->; congruence..]. }
  apply (areas_are_frame s); [done|by apply Hk; [apply Har|]|]. intros a v Ha. by apply Hk.
Qed.
Lemma tar_file_read s s' F fp f i d b o : tar_file tar s fp f i d → 0 ≤ o ≤ i_size i → k_heap s !! F = None →
  k_heap s' = <[F := OBytes b]> (<[fp := OFile (set_f_offset o f)]> (k_heap s)) → k_fs s' = k_fs s →
  tar_file tar s' fp (set_f_offset o f) i d.
Proof.
  intros Htf Ho HF Hh Hfs. apply (tar_file_keeps tar (with_file fp (set_f_offset o f) s)); [|done|by apply tar_file_with].
  rewrite Hh. apply keeps_fresh. cbn. rewrite lookup_insert_ne; [done|]. intros ->. pose proof (tf_file _ _ _ _ _ _ Htf). congruence.
Qed.

(** The headers are read and the entry point is set. *)
Lemma load_headers_ok k s mm m fp f i d h phs :
  frontier base k s → k + 2 ≤ n_frames s → areas_are s mm m [] → mm_file m = fp → fp ≠ 0 →
  tar_file tar s fp f i d → f_offset f = 0 → elf_file (contents tar i d) h phs →
  let P := kv (frame_at base (k + 1)) in
  ∃ s' r, load_elf_binary tar junk vjunk mm s = segments_loop vjunk (length phs) 0 fp P s'
    ∧ carries base k (k + 2) s s' ∧ areas_are s' mm (set_mm_rip (e_entry h) m) []
    ∧ k_heap s' !! P = Some (OBytes (take (56 * length phs) (drop (Z.to_nat (e_phoff h)) (contents tar i d)) ++ r)).
Proof.
  intros Hf Hk Har Hmf Hfp Htf Hoff Hef P. pose proof Hef as [Hsz Hhd Hid Hnum [Ho1 Ho2] _ Hfit].
  pose proof (tf_bounds _ _ _ _ _ _ Htf) as (Hd0 & Hsi & Hdl). pose proof (fr_range _ _ _ Hf) as Hr.
  assert (Hlen : Z.of_nat (length (contents tar i d)) = i_size i) by (rewrite contents_length by lia; lia).
  unfold load_elf_binary, load_elf_ehdr. mstep (load_some as_mm _ _ _ _ (ar_mm _ _ _ _ Har) eq_refl). rewrite Hmf.
  destruct (read_frame_ok k s fp f i d EHDR_SIZE 0 Hf ltac:(lia) Htf ltac:(lia) ltac:(unfold EHDR_SIZE; lia)
    ltac:(unfold EHDR_SIZE; lia)) as (s1 & E1 & C1 & Hh1). mstep E1. unfold EHDR_SIZE in Hh1.
  set (F := kv (frame_at base k)) in *. rewrite Hoff, u64_small in Hh1 by lia. change (0 + 64) with 64 in Hh1.
  change (Z.to_nat 0) with 0%nat in Hh1. change (Z.to_nat 64) with 64%nat in Hh1. rewrite drop_0 in Hh1.
  assert (HF1 : k_heap s1 !! F = Some (OBytes (take 64 (contents tar i d) ++ drop 64 junk))) by (rewrite Hh1; apply lookup_insert_eq).
  assert (Heq : ehdr_at (take 64 (contents tar i d) ++ drop 64 junk) = Some h).
  { rewrite ehdr_at_app; [done|]. rewrite length_take. lia. }
  pose proof (ehdr_ok s1 F _ h HF1 Heq) as Eh1. mstep (check_elf_ok s1 F h ltac:(apply (frame_nz base k s); [done|lia]) Eh1 Hid).
  cbn [Z.eqb]. mstep Eh1.
  pose proof (tf_file _ _ _ _ _ _ Htf) as Hfile.
  assert (HFnew : k_heap s !! F = None) by (by apply (fr_clean _ _ _ Hf); lia).
  pose proof (areas_are_read s s1 F fp f _ _ mm m [] Har HFnew Hfile Hh1) as Har1.
  pose proof (tar_file_read s s1 F fp f i d _ 64 Htf ltac:(lia) HFnew Hh1 (ca_fs _ _ _ _ _ C1)) as Htf1.
  mstep (update_ok as_mm OMm mm _ m (set_mm_rip (e_entry h)) s1 (ar_mm _ _ _ _ Har1) eq_refl).
  set (s2 := upd_heap _ s1).
  assert (Hmm : mm ≠ F) by (intros ->; pose proof (ar_mm _ _ _ _ Har1); congruence).
  pose proof (carries_insert _ _ _ _ _ mm _ (OMm (set_mm_rip (e_entry h) m)) C1 (ar_mm _ _ _ _ Har1) ltac:(intros [])) as C2. fold s2 in C2.
  assert (HF2 : k_heap s2 !! F = Some (OBytes (take 64 (contents tar i d) ++ drop 64 junk))) by (cbn; by rewrite lookup_insert_ne).
  pose proof (ehdr_ok s2 F _ h HF2 Heq) as Eh2. unfold load_elf_phdr. rewrite bind_assoc. mstep Eh2. rewrite Hnum.
  unfold PHDR_SIZE. rewrite i32_small by lia.
  pose proof (tar_file_insert tar s1 fp _ i d mm _ (OMm (set_mm_rip (e_entry h) m)) Htf1 (ar_mm _ _ _ _ Har1) I) as Htf2. fold s2 in Htf2.
  destruct (read_frame_ok (k + 1) s2 fp _ i d (56 * Z.of_nat (length phs)) (e_phoff h) (ca_frontier _ _ _ _ _ C2)
    ltac:(rewrite (ca_frames _ _ _ _ _ C2); lia) Htf2 ltac:(lia) ltac:(lia) ltac:(lia)) as (s3 & E3 & C3 & Hh3). mstep E3.
  fold P in Hh3 |- *. pose proof (carries_trans _ _ _ _ _ _ _ C2 C3) as C4. replace (k + 1 + 1) with (k + 2) in C4 by lia.
  mstep (ehdr_ok s3 F _ h (ca_keeps _ _ _ _ _ C3 _ _ HF2 I) Heq). rewrite Hnum, Nat2Z.id.
  eexists s3, _. split; [done|]. split; [done|]. split.
  - eapply (areas_are_read s2 s3 P fp); [| |exact (tf_file _ _ _ _ _ _ Htf2)|exact Hh3].
    + destruct Har as [_ [q Hq] _]. constructor; [apply lookup_insert_eq|exists q; exact Hq|constructor].
    + apply (fr_clean _ _ _ (ca_frontier _ _ _ _ _ C2)). rewrite (ca_frames _ _ _ _ _ C2). lia.
  - rewrite Hh3, lookup_insert_eq. replace (Z.to_nat (56 * Z.of_nat (length phs))) with (56 * length phs)%nat by lia. done.
Qed.

Lemma load_elf_ok k s c mm m fp f i d h phs :
  frontier base k s → k + 2 + Z.of_nat (length (loads phs)) ≤ n_frames s →
  k_heap s !! current (k_proc s) = Some (OPcb c) → p_mm c = mm → areas_are s mm m [] → mm_file m = fp → fp ≠ 0 →
  tar_file tar s fp f i d → f_offset f = 0 → elf_file (contents tar i d) h phs → Forall segment_ok (loads phs) →
  ForallOrdPairs (λ a b, ¬ overlap (area_of fp a) (area_of fp b)) (loads phs) →
  ∃ s' m' l, load_elf_binary tar junk vjunk mm s = Ok (0, s') ∧ areas_are s' mm m' l ∧ sorted_areas l
    ∧ l.*2 ≡ₚ area_of fp <$> loads phs ∧ mm_rip m' = e_entry h ∧ mm_cr3 m' = mm_cr3 m ∧ mm_file m' = fp
    ∧ carries base k (k + 2 + Z.of_nat (length (loads phs))) s s'.
Proof.
  intros Hf Hk Hc Hmm Har Hmf Hfp Htf Hoff Hef Hok Hpair.
  destruct (load_headers_ok k s mm m fp f i d h phs Hf ltac:(lia) Har Hmf Hfp Htf Hoff Hef) as (s1 & r & E1 & C1 & Har1 & HP).
  assert (Hc1 : k_heap s1 !! current (k_proc s1) = Some (OPcb c)).
  { rewrite (ca_proc _ _ _ _ _ C1). by apply (ca_keeps _ _ _ _ _ C1). }
  destruct (segments_loop_ok fp mm _ _ phs [] (k + 2) s1 c (set_mm_rip (e_entry h) m) [] (ca_frontier _ _ _ _ _ C1)
    ltac:(rewrite (ca_frames _ _ _ _ _ C1); lia) Hc1 Hmm HP)
    as (s2 & m2 & l2 & E2 & C2 & Har2 & Hs2 & _ & Hp2 & Em2); try done.
  - intros j ph Hj. by apply (phdr_in_frame _ h).
  - by intros a ph ?%elem_of_nil.
  - exists s2, m2, l2. rewrite E1. split; [exact E2|]. split; [done|]. split; [done|]. rewrite app_nil_r in Hp2. split; [done|].
    pose proof (f_equal mm_rip Em2). pose proof (f_equal mm_cr3 Em2). pose proof (f_equal mm_file Em2). cbn in *.
    split; [done|]. split; [done|]. split; [congruence|]. by eapply carries_trans.
Qed.
(** C16: the loader makes an area of every segment.  For a process with a new
    address space whose program file is a valid ELF file (64-bit, little
    endian, its program headers in one frame), with segments to load that are
    not empty, end below 2 GiB and do not meet, [load_elf_binary] returns 0:
    the entry point of the address space is that of the header, and its areas
    are, in order of address and linked both ways, exactly one file area for
    each segment to load: its address, its size in the file and in memory, its
    offset, and the one protection the flags give.  No process global and
    nothing but areas, address spaces and open files changes. *)
Theorem load_elf_maps_segments k s c mm m fp f i d h phs :
  frontier base k s → k + 2 + Z.of_nat (length (loads phs)) ≤ n_frames s →
  k_heap s !! current (k_proc s) = Some (OPcb c) → p_mm c = mm → areas_are s mm m [] → mm_file m = fp → fp ≠ 0 →
  tar_file tar s fp f i d → f_offset f = 0 → elf_file (contents tar i d) h phs → Forall segment_ok (loads phs) →
  ForallOrdPairs (λ a b, ¬ overlap (area_of fp a) (area_of fp b)) (loads phs) →
  ∃ s' m' l, load_elf_binary tar junk vjunk mm s = Ok (0, s') ∧ areas_are s' mm m' l ∧ sorted_areas l
    ∧ l.*2 ≡ₚ area_of fp <$> loads phs ∧ mm_rip m' = e_entry h ∧ mm_cr3 m' = mm_cr3 m ∧ mm_file m' = fp
    ∧ carries base k (k + 2 + Z.of_nat (length (loads phs))) s s'.
Proof. intros Hf Hk Hc Hmm Har Hmf Hfp Htf Hoff Hef Hok Hpair. by apply (load_elf_ok k s c mm m fp f i d h phs). Qed.
End loading.

(** ** Protection of segments *)

(** The areas before the one that contains the address. *)
Lemma find_vma_first s mm m l1 x v l2 addr : areas_are s mm m (l1 ++ (x, v) :: l2) →
  (∀ y u, (y, u) ∈ l1 → in_area u addr = false) → in_area v addr = true → find_vma mm addr s = Ok (x, s).
Proof.
  intros Har Hl Hv. pose proof (areas_fuel _ _ _ _ Har) as Hfu. pose proof Har as [Hm [q Hd] _].
  unfold find_vma. mstep (load_some as_mm _ _ m s Hm eq_refl). unfold fuel. mnorm. clear Har Hm. revert Hfu.
  generalize (S (size (k_heap s))). revert Hd Hl. generalize 0 at 1. generalize (mm_vma m).
  induction l1 as [|[y u] l1 IH]; intros a p Hd Hl n Hn; (destruct n as [|n]; [cbn in Hn; lia|]); cbn [find_loop app] in *;
    destruct Hd as (-> & Hx & b & Hb & Hd).
  - rewrite (proj2 (Z.eqb_neq x NULL) Hx). mstep (load_vma s x _ Hb). change (in_area (links p b v) addr) with (in_area v addr). by rewrite Hv.
  - rewrite (proj2 (Z.eqb_neq y NULL) Hx). mstep (load_vma s y _ Hb). change (in_area (links p b u) addr) with (in_area u addr).
    rewrite (Hl y u) by (by left). apply (IH b y Hd); [intros z w Hin; apply (Hl z); by right|]. cbn in Hn. lia.
Qed.

(** A segment that can be read is never writable.  The loader gives an area
    the first protection its flags name, so a data segment (readable and
    writable) is read-only; a write to a page of it that is present makes the
    fault handler return with nothing changed, and the write faults again. *)
Theorem data_segment_write_faults_forever tar junk vjunk s c m l1 x fp ph l2 regs addr rsp :
  Z.testbit (ph_flags ph) 2 = true →
  get_pcb s (current (k_proc s)) = Some c → areas_are s (p_mm c) m (l1 ++ (x, area_of vjunk fp ph) :: l2) →
  (∀ y u, (y, u) ∈ l1 → in_area u addr = false) → in_area (area_of vjunk fp ph) addr = true → addr ≤ KERNBASE →
  do_page_fault tar junk regs (Z.lor PG_FAULT_PRESENT PG_FAULT_WRITE) addr rsp s = Ok (tt, s).
Proof.
  intros Hr Hc Har Hl Hin Ha. unfold do_page_fault, get_current_process. rewrite (proj2 (Z.ltb_ge KERNBASE addr) Ha). cbn [andb].
  mnorm. mstep (load_some as_pcb _ _ c s (get_pcb_heap _ _ _ Hc) eq_refl). mstep (find_vma_first s _ _ _ _ _ _ _ Har Hl Hin).
  pose proof Har as [_ [q Hd] _].
  assert (Hx : (x, area_of vjunk fp ph) ∈ l1 ++ (x, area_of vjunk fp ph) :: l2) by (apply elem_of_app; right; by left).
  destruct (dseg_in _ _ _ _ _ _ _ _ Hd Hx) as (Hx0 & p & n & Hh).
  rewrite (proj2 (Z.eqb_neq x NULL) Hx0). change (has _ _ && has _ _) with true. cbv iota.
  mstep (load_vma s x _ Hh). cbn [v_protection links set_v_prev set_v_next area_of].
  assert (elf_prot (ph_flags ph) = PROT_READ) as ->.
  { unfold elf_prot. rewrite (proj2 (Z.eqb_neq _ 0)); [done|]. intros E. apply (f_equal (λ z, Z.testbit z 2)) in E.
    by rewrite Z.land_spec, Hr in E. }
  done.
Qed.

(** ** A small program

    A file with one segment to load, of eight bytes at 0x400080, and a note. *)

Fixpoint le_bytes (n : nat) (v : Z) : list Z := match n with O => [] | S n' => v mod 256 :: le_bytes n' (v / 256) end.
Definition ehdr_bytes (h : Elf64_Ehdr) : list Z :=
  e_ident h ++ le_bytes 2 (eh_type h) ++ le_bytes 2 (e_machine h) ++ le_bytes 4 (e_version h) ++ le_bytes 8 (e_entry h)
  ++ le_bytes 8 (e_phoff h) ++ le_bytes 8 (e_shoff h) ++ le_bytes 4 (e_flags h) ++ le_bytes 2 (e_ehsize h)
  ++ le_bytes 2 (e_phentsize h) ++ le_bytes 2 (e_phnum h) ++ le_bytes 2 (e_shentsize h) ++ le_bytes 2 (e_shnum h)
  ++ le_bytes 2 (e_shstrndx h).
Definition phdr_bytes (p : Elf64_Phdr) : list Z :=
  le_bytes 4 (p_type p) ++ le_bytes 4 (ph_flags p) ++ le_bytes 8 (p_offset p) ++ le_bytes 8 (p_vaddr p) ++ le_bytes 8 (p_paddr p)
  ++ le_bytes 8 (p_filesz p) ++ le_bytes 8 (p_memsz p) ++ le_bytes 8 (p_align p).

Definition tiny_header : Elf64_Ehdr :=
  Ehdr ([ELFMAG0; ELFMAG1; ELFMAG2; ELFMAG3; ELFCLASS64; ELFDATA2LSB; 1] ++ replicate 9 0) 2 62 1 0x400080 64 0 0 64 56 2 0 0 0.
Definition tiny_segment : Elf64_Phdr := Phdr PT_LOAD (Z.lor PF_R PF_W) 176 0x400080 0x400080 8 16 4096.
Definition tiny_phdrs : list Elf64_Phdr := [Phdr 4 PF_R 0 0 0 0 0 4; tiny_segment].
Definition tiny_elf : list Z := ehdr_bytes tiny_header ++ mjoin (phdr_bytes <$> tiny_phdrs) ++ replicate 8 144.

Lemma tiny_elf_file : elf_file tiny_elf tiny_header tiny_phdrs.
Proof.
  constructor; try (vm_compute; repeat split; done).
  - apply Nat.leb_le. reflexivity.
  - intros [|[|i]] ph Hi; [injection Hi as <-; vm_compute; reflexivity..|done].
  - apply Nat.leb_le. reflexivity.
Qed.

Definition blank_area : vm_map_entry := Vma 0 0 0 0 0 0 0 0 0 None.
Definition tiny_pcb : pcb := set_p_mm (kv 0x7000) zero_pcb.
Definition tiny_inode : inode := Inode 3 184 (chr "0") (Some 0) 0 0 (kv 0x3000).
Definition tiny_machine : kst :=
  set_k_fs (FsGlobals 0 (kv 0x5000) (kv 0x4000) 0 100 0) (upd_proc (set_current (kv 0x6000))
    (machine 0 8 (list_to_map
      [(kv 0x6000, OPcb tiny_pcb); (kv 0x7000, OMm (Mm 0 0 (kv 0x2000) 0 0));
       (kv 0x2000, OFile (File 0 1 0 0 (kv 0x3000) (kv 0x8000))); (kv 0x3000, ODentry (Dentry (demo_name "a") 0 0));
       (kv 0x8000, OFops (Fops (Some tarfs_read_fn) None (Some tarfs_close_fn)));
       (kv 0x4000, OInodes [tiny_inode; bare_inode])]))).

Lemma tiny_tar_file : tar_file tiny_elf tiny_machine (kv 0x2000) (File 0 1 0 0 (kv 0x3000) (kv 0x8000)) tiny_inode 0.
Proof.
  constructor; [vm_compute; reflexivity|eexists; split; vm_compute; reflexivity|vm_compute; reflexivity|done| |by cbn].
  split; [done|]. split; [done|]. by vm_compute.
Qed.
Lemma tiny_frontier : frontier 0x400000 0 tiny_machine.
Proof.
  cut (frontier 0x400000 0 (set_k_fs (k_fs blank_kst) (set_k_proc (k_proc blank_kst) tiny_machine))).
  { intros []. by constructor. }
  apply (machine_frontier 0 8); [lia|]. intros j Hj. do 9 (destruct j as [|j]; [vm_compute; reflexivity|]). lia.
Qed.

Lemma load_elf_maps_segments_witness : ∃ s' m' l, load_elf_binary tiny_elf zero_bytes blank_area (kv 0x7000) tiny_machine = Ok (0, s')
  ∧ areas_are s' (kv 0x7000) m' l ∧ l.*2 ≡ₚ [area_of blank_area (kv 0x2000) tiny_segment] ∧ mm_rip m' = 0x400080.
Proof.
  destruct (load_elf_maps_segments 0x400000 tiny_elf zero_bytes blank_area eq_refl 0 tiny_machine tiny_pcb (kv 0x7000)
    (Mm 0 0 (kv 0x2000) 0 0) (kv 0x2000) (File 0 1 0 0 (kv 0x3000) (kv 0x8000)) tiny_inode 0 tiny_header tiny_phdrs)
    as (s' & m' & l & E & Har & _ & Hp & Hrip & _).
  - exact tiny_frontier.
  - vm_compute. discriminate.
  - vm_compute. reflexivity.
  - reflexivity.
  - constructor; [vm_compute; reflexivity|by exists 0|constructor].
  - reflexivity.
  - vm_compute. discriminate.
  - exact tiny_tar_file.
  - reflexivity.
  - exact tiny_elf_file.
  - repeat constructor; vm_compute; done.
  - repeat constructor.
  - exists s', m', l. exact (conj E (conj Har (conj Hp Hrip))).
Defined.

(** A process with the area of the segment. *)
Definition tiny_loaded : kst :=
  upd_proc (set_current (kv 0x6000)) (machine 0 8 (list_to_map
    [(kv 0x6000, OPcb tiny_pcb); (kv 0x7000, OMm (Mm (kv 0x9000) 0 (kv 0x2000) 0 0));
     (kv 0x9000, OVma (links 0 0 (area_of blank_area (kv 0x2000) tiny_segment)))])).

Lemma data_segment_write_faults_forever_witness :
  do_page_fault [] [] 0 3 0x400084 0 tiny_loaded = Ok (tt, tiny_loaded).
Proof.
  apply (data_segment_write_faults_forever [] [] blank_area tiny_loaded tiny_pcb (Mm (kv 0x9000) 0 (kv 0x2000) 0 0) []
    (kv 0x9000) (kv 0x2000) tiny_segment [] 0 0x400084 0).
  - reflexivity.
  - vm_compute. reflexivity.
  - constructor; [vm_compute; reflexivity| |repeat constructor; set_solver].
    exists (kv 0x9000). split; [reflexivity|]. split; [vm_compute; discriminate|]. exists 0.
    split; [vm_compute; reflexivity|done].
  - by intros y u ?%elem_of_nil.
  - vm_compute. reflexivity.
  - vm_compute. discriminate.
Defined.
