(* ===== verification/Exec.v ===== *)
(** * The image of a new program (sys/memory.c, [do_execve] of sys/process.c)

    [execve] loads the segments, makes a heap behind them and lays out the
    stack: one page of strings, one page of pointers below it, both mapped in
    the address space of the process, and an area for the stack.  The theorems
    read the stack the way the program does, through the translation of its
    address space; the last one runs [execve] on a concrete machine. *)

From S2P Require Export Elf.

(** ** Address spaces in changed stores *)

(** Two stores with the same tables. *)
Definition same_tables (h h' : gmap Z obj) : Prop := ∀ x t, h !! x = Some (OTable t) ↔ h' !! x = Some (OTable t).
Definition table_of (o : option obj) : option (list Z) := match o with Some (OTable t) => Some t | _ => None end.
Lemma table_of_some o t : table_of o = Some t ↔ o = Some (OTable t).
Proof. destruct o as [[]|]; cbn; split; congruence. Qed.
Lemma same_tables_space h h' : same_tables h h' → same_space h h'.
Proof.
  intros H. assert (Hg : ∀ a i, tget h' a i = tget h a i).
  { assert (He : ∀ g a i, tget g a i = (table_of (g !! kv a) ≫= λ t, t !! Z.to_nat i)).
    { intros g a i. unfold tget, table_of. by destruct (g !! kv a) as [[]|]. }
    intros a i. rewrite !He. f_equal. apply option_eq. intros t. by rewrite !table_of_some, (H (kv a) t). }
  constructor.
  - intros a i. unfold child. by rewrite Hg.
  - intros a i. unfold pte. by rewrite Hg.
  - intros a (t & Ht & Hl). exists t. split; [by apply H|done].
Qed.
Lemma same_tables_outside h h' r x : same_tables h h' → outside h r x → outside h' r x.
Proof. intros H Ho q y Hq. rewrite (ss_node h h' r q (same_tables_space _ _ H)). by apply Ho. Qed.
(** A write of something else over something else. *)
Definition no_table (o : option obj) : Prop := ∀ t, o ≠ Some (OTable t).
Lemma same_tables_insert h a o : no_table (h !! a) → no_table (Some o) → same_tables h (<[a := o]> h).
Proof.
  intros H1 H2 x t. rewrite lookup_insert. case_decide as E; [|done]. subst x.
  split; [intros Ht; by destruct (H1 t)|intros Ht; by destruct (H2 t)].
Qed.
Lemma same_tables_trans h1 h2 h3 : same_tables h1 h2 → same_tables h2 h3 → same_tables h1 h3.
Proof. intros H1 H2 x t. by rewrite (H1 x t). Qed.

(** A store that keeps the tables. *)
Section wider.
Context (h h' : gmap Z obj) (r : Z).
Hypothesis Hs : ∀ x t, h !! x = Some (OTable t) → h' !! x = Some (OTable t).
Hypothesis Hwf : tree_wf h r.

Lemma wider_tget a i : is_table h a → tget h' a i = tget h a i.
Proof. intros (t & Ht & _). by rewrite (tget_table _ _ _ _ Ht), (tget_table h' _ _ t) by (by apply Hs). Qed.
Lemma wider_node q : valid_path q → node h' r q = node h r q.
Proof.
  induction q as [|i q IH] using rev_ind; [done|]. intros (Hq & _ & _)%valid_prefix. rewrite !node_snoc, IH by done.
  destruct (node h r q) as [a|] eqn:E; [|done]. cbn. unfold child. rewrite wider_tget; [done|].
  by apply (tw_table _ _ Hwf q).
Qed.
Lemma wider_translate v : translate h' r v = translate h r v.
Proof.
  unfold translate. rewrite wider_node by apply valid_path_of. destruct (node h r (path v)) as [a|] eqn:E; [|done]. cbn.
  unfold pte. rewrite wider_tget; [done|]. apply (tw_table _ _ Hwf (path v)); [apply valid_path_of|done].
Qed.
Lemma wider_wf : tree_wf h' r.
Proof.
  constructor.
  - intros p a Hp. rewrite wider_node by done. intros Hn. destruct (tw_table _ _ Hwf p a Hp Hn) as [Hf (t & Ht & Hl)].
    split; [done|]. exists t. split; [by apply Hs|done].
  - intros p q a Hp Hq. rewrite !wider_node by done. by apply (tw_inj _ _ Hwf).
Qed.
Lemma wider_outside x : h !! x = None → outside h' r x.
Proof.
  intros Hx q y Hq. rewrite wider_node by done. intros Hn ->.
  destruct (tw_table _ _ Hwf q y Hq Hn) as [_ (t & Ht & _)]. congruence.
Qed.
End wider.

(** ** An area goes last *)

(** The area lies below [st] and is passed by the search for its place. *)
Record under (st c : vm_map_entry) : Prop := {
  un_apart : is_overlapping_vma c st = false;
  un_below : v_end_addr c ≤ v_start_addr st;
  un_start : v_start_addr c < v_end_addr st
}.

Section append.
Context (x : Z) (st : vm_map_entry).

Lemma append_prev_loop s l : ∀ n p y w q, dseg (k_heap s) p y ((y, w) :: l) q 0 → Forall (λ z, under st z.2) ((y, w) :: l) →
  (length l < n)%nat → prev_loop n y st s = Ok ((1, Some (last_addr ((y, w) :: l))), s).
Proof.
  induction l as [|[z u] l IH]; intros n p y w q (_ & Hy0 & ny & Hy & Hd) [[Ho Hb _] Hl]%Forall_cons Hn;
    (destruct n as [|n]; [lia|]); cbn [prev_loop]; rewrite (proj2 (Z.eqb_neq y NULL) Hy0);
    mstep (load_vma s y _ Hy);
    change (is_overlapping_vma (links p ny w) st) with (is_overlapping_vma w st); cbn in Ho, Hb; rewrite Ho;
    cbn [v_next links set_v_prev set_v_next]; apply Z.leb_le in Hb.
  - destruct Hd as [_ ->]. cbn [negb NULL Z.eqb]. change (v_end_addr (links p 0 w)) with (v_end_addr w). by rewrite Hb.
  - pose proof Hd as (-> & Hz0 & nz & Hz & _). rewrite (proj2 (Z.eqb_neq z NULL) Hz0). cbn [negb].
    mstep (load_vma s z _ Hz). change (v_end_addr (links p z w)) with (v_end_addr w). rewrite Hb. cbn [andb].
    change (v_start_addr (links y nz u)) with (v_start_addr u).
    pose proof Hl as [[_ _ Hu] _]%Forall_cons. cbn in Hu. rewrite (proj2 (Z.leb_gt _ _)) by lia.
    rewrite (IH n y z u q Hd Hl) by (cbn in Hn; lia). reflexivity.
Qed.

Lemma append_vma_ok s mm m l : areas_are s mm m l → Forall (λ z, under st z.2) l → k_heap s !! x = Some (OVma st) →
  x ≠ 0 → x ∉ l.*1 →
  ∃ s' m', add_vma mm x s = Ok (0, s') ∧ areas_are s' mm m' (l ++ [(x, st)])
    ∧ only_at s s' (mm :: x :: l.*1) ∧ set_mm_vma 0 m' = set_mm_vma 0 m.
Proof.
  intros Har Hl Hx Hx0 Hn.
  destruct (insert_vma_ok s mm m x st Hx Hx0 l []) as (s' & m' & Ei & Har' & Ho & Em); rewrite ?app_nil_r in *; try done.
  exists s', m'. split; [|done]. pose proof Har as [Hm [q Hd] _]. unfold add_vma.
  mstep (load_some as_mm mm (OMm m) m s Hm eq_refl).
  assert (find_vma_prev (mm_vma m) x s = Ok ((1, Some (last_addr l)), s)) as E.
  { pose proof (areas_fuel _ _ _ _ Har) as Hfu. unfold find_vma_prev. destruct l as [|[a w] l].
    { destruct Hd as [_ ->]. done. }
    pose proof Hd as (Ea & Ha0 & n & Hw & _). rewrite Ea in *. rewrite (proj2 (Z.eqb_neq a NULL) Ha0). mstep (load_vma s x st Hx).
    mstep (load_vma s a _ Hw). change (v_start_addr (links 0 n w)) with (v_start_addr w).
    pose proof Hl as [[_ _ Hu] _]%Forall_cons. cbn in Hu. rewrite (proj2 (Z.leb_gt _ _)) by lia. unfold fuel. mnorm.
    apply (append_prev_loop s l _ 0 a w q Hd Hl). cbn in Hfu. lia. }
  mstep E. cbn [fst snd Z.eqb of_option]. mnorm. by mstep Ei.
Qed.

Lemma sorted_append l : sorted_areas l → Forall (λ z, forward z.2) l → Forall (λ z, under st z.2) l → sorted_areas (l ++ [(x, st)]).
Proof.
  induction l as [|[y v] l IH]; [done|]. intros Hs [Hf Hfl]%Forall_cons [[_ Hb _] Hl]%Forall_cons. cbn [app]. apply sorted_cons.
  split; [|apply IH; [by apply sorted_tail in Hs|done..]]. right. split; [done|].
  destruct l as [|[z w] l]; [by exists x, st, []|].
  exists z, w, (l ++ [(x, st)]). split; [done|]. by destruct Hs as (_ & Hbe & _).
Qed.
End append.

(** Below the stack. *)
Definition low (v : vm_map_entry) : Prop := forward v ∧ v_end_addr v ≤ STACK_START - 3 * PAGE_BLOCK_SIZE.
Definition stack_area (junk : vm_map_entry) : vm_map_entry :=
  set_v_memsize (3 * PAGE_BLOCK_SIZE) (set_v_fault (Some do_anon_fault_fn)
    (set_v_file NULL (set_v_protection PROT_WRITE (set_v_fileoffset 0 (set_v_filesize 0
      (set_v_end_addr (STACK_START - 3 * PAGE_BLOCK_SIZE) (set_v_start_addr STACK_START junk))))))).

(** The test for an overlap of two areas, by cases on its comparisons. *)
Ltac apart :=
  unfold is_overlapping_vma, stack_area, STACK_START, PAGE_BLOCK_SIZE in *; cbn in *;
  repeat match goal with
  | |- context [?a =? ?b] => destruct (Z.eqb_spec a b)
  | |- context [?a <? ?b] => destruct (Z.ltb_spec a b)
  | |- context [?a <=? ?b] => destruct (Z.leb_spec a b)
  end; cbn; try done; lia.
Lemma low_under junk c : low c → under (stack_area junk) c.
Proof. intros [Hf He]. unfold forward in Hf. constructor; [apart|cbn; unfold PAGE_BLOCK_SIZE in *; lia|cbn; lia]. Qed.
Lemma forward_under st c : forward c → forward st → v_end_addr c ≤ v_start_addr st → under st c.
Proof. unfold forward. intros Hc Hs Hb. constructor; [apart|done|lia]. Qed.
Lemma lows_under junk l : Forall (λ z : Z * vm_map_entry, low z.2) l → Forall (λ z, under (stack_area junk) z.2) l.
Proof. intros H. eapply Forall_impl; [exact H|]. intros z. apply low_under. Qed.
Lemma lows_forward l : Forall (λ z : Z * vm_map_entry, low z.2) l → Forall (λ z, forward z.2) l.
Proof. intros H. eapply Forall_impl; [exact H|]. by intros z []. Qed.

(** ** The two pages *)

(** The pointer page: the count, the arguments, NULL, the environment, NULL,
    at the end of the page; each pointer leads to its string. *)
Record stack_layout (ptrs bytes : list Z) (argb envb : list (list Z)) : Prop := {
  sl_ptrs : length ptrs = 512%nat;
  sl_bytes : length bytes = 4096%nat;
  sl_argc : ptrs !! (509 - length argb - length envb)%nat = Some (Z.of_nat (length argb));
  sl_args : ∀ i b, argb !! i = Some b → ∃ o, stored bytes o b
              ∧ ptrs !! (510 - length argb - length envb + i)%nat = Some (STACK_START + Z.of_nat o);
  sl_arg_null : ptrs !! (510 - length envb)%nat = Some 0;
  sl_envs : ∀ i b, envb !! i = Some b → ∃ o, stored bytes o b
              ∧ ptrs !! (511 - length envb + i)%nat = Some (STACK_START + Z.of_nat o);
  sl_env_null : ptrs !! 511%nat = Some 0
}.

(** What the page of strings has room for. *)
Record params_fit (argb envb : list (list Z)) : Prop := {
  pf_count : (length argb + length envb ≤ 509)%nat;
  pf_room : (room_for envb + room_for argb ≤ 4096)%nat;
  pf_env : (room_for envb < 4096)%nat
}.

Lemma copy_params_run s P S strs mc k ptrs bytes ptrs' bytes' k' :
  k_heap s !! P = Some (OTable ptrs) → k_heap s !! S = Some (OBytes bytes) → P ≠ S →
  copy_params strs mc S ptrs bytes k = Some (ptrs', bytes', k') →
  copy_params_to_userspace strs mc P S k s
  = Ok (k', upd_heap (λ h, <[S := OBytes bytes']> (<[P := OTable ptrs']> h)) s).
Proof.
  intros HP HS Hne E. unfold copy_params_to_userspace. mstep (load_some as_table P _ ptrs s HP eq_refl).
  mstep (load_some as_bytes S _ bytes s HS eq_refl). rewrite E. reflexivity.
Qed.

Lemma frame_bounds base k s j : frontier base k s → 0 ≤ j ≤ n_frames s →
  4096 ≤ kv (frame_at base j) ∧ kv (frame_at base j) + 4096 ≤ 2 ^ 64 ∧ kv (frame_at base j) mod 4096 = 0.
Proof.
  intros Hf Hj. destruct (frame_range _ _ _ _ Hf Hj) as [Hr Hm]. rewrite kv_add by lia. unfold KERNBASE.
  split; [lia|]. split; [Z.div_mod_to_equations; lia|]. rewrite <- Zplus_mod_idemp_l, Hm. done.
Qed.

Lemma stack_pages_ok base k s argb args envb envs :
  frontier base k s → k + 2 ≤ n_frames s → c_buffers argb args → c_buffers envb envs → params_fit argb envb →
  ∃ s' ptrs bytes, stack_pages args envs s = Ok ((frame_at base k, frame_at base (k + 1)), s')
    ∧ extends base k (k + 2) s s' ∧ k_heap s' !! kv (frame_at base k) = Some (OTable ptrs)
    ∧ k_heap s' !! kv (frame_at base (k + 1)) = Some (OBytes bytes) ∧ stack_layout ptrs bytes argb envb.
Proof.
  intros Hf Hk Ha He [Hc Hr Hre]. pose proof (fr_range _ _ _ Hf) as Hrange.
  pose proof (Forall2_length _ _ _ Ha) as La. pose proof (Forall2_length _ _ _ He) as Le.
  set (P := kv (frame_at base k)). set (Q := kv (frame_at base (k + 1))).
  assert (HPQ : P ≠ Q) by (apply (frame_ne base k s); [done|lia..]).
  pose proof (length_replicate 512 0 : length zero_table = 512%nat) as Lz.
  unfold stack_pages.
  destruct (extends_alloc base k k s s (extends_refl _ _ _ Hf) ltac:(lia)) as (s1 & E1 & X1 & H1). mstep E1.
  pose proof (memset_last base (k + 1) s1 (OTable zero_table) (ex_frontier _ _ _ _ _ X1) ltac:(lia)) as M1.
  replace (k + 1 - 1) with k in M1 by lia. mstep M1.
  pose proof (extends_store base k (k + 1) s s1 k (OTable zero_table) Hf X1 ltac:(lia)) as X2.
  destruct (extends_alloc base _ _ _ _ X2 ltac:(lia)) as (s2 & E2 & X3 & H2). mstep E2.
  pose proof (memset_last base (k + 1 + 1) s2 (OBytes zero_bytes) (ex_frontier _ _ _ _ _ X3) ltac:(lia)) as M2.
  replace (k + 1 + 1 - 1) with (k + 1) in M2 by lia. mstep M2.
  pose proof (extends_store base k (k + 1 + 1) s s2 (k + 1) (OBytes zero_bytes) Hf X3 ltac:(lia)) as X4.
  fold Q in X4, M2 |- *. fold P in H2 |- *. replace (k + 1 + 1) with (k + 2) in * by lia.
  set (s3 := upd_heap <[Q := OBytes zero_bytes]> s2) in *.
  assert (HP : k_heap s3 !! P = Some (OTable zero_table)).
  { cbn. rewrite lookup_insert_ne by done. rewrite H2. cbn. apply lookup_insert_eq. }
  assert (HQ : k_heap s3 !! Q = Some (OBytes zero_bytes)) by apply lookup_insert_eq.
  destruct (frame_bounds base k s (k + 1) Hf ltac:(lia)) as (B1 & B2 & B3). fold Q in B1, B2, B3.
  destruct (copy_params_full envb envs 512 Q zero_table zero_bytes 0 He) as (p1 & b1 & k1 & C1 & Ek1 & Lp1 & Lb1 & Z1 & A1 & _ & _);
    [lia|done|lia|lia|done..|].
  change (Z.of_nat 512) with 512 in C1. mstep (copy_params_run s3 P Q envs 512 0%nat _ _ _ _ _ HP HQ HPQ C1).
  set (s4 := upd_heap (λ h, <[Q := OBytes b1]> (<[P := OTable p1]> h)) s3).
  assert (HP4 : k_heap s4 !! P = Some (OTable p1)) by (cbn; rewrite lookup_insert_ne by done; apply lookup_insert_eq).
  assert (HQ4 : k_heap s4 !! Q = Some (OBytes b1)) by apply lookup_insert_eq.
  destruct (copy_params_full argb args (511 - length envb) Q p1 b1 k1 Ha) as (p2 & b2 & k2 & C2 & Ek2 & Lp2 & Lb2 & Z2 & A2 & KB & KP);
    [lia|rewrite Lb1; done|lia|lia|done..|].
  replace (Z.of_nat (511 - length envb)) with (512 - Z.of_nat (length envs) - 1) in C2 by lia.
  mstep (copy_params_run s4 P Q args _ k1 _ _ _ _ _ HP4 HQ4 HPQ C2).
  set (s5 := upd_heap (λ h, <[Q := OBytes b2]> (<[P := OTable p2]> h)) s4).
  assert (HP5 : k_heap s5 !! P = Some (OTable p2)) by (cbn; rewrite lookup_insert_ne by done; apply lookup_insert_eq).
  mstep (load_some as_table P _ p2 s5 HP5 eq_refl).
  assert (Lp : length p2 = 512%nat) by (rewrite Lp2, Lp1; apply length_replicate).
  rewrite put_ptr_ok by lia.
  set (top := Z.to_nat _). assert (Etop : top = (509 - length argb - length envb)%nat) by (subst top; lia).
  eexists _, _, b2. split; [reflexivity|]. split; [|split; [apply lookup_insert_eq|split]].
  - assert (HX : ∀ s0 o, extends base k (k + 2) s s0 → extends base k (k + 2) s (upd_heap <[P := o]> s0)).
    { intros s0 o X. apply extends_store; [done|done|lia]. }
    assert (HY : ∀ s0 o, extends base k (k + 2) s s0 → extends base k (k + 2) s (upd_heap <[Q := o]> s0)).
    { intros s0 o X. apply extends_store; [done|done|lia]. }
    apply HX. refine (HY (upd_heap <[P := OTable p2]> s4) (OBytes b2) (HX _ _ _)).
    refine (HY (upd_heap <[P := OTable p1]> s3) (OBytes b1) (HX _ _ X4)).
  - cbn. rewrite lookup_insert_ne by done. apply lookup_insert_eq.
  - constructor; rewrite ?Etop.
    + by rewrite length_insert.
    + rewrite Lb2, Lb1. apply length_replicate.
    + rewrite list_lookup_insert_eq by lia. by rewrite La.
    + intros i b Hi. destruct (A2 i b Hi) as (o & _ & Ho & Hp). exists o. split; [done|].
      rewrite list_lookup_insert_ne by lia. rewrite <- Hp. f_equal. apply lookup_lt_Some in Hi. lia.
    + rewrite list_lookup_insert_ne by lia. rewrite <- Z2. f_equal. lia.
    + intros i b Hi. destruct (A1 i b Hi) as (o & Ho & Hst & Hp). exists o. split.
      * intros t c Ht. rewrite KB; [by apply Hst|]. apply lookup_lt_Some in Ht. rewrite length_app in Ht. cbn in Ht. lia.
      * rewrite list_lookup_insert_ne by lia. rewrite KP by lia. exact Hp.
    + rewrite list_lookup_insert_ne by lia. rewrite KP by lia. by rewrite <- Z1.
Qed.

(** ** The stack as the program sees it *)

(** The pointer at a user address. *)
Definition user_word (h : gmap Z obj) (r a : Z) : option Z :=
  f ← translate h r a; t ← table_of (h !! kv f); t !! Z.to_nat (a mod 4096 / 8).
(** The C string at a user address. *)
Definition user_string (h : gmap Z obj) (r a : Z) (body : list Z) : Prop :=
  ∃ f b, translate h r a = Some f ∧ h !! kv f = Some (OBytes b) ∧ stored b (Z.to_nat (a mod 4096)) body.
(** A NULL-terminated array of strings. *)
Fixpoint string_array (h : gmap Z obj) (r a : Z) (bodies : list (list Z)) : Prop :=
  match bodies with
  | [] => user_word h r a = Some 0
  | b :: bs => (∃ p, user_word h r a = Some p ∧ user_string h r p b) ∧ string_array h r (a + 8) bs
  end.
(** What the first instruction of a program finds at its stack pointer. *)
Record program_stack (h : gmap Z obj) (r sp : Z) (argb envb : list (list Z)) : Prop := {
  ps_argc : user_word h r sp = Some (Z.of_nat (length argb));
  ps_argv : string_array h r (sp + 8) argb;
  ps_envp : string_array h r (sp + 8 * (Z.of_nat (length argb) + 2)) envb
}.

Lemma string_array_intro h r bodies : ∀ a,
  (∀ i b, bodies !! i = Some b → ∃ p, user_word h r (a + 8 * Z.of_nat i) = Some p ∧ user_string h r p b) →
  user_word h r (a + 8 * Z.of_nat (length bodies)) = Some 0 → string_array h r a bodies.
Proof.
  induction bodies as [|b bodies IH]; intros a Hb H0; cbn [string_array length] in *.
  - by rewrite Z.add_0_r in H0.
  - split.
    + destruct (Hb 0%nat b eq_refl) as (p & Hp & Hs). rewrite Z.add_0_r in Hp. by exists p.
    + apply IH.
      * intros i b' Hi. destruct (Hb (S i) b' Hi) as (p & Hp & Hs). exists p. split; [|done].
        by replace (a + 8 + 8 * Z.of_nat i) with (a + 8 * Z.of_nat (S i)) by lia.
      * by replace (a + 8 + 8 * Z.of_nat (length bodies)) with (a + 8 * Z.of_nat (S (length bodies))) by lia.
Qed.

Definition stack_page : Z := STACK_START - 2 * PAGE_BLOCK_SIZE.
Lemma same_page a o : 0 ≤ a → a mod 4096 = 0 → 0 ≤ o < 4096 → page_number (a + o) = page_number a.
Proof. intros Ha Hm Ho. unfold page_number. f_equal. Z.div_mod_to_equations. lia. Qed.

Section program_stack.
Context (h : gmap Z obj) (r P Q : Z) (ptrs bytes : list Z) (argb envb : list (list Z)).
Hypothesis HL : stack_layout ptrs bytes argb envb.
Hypothesis HP : h !! kv P = Some (OTable ptrs).
Hypothesis HQ : h !! kv Q = Some (OBytes bytes).
Hypothesis TP : ∀ o, 0 ≤ o < 4096 → translate h r (stack_page + o) = Some P.
Hypothesis TQ : ∀ o, 0 ≤ o < 4096 → translate h r (STACK_START + o) = Some Q.

Lemma pointer_word (i : nat) : (i < 512)%nat → user_word h r (stack_page + 8 * Z.of_nat i) = ptrs !! i.
Proof.
  intros Hi. unfold user_word. rewrite TP by lia. cbn. rewrite HP. cbn. f_equal.
  unfold stack_page, STACK_START, PAGE_BLOCK_SIZE. Z.div_mod_to_equations. lia.
Qed.
Lemma pointer_string (o : nat) b : stored bytes o b → user_string h r (STACK_START + Z.of_nat o) b.
Proof.
  intros Hs. assert (Ho : (o < 4096)%nat).
  { rewrite <- (sl_bytes _ _ _ _ HL). assert (∃ c, (b ++ [0]) !! 0%nat = Some c) as [c Hc] by (destruct b; by eexists).
    specialize (Hs 0%nat c Hc). rewrite Nat.add_0_r in Hs. by apply lookup_lt_Some in Hs. }
  exists Q, bytes. split; [apply TQ; lia|]. split; [done|].
  replace (Z.to_nat ((STACK_START + Z.of_nat o) mod 4096)) with o; [done|]. unfold STACK_START. Z.div_mod_to_equations. lia.
Qed.

Lemma layout_program_stack : (length argb + length envb ≤ 509)%nat →
  program_stack h r (STACK_START - PAGE_BLOCK_SIZE - 8 * (Z.of_nat (length argb) + Z.of_nat (length envb) + 3)) argb envb.
Proof.
  intros Hc. destruct HL as [Lp Lb L1 L2 L3 L4 L5].
  assert (Hw : ∀ (i : nat) a p, ptrs !! i = Some p → a = stack_page + 8 * Z.of_nat i → user_word h r a = Some p).
  { intros i a p Hi ->. rewrite pointer_word; [done|]. rewrite <- Lp. by eapply lookup_lt_Some. }
  constructor.
  - apply (Hw _ _ _ L1). unfold stack_page, PAGE_BLOCK_SIZE. lia.
  - apply string_array_intro.
    + intros i b Hi. destruct (L2 i b Hi) as (o & Ho & Hp). exists (STACK_START + Z.of_nat o). split; [|by apply pointer_string].
      apply (Hw _ _ _ Hp). unfold stack_page, PAGE_BLOCK_SIZE. lia.
    + apply (Hw _ _ _ L3). unfold stack_page, PAGE_BLOCK_SIZE. lia.
  - apply string_array_intro.
    + intros i b Hi. destruct (L4 i b Hi) as (o & Ho & Hp). exists (STACK_START + Z.of_nat o). split; [|by apply pointer_string].
      apply (Hw _ _ _ Hp). unfold stack_page, PAGE_BLOCK_SIZE. lia.
    + apply (Hw _ _ _ L5). unfold stack_page, PAGE_BLOCK_SIZE. lia.
Qed.
End program_stack.

(** ** The two mappings *)

Definition stack_flags : Z := Z.lor (Z.lor PTE_PRESENT PTE_READWRITE) PTE_USERSUPERVISOR.
Lemma areas_keeps s s' mm m l : areas_are s mm m l → keeps_objects (k_heap s) (k_heap s') → areas_are s' mm m l.
Proof.
  intros Har K. eapply areas_are_frame; [done|apply K; [apply (ar_mm _ _ _ _ Har)|done]|].
  intros a v Ha. by apply K.
Qed.
Lemma areas_set_mm s mm m m' l : areas_are s mm m l → mm_vma m' = mm_vma m →
  areas_are (upd_heap <[mm := OMm m']> s) mm m' l.
Proof.
  intros Har E. pose proof Har as [H1 [q H2] H3]. constructor; [apply lookup_insert_eq| |done]. exists q. rewrite E.
  eapply dseg_frame; [done|]. intros x Hx. cbn. rewrite lookup_insert_ne; [done|]. apply not_eq_sym. by eapply areas_ne.
Qed.

Lemma map_stack_ok base k s mm m l P Q ptrs bytes e r :
  frontier base k s → k + 6 ≤ n_frames s → tree_wf (k_heap s) r → areas_are s mm m l → mm_cr3 m = r →
  k_heap s !! kv P = Some (OTable ptrs) → outside (k_heap s) r (kv P) → k_heap s !! kv Q = Some (OBytes bytes) →
  is_frame P → is_frame Q →
  ∃ s', (map_virtual_address_to_physical_address STACK_START Q stack_flags r 0;;
         update_mm mm (set_mm_exec e);;
         m ← load as_mm mm;
         map_virtual_address_to_physical_address (STACK_START - 2 * PAGE_BLOCK_SIZE) P stack_flags (mm_cr3 m) 0) s = Ok (tt, s')
    ∧ areas_are s' mm (set_mm_exec e m) l ∧ tree_wf (k_heap s') r
    ∧ k_heap s' !! kv P = Some (OTable ptrs) ∧ k_heap s' !! kv Q = Some (OBytes bytes)
    ∧ (∀ w, translate (k_heap s') r w = if decide (page_number w = page_number stack_page) then Some P
         else if decide (page_number w = page_number STACK_START) then Some Q else translate (k_heap s) r w)
    ∧ ∀ a v, k_heap s !! a = Some (OVma v) → k_heap s' !! a = Some (OVma v).
Proof.
  intros Hf Hk Hwf Har Er HP HPo HQ [FP1 FP2] [FQ1 FQ2].
  destruct (map_page_full base k s r STACK_START Q stack_flags Hf ltac:(lia) Hwf) as (k1 & s1 & E1 & Hf1 & Hk1 & Hn1 & Hwf1 & T1 & K1 & _ & _ & _ & L1 & _);
    [done|done|done|done|lia|].
  mstep E1. pose proof (areas_keeps _ s1 _ _ _ Har K1) as Har1. pose proof (ar_mm _ _ _ _ Har1) as Hm1.
  mstep (update_ok as_mm OMm mm (OMm m) m (set_mm_exec e) s1 Hm1 eq_refl).
  set (s2 := upd_heap <[mm := OMm (set_mm_exec e m)]> s1).
  assert (Hm2 : k_heap s2 !! mm = Some (OMm (set_mm_exec e m))) by apply lookup_insert_eq.
  mstep (load_some as_mm mm _ _ s2 Hm2 eq_refl). change (mm_cr3 (set_mm_exec e m)) with (mm_cr3 m). rewrite Er.
  assert (ST : same_tables (k_heap s1) (k_heap s2)) by (apply same_tables_insert; [rewrite Hm1|]; done).
  pose proof (same_tables_space _ _ ST) as SS.
  assert (Hf2 : frontier base k1 s2) by (by eapply frontier_insert).
  destruct (map_page_full base k1 s2 r (STACK_START - 2 * PAGE_BLOCK_SIZE) P stack_flags Hf2)
    as (k3 & s3 & E3 & _ & _ & _ & Hwf3 & T3 & K3 & _ & _ & _ & L3 & _);
    [change (n_frames s2) with (n_frames s1); lia|by eapply ss_wf|done|done|done|done|lia|].
  exists s3. split; [done|]. split; [|split; [done|split; [|split; [|split]]]].
  - eapply areas_keeps; [|exact K3]. by apply (areas_set_mm s1 mm m).
  - apply (tl_keeps _ _ _ L3).
    + cbn. rewrite lookup_insert_ne; [by apply (tl_keeps _ _ _ L1)|]. intros Heq. apply (tl_keeps _ _ _ L1) in HP; [|done]. congruence.
    + eapply same_tables_outside; [exact ST|]. by eapply tree_local_outside.
  - assert (HQ1 : k_heap s1 !! kv Q = Some (OBytes bytes)) by (by apply K1).
    apply K3; [|done]. cbn. rewrite lookup_insert_ne; [done|]. congruence.
  - intros w. rewrite T3, (ss_translate _ _ r w SS), T1. done.
  - intros a v Ha. apply K3; [|done]. assert (Ha1 : k_heap s1 !! a = Some (OVma v)) by (by apply K1).
    cbn. rewrite lookup_insert_ne; [done|]. congruence.
Qed.

(** ** The stack of a program *)

(** The area of the stack is written before the pages are allocated. *)
Lemma store_stack_area base k s mm m l junk : frontier base k s → areas_are s mm m l → kv 0 ∉ mm :: l.*1 →
  no_table (k_heap s !! kv 0) → tree_wf (k_heap s) (mm_cr3 m) →
  let s' := upd_heap <[kv 0 := OVma (stack_area junk)]> s in
  frontier base k s' ∧ areas_are s' mm m l ∧ tree_wf (k_heap s') (mm_cr3 m)
    ∧ ∀ w, translate (k_heap s') (mm_cr3 m) w = translate (k_heap s) (mm_cr3 m) w.
Proof.
  intros Hf Har [Hmm Hl]%not_elem_of_cons Hn Hwf s'. pose proof (fr_range _ _ _ Hf) as Hr.
  assert (ST : same_tables (k_heap s) (k_heap s')) by (apply same_tables_insert; done).
  split; [|split; [|split; [by eapply ss_wf; [apply same_tables_space|]|]]].
  - apply frontier_heap; [done|]. intros j Hj. rewrite lookup_insert_ne; [by apply (fr_clean _ _ _ Hf)|].
    pose proof (frame_range _ _ _ j Hf ltac:(lia)) as [Hj1 _]. intros E. apply kv_inj in E; lia.
  - pose proof Har as [H1 [q H2] H3]. constructor; [by rewrite <- H1; apply lookup_insert_ne| |done]. exists q.
    eapply dseg_frame; [done|]. intros x Hx. apply lookup_insert_ne. by intros <-.
  - intros w. by apply ss_translate, same_tables_space.
Qed.

Lemma only_at_same_tables s s' mm m l x v : only_at s s' (mm :: x :: l.*1) → areas_are s mm m l → k_heap s !! x = Some (OVma v) →
  ∀ m' l', areas_are s' mm m' l' → l'.*1 ≡ₚ x :: l.*1 → same_tables (k_heap s) (k_heap s').
Proof.
  intros Ho Har Hx m' l' Har' Hl' a t. destruct (decide (a ∈ mm :: x :: l.*1)) as [Hin|Hin].
  - assert (Hno : ∀ s0 m0 l0, areas_are s0 mm m0 l0 → a ∈ mm :: l0.*1 → k_heap s0 !! a ≠ Some (OTable t)).
    { intros s0 m0 l0 H0 Ha E. destruct (areas_in _ _ _ _ _ H0 Ha) as (o & Eo & Hs). rewrite E in Eo. injection Eo as <-. by apply Hs. }
    split; intros Ht; exfalso.
    + apply elem_of_cons in Hin as [->|[->|Hin]%elem_of_cons].
      * by apply (Hno s m l Har (list_elem_of_here _ _)).
      * congruence.
      * apply (Hno s m l Har); [by right|done].
    + refine (Hno s' m' l' Har' _ Ht). by rewrite Hl'.
  - by rewrite (only_at_heap _ _ _ _ Ho Hin).
Qed.

Lemma stack_ok base junk k s mm m l argv envp argb envb :
  frontier base k s → k + 9 ≤ n_frames s → areas_are s mm m l → sorted_areas l → Forall (λ y, low y.2) l →
  kv 0 ∉ mm :: l.*1 → no_table (k_heap s !! kv 0) → tree_wf (k_heap s) (mm_cr3 m) →
  c_buffers argb (default [] argv) → c_buffers envb (default [] envp) → params_fit argb envb →
  ∃ s' m', do_stack_vma junk mm argv envp s = Ok (0, s')
    ∧ areas_are s' mm m' (l ++ [(kv 0, stack_area junk)]) ∧ sorted_areas (l ++ [(kv 0, stack_area junk)])
    ∧ program_stack (k_heap s') (mm_cr3 m') (mm_exec m') argb envb
    ∧ mm_cr3 m' = mm_cr3 m ∧ mm_rip m' = mm_rip m ∧ mm_file m' = mm_file m
    ∧ tree_wf (k_heap s') (mm_cr3 m')
    ∧ ∀ w, page_number w ≠ page_number STACK_START → page_number w ≠ page_number stack_page →
        translate (k_heap s') (mm_cr3 m') w = translate (k_heap s) (mm_cr3 m) w.
Proof.
  intros Hf Hk Har Hso Hlow Hkv Hnt Hwf Ha He Hfit. pose proof (fr_range _ _ _ Hf) as Hr.
  set (r := mm_cr3 m) in *.
  destruct (extends_alloc base k k s s (extends_refl _ _ _ Hf) ltac:(lia)) as (s1 & E1 & X1 & H1).
  unfold do_stack_vma. mstep E1. fold (stack_area junk).
  assert (Har1 : areas_are s1 mm m l) by (apply (areas_are_frame s); rewrite ?H1; [done|apply (ar_mm _ _ _ _ Har)|done]).
  destruct (store_stack_area base (k + 1) s1 mm m l junk (ex_frontier _ _ _ _ _ X1) Har1 Hkv) as (Hf2 & Har2 & Hwf2 & T2);
    [by rewrite H1|by rewrite H1|].
  unfold store at 1. mnorm. set (s2 := upd_heap <[kv 0 := OVma (stack_area junk)]> s1) in *.
  assert (Hn2 : n_frames s2 = n_frames s) by apply (ex_frames _ _ _ _ _ X1).
  destruct (stack_pages_ok base (k + 1) s2 argb _ envb _ Hf2 ltac:(lia) Ha He Hfit) as (s3 & ptrs & bytes & E3 & X3 & HP & HQ & HL).
  mstep E3. set (P := frame_at base (k + 1)) in *. set (Q := frame_at base (k + 1 + 1)) in *.
  pose proof (ex_keeps _ _ _ _ _ X3) as W0.
  assert (W : ∀ a o, k_heap s2 !! a = Some o → k_heap s3 !! a = Some o) by (intros a o Hao; by eapply lookup_weaken).
  assert (Har3 : areas_are s3 mm m l).
  { eapply areas_are_frame; [exact Har2|apply W, (ar_mm _ _ _ _ Har2)|]. intros a v. apply W. }
  mstep (load_some as_mm mm _ m s3 (ar_mm _ _ _ _ Har3) eq_refl). fold stack_flags. fold r.
  set (e := STACK_START - PAGE_BLOCK_SIZE - 8 * (Z.of_nat (length (default [] argv)) + Z.of_nat (length (default [] envp)) + 3)).
  destruct (map_stack_ok base (k + 1 + 2) s3 mm m l P Q ptrs bytes e r (ex_frontier _ _ _ _ _ X3))
    as (s4 & E4 & Har4 & Hwf4 & HP4 & HQ4 & T4 & V4); try done.
  { rewrite (ex_frames _ _ _ _ _ X3). lia. }
  { apply (wider_wf (k_heap s2)); [|done]. intros a t. apply W. }
  { apply (wider_outside (k_heap s2)); [intros a t; apply W|done|]. apply (fr_clean _ _ _ Hf2). lia. }
  { apply (is_frame_at _ _ _ _ Hf). lia. } { apply (is_frame_at _ _ _ _ Hf). lia. }
  apply bind_inv in E4 as ([] & u1 & M1 & E4). apply bind_inv in E4 as ([] & u2 & M2 & E4). apply bind_inv in E4 as (m2 & u3 & M3 & M4).
  mstep M1. mstep M2. mstep M3. mstep M4.
  assert (Hst : k_heap s4 !! kv 0 = Some (OVma (stack_area junk))).
  { apply V4, W. apply lookup_insert_eq. }
  destruct (append_vma_ok (kv 0) _ s4 mm _ l Har4 (lows_under junk l Hlow) Hst) as (s5 & m5 & E5 & Har5 & Ho & Em); [done|set_solver|].
  pose proof (only_at_same_tables _ _ _ _ _ _ _ Ho Har4 Hst _ _ Har5) as ST.
  assert (Hperm : (l ++ [(kv 0, stack_area junk)]).*1 ≡ₚ kv 0 :: l.*1) by (rewrite fmap_app; cbn; by rewrite Permutation_app_comm).
  specialize (ST Hperm). pose proof (same_tables_space _ _ ST) as SS.
  exists s5, m5. mstep E5. split; [done|]. split; [done|]. split; [by apply sorted_append; [|apply lows_forward|apply lows_under]|].
  pose proof (f_equal mm_cr3 Em) as Ec. pose proof (f_equal mm_rip Em). pose proof (f_equal mm_file Em). pose proof (f_equal mm_exec Em) as Ee.
  cbn in Ec, Ee. rewrite Ec, Ee. fold r.
  assert (HQne : kv Q ∉ mm :: kv 0 :: l.*1).
  { pose proof (frame_range _ _ _ (k + 1 + 1) Hf ltac:(lia)) as [HQr _]. fold Q in HQr.
    rewrite !not_elem_of_cons. split_and!.
    - intros E. pose proof (ar_mm _ _ _ _ Har4). congruence.
    - intros E. apply kv_inj in E; lia.
    - intros Hin. destruct (areas_in _ _ _ _ (kv Q) Har4 ltac:(by right)) as (o & Eo & Hs). rewrite HQ4 in Eo.
      injection Eo as <-. by apply Hs. }
  split; [|split; [done|split; [done|split; [done|split; [by eapply ss_wf|]]]]].
  - unfold e. rewrite <- (Forall2_length _ _ _ Ha), <- (Forall2_length _ _ _ He).
    apply (layout_program_stack _ r P Q ptrs bytes); try done.
    + by apply ST.
    + by rewrite (only_at_heap _ _ _ _ Ho HQne).
    + intros o Hoo. rewrite (ss_translate _ _ _ _ SS), T4, decide_True; [done|]. by apply same_page.
    + intros o Hoo. rewrite (ss_translate _ _ _ _ SS), T4, decide_False, decide_True; [done|by apply same_page|].
      rewrite same_page by done. done.
    + apply Hfit.
  - intros w Hw1 Hw2. rewrite (ss_translate _ _ _ _ SS), T4, !decide_False by done.
    rewrite (wider_translate _ _ r (λ a t, W a (OTable t)) Hwf2), T2. by rewrite H1.
Qed.

(** The stack of a new program.  For an address space whose areas all lie
    below the stack, and arguments and environment strings that fit a page of
    characters and a page of pointers, [do_stack_vma] returns 0.  Read through
    the page tables of the address space, the new stack pointer is the address
    of the argument count, followed by the pointers to the arguments and a
    NULL and by the pointers to the environment and a NULL, and each pointer
    is the address of its string with its terminator.  The stack is the last
    area, the entry point and the translation of every other page stay. *)
Theorem stack_of_program base junk k s mm m l argv envp argb envb :
  frontier base k s → k + 9 ≤ n_frames s → areas_are s mm m l → sorted_areas l → Forall (λ y, low y.2) l →
  kv 0 ∉ mm :: l.*1 → no_table (k_heap s !! kv 0) → tree_wf (k_heap s) (mm_cr3 m) →
  c_buffers argb (default [] argv) → c_buffers envb (default [] envp) → params_fit argb envb →
  ∃ s' m', do_stack_vma junk mm argv envp s = Ok (0, s')
    ∧ areas_are s' mm m' (l ++ [(kv 0, stack_area junk)]) ∧ sorted_areas (l ++ [(kv 0, stack_area junk)])
    ∧ program_stack (k_heap s') (mm_cr3 m') (mm_exec m') argb envb
    ∧ mm_cr3 m' = mm_cr3 m ∧ mm_rip m' = mm_rip m ∧ mm_file m' = mm_file m
    ∧ tree_wf (k_heap s') (mm_cr3 m')
    ∧ ∀ w, page_number w ≠ page_number STACK_START → page_number w ≠ page_number stack_page →
        translate (k_heap s') (mm_cr3 m') w = translate (k_heap s) (mm_cr3 m) w.
Proof. apply stack_ok. Qed.

(** ** The heap *)

(** The areas end where the last one does, or before. *)
Lemma sorted_ends l x v : sorted_areas (l ++ [(x, v)]) → Forall (λ z, forward z.2) (l ++ [(x, v)]) →
  Forall (λ z, v_end_addr z.2 ≤ v_end_addr v) (l ++ [(x, v)]).
Proof.
  induction l as [|[y w] l IH]; [intros _ _; by repeat constructor|].
  cbn [app]. intros Hs [Hw Hf]%Forall_cons. pose proof (IH (sorted_tail _ _ _ Hs) Hf) as H. constructor; [|done].
  apply sorted_cons in Hs as [[E|(_ & z & u & l' & E & Hb)] _]; [by destruct l|]. rewrite E in H, Hf.
  apply Forall_cons in H as [Hu _]. apply Forall_cons in Hf as [Hfu _]. unfold before, forward in *. cbn in *. lia.
Qed.
Lemma vma_next_ok s a v : k_heap s !! a = Some (OVma v) → vma_next a s = Ok (v_next v, s).
Proof. intros H. unfold vma_next. by mstep (load_vma s a v H). Qed.
Lemma last_area s l x v : ∀ n p a q, dseg (k_heap s) p a (l ++ [(x, v)]) q 0 → (length l < n)%nat →
  last_node vma_next n a s = Ok (x, s).
Proof.
  induction l as [|[y w] l IH]; intros n p a q (-> & Hy0 & ny & Hy & Hd) Hn; (destruct n as [|n]; [lia|]);
    cbn [last_node]; mstep (vma_next_ok s _ _ Hy); cbn [v_next links set_v_prev set_v_next].
  - destruct Hd as [_ ->]. done.
  - destruct (Z.eqb_spec ny 0) as [->|Hny].
    { destruct l as [|[z u] l]; destruct Hd as (<- & Hz & _); done. }
    apply (IH n y ny q Hd). cbn in Hn. lia.
Qed.

Definition heap_area (junk v : vm_map_entry) : vm_map_entry :=
  set_v_memsize PAGE_BLOCK_SIZE (set_v_filesize 0 (set_v_protection PROT_WRITE (set_v_file NULL (set_v_fault (Some do_anon_fault_fn)
    (set_v_end_addr (page_round_down (v_end_addr v) + 4095) (set_v_start_addr (page_round_down (v_end_addr v)) junk)))))).

(** One anonymous page that can be written, from the first page boundary after
    the last area on. *)
Lemma do_heap_ok base junk k s mm m l x v : frontier base k s → k < n_frames s → areas_are s mm m (l ++ [(x, v)]) →
  sorted_areas (l ++ [(x, v)]) → Forall (λ z, forward z.2) (l ++ [(x, v)]) → 0 ≤ v_end_addr v < 2 ^ 47 →
  ∃ s' m', do_heap_vma junk mm s = Ok (0, s')
    ∧ areas_are s' mm m' ((l ++ [(x, v)]) ++ [(kv (frame_at base k), heap_area junk v)])
    ∧ sorted_areas ((l ++ [(x, v)]) ++ [(kv (frame_at base k), heap_area junk v)])
    ∧ set_mm_vma 0 m' = set_mm_vma 0 m ∧ carries base k (k + 1) s s'.
Proof.
  intros Hf Hk Har Hs Hfw Hv. pose proof (fr_range _ _ _ Hf) as Hr. pose proof Har as [Hm [q Hd] _].
  pose proof (areas_fuel _ _ _ _ Har) as Hfu. rewrite length_app in Hfu. unfold do_heap_vma.
  mstep (load_some as_mm mm _ m s Hm eq_refl). unfold fuel. mnorm.
  mstep (last_area s l x v (S (size (k_heap s))) 0 (mm_vma m) q Hd ltac:(lia)).
  destruct (extends_alloc base k k s s (extends_refl _ _ _ Hf) Hk) as (s1 & E1 & X1 & Hh1). mstep E1.
  destruct (dseg_in _ _ _ _ _ _ x v Hd ltac:(rewrite elem_of_app; right; by left)) as (Hx0 & p & n & Hx).
  rewrite <- Hh1 in Hx. mstep (load_vma s1 x _ Hx). change (v_end_addr (links p n v)) with (v_end_addr v).
  destruct (page_rounding (v_end_addr v) ltac:(lia)) as (_ & _ & Hround & _). specialize (Hround ltac:(lia)) as [Hround _].
  rewrite (u64_small (page_round_down (v_end_addr v) + 4095)) by lia. fold (heap_area junk v).
  set (F := kv (frame_at base k)). unfold store at 1. mnorm. set (s2 := upd_heap <[F := OVma (heap_area junk v)]> s1).
  assert (X2 : extends base k (k + 1) s s2) by (apply extends_store; [done|done|lia]).
  assert (Har2 : areas_are s2 mm m (l ++ [(x, v)])).
  { apply (areas_are_frame s); [done|by eapply ex_lookup|]. intros a w Ha. by eapply ex_lookup. }
  assert (HF : F ∉ (l ++ [(x, v)]).*1).
  { intros Hin. destruct (areas_in s mm m _ F Har) as (o & Ho & _); [by right|].
    by eapply (frontier_ne base k s k F); [done|lia|done|]. }
  assert (Hu : Forall (λ z, under (heap_area junk v) z.2) (l ++ [(x, v)])).
  { pose proof (sorted_ends l x v Hs Hfw) as He. apply Forall_forall. intros z Hz. rewrite Forall_forall in Hfw, He.
    specialize (Hfw z Hz). specialize (He z Hz). apply forward_under; [done|unfold forward; cbn; lia|cbn; lia]. }
  destruct (append_vma_ok F (heap_area junk v) s2 mm m _ Har2 Hu) as (s3 & m3 & E3 & Har3 & Ho & Em);
    [apply lookup_insert_eq|apply (frame_nz base k s); [done|lia]|done|].
  exists s3, m3. mstep E3. split; [done|]. split; [done|]. split; [by apply sorted_append|]. split; [done|].
  apply (carries_only_at _ _ _ _ s2 _ _ (extends_carries _ _ _ _ _ X2) Ho).
  intros a [->|[->|Hin]%elem_of_cons]%elem_of_cons.
  - by apply (areas_in _ _ _ _ _ Har2); left.
  - eexists. split; [apply lookup_insert_eq|intros []].
  - by apply (areas_in _ _ _ _ _ Har2); right.
Qed.

(** ** The image of a program *)

Lemma carries_tables base k k' s s' : carries base k k' s s' → ∀ x t, k_heap s !! x = Some (OTable t) → k_heap s' !! x = Some (OTable t).
Proof. intros C x t Hx. by apply (ca_keeps _ _ _ _ _ C). Qed.
(** An object that loading keeps is no area of the program. *)
Lemma stable_not_area s mm m l a o : areas_are s mm m l → k_heap s !! a = Some o → stable o → a ∉ mm :: l.*1.
Proof. intros Har Ha Ho Hin. destruct (areas_in _ _ _ _ _ Har Hin) as (o' & Ho' & Hn). rewrite Ha in Ho'. by injection Ho' as <-. Qed.
Lemma loaded_areas fp vjunk phs (l : list (Z * vm_map_entry)) : Forall segment_ok (loads phs) → l.*2 ≡ₚ area_of vjunk fp <$> loads phs →
  Forall (λ z, forward z.2 ∧ 0 ≤ v_end_addr z.2 < 2 ^ 31) l.
Proof.
  intros Hok Hp. apply Forall_forall. intros z Hz.
  assert (Hin : z.2 ∈ area_of vjunk fp <$> loads phs) by (rewrite <- Hp; by apply list_elem_of_fmap_2).
  apply list_elem_of_fmap in Hin as (ph & -> & Hin). rewrite Forall_forall in Hok. destruct (Hok ph Hin) as [H1 H2 H3].
  unfold forward. cbn. lia.
Qed.

(** C9: the address space of a new program.  From a new address space with a
    valid ELF file as its program (segments as for the loader, at least one)
    and arguments that fit, the three steps of [execve] succeed in sequence.
    The areas are, in order and linked both ways, one file area for each
    segment to load, the heap at the first page boundary behind the last of
    them, and the stack; the entry point is that of the file; the stack
    pointer leads to the argument count, the argument strings and the
    environment strings through the page tables of the process; the
    translation of every page outside the stack is unchanged. *)
Theorem program_image base tar junk vjunk k s c mm m fp f i d h phs argv envp argb envb o0 :
  length junk = 4096%nat → frontier base k s → k + 12 + Z.of_nat (length (loads phs)) ≤ n_frames s →
  k_heap s !! current (k_proc s) = Some (OPcb c) → p_mm c = mm → areas_are s mm m [] → mm_file m = fp → fp ≠ 0 →
  tar_file tar s fp f i d → f_offset f = 0 → elf_file (contents tar i d) h phs → Forall segment_ok (loads phs) → loads phs ≠ [] →
  ForallOrdPairs (λ a b, ¬ overlap (area_of vjunk fp a) (area_of vjunk fp b)) (loads phs) →
  k_heap s !! kv 0 = Some o0 → stable o0 → no_table (Some o0) → tree_wf (k_heap s) (mm_cr3 m) →
  c_buffers argb (default [] argv) → c_buffers envb (default [] envp) → params_fit argb envb →
  ∃ s' m' l last heap, build_image tar junk vjunk mm argv envp s = Ok (0, s')
    ∧ (l ++ [last]).*2 ≡ₚ area_of vjunk fp <$> loads phs
    ∧ areas_are s' mm m' ((l ++ [last]) ++ [(heap, heap_area vjunk last.2); (kv 0, stack_area vjunk)])
    ∧ sorted_areas ((l ++ [last]) ++ [(heap, heap_area vjunk last.2); (kv 0, stack_area vjunk)])
    ∧ mm_rip m' = e_entry h ∧ mm_file m' = fp ∧ mm_cr3 m' = mm_cr3 m
    ∧ program_stack (k_heap s') (mm_cr3 m') (mm_exec m') argb envb
    ∧ ∀ w, page_number w ≠ page_number STACK_START → page_number w ≠ page_number stack_page →
        translate (k_heap s') (mm_cr3 m') w = translate (k_heap s) (mm_cr3 m) w.
Proof.
  intros Hj Hf Hk Hc Hmm Har Hmf Hfp Htf Hoff Hef Hok Hne Hpair H0 Hst0 Hnt0 Hwf Ha He Hfit.
  destruct (load_elf_ok base tar junk vjunk Hj k s c mm m fp f i d h phs Hf ltac:(lia) Hc Hmm Har Hmf Hfp Htf Hoff Hef Hok Hpair)
    as (s1 & m1 & l1 & E1 & Har1 & Hs1 & Hp1 & Erip & Ecr & Efile & C1).
  pose proof (loaded_areas fp vjunk phs l1 Hok Hp1) as Hfw1.
  destruct l1 as [|[x v] l _] using rev_ind.
  { destruct (loads phs); [done|]. by apply Permutation_nil_cons in Hp1. }
  assert (Hvx : forward v ∧ 0 ≤ v_end_addr v < 2 ^ 31) by (rewrite Forall_forall in Hfw1; apply (Hfw1 (x, v)), elem_of_app; right; by left).
  assert (Hfw : Forall (λ z, forward z.2) (l ++ [(x, v)])) by (eapply Forall_impl; [exact Hfw1|]; by intros z []).
  destruct (do_heap_ok base vjunk _ s1 mm m1 l x v (ca_frontier _ _ _ _ _ C1)) as (s2 & m2 & E2 & Har2 & Hs2 & Em2 & C2); try done.
  { rewrite (ca_frames _ _ _ _ _ C1). lia. } { lia. }
  pose proof (carries_trans _ _ _ _ _ _ _ C1 C2) as C.
  pose proof (ca_keeps _ _ _ _ _ C _ _ H0 Hst0) as H02. pose proof (carries_tables _ _ _ _ _ C) as W.
  pose proof (f_equal mm_cr3 Em2) as Ec2. pose proof (f_equal mm_rip Em2) as Er2. pose proof (f_equal mm_file Em2) as Ef2. cbn in Ec2, Er2, Ef2.
  set (F := kv _) in Har2, Hs2.
  destruct (page_rounding (v_end_addr v) ltac:(lia)) as (_ & _ & Hround & _). specialize (Hround ltac:(lia)) as [Hround _].
  destruct (stack_ok base vjunk _ s2 mm m2 ((l ++ [(x, v)]) ++ [(F, heap_area vjunk v)]) argv envp argb envb (ca_frontier _ _ _ _ _ C))
    as (s3 & m3 & E3 & Har3 & Hs3 & Hps & Ec3 & Er3 & Ef3 & Hwf3 & T3); try done.
  { rewrite (ca_frames _ _ _ _ _ C). lia. }
  { apply Forall_app. split; [eapply Forall_impl; [exact Hfw1|]; intros z [? ?]|apply Forall_singleton];
      (split; [try done; unfold forward; cbn; lia|unfold STACK_START, PAGE_BLOCK_SIZE; cbn; lia]). }
  { by eapply stable_not_area. }
  { by rewrite H02. }
  { rewrite Ec2, Ecr. by apply (wider_wf (k_heap s)). }
  exists s3, m3, l, (x, v), F. rewrite <- app_assoc in Har3, Hs3. split; [|split; [done|split; [done|split; [done|]]]].
  - unfold build_image. mstep E1. change (0 <? 0) with false. cbv iota. mstep E2. exact E3.
  - split; [congruence|]. split; [congruence|]. split; [congruence|]. split; [done|].
    intros w Hw1 Hw2. rewrite T3, Ec2, Ecr by done. by apply wider_translate.
Qed.

(** ** A concrete address space *)

Definition c_str (x : string) : list Z := bytes_of_string x ++ [0].
Definition text_area : vm_map_entry := area_of blank_area (kv 0x2000) tiny_segment.
Definition stack_machine : kst :=
  machine 0 16 (list_to_map
    [(kv 0x1000, OTable zero_table); (kv 0x7000, OMm (Mm (kv 0x9000) 0x400080 (kv 0x2000) 0 0x1000));
     (kv 0x9000, OVma (links 0 0 text_area))]).
Lemma stack_machine_frontier : frontier 0x400000 0 stack_machine.
Proof.
  apply (machine_frontier 0 16); [lia|]. intros j Hj. do 17 (destruct j as [|j]; [vm_compute; reflexivity|]). lia.
Qed.

Lemma stack_of_program_witness : ∃ s' m',
  do_stack_vma blank_area (kv 0x7000) (Some [c_str "ls"; c_str "-l"]) (Some [c_str "HOME=/"]) stack_machine = Ok (0, s')
  ∧ program_stack (k_heap s') (mm_cr3 m') (mm_exec m') [bytes_of_string "ls"; bytes_of_string "-l"] [bytes_of_string "HOME=/"].
Proof.
  destruct (stack_of_program 0x400000 blank_area 0 stack_machine (kv 0x7000) (Mm (kv 0x9000) 0x400080 (kv 0x2000) 0 0x1000)
    [(kv 0x9000, text_area)] (Some [c_str "ls"; c_str "-l"]) (Some [c_str "HOME=/"])
    [bytes_of_string "ls"; bytes_of_string "-l"] [bytes_of_string "HOME=/"]) as (s' & m' & E & _ & _ & H & _).
  - exact stack_machine_frontier.
  - vm_compute. discriminate.
  - constructor; [vm_compute; reflexivity| |repeat constructor; set_solver].
    exists (kv 0x9000). split; [reflexivity|]. split; [vm_compute; discriminate|]. exists 0.
    split; [vm_compute; reflexivity|done].
  - exact I.
  - repeat constructor; vm_compute; done.
  - intros [E|[E|[]%elem_of_nil]%elem_of_cons]%elem_of_cons; vm_compute in E; discriminate.
  - intros t. vm_compute. discriminate.
  - apply empty_tree_wf; [vm_compute; reflexivity|vm_compute; repeat split; done].
  - repeat constructor; try (vm_compute; discriminate); by exists [].
  - repeat constructor; try (vm_compute; discriminate); by exists [].
  - constructor; [apply Nat.leb_le; reflexivity|apply Nat.leb_le; reflexivity|apply Nat.ltb_lt; reflexivity].
  - exists s', m'. exact (conj E H).
Defined.

(** A new process with the small program as its file. *)
Definition image_mm : mm_struct := Mm 0 0 (kv 0x2000) 0 0x1000.
Definition image_file : file := File 0 1 0 0 (kv 0x3000) (kv 0x8000).
Definition image_machine : kst :=
  set_k_fs (FsGlobals 0 (kv 0x5000) (kv 0x4000) 0 100 0) (upd_proc (set_current (kv 0x6000))
    (machine 0 16 (list_to_map
      [(kv 0, OBytes []); (kv 0x1000, OTable zero_table); (kv 0x6000, OPcb tiny_pcb); (kv 0x7000, OMm image_mm);
       (kv 0x2000, OFile image_file); (kv 0x3000, ODentry (Dentry (demo_name "a") 0 0));
       (kv 0x8000, OFops (Fops (Some tarfs_read_fn) None (Some tarfs_close_fn)));
       (kv 0x4000, OInodes [tiny_inode; bare_inode])]))).
Lemma image_tar_file : tar_file tiny_elf image_machine (kv 0x2000) image_file tiny_inode 0.
Proof.
  constructor; [vm_compute; reflexivity|eexists; split; vm_compute; reflexivity|vm_compute; reflexivity|done| |by cbn].
  split; [done|]. split; [done|]. by vm_compute.
Qed.
Lemma image_frontier : frontier 0x400000 0 image_machine.
Proof.
  cut (frontier 0x400000 0 (set_k_fs (k_fs blank_kst) (set_k_proc (k_proc blank_kst) image_machine))).
  { intros []. by constructor. }
  apply (machine_frontier 0 16); [lia|]. intros j Hj. do 17 (destruct j as [|j]; [vm_compute; reflexivity|]). lia.
Qed.

Lemma program_image_witness : ∃ s' m',
  build_image tiny_elf zero_bytes blank_area (kv 0x7000) (Some [c_str "a"]) None image_machine = Ok (0, s')
  ∧ mm_rip m' = 0x400080 ∧ program_stack (k_heap s') (mm_cr3 m') (mm_exec m') [bytes_of_string "a"] [].
Proof.
  destruct (program_image 0x400000 tiny_elf zero_bytes blank_area 0 image_machine tiny_pcb (kv 0x7000) image_mm (kv 0x2000)
    image_file tiny_inode 0 tiny_header tiny_phdrs (Some [c_str "a"]) None [bytes_of_string "a"] [] (OBytes []))
    as (s' & m' & l & la & hp & E & _ & _ & _ & Hrip & _ & _ & Hst & _).
  - vm_compute. reflexivity.
  - exact image_frontier.
  - vm_compute. discriminate.
  - vm_compute. reflexivity.
  - reflexivity.
  - constructor; [vm_compute; reflexivity|by exists 0|constructor].
  - reflexivity.
  - vm_compute. discriminate.
  - exact image_tar_file.
  - reflexivity.
  - exact tiny_elf_file.
  - repeat constructor; vm_compute; done.
  - vm_compute. discriminate.
  - repeat constructor.
  - vm_compute. reflexivity.
  - exact I.
  - intros t. discriminate.
  - apply empty_tree_wf; [vm_compute; reflexivity|vm_compute; repeat split; done].
  - repeat constructor; try (vm_compute; discriminate); by exists [].
  - constructor.
  - constructor; [apply Nat.leb_le; reflexivity|apply Nat.leb_le; reflexivity|apply Nat.ltb_lt; reflexivity].
  - exists s', m'. exact (conj E (conj Hrip Hst)).
Defined.

(** ** A complete run *)

Definition init_entries : list entry :=
  [Entry (bytes_of_string "bin/") (chr "5") []; Entry (bytes_of_string "bin/init") (chr "0") tiny_elf].
Definition init_tar : list Z := tar_image init_entries.
(** A process without an address space, with an empty kernel stack. *)
Definition init_machine : kst :=
  set_k_pml4 0x1000 (set_k_is_paging 1 (set_k_fs (FsGlobals 0x31F000 0x5000 0 0 0 0) (upd_proc (set_current (kv 0x6000))
    (machine 0 64 (list_to_map
      [(kv 0x1000, OTable zero_table); (kv 0x5000, ODcache zero_dcache);
       (kv 0x6000, OPcb (set_p_esp0 (kv 0x9000 + 4096) zero_pcb)); (kv 0x9000, OTable zero_table);
       (kv 0x200000, OBytes [chr "/"; 0])]))))).

(** Mount the archive, [execve], then the page fault of the first instruction;
    the results are the returned value, the registers, the words of the stack
    and the instructions at the entry point. *)
Definition run_init : M kst (Z * (Z * Z) * list (option Z) * list Z) :=
  tarfs_init init_tar (kv 0x200000) zero_bytes;;
  rc ← sys_execve init_tar zero_bytes blank_area (c_str "/bin/init") (Some [c_str "init"; c_str "-v"]) (Some [c_str "HOME=/"]);
  curr ← get_current_process;
  regs ← task_reg_list curr;
  rip ← word_get (reg_rip regs);
  sp ← word_get (reg_sp regs);
  c ← load as_pcb curr;
  m ← load as_mm (p_mm c);
  set_pml4 (mm_cr3 m);;
  page_fault_handler init_tar zero_bytes rip 0 4 0;;
  b ← user_page rip;
  s ← get;
  mret (rc, (rip, sp), user_word (k_heap s) (mm_cr3 m) <$> [sp; sp + 8; sp + 16; sp + 24; sp + 32; sp + 40],
        take 8 (drop (Z.to_nat (rip mod 4096)) b)).

(** A program is started from the archive.  On a machine with an archive
    that holds an ELF file, mounting it and [execve] with two arguments and
    one environment string return 0 and set the user registers to the entry
    point of the file and to a stack with the count, the two pointers, NULL,
    one pointer, NULL; the page fault on the first instruction then brings
    the bytes of the segment to the entry point. *)
Theorem exec_runs_program :
  match run_init init_machine with
  | Ok (r, _) => Some r
  | _ => None
  end = Some (0, (0x400080, STACK_START - 4096 - 48),
          [Some 2; Some (STACK_START + 10); Some (STACK_START + 7); Some 0; Some STACK_START; Some 0], replicate 8 144).
Proof. vm_compute. reflexivity. Qed.
