(* ===== verification/Boot.v ===== *)
(** * Boot (sys/main.c, sys/start.c, sys/syscalls.c)

    From the loader to the first user process: the segment descriptors of
    Gdt.v, the free list, the initialisation of every subsystem in order, the system
    call registers, the kernel thread that opens the terminal and executes
    [/bin/init].  The processor and the assembly routines are modelled as far
    as the code here depends on them: a new thread starts in
    [ret_from_fork], which calls the function in [rbx] and leaves for user
    mode with the registers on the kernel stack. *)

From S2P Require Export Gdt Exec Terminal Exit.

(** ** System calls (syscalls.c) *)

Definition MSR_STAR : Z := 0xC0000081.
Definition MSR_LSTAR : Z := 0xC0000082.
Definition IA32_EFER : Z := 0xC0000080.

Inductive syscall : Type :=
| SYS_read | SYS_write | SYS_fork | SYS_execve | SYS_wait | SYS_exit | SYS_open | SYS_close | SYS_getdents
| SYS_getprocs64 | SYS_mmap | SYS_sleep | SYS_kill | SYS_munmap.
Definition sys_call_table : list syscall :=
  [SYS_read; SYS_write; SYS_fork; SYS_execve; SYS_wait; SYS_exit; SYS_open; SYS_close; SYS_getdents;
   SYS_getprocs64; SYS_mmap; SYS_sleep; SYS_kill; SYS_munmap].

(** [msr0] is what a model-specific register holds before the first write. *)
Definition do_rdmsr (msr0 : Z → Z * Z) (reg : Z) : M kst (Z * Z) :=
  gets (λ s, default (msr0 reg) (msr (k_cpu s) !! reg)).
Definition init_syscall (msr0 : Z → Z * Z) (do_syscalls : Z) : M kst unit :=
  a ← phys_mem_alloc;
  modify (upd_cpu (set_global_ds (kv a)));;
  let full_data := Z.lor (u64 (Z.shiftl 0x1B 48)) (u64 (Z.shiftl 0x8 32)) in
  do_wrmsr MSR_STAR (u32 full_data) (u32 (Z.shiftr full_data 32));;
  do_wrmsr MSR_LSTAR (u32 do_syscalls) (u32 (Z.shiftr do_syscalls 32));;
  '(low_efer, hi_efer) ← do_rdmsr msr0 IA32_EFER;
  do_wrmsr IA32_EFER (Z.lor low_efer 1) hi_efer;;
  s ← get;
  let gs_kernel_base := global_ds (k_cpu s) in
  do_wrmsr MSR_GS_KERNEL_BASE (u32 gs_kernel_base) (u32 (Z.shiftr gs_kernel_base 32)).

(** ** Starting the kernel (start.c) *)

Definition O_RDWR : Z := 1.
Definition init_path : list Z := bytes_of_string "/bin/init" ++ [0].

(** Addresses of code and of the string literal of one slash. *)
Record routines : Type := Routines {
  at_pit_wrapper : Z; at_keyboard_wrapper : Z; at_page_fault : Z; at_do_syscalls : Z; at_ret_from_fork : Z;
  at_kernel_init : Z; at_cpu_idle : Z; at_slash : Z
}.

Section start.
(** The hardware, the processor registers before boot, the addresses, the tar
    image and what new frames hold. *)
Context (hw : hardware) (msr0 : Z → Z * Z) (at_ : routines) (tar junk : list Z) (pjunk : pcb) (vjunk : vm_map_entry).

Definition i86_initialize_page_fault_handler (idt : list idtentry) : list idtentry := set_int_vect 14 (at_page_fault at_) idt.

Definition kernel_thread (fn arg : Z) : M kst Z := do_fork (at_ret_from_fork at_) (Z.lor CLONE_VM CLONE_FS) fn arg.
(** [rsp] is the stack pointer at the switch; the result is the one on which
    the next process goes on. *)
Definition final_init (rsp : Z) : M kst Z :=
  kernel_thread (at_kernel_init at_) NULL;;
  schedule rsp.
Definition start_kernel (rsp : Z) : M kst (list idtentry * Z) :=
  kprintf (line "!!!*** Welcome to BLEH OS ***!!!") [];;
  let idt := init_idt in
  idt ← initialize hw (at_pit_wrapper at_) (at_keyboard_wrapper at_) idt;
  init_setup_virtual_memory;;
  init_syscall msr0 (at_do_syscalls at_);;
  let idt := i86_initialize_page_fault_handler idt in
  tarfs_init tar (at_slash at_) junk;;
  scheduler_init pjunk (at_cpu_idle at_);;
  ttyinit;;
  r ← final_init rsp;
  mret (idt, r).

Definition run_init_process (filename : list Z) : M kst Z :=
  name ← getname junk filename;
  b ← load as_bytes name;
  do_execve tar junk vjunk name (Some [b]) (Some [bytes_of_string "HOME=/" ++ [0]]).
Definition kernel_init : M kst Z :=
  terminal_open O_RDWR 0;;
  terminal_open O_RDWR 0;;
  fd ← terminal_open O_RDWR 0;
  kprintf (line "fd %d is opened") [KInt fd];;
  ret ← run_init_process init_path;
  when (negb (ret =? 0)) (kprintf "something is wrong with /bin/init" []);;
  mret ret.

Definition switch_to_user_cr3 : M kst unit :=
  curr ← get_current_process;
  c ← load as_pcb curr;
  m ← load as_mm (p_mm c);
  set_pml4 (mm_cr3 m).

(** A process taken up at the stack pointer [rsp] of [do_switch]: the saved
    registers and the return address come off the stack; at [ret_from_fork] a
    function in [rbx] is called, 0 becomes the returned value, and [iretq]
    leaves for the [rip] and [rsp] of the saved user registers. *)
Definition ret_from_fork (rsp : Z) (call : Z → M kst Z) : M kst (Z * Z) :=
  rbx ← word_get (rsp + 32);
  rip ← word_get (rsp + 48);
  if negb (rip =? at_ret_from_fork at_) then ub else
  let regs := rsp + 56 in
  when (negb (rbx =? 0)) (call rbx;; word_set (reg_rax regs) 0);;
  switch_to_user_cr3;;
  rip ← word_get (reg_rip regs);
  sp ← word_get (reg_sp regs);
  mret (rip, sp).
Definition call_routine (a : Z) : M kst Z := if a =? at_kernel_init at_ then kernel_init else ub.

(** ** The loader (main.c) *)

(** The modules of the boot loader up to the memory map: a type, a length and
    that many words each. *)
Fixpoint find_smap (n : nat) (modulep : list Z) : res (list Z) :=
  match n with
  | O => Timeout
  | S n' =>
      match modulep with
      | t :: len :: _ =>
          if t =? 0x9001 then Ok modulep
          else if (Z.to_nat len + 2 <=? length modulep)%nat then find_smap n' (drop (Z.to_nat len + 2) modulep) else Ub
      | _ => Ub
      end
  end.
(** The loop over the entries of the map has no effect. *)
Definition start (modulep : list Z) : M kst unit :=
  λ s, match find_smap (S (length modulep)) modulep with Ok _ => Ok (tt, s) | Ub => Ub | Timeout => Timeout end.

(** The bytes of the text screen at [0xb8000]: the attribute of every cell is
    set to white on black, and a message is written over the first row. *)
Definition white_cell (k : Z) (cells : gmap Z Z) : gmap Z Z :=
  <[k := Z.lor (Z.land (default 0 (cells !! k)) 0xff) (Z.shiftl 7 8)]> cells.
Fixpoint white_screen (n : nat) (cells : gmap Z Z) : gmap Z Z :=
  match n with O => cells | S n' => white_cell (Z.of_nat n') (white_screen n' cells) end.
Fixpoint write_cells (k : Z) (msg : list Z) (cells : gmap Z Z) : gmap Z Z :=
  match msg with
  | [] => cells
  | c :: msg' => write_cells (k + 1) msg' (<[k := Z.lor (Z.land (default 0 (cells !! k)) 0xff00) c]> cells)
  end.
Definition upd_cells (f : gmap Z Z → gmap Z Z) : M kst unit :=
  modify (λ s, set_k_con (set_con_cells (f (con_cells (k_con s))) (k_con s)) s).

(** [loader_stack[4]] is the first free physical address. *)
Definition boot (tss physfree rsp : Z) (modulep : list Z) : M kst (list Z * list idtentry * Z) :=
  upd_cells (white_screen 2000);;
  let gdt := init_gdt tss in
  start modulep;;
  upd_cells (write_cells 0 (bytes_of_string "!!!!! start() returned !!!!!"));;
  define_free_list physfree 0x5000000;;
  initialize_tarfs_sb;;
  initialize_dentry_cache;;
  '(idt, r) ← start_kernel rsp;
  mret (gdt, idt, r).
End start.

(** ** Entering and leaving the kernel *)

Definition msr64 (s : kst) (reg : Z) : option Z := (λ v : Z * Z, v.1 + 2 ^ 32 * v.2) <$> msr (k_cpu s) !! reg.
(** The selectors the processor takes from the STAR register. *)
Definition syscall_cs (star : Z) : Z := Z.shiftr star 32 mod 2 ^ 16.
Definition syscall_ss (star : Z) : Z := syscall_cs star + 8.
Definition sysret_cs (star : Z) : Z := Z.shiftr star 48 mod 2 ^ 16 + 16.
Definition sysret_ss (star : Z) : Z := Z.shiftr star 48 mod 2 ^ 16 + 8.
Lemma halves v : 0 ≤ v < 2 ^ 64 → u32 v + 2 ^ 32 * u32 (Z.shiftr v 32) = v.
Proof. intros Hv. rewrite Z.shiftr_div_pow2 by lia. unfold u32. Z.div_mod_to_equations. lia. Qed.

(** System calls enter and leave through the right segments.
    [init_syscall] takes one frame for the per-CPU area and leaves the
    registers so that the entry point is [do_syscalls], the kernel GS base is
    that area, the enable bit of EFER is set and its other bits are as before;
    the STAR register makes a system call run on the kernel code and data
    segments of the descriptor table of [init_gdt], and return on the 64-bit
    user code segment and the user data segment, by the selectors [0x2B] and
    [0x23] that [start_thread] gives a new program. *)
Theorem syscall_setup base k s msr0 do_syscalls tss :
  frontier base k s → k < n_frames s → 0 ≤ do_syscalls < 2 ^ 64 →
  let efer := default (msr0 IA32_EFER) (msr (k_cpu s) !! IA32_EFER) in
  ∃ s' star, init_syscall msr0 do_syscalls s = Ok (tt, s') ∧ frontier base (k + 1) s' ∧ k_heap s' = k_heap s
    ∧ msr64 s' MSR_LSTAR = Some do_syscalls
    ∧ msr (k_cpu s') !! IA32_EFER = Some (Z.lor efer.1 1, efer.2)
    ∧ msr64 s' MSR_GS_KERNEL_BASE = Some (global_ds (k_cpu s')) ∧ global_ds (k_cpu s') = kv (frame_at base k)
    ∧ msr64 s' MSR_STAR = Some star ∧ sysret_cs star = 0x2B ∧ sysret_ss star = 0x23
    ∧ selects (init_gdt tss) (sysret_cs star) user_code ∧ selects (init_gdt tss) (sysret_ss star) user_data
    ∧ selects (init_gdt tss) (syscall_cs star) kernel_code ∧ selects (init_gdt tss) (syscall_ss star) kernel_data.
Proof.
  intros Hf Hk Hd efer. pose proof (fr_range _ _ _ Hf) as Hr.
  destruct (extends_alloc base k k s s (extends_refl _ _ _ Hf) Hk) as (s1 & E1 & X1 & H1).
  assert (Hefer : default (msr0 IA32_EFER) (msr (k_cpu s1) !! IA32_EFER) = efer) by (by rewrite (ex_cpu _ _ _ _ _ X1)).
  pose proof (ex_frontier _ _ _ _ _ X1) as [F1 F2 F3 F4].
  destruct (frame_bounds base k s k Hf ltac:(lia)) as (B1 & B2 & _).
  set (F := kv (frame_at base k)) in *. destruct efer as [lo hi]. cbn [fst snd].
  set (regs := <[MSR_GS_KERNEL_BASE := (u32 F, u32 (Z.shiftr F 32))]> (<[IA32_EFER := (Z.lor lo 1, hi)]>
    (<[MSR_LSTAR := (u32 do_syscalls, u32 (Z.shiftr do_syscalls 32))]> (<[MSR_STAR := (0, 0x001B0008)]> (msr (k_cpu s1)))))).
  exists (set_k_cpu (set_msr regs (set_global_ds F (k_cpu s1))) s1), 0x001B000800000000. split.
  { unfold init_syscall. mstep E1. unfold do_wrmsr, do_rdmsr. mnorm. unfold gets. mnorm.
    cbn [msr k_cpu set_k_cpu upd_cpu set_msr set_global_ds]. rewrite !lookup_insert_ne, Hefer by done. reflexivity. }
  split; [by constructor|]. split; [done|].
  unfold msr64. cbn [msr k_cpu set_k_cpu set_msr set_global_ds global_ds]. unfold regs.
  repeat first [rewrite lookup_insert_eq|rewrite lookup_insert_ne by done]. cbn [fmap option_fmap option_map fst snd].
  split; [by rewrite halves|]. split; [done|]. split; [rewrite halves; [done|lia]|]. split; [done|].
  split; [done|]. split; [done|]. split; [done|].
  split_and!; eexists; (split; [reflexivity|vm_compute; reflexivity]).
Qed.
Lemma syscall_setup_witness : ∃ s' star, init_syscall (λ _, (0x500, 0)) 0x4444 stack_machine = Ok (tt, s')
  ∧ msr64 s' MSR_LSTAR = Some 0x4444 ∧ sysret_cs star = 0x2B.
Proof.
  destruct (syscall_setup 0x400000 0 stack_machine (λ _, (0x500, 0)) 0x4444 0x301000 stack_machine_frontier)
    as (s' & star & E & _ & _ & H & _ & _ & _ & _ & Hs & _).
  - vm_compute. reflexivity.
  - lia.
  - exists s', star. exact (conj E (conj H Hs)).
Defined.

(** ** From the loader to the first program *)

(** What [_start] of crt/crt1.c passes to [main]. *)
Definition _start (h : gmap Z obj) (r rsp : Z) : option (Z * Z * Z) :=
  rdi ← user_word h r rsp;
  let rsi := u64 (rsp + 8) in
  let rdx := u64 (rsi + 8 * rdi + 8) in
  Some (rdi, rsi, rdx).
Lemma start_gets_arguments h r sp argb envb : program_stack h r sp argb envb →
  0 ≤ sp → sp + 8 * (Z.of_nat (length argb) + 2) < 2 ^ 64 →
  ∃ argv envp, _start h r sp = Some (Z.of_nat (length argb), argv, envp) ∧ string_array h r argv argb ∧ string_array h r envp envb.
Proof.
  intros [H1 H2 H3] Hs Ht. exists (sp + 8), (sp + 8 * (Z.of_nat (length argb) + 2)). unfold _start. rewrite H1. cbn.
  rewrite !(u64_small (sp + 8)), (u64_small (sp + 8 + _ + _)) by lia. split; [do 2 f_equal; lia|done].
Qed.

(** A machine with 200 frames, no device that answers, and an archive with
    one program. *)
Definition boot_routines : routines := Routines 0x211000 0x212000 0x213000 0x214000 0x215000 0x216000 0x217000 (kv 0x200000).
Definition boot_machine : kst := upd_heap (λ _, {[kv 0x200000 := OBytes [chr "/"; 0]]}) blank_kst.
(** Booting, the first process up to user mode and the page fault on its first
    instruction. *)
Definition power_on : M kst (Z * Z * list (option Z) * option (Z * Z * Z) * list Z) :=
  '(gdt, idt, r) ← boot (λ _ _, 0) (λ _, (0, 0)) boot_routines init_tar zero_bytes zero_pcb
                     0x301000 (0x5000000 - 0x1000 * 200) 0x300000 [1; 3; 0; 0; 0; 0x9001; 0];
  '(rip, sp) ← ret_from_fork boot_routines r (call_routine boot_routines init_tar zero_bytes blank_area);
  page_fault_handler init_tar zero_bytes rip 0 4 0;;
  b ← user_page rip;
  curr ← get_current_process;
  c ← load as_pcb curr;
  s ← get;
  mret (p_pid c, rip, (λ i : nat, offset_low <$> idt !! i) <$> [14%nat; 32%nat; 33%nat],
        _start (k_heap s) (cr3 (k_cpu s)) sp, take 8 (drop (Z.to_nat (rip mod 4096)) b)).

(** The machine boots to its first program.  On a concrete machine the
    loader's entry, the initialisation of every subsystem, the kernel thread,
    the first [schedule], [kernel_init] and [execve] of [/bin/init] all return,
    and the kernel leaves for user mode as process 1 at the entry point of the
    program; the three interrupt vectors are installed; the first page fault
    brings in the instructions of the file, and [_start] passes [main] one
    argument with its argument and environment arrays. *)
Theorem boot_enters_init :
  match power_on boot_machine with
  | Ok (r, _) => Some r
  | _ => None
  end = Some (1, 0x400080, [Some 0x3000; Some 0x1000; Some 0x2000],
              Some (1, STACK_START - 4096 - 32, STACK_START - 4096 - 16), replicate 8 144).
Proof. vm_compute. reflexivity. Qed.
