(* ===== verification/Sleep.v ===== *)
(** * The sleep system call (sys/pit.c)

    [sys_sleep] waits for the tick counter to reach a later value.  Between
    two reads of the counter the rest of the system runs: interrupts, page
    faults and, when the timer switches, the system calls of the other
    processes.  The file follows the counter through every one of them. *)

From S2P Require Export Boot Faults Open.

(** [ticks] is the global [k_ticks]; it is an [int], compared with the unsigned
    [timer_ticks].  Each round of the loop reads it again; [others] is what runs
    between two reads, one action per round, and with the last one the
    observation ends. *)
Fixpoint spin (others : list (M kst unit)) (timer_ticks : Z) : M kst unit :=
  ticks ← gets k_ticks;
  if u32 ticks <? timer_ticks then
    match others with
    | [] => timeout
    | m :: others' => m;; spin others' timer_ticks
    end
  else mret tt.
Definition sys_sleep (others : list (M kst unit)) (seconds : Z) : M kst unit :=
  ticks ← gets k_ticks;
  let timer_ticks := u32 (ticks + u64 (seconds * 1000)) in
  spin others timer_ticks;;
  kprintf (line "sleep done") [].
Definition get_number_of_ticks_since_boot : M kst Z := ticks ← gets k_ticks; mret (u64 ticks).

(** ** Operations that leave the counter alone *)

Definition keeps_ticks {A : Type} (m : M kst A) : Prop := ∀ s a s', m s = Ok (a, s') → k_ticks s' = k_ticks s.

Section combinators.
Context {A B : Type}.
Lemma keeps_ret (a : A) : keeps_ticks (mret a).
Proof. by intros s a' s' [= _ <-]. Qed.
Lemma keeps_bind (m : M kst A) (f : A → M kst B) : keeps_ticks m → (∀ a, keeps_ticks (f a)) → keeps_ticks (m ≫= f).
Proof. intros Hm Hf s b s' (a & s1 & E1 & E2)%bind_inv. by rewrite (Hf a s1 b s' E2), (Hm s a s1 E1). Qed.
Lemma keeps_gets (f : kst → A) : keeps_ticks (gets f).
Proof. by intros s a' s' [= _ <-]. Qed.
Lemma keeps_get : keeps_ticks get.
Proof. by intros s a' s' [= _ <-]. Qed.
Lemma keeps_modify f : (∀ s, k_ticks (f s) = k_ticks s) → keeps_ticks (modify f).
Proof. intros H s a' s' [= _ <-]. apply H. Qed.
Lemma keeps_ub : keeps_ticks (A := A) ub.
Proof. done. Qed.
Lemma keeps_timeout : keeps_ticks (A := A) timeout.
Proof. done. Qed.
Lemma keeps_of_option (o : option A) : keeps_ticks (of_option o).
Proof. destruct o; [apply keeps_ret|apply keeps_ub]. Qed.
Lemma keeps_load (as_ : obj → option A) a : keeps_ticks (load as_ a).
Proof. by intros s x s' [-> _]%load_inv. Qed.
End combinators.

Create HintDb ticks discriminated.
#[export] Hint Constants Opaque : ticks.
#[export] Hint Resolve keeps_ret keeps_gets keeps_get keeps_ub keeps_timeout keeps_of_option keeps_load : ticks.

(** [keeps] follows the structure of an operation: it uses the lemmas of the
    database on what is called and unfolds what has none. *)
Ltac keeps_unfold :=
  match goal with |- keeps_ticks ?m =>
    let rec hd t := lazymatch t with ?f _ => hd f | _ => t end in
    let h := hd m in unfold h; cbn beta
  end.
Ltac keeps_step :=
  first
    [ solve [eauto 2 with ticks]
    | match goal with
      | H : Some _ = Some _ |- _ => injection H as <-
      | H : None = Some _ |- _ => discriminate H
      | |- ∀ _, _ => intro
      | |- keeps_ticks (mbind _ _) => apply keeps_bind
      | |- keeps_ticks (modify _) => apply keeps_modify; intros; reflexivity
      | |- keeps_ticks (when ?b _) => unfold when; destruct b
      | |- keeps_ticks (let _ := _ in _) => cbv zeta
      | |- keeps_ticks (match ?x with _ => _ end) => destruct x
      end
    | keeps_unfold ].
Ltac keeps := repeat keeps_step.
(** [keeps_by f n]: for the loop [f], by induction on [n]. *)
Tactic Notation "keeps_by" reference(f) hyp(n) := induction n; intros; cbn [f]; keeps.

(** ** Console, ports and frames *)

Lemma keeps_kprintf fmt args : keeps_ticks (kprintf fmt args).
Proof. keeps. Qed.
Lemma keeps_update {A} (as_ : obj → option A) inj a f : keeps_ticks (update as_ inj a f).
Proof. keeps. Qed.
#[export] Hint Resolve keeps_kprintf keeps_update : ticks.

Lemma keeps_first_free_loop n : ∀ i, keeps_ticks (first_free_loop n i).
Proof. keeps_by first_free_loop n. Qed.
Lemma keeps_first_index_loop n : ∀ i, keeps_ticks (first_index_loop n i).
Proof. keeps_by first_index_loop n. Qed.
Lemma keeps_set_range n : ∀ i, keeps_ticks (set_range n i).
Proof. keeps_by set_range n. Qed.
Lemma keeps_free_loop n : ∀ i addr, keeps_ticks (free_loop n i addr).
Proof. keeps_by free_loop n. Qed.
Lemma keeps_find_page_loop n : ∀ i addr, keeps_ticks (find_page_loop n i addr).
Proof. keeps_by find_page_loop n. Qed.
Lemma keeps_count_loop n : ∀ i addr d, keeps_ticks (count_loop n i addr d).
Proof. keeps_by count_loop n. Qed.
#[export] Hint Resolve keeps_first_free_loop keeps_first_index_loop keeps_set_range keeps_free_loop
  keeps_find_page_loop keeps_count_loop : ticks.
Lemma keeps_phys_mem_alloc : keeps_ticks phys_mem_alloc.
Proof. keeps. Qed.
Lemma keeps_phys_mem_free a : keeps_ticks (phys_mem_free a).
Proof. keeps. Qed.
Lemma keeps_increment a : keeps_ticks (increment_reference_count_of_page a).
Proof. keeps. Qed.
Lemma keeps_decrement p : keeps_ticks (decrement_reference_count_of_page p).
Proof. keeps. Qed.
#[export] Hint Resolve keeps_phys_mem_alloc keeps_phys_mem_free keeps_increment keeps_decrement : ticks.

(** ** Page tables *)

Lemma keeps_walk_pml4 r v : keeps_ticks (walk_pml4 r v).
Proof. keeps. Qed.
Lemma keeps_change_flags v r f : keeps_ticks (change_flags_in_parent_page_tables v r f).
Proof. keeps. Qed.
Lemma keeps_map_page v p f r x : keeps_ticks (map_virtual_address_to_physical_address v p f r x).
Proof. keeps. Qed.
#[export] Hint Resolve keeps_walk_pml4 keeps_change_flags keeps_map_page : ticks.
Lemma keeps_copy_entries deeper n : (∀ m a, deeper = Some m → keeps_ticks (m a)) →
  ∀ i src dst, keeps_ticks (copy_entries deeper n i src dst).
Proof. intros Hd. keeps_by copy_entries n. Qed.
#[export] Hint Extern 1 (keeps_ticks (copy_entries _ _ _ _ _)) => apply keeps_copy_entries; keeps : ticks.
Lemma keeps_copy_level1 a : keeps_ticks (copy_level1 a).
Proof. keeps. Qed.
#[export] Hint Resolve keeps_copy_level1 : ticks.
Lemma keeps_copy_level2 a : keeps_ticks (copy_level2 a).
Proof. keeps. Qed.
#[export] Hint Resolve keeps_copy_level2 : ticks.
Lemma keeps_copy_level3 a : keeps_ticks (copy_level3 a).
Proof. keeps. Qed.
#[export] Hint Resolve keeps_copy_level3 : ticks.
Lemma keeps_copy_page_tables a l : keeps_ticks (copy_page_tables a l).
Proof. keeps. Qed.
Lemma keeps_free_entries visit enter n : (∀ a, keeps_ticks (enter a)) →
  ∀ i tbl addr, keeps_ticks (free_entries visit enter n i tbl addr).
Proof. intros He. keeps_by free_entries n. Qed.
#[export] Hint Extern 1 (keeps_ticks (free_entries _ _ _ _ _ _)) => apply keeps_free_entries; keeps : ticks.
Lemma keeps_free_level1 a : keeps_ticks (free_level1 a).
Proof. keeps. Qed.
#[export] Hint Resolve keeps_free_level1 : ticks.
Lemma keeps_free_level2 a : keeps_ticks (free_level2 a).
Proof. keeps. Qed.
#[export] Hint Resolve keeps_free_level2 : ticks.
Lemma keeps_free_page_range l a : keeps_ticks (free_page_range l a).
Proof. keeps. Qed.
#[export] Hint Resolve keeps_copy_page_tables keeps_free_page_range : ticks.

(** ** Queues, lists of processes and the scheduler *)

Lemma keeps_last_node next n : (∀ a, keeps_ticks (next a)) → ∀ p, keeps_ticks (last_node next n p).
Proof. intros Hn. keeps_by last_node n. Qed.
#[export] Hint Extern 1 (keeps_ticks (last_node _ _ _)) => apply keeps_last_node; keeps : ticks.
Lemma keeps_remove_loop n : ∀ q c, keeps_ticks (remove_loop n q c).
Proof. keeps_by remove_loop n. Qed.
Lemma keeps_delete_loop n : ∀ p t x, keeps_ticks (delete_loop n p t x).
Proof. keeps_by delete_loop n. Qed.
Lemma keeps_find_pid_loop n : ∀ a i, keeps_ticks (find_pid_loop n a i).
Proof. keeps_by find_pid_loop n. Qed.
#[export] Hint Resolve keeps_remove_loop keeps_delete_loop keeps_find_pid_loop : ticks.
Lemma keeps_try_to_wake_up q p : keeps_ticks (try_to_wake_up q p).
Proof. keeps. Qed.
Lemma keeps_schedule rsp : keeps_ticks (schedule rsp).
Proof. keeps. Qed.
#[export] Hint Resolve keeps_try_to_wake_up keeps_schedule : ticks.
Lemma keeps_sys_kill pid sig rsp : keeps_ticks (sys_kill pid sig rsp).
Proof. keeps. Qed.
Lemma keeps_sleep_loop n : ∀ p, keeps_ticks (sleep_loop n p).
Proof. keeps_by sleep_loop n. Qed.
#[export] Hint Resolve keeps_sys_kill keeps_sleep_loop : ticks.

(** ** Files and the terminal *)

Lemma keeps_inode_loop l : ∀ name, keeps_ticks (inode_loop l name).
Proof. keeps_by inode_loop l. Qed.
Lemma keeps_cache_loop n : ∀ l name, keeps_ticks (cache_loop n l name).
Proof. keeps_by cache_loop n. Qed.
#[export] Hint Resolve keeps_inode_loop keeps_cache_loop : ticks.
Lemma keeps_dentry_cache_loop n : ∀ l name, keeps_ticks (dentry_cache_loop n l name).
Proof. keeps_by dentry_cache_loop n. Qed.
Lemma keeps_getdents_loop l : ∀ dir size mem k, keeps_ticks (getdents_loop l dir size mem k).
Proof. keeps_by getdents_loop l. Qed.
Lemma keeps_check_loop n : ∀ i, keeps_ticks (check_loop n i).
Proof. keeps_by check_loop n. Qed.
Lemma keeps_copy_loop n : ∀ i acc, keeps_ticks (copy_loop n i acc).
Proof. keeps_by copy_loop n. Qed.
Lemma keeps_put_all l : keeps_ticks (put_all l).
Proof. keeps_by put_all l. Qed.
Lemma keeps_rub_loop n : keeps_ticks (rub_loop n).
Proof. keeps_by rub_loop n. Qed.
Lemma keeps_show_loop n : ∀ i, keeps_ticks (show_loop n i).
Proof. keeps_by show_loop n. Qed.
#[export] Hint Resolve keeps_dentry_cache_loop keeps_getdents_loop keeps_check_loop keeps_copy_loop keeps_put_all
  keeps_rub_loop keeps_show_loop : ticks.
Lemma keeps_keyboard hw : keeps_ticks (i86_keyboard_irq hw).
Proof. keeps. Qed.
Lemma keeps_vfs_close fp : keeps_ticks (vfs_close fp).
Proof. keeps. Qed.
Lemma keeps_vfs_read tar fp size off : keeps_ticks (vfs_read tar fp size off).
Proof. keeps. Qed.
Lemma keeps_sys_write fd buf : keeps_ticks (sys_write fd buf).
Proof. keeps. Qed.
#[export] Hint Resolve keeps_keyboard keeps_vfs_close keeps_vfs_read keeps_sys_write : ticks.
Lemma keeps_sys_close fd : keeps_ticks (sys_close fd).
Proof. keeps. Qed.
Lemma keeps_sys_open junk path flags mode : keeps_ticks (sys_open junk path flags mode).
Proof. keeps. Qed.
Lemma keeps_do_open_exec junk path flags mode : keeps_ticks (do_open_exec junk path flags mode).
Proof. keeps. Qed.
#[export] Hint Resolve keeps_sys_close keeps_sys_open keeps_do_open_exec : ticks.

(** ** Areas and page faults *)

Lemma keeps_find_loop n : ∀ test a, keeps_ticks (find_loop n test a).
Proof. keeps_by find_loop n. Qed.
Lemma keeps_closest_loop n : ∀ x a, keeps_ticks (closest_loop n x a).
Proof. keeps_by closest_loop n. Qed.
Lemma keeps_prev_loop n : ∀ a v, keeps_ticks (prev_loop n a v).
Proof. keeps_by prev_loop n. Qed.
Lemma keeps_remove_vma_loop n : ∀ a v, keeps_ticks (remove_vma_loop n a v).
Proof. keeps_by remove_vma_loop n. Qed.
Lemma keeps_free_vmas_loop n : ∀ a, keeps_ticks (free_vmas_loop n a).
Proof. keeps_by free_vmas_loop n. Qed.
Lemma keeps_first_fit_loop n : ∀ v a l, keeps_ticks (first_fit_loop n v a l).
Proof. keeps_by first_fit_loop n. Qed.
Lemma keeps_expand_loop n : ∀ x y a, keeps_ticks (expand_loop n x y a).
Proof. keeps_by expand_loop n. Qed.
#[export] Hint Resolve keeps_find_loop keeps_closest_loop keeps_prev_loop keeps_remove_vma_loop keeps_free_vmas_loop
  keeps_first_fit_loop keeps_expand_loop : ticks.
Lemma keeps_add_vma mm v : keeps_ticks (add_vma mm v).
Proof. keeps. Qed.
#[export] Hint Resolve keeps_add_vma : ticks.
Lemma keeps_mmap_region j f a fs ms off p : keeps_ticks (mmap_region j f a fs ms off p).
Proof. keeps. Qed.
Lemma keeps_do_stack_vma j mm argv envp : keeps_ticks (do_stack_vma j mm argv envp).
Proof. keeps. Qed.
#[export] Hint Resolve keeps_mmap_region keeps_do_stack_vma : ticks.
Lemma keeps_words_get n : ∀ a, keeps_ticks (words_get n a).
Proof. keeps_by words_get n. Qed.
Lemma keeps_words_set vs : ∀ a, keeps_ticks (words_set a vs).
Proof. keeps_by words_set vs. Qed.
#[export] Hint Resolve keeps_words_get keeps_words_set : ticks.
Lemma keeps_page_fault tar junk cr2 regs err rsp : keeps_ticks (page_fault_handler tar junk cr2 regs err rsp).
Proof. keeps. Qed.

(** ** Processes *)

Lemma keeps_dup_loop n : ∀ mm a l, keeps_ticks (dup_loop n mm a l).
Proof. keeps_by dup_loop n. Qed.
Lemma keeps_page_loop n f : (∀ i, keeps_ticks (f i)) → ∀ i e, keeps_ticks (page_loop n f i e).
Proof. intros Hf. keeps_by page_loop n. Qed.
#[export] Hint Resolve keeps_dup_loop : ticks.
#[export] Hint Extern 1 (keeps_ticks (page_loop _ _ _ _)) => apply keeps_page_loop; keeps : ticks.
Lemma keeps_areas_loop n f : (∀ i, keeps_ticks (f i)) → ∀ a, keeps_ticks (areas_loop n f a).
Proof. intros Hf. keeps_by areas_loop n. Qed.
#[export] Hint Extern 1 (keeps_ticks (areas_loop _ _ _)) => apply keeps_areas_loop; keeps : ticks.
Lemma keeps_skip_children n : ∀ p, keeps_ticks (skip_children n p).
Proof. keeps_by skip_children n. Qed.
Lemma keeps_exit_files_loop n : ∀ c i, keeps_ticks (exit_files_loop n c i).
Proof. keeps_by exit_files_loop n. Qed.
Lemma keeps_reparent_loop n : ∀ a, keeps_ticks (reparent_loop n a).
Proof. keeps_by reparent_loop n. Qed.
Lemma keeps_bury_loop n : ∀ a c, keeps_ticks (bury_loop n a c).
Proof. keeps_by bury_loop n. Qed.
Lemma keeps_wait_pass n : ∀ p c, keeps_ticks (wait_pass n p c).
Proof. keeps_by wait_pass n. Qed.
#[export] Hint Resolve keeps_skip_children keeps_exit_files_loop keeps_reparent_loop keeps_bury_loop keeps_wait_pass : ticks.
Lemma keeps_wait_repeat n : ∀ p r, keeps_ticks (wait_repeat n p r).
Proof. keeps_by wait_repeat n. Qed.
Lemma keeps_list_processes n : ∀ a z m k, keeps_ticks (list_processes n a z m k).
Proof. keeps_by list_processes n. Qed.
Lemma keeps_sys_exit st rsp : keeps_ticks (sys_exit st rsp).
Proof. keeps. Qed.
#[export] Hint Resolve keeps_page_fault keeps_wait_repeat keeps_list_processes keeps_sys_exit : ticks.
Lemma keeps_do_fork rff cf st sz : keeps_ticks (do_fork rff cf st sz).
Proof. keeps. Qed.
Lemma keeps_segments_loop junk n : ∀ i f p, keeps_ticks (segments_loop junk n i f p).
Proof. keeps_by segments_loop n. Qed.
#[export] Hint Resolve keeps_do_fork keeps_segments_loop : ticks.
Lemma keeps_sys_execve tar junk vjunk name argv envp : keeps_ticks (sys_execve tar junk vjunk name argv envp).
Proof. keeps. Qed.
Lemma keeps_timer hw rsp : keeps_ticks (i86_pit_irq hw rsp).
Proof. keeps. Qed.
#[export] Hint Resolve keeps_sys_execve keeps_timer : ticks.

(** ** The rest of the system *)

(** What can run between two reads of the counter: nothing, an interrupt, a
    page fault, and the system calls of the other processes, with the
    arguments that decide what they do.  Another sleeper only reads. *)
Inductive activity : Type :=
| Idle
| Timer (rsp : Z)
| Keyboard_
| Fault (cr2 regs error_code rsp : Z)
| Read (fd count : Z)
| Write (fd : Z) (buf : list Z)
| Fork
| Execve (filename : list Z) (argv envp : option (list (list Z)))
| Wait (n : nat) (rsp : Z)
| Exit (status rsp : Z)
| Open (pathname : option (list Z)) (flags mode : Z)
| Close (fd : Z)
| Getdents (fd : Z) (mem : list Z) (size : Z)
| Getprocs (buf size : Z) (mem : list Z)
| Mmap (addr len prot flags fd off : Z)
| Kill (pid sig rsp : Z)
| Munmap (addr size : Z).

Section system.
Context (hw : hardware) (ret_from_fork : Z) (tar junk : list Z) (vjunk : vm_map_entry).

Definition run (a : activity) : M kst unit :=
  match a with
  | Idle => mret tt
  | Timer rsp => i86_pit_irq hw rsp;; mret tt
  | Keyboard_ => i86_keyboard_irq hw
  | Fault cr2 regs error_code rsp => page_fault_handler tar junk cr2 regs error_code rsp
  | Read fd count => sys_read tar fd count;; mret tt
  | Write fd buf => sys_write fd buf;; mret tt
  | Fork => sys_fork ret_from_fork;; mret tt
  | Execve filename argv envp => sys_execve tar junk vjunk filename argv envp;; mret tt
  | Wait n rsp => sys_wait n rsp;; mret tt
  | Exit status rsp => sys_exit status rsp;; mret tt
  | Open pathname flags mode => sys_open junk pathname flags mode;; mret tt
  | Close fd => sys_close fd;; mret tt
  | Getdents fd mem size => sys_getdents fd mem size;; mret tt
  | Getprocs buf size mem => sys_getprocs64 buf size mem;; mret tt
  | Mmap addr len prot flags fd off => sys_mmap vjunk addr len prot flags fd off;; mret tt
  | Kill pid sig rsp => sys_kill pid sig rsp;; mret tt
  | Munmap addr size => sys_munmap addr size;; mret tt
  end.
Lemma keeps_run a : keeps_ticks (run a).
Proof. destruct a; cbn [run]; keeps. Qed.
Fixpoint run_all (l : list activity) : M kst unit :=
  match l with [] => mret tt | a :: l' => run a;; run_all l' end.
Lemma keeps_run_all l : keeps_ticks (run_all l).
Proof. induction l; cbn [run_all]; [apply keeps_ret|]. apply keeps_bind; [apply keeps_run|done]. Qed.

(** With actions that leave the counter alone the loop does not end. *)
Lemma spin_forever others t s : Forall keeps_ticks others → u32 (k_ticks s) < t → ∀ r, spin others t s ≠ Ok r.
Proof.
  intros Ho. revert s. induction Ho as [|m l Hm _ IH]; intros s Ht r; cbn [spin]; mnorm;
    rewrite (proj2 (Z.ltb_lt _ _) Ht); [done|].
  destruct r as [[] s']. intros (u & s1 & E1 & E2)%bind_inv. apply (IH s1) in E2; [done|]. by rewrite (Hm _ _ _ E1).
Qed.

(** A timer handler that counts. *)
Definition counting_timer : M kst unit := modify (λ s, set_k_ticks (i32 (k_ticks s + 1)) s).
Lemma spin_counts n : ∀ t s, 0 ≤ k_ticks s → t = k_ticks s + Z.of_nat n → t < 2 ^ 31 →
  spin (replicate n counting_timer) t s = Ok (tt, set_k_ticks t s).
Proof.
  induction n as [|n IH]; intros t s H0 Ht Hb; cbn [spin replicate]; mnorm; rewrite u32_small by lia.
  - rewrite (proj2 (Z.ltb_ge _ _)) by lia. replace t with (k_ticks s) by lia. by destruct s.
  - rewrite (proj2 (Z.ltb_lt _ _)) by lia. change ((counting_timer ≫= λ _, ?m) s)
      with (m (set_k_ticks (i32 (k_ticks s + 1)) s)).
    rewrite (i32_small (k_ticks s + 1)), IH; [done|cbn; lia..].
Qed.

(** After the message of the call. *)
Definition sleep_done (s : kst) : kst := upd_con (kputs_con (k_is_paging s) (bytes_of_string (line "sleep done"))) s.
Lemma say_done s : kprintf (line "sleep done") [] s = Ok (tt, sleep_done s).
Proof. unfold sleep_done. apply kprintf_plain. vm_compute. reflexivity. Qed.

(** C37: the sleep system call does not time out.  From any state in which the
    counter still has its initial value 0, whatever the system does before and
    during the call (interrupts, page faults, system calls of the other
    processes, in any order and number), a call whose milliseconds are not 0
    modulo 2^32 never returns; one whose milliseconds are returns at its first
    look at the counter.  The missing count is the only reason: with a timer
    that counted, a sleep of up to 2^31 milliseconds would return after one
    interrupt per millisecond. *)
Theorem sleep_never_returns seconds s0 before during s : 0 ≤ seconds < 2 ^ 32 →
  k_ticks s0 = 0 → run_all before s0 = Ok (tt, s) →
  ((seconds * 1000) mod 2 ^ 32 ≠ 0 → ∀ r, sys_sleep (map run during) seconds s ≠ Ok r)
  ∧ ((seconds * 1000) mod 2 ^ 32 = 0 → ∀ others, sys_sleep others seconds s = Ok (tt, sleep_done s))
  ∧ (seconds * 1000 < 2 ^ 31 →
      sys_sleep (replicate (Z.to_nat (seconds * 1000)) counting_timer) seconds s
      = Ok (tt, sleep_done (set_k_ticks (seconds * 1000) s))).
Proof.
  intros Hs H0 Hb. assert (Ht : k_ticks s = 0) by (by rewrite (keeps_run_all _ _ _ _ Hb)).
  pose proof (Z.mod_pos_bound (seconds * 1000) (2 ^ 32) ltac:(lia)) as Hm.
  assert (E : u32 (0 + u64 (seconds * 1000)) = (seconds * 1000) mod 2 ^ 32) by (rewrite u64_small by lia; done).
  unfold sys_sleep. split_and!; intros H.
  - intros [[] s']. mnorm. rewrite Ht, E. intros (u & s1 & E1 & _)%bind_inv. revert E1. apply spin_forever.
    + apply Forall_fmap, Forall_true, keeps_run.
    + rewrite Ht. change (u32 0) with 0. lia.
  - intros others. mnorm. rewrite Ht, E, H. erewrite (bind_ok _ _ _ tt s) by (destruct others; cbn [spin]; mnorm; by rewrite Ht).
    apply say_done.
  - mnorm. rewrite Ht, E, Z.mod_small by lia.
    erewrite bind_ok by (apply spin_counts; rewrite ?Ht; lia). apply say_done.
Qed.
End system.

(** Two timer interrupts and one of the keyboard before a sleep of five
    seconds, during which the timer goes on. *)
Definition tick_pcb : pcb := set_p_time_slice 5 (set_p_pid 1 zero_pcb).
Definition tick_machine : kst :=
  upd_heap (λ _, {[kv 0x100000 := OPcb tick_pcb]}) (upd_proc (set_current (kv 0x100000)) blank_kst).
Lemma sleep_never_returns_witness :
  (∃ s, run_all (λ _ _, 0) 0 [] [] (Vma 0 0 0 0 0 0 0 0 0 None) [Timer 0; Keyboard_; Timer 0] tick_machine = Ok (tt, s)
    ∧ ∀ n r, sys_sleep (map (run (λ _ _, 0) 0 [] [] (Vma 0 0 0 0 0 0 0 0 0 None)) (replicate n (Timer 0))) 5 s ≠ Ok r).
Proof.
  eexists. split; [vm_compute; reflexivity|]. intros n.
  eapply (sleep_never_returns _ _ _ _ _ 5 tick_machine [Timer 0; Keyboard_; Timer 0]).
  - lia.
  - reflexivity.
  - vm_compute. reflexivity.
  - vm_compute. discriminate.
Defined.
