(* ===== verification/Libc.v ===== *)
(** * The C library of user programs (libc, crt)

    Strings, number conversion, formatted output, the environment, buffered
    input, path search and the numbers of the system calls.  A C string is a
    buffer of bytes, a pointer into it a suffix or an offset; [None] is a read
    or write outside the buffer.  The system calls a routine makes are
    arguments: the results of [read] are a list of chunks, the output of
    [write] is a result. *)

From S2P Require Export Boot.

(** ** Strings *)

Fixpoint strlen (s : list Z) : option Z :=
  match s with
  | [] => None
  | c :: s' => if c =? 0 then Some 0 else n ← strlen s'; Some (n + 1)
  end.

(** Characters are signed. *)
Fixpoint strcmp (cs ct : list Z) : option Z :=
  match cs, ct with
  | a :: cs', b :: ct' =>
      if negb (a =? 0) then
        if b =? 0 then Some 1
        else if i8 a <? i8 b then Some (-1)
        else if i8 b <? i8 a then Some 1
        else strcmp cs' ct'
      else if negb (b =? 0) then Some (-1) else Some 0
  | _, _ => None
  end.

(** [n] is what is left of the limit. *)
Fixpoint strncmp (cs ct : list Z) (n : nat) : option Z :=
  match cs with
  | [] => None
  | a :: cs' =>
      match n with
      | S n' =>
          if negb (a =? 0) then
            match ct with
            | [] => None
            | b :: ct' =>
                if b =? 0 then Some 1
                else if i8 a <? i8 b then Some (-1)
                else if i8 b <? i8 a then Some 1
                else strncmp cs' ct' n'
            end
          else match ct with [] => None | b :: _ => if negb (b =? 0) then Some (-1) else Some 0 end
      | O => match ct with
             | [] => None
             | b :: _ => if negb (b =? 0) then (if a =? 0 then Some (-1) else Some 0) else Some 0
             end
      end
  end.

(** The same text as [my_strchr] and [my_strtok] of the kernel. *)
Definition strchr (cs : list Z) (c : Z) : option (option Z) := my_strchr cs c.
Definition strtok (s : option (list Z)) (ct : list Z) (st : strtok_state) : option (option nat * strtok_state) :=
  my_strtok s ct st.

(** The destination after the call: the terminator is not copied. *)
Fixpoint strcpy (dst src : list Z) : option (list Z) :=
  match src with
  | [] => None
  | c :: src' =>
      if c =? 0 then Some dst
      else match dst with [] => None | _ :: dst' => r ← strcpy dst' src'; Some (c :: r) end
  end.
Definition memcpy (dest src : list Z) (n : Z) : option (list Z) :=
  let n := Z.to_nat n in
  if (n <=? length dest)%nat && (n <=? length src)%nat then Some (take n src ++ drop n dest) else None.

(** ** Numbers *)

Definition isdigit (c : Z) : Z := if (0 <=? c - chr "0") && (c - chr "0" <=? 9) then 1 else 0.
Fixpoint atoi_loop (nptr : list Z) (value : Z) : option Z :=
  match nptr with
  | [] => None
  | c :: nptr' => if c =? 0 then Some value else atoi_loop nptr' (i32 (i32 (value * 10) + (i8 c - chr "0")))
  end.
Definition atoi (nptr : option (list Z)) : option Z :=
  match nptr with None => Some 0 | Some b => atoi_loop b 0 end.

(** ** Formatted output *)

Inductive varg : Type := VStr (s : list Z) | VInt (z : Z).

(** The characters one conversion stores and the arguments left; an unknown
    conversion stores nothing. *)
Definition conversion (c : Z) (args : list varg) : option (list Z * list varg) :=
  if c =? chr "s" then
    match args with VStr s :: args' => b ← cstring s; Some (b, args') | _ => None end
  else if c =? chr "d" then
    match args with
    | VInt z :: args' =>
        let a := i32 z in Some (convert_to_base (if a <? 0 then i32 (- a) else a) 10, args')
    | _ => None
    end
  else if c =? chr "c" then
    match args with VInt z :: args' => Some ([u8 z], args') | _ => None end
  else if (c =? chr "x") || (c =? chr "p") then
    match args with VInt z :: args' => Some (convert_to_base (i32 z) 16, args') | _ => None end
  else if c =? chr "o" then
    match args with VInt z :: args' => Some (convert_to_base (i32 z) 8, args') | _ => None end
  else Some ([], args).
(** [str] without its terminator, from [j] on. *)
Fixpoint format_loop (str : list Z) (args : list varg) : option (list Z) :=
  match str with
  | [] => Some []
  | c :: str' =>
      if negb (c =? chr "%") then r ← format_loop str' args; Some (c :: r)
      else match str' with
           | [] => Some []
           | d :: str'' => '(o, args') ← conversion d args; r ← format_loop str'' args'; Some (o ++ r)
           end
  end.
(** The bytes at the start of the buffer and the number returned; the size is
    not tested, so a longer text leaves the buffer. *)
Definition vprintf (size : nat) (fmt : list Z) (args : list varg) : option (list Z * Z) :=
  str ← cstring fmt;
  match str with
  | [] => Some ([0], 1)
  | _ => out ← format_loop str args;
         if (length out <? size)%nat then Some (out ++ [0], Z.of_nat (length out)) else None
  end.
(** What is written to the terminal. *)
Definition printf (fmt : list Z) (args : list varg) : option (list Z) :=
  '(buf, n) ← vprintf 128 fmt args; Some (take (Z.to_nat n) buf).

(** [write] returns the count it was given. *)
Fixpoint puts (s : list Z) : option (list Z) :=
  match s with
  | [] => None
  | c :: s' => if c =? 0 then Some [10] else r ← puts s'; Some (c :: r)
  end.

(** ** The environment

    [environ] is an array of pointers that ends with NULL, here [None]. *)

(** [for(envname = name; *envname && *envname != '='; ++envname)] *)
Fixpoint name_length (name : list Z) : option nat :=
  match name with
  | [] => None
  | c :: name' => if (c =? 0) || (c =? chr "=") then Some 0%nat else n ← name_length name'; Some (S n)
  end.
(** The index of the first string for the name. *)
Fixpoint env_loop (environ : list (option (list Z))) (name : list Z) (len i : nat) : option (option nat) :=
  match environ with
  | [] => None
  | None :: _ => Some None
  | Some c :: environ' =>
      x ← c !! len;
      if x =? chr "=" then
        r ← strncmp c name len;
        if r =? 0 then Some (Some i) else env_loop environ' name len (S i)
      else env_loop environ' name len (S i)
  end.
Definition getenv_at (name : list Z) (environ : list (option (list Z))) : option (option nat) :=
  len ← name_length name; env_loop environ name len 0.
(** The value; [Some None] is NULL. *)
Definition getenv (name : list Z) (environ : list (option (list Z))) : option (option (list Z)) :=
  len ← name_length name;
  r ← env_loop environ name len 0;
  match r with
  | None => Some None
  | Some i => match environ !! i with Some (Some c) => Some (Some (drop (S len) c)) | _ => None end
  end.

(** [junk] is what [malloc] returns: at least the bytes asked for. *)
Definition env_string (junk name value : list Z) : option (list Z) :=
  n ← strlen name;
  v ← strlen value;
  b ← memcpy junk name n;
  let n := Z.to_nat n in let v := Z.to_nat v in
  if (n + v + 2 <=? length b)%nat
  then Some (take n b ++ [chr "="] ++ take v value ++ [0] ++ drop (n + v + 2) b) else None.
Definition put_env (environ : list (option (list Z))) (i : nat) (e : option (list Z)) : option (list (option (list Z))) :=
  if (i <? length environ)%nat then Some (<[i := e]> environ) else None.
(** The returned value and the array; [sizeof(environ)/sizeof(environ[0])] is
    1. *)
Definition setenv (junk name value : list Z) (overwrite : Z) (environ : list (option (list Z)))
    : option (Z * list (option (list Z))) :=
  q ← strchr name (chr "=");
  match q with
  | None => Some (-1, environ)
  | Some _ =>
      old ← getenv name environ;
      if bool_decide (old ≠ None) && (overwrite =? 0) then Some (0, environ) else
      envstr ← env_string junk name value;
      at_ ← getenv_at name environ;
      match at_ with
      | Some i => e ← put_env environ i (Some envstr); Some (0, e)
      | None => e ← put_env environ 1 (Some envstr); e ← put_env e 2 None; Some (0, e)
      end
  end.

(** ** Buffered input *)

Definition EOF : Z := -1.
(** The static variables of [getchar] and what the next calls of [read]
    return; [read] at the end of the input returns 0. *)
Record instream : Type := Instream { in_buf : list Z; in_n : Z; in_reads : list (list Z) }.
Definition refill (st : instream) : instream :=
  match in_reads st with
  | [] => Instream [] 0 []
  | b :: bs => Instream b (Z.of_nat (length b)) bs
  end.
Definition getchar (st : instream) : option (Z * instream) :=
  let st := if in_n st =? 0 then refill st else st in
  let n := i32 (in_n st - 1) in
  if 0 <=? n then
    match in_buf st with
    | [] => None
    | c :: b => Some (u8 c, Instream b n (in_reads st))
    end
  else Some (EOF, Instream (in_buf st) n (in_reads st)).
(** The same for [getc], whose static buffer serves every file. *)
Definition getc (st : instream) : option (Z * instream) := getchar st.

(** The line without its end, and the characters echoed; [None] in the first
    component is NULL.  [n] bounds the line. *)
Fixpoint fgets_loop (n : nat) (st : instream) (line echo : list Z) : option (option (list Z) * list Z * instream) :=
  match n with
  | O => Some (Some line, echo, st)
  | S n' =>
      '(c, st') ← getc st;
      let echo := echo ++ [u8 c] in
      if i8 c =? EOF then
        match line with [] => Some (None, echo, st') | _ => Some (Some line, echo, st') end
      else if c =? 10 then Some (Some line, echo, st')
      else fgets_loop n' st' (line ++ [c]) echo
  end.
Definition fgets (n : Z) (st : instream) : option (option (list Z) * list Z * instream) :=
  fgets_loop (Z.to_nat n) st [] [].

(** ** Programs and directories *)

(** The path of the second [execve]: the first entry of the search path, a
    slash and the file; the terminator goes one byte past the array. *)
Definition search_path (pre file : list Z) : option (list Z) :=
  p ← cstring pre; f ← cstring file; Some (p ++ [chr "/"] ++ f).

(** ** System call numbers *)

(** The number each stub passes in [rax]. *)
Definition read_no : Z := 0.
Definition write_no : Z := 1.
Definition fork_no : Z := 2.
Definition execve_no : Z := 3.
Definition wait_no : Z := 4.
Definition exit_no : Z := 5.
Definition open_no : Z := 6.
Definition close_no : Z := 7.
Definition getdents_no : Z := 8.
Definition getprocs64_no : Z := 9.
Definition mmap_no : Z := 10.
Definition sleep_no : Z := 11.
Definition kill_no : Z := 12.
Definition my_munmap_no : Z := 13.
Definition chdir_no : Z := 80.
Definition dup2_no : Z := 33.
Definition pipe_no : Z := 22.
Definition wait4_no : Z := 61.
Definition stubs : list (syscall * Z) :=
  [(SYS_read, read_no); (SYS_write, write_no); (SYS_fork, fork_no); (SYS_execve, execve_no); (SYS_wait, wait_no);
   (SYS_exit, exit_no); (SYS_open, open_no); (SYS_close, close_no); (SYS_getdents, getdents_no);
   (SYS_getprocs64, getprocs64_no); (SYS_mmap, mmap_no); (SYS_sleep, sleep_no); (SYS_kill, kill_no); (SYS_munmap, my_munmap_no)].
Definition foreign_stubs : list Z := [chdir_no; dup2_no; pipe_no; wait4_no].

(** ** Comparing strings *)

Lemma strlen_ok l b : no_nul l → strlen (l ++ 0 :: b) = Some (Z.of_nat (length l)).
Proof.
  induction 1 as [|c l Hc Hl IH]; [done|]. cbn [strlen app]. rewrite (proj2 (Z.eqb_neq c 0) Hc), IH. cbn. f_equal. lia.
Qed.
Lemma i8_inj a b : is_char a → is_char b → i8 a = i8 b → a = b.
Proof.
  unfold is_char, i8, signed. intros Ha Hb. rewrite !Z.mod_small by lia. change (2 ^ (8 - 1)) with 128. change (2 ^ 8) with 256.
  destruct (Z.ltb_spec a 128), (Z.ltb_spec b 128); lia.
Qed.
Lemma char_not_nul a : is_char a → (a =? 0) = false.
Proof. intros H. apply Z.eqb_neq. unfold is_char in H. lia. Qed.

(** The comparison is an order: for all strings it returns -1, 0 or 1, with 0
    exactly for equal strings, and exchanging the arguments changes the sign. *)
Theorem strcmp_compares a : ∀ b ra rb, Forall is_char a → Forall is_char b →
  ∃ r, strcmp (a ++ 0 :: ra) (b ++ 0 :: rb) = Some r ∧ strcmp (b ++ 0 :: rb) (a ++ 0 :: ra) = Some (- r)
    ∧ r ∈ [-1; 0; 1] ∧ (r = 0 ↔ a = b).
Proof.
  induction a as [|x a IH]; intros [|y b] ra rb Ha Hb; cbn [strcmp app].
  - exists 0. split_and!; [done|done|set_solver|done].
  - apply Forall_cons in Hb as [Hy _]. rewrite (char_not_nul y Hy). exists (-1). split_and!; [done|done|set_solver|done].
  - apply Forall_cons in Ha as [Hx _]. rewrite (char_not_nul x Hx). exists 1. split_and!; [done|done|set_solver|done].
  - apply Forall_cons in Ha as [Hx Ha]. apply Forall_cons in Hb as [Hy Hb]. rewrite (char_not_nul x Hx), (char_not_nul y Hy). cbn [negb].
    destruct (Z.ltb_spec (i8 x) (i8 y)) as [H1|H1].
    + rewrite (proj2 (Z.ltb_ge (i8 y) (i8 x))) by lia. exists (-1). split_and!; [done|done|set_solver|].
      split; [done|]. intros [= -> _]. lia.
    + destruct (Z.ltb_spec (i8 y) (i8 x)) as [H2|H2].
      * exists 1. split_and!; [done|done|set_solver|]. split; [done|]. intros [= -> _]. lia.
      * destruct (IH b ra rb Ha Hb) as (r & E1 & E2 & Hr & Hiff). exists r. split_and!; [done|done|done|].
        rewrite Hiff. split; [intros ->|by intros [= _ ->]]. f_equal. apply i8_inj; [done|done|lia].
Qed.

(** ** Printing and reading numbers *)

Lemma decimal_value c : decimal c → digit_value c = c - 48 ∧ i8 c = c ∧ (c =? 0) = false.
Proof.
  unfold decimal, digit_value. change (chr "0") with 48. change (chr "9") with 57. intros H.
  rewrite (proj2 (Z.leb_le c 57)) by lia. split; [done|]. split; [|apply Z.eqb_neq; lia].
  unfold i8, signed. rewrite Z.mod_small by lia. change (2 ^ (8 - 1)) with 128. by rewrite (proj2 (Z.ltb_lt c 128)) by lia.
Qed.
Lemma digits_grow cs : ∀ v, Forall decimal cs → 0 ≤ v → v ≤ fold_left (λ n c, n * 10 + digit_value c) cs v.
Proof.
  induction cs as [|c cs IH]; intros v Hc Hv; cbn [fold_left]; [lia|]. apply Forall_cons in Hc as [Hc Hcs].
  destruct (decimal_value c Hc) as (E & _ & _). unfold decimal in Hc. change (chr "0") with 48 in Hc.
  etransitivity; [|apply IH; [done|]]; rewrite E; lia.
Qed.
Lemma atoi_digits cs : ∀ v r, Forall decimal cs → 0 ≤ v → fold_left (λ n c, n * 10 + digit_value c) cs v < 2 ^ 31 →
  atoi_loop (cs ++ 0 :: r) v = Some (fold_left (λ n c, n * 10 + digit_value c) cs v).
Proof.
  induction cs as [|c cs IH]; intros v r Hc Hv Hlt; cbn [atoi_loop app fold_left] in *; [done|].
  apply Forall_cons in Hc as [Hc Hcs]. destruct (decimal_value c Hc) as (E & E8 & Ez). rewrite Ez, E8. change (chr "0") with 48.
  assert (0 ≤ digit_value c ≤ 9) by (rewrite E; unfold decimal in Hc; change (chr "0") with 48 in Hc; change (chr "9") with 57 in Hc; lia).
  pose proof (digits_grow cs (v * 10 + digit_value c) Hcs ltac:(lia)) as Hg. rewrite <- E.
  rewrite (i32_small (v * 10)), (i32_small (v * 10 + digit_value c)) by lia. by apply IH; [|lia|].
Qed.

Lemma dec_abs z : - 2 ^ 31 < z < 2 ^ 31 → (if i32 z <? 0 then i32 (- i32 z) else i32 z) = Z.abs z.
Proof. intros Hz. rewrite i32_small by lia. destruct (Z.ltb_spec z 0); [rewrite i32_small by lia; lia|lia]. Qed.
(** The sign is lost: what [printf] writes for [%d], read back by [atoi], is
    the absolute value of the number, for every [int] but the smallest; for a
    number that is not negative the two are inverse. *)
Theorem printf_atoi z : - 2 ^ 31 < z < 2 ^ 31 →
  ∃ out, printf (bytes_of_string "%d" ++ [0]) [VInt z] = Some out ∧ Forall decimal out ∧ atoi (Some (out ++ [0])) = Some (Z.abs z).
Proof.
  intros Hz. set (a := if i32 z <? 0 then i32 (- i32 z) else i32 z).
  assert (Ha : a = Z.abs z) by (by apply dec_abs).
  pose proof (convert_to_base_value a 10 ltac:(lia)) as [Hv [_ Hl]].
  exists (convert_to_base a 10). split; [|split; [apply convert_decimal|]].
  - unfold printf, vprintf. change (cstring (bytes_of_string "%d" ++ [0])) with (Some (bytes_of_string "%d")).
    cbn [mbind option_bind bytes_of_string]. change (format_loop (bytes_of_string "%d") [VInt z]) with (Some (convert_to_base a 10 ++ [])).
    rewrite app_nil_r. cbn [mbind option_bind]. rewrite (proj2 (Nat.ltb_lt _ 128)) by lia. cbn [mbind option_bind].
    change (bytes_of_string "%d") with [37; 100]. cbn [mbind option_bind]. by rewrite Nat2Z.id, take_app_length.
  - assert (E : read_base 10 (convert_to_base a 10) = Z.abs z) by (rewrite Hv, u32_small by lia; done).
    unfold atoi. rewrite atoi_digits; [unfold read_base in E; by rewrite E|apply convert_decimal|lia|].
    unfold read_base in E. rewrite E. lia.
Qed.
Lemma printf_atoi_witness : ∃ out, printf (bytes_of_string "%d" ++ [0]) [VInt (-42)] = Some out ∧ atoi (Some (out ++ [0])) = Some 42.
Proof.
  destruct (printf_atoi (-42) ltac:(lia)) as (out & E & _ & H). exists out. exact (conj E H).
Defined.

(** ** Formats *)

(** A format as a sequence of literal characters and conversions, each with
    its argument. *)
Inductive piece : Type :=
| Lit (c : Z)
| Str (b : list Z) | Dec (z : Z) | Chr (z : Z) | Hex (z : Z) | Ptr (z : Z) | Oct (z : Z).
Definition piece_format (p : piece) : list Z :=
  match p with
  | Lit c => [c] | Str _ => [chr "%"; chr "s"] | Dec _ => [chr "%"; chr "d"] | Chr _ => [chr "%"; chr "c"]
  | Hex _ => [chr "%"; chr "x"] | Ptr _ => [chr "%"; chr "p"] | Oct _ => [chr "%"; chr "o"]
  end.
Definition piece_arg (p : piece) : list varg :=
  match p with Lit _ => [] | Str b => [VStr (b ++ [0])] | Dec z | Chr z | Hex z | Ptr z | Oct z => [VInt z] end.
(** The text of a piece: for [%d] the absolute value in decimal. *)
Definition piece_text (p : piece) : list Z :=
  match p with
  | Lit c => [c] | Str b => b | Dec z => convert_to_base (Z.abs z) 10 | Chr z => [z]
  | Hex z | Ptr z => convert_to_base z 16 | Oct z => convert_to_base z 8
  end.
Definition piece_ok (p : piece) : Prop :=
  match p with
  | Lit c => is_char c ∧ c ≠ chr "%" | Str b => no_nul b | Dec z => - 2 ^ 31 < z < 2 ^ 31 | Chr z => is_char z
  | Hex z | Ptr z | Oct z => 0 ≤ z < 2 ^ 31
  end.

Lemma conversion_ok p args : piece_ok p → (∀ c, p ≠ Lit c) →
  ∃ d, piece_format p = [chr "%"; d] ∧ conversion d (piece_arg p ++ args) = Some (piece_text p, args).
Proof.
  intros Hp Hl. destruct p as [c|b|z|z|z|z|z]; [by destruct (Hl c)|..]; eexists; (split; [reflexivity|]); cbn in Hp; cbn [piece_arg app piece_text];
    unfold conversion; cbn -[cstring convert_to_base i32 u8].
  - change (b ++ [0]) with (b ++ 0 :: []). by rewrite cstring_app.
  - by rewrite dec_abs.
  - unfold u8. rewrite Z.mod_small by (unfold is_char in Hp; lia). done.
  - by rewrite i32_small by lia.
  - by rewrite i32_small by lia.
  - by rewrite i32_small by lia.
Qed.
Lemma mjoin_cons {A} (x : list A) (xs : list (list A)) : mjoin (x :: xs) = x ++ mjoin xs.
Proof. done. Qed.
Lemma format_pieces ps : Forall piece_ok ps →
  format_loop (mjoin (piece_format <$> ps)) (mjoin (piece_arg <$> ps)) = Some (mjoin (piece_text <$> ps)).
Proof.
  induction 1 as [|p ps Hp _ IH]; [done|]. rewrite !fmap_cons, !mjoin_cons.
  assert ((∃ c, p = Lit c) ∨ ∀ c, p ≠ Lit c) as [[c ->]|Hn] by (destruct p; [left; by eexists|by right..]).
  - destruct Hp as [_ Hc]. cbn [piece_format piece_arg piece_text app format_loop]. rewrite (proj2 (Z.eqb_neq c _) Hc). cbn [negb].
    by rewrite IH.
  - destruct (conversion_ok p (mjoin (piece_arg <$> ps)) Hp) as (d & Ef & Ec); [done|].
    rewrite Ef. cbn [app format_loop]. rewrite (Z.eqb_refl (chr "%")). cbn [negb]. rewrite Ec. cbn [mbind option_bind].
    by rewrite IH.
Qed.

(** The text of a format is the concatenation of the texts of its pieces: for
    every format of literal characters and conversions with matching arguments
    whose text fits the 128-byte buffer, [printf] writes exactly that text. *)
Theorem printf_writes ps : ps ≠ [] → Forall piece_ok ps → (length (mjoin (piece_text <$> ps)) < 128)%nat →
  printf (mjoin (piece_format <$> ps) ++ [0]) (mjoin (piece_arg <$> ps)) = Some (mjoin (piece_text <$> ps)).
Proof.
  intros Hne Hok Hlen.
  assert (Hnn : no_nul (mjoin (piece_format <$> ps))).
  { clear Hne Hlen. induction Hok as [|p ps Hp _ IH]; [constructor|]. rewrite fmap_cons, mjoin_cons. apply Forall_app. split; [|done].
    destruct p; repeat constructor; try done. destruct Hp as [Hp _]. unfold is_char in Hp. lia. }
  unfold printf, vprintf. change (?l ++ [0]) with (l ++ 0 :: []). rewrite cstring_app by done. cbn [mbind option_bind].
  destruct (mjoin (piece_format <$> ps)) as [|x l] eqn:E.
  { destruct ps as [|p ps]; [done|]. rewrite fmap_cons, mjoin_cons in E. by destruct p. }
  rewrite <- E, format_pieces by done. cbn [mbind option_bind]. rewrite (proj2 (Nat.ltb_lt _ 128)) by done. cbn [mbind option_bind].
  by rewrite Nat2Z.id, take_app_length.
Qed.
Lemma printf_writes_witness :
  printf (bytes_of_string "pid %d: %s" ++ [0]) [VInt 7; VStr (bytes_of_string "sh" ++ [0])] = Some (bytes_of_string "pid 7: sh").
Proof.
  refine (printf_writes [Lit (chr "p"); Lit (chr "i"); Lit (chr "d"); Lit (chr " "); Dec 7; Lit (chr ":"); Lit (chr " ");
    Str (bytes_of_string "sh")] _ _ _).
  - discriminate.
  - repeat constructor; vm_compute; try done; discriminate.
  - apply Nat.ltb_lt. reflexivity.
Defined.

(** ** The environment *)

(** A string [name=value] and what follows it in memory. *)
Record env_entry : Type := EnvEntry { en_name : list Z; en_value : list Z; en_rest : list Z }.
Definition env_buffer (e : env_entry) : list Z := en_name e ++ chr "=" :: en_value e ++ 0 :: en_rest e.
Definition env_name (n : list Z) : Prop := Forall (λ c, is_char c ∧ c ≠ chr "=") n.
(** Names and values are characters, and the byte at offset [len] can be
    read. *)
Record env_ok (len : nat) (e : env_entry) : Prop := {
  eo_name : env_name (en_name e);
  eo_bytes : Forall (λ c, 0 ≤ c < 256) (env_buffer e);
  eo_read : (len < length (env_buffer e))%nat
}.

Lemma name_length_ok name r : env_name name → name_length (name ++ 0 :: r) = Some (length name).
Proof.
  induction 1 as [|c n [Hc Hq] _ IH]; [done|]. cbn [name_length app length]. rewrite (char_not_nul c Hc), (proj2 (Z.eqb_neq c _) Hq), IH. done.
Qed.
Lemma strncmp_prefix name r : ∀ c, Forall is_char name → Forall (λ x, 0 ≤ x < 256) c → (length name < length c)%nat →
  ∃ v, strncmp c (name ++ 0 :: r) (length name) = Some v ∧ (v = 0 ↔ take (length name) c = name).
Proof.
  induction name as [|y name IH]; intros [|x c] Hn Hc Hl; cbn [length] in Hl; try lia; cbn [strncmp app length take].
  - by exists 0.
  - apply Forall_cons in Hn as [Hy Hn]. apply Forall_cons in Hc as [Hx Hc]. rewrite (char_not_nul y Hy).
    destruct (Z.eqb_spec x 0) as [->|Hx0]; cbn [negb].
    { exists (-1). split; [done|]. split; [done|]. intros [= <- _]. unfold is_char in Hy. lia. }
    assert (Hx' : is_char x) by (unfold is_char; lia).
    destruct (Z.ltb_spec (i8 x) (i8 y)); [exists (-1); split; [done|]; split; [done|]; intros [= -> _]; lia|].
    destruct (Z.ltb_spec (i8 y) (i8 x)); [exists 1; split; [done|]; split; [done|]; intros [= -> _]; lia|].
    destruct (IH c Hn Hc ltac:(lia)) as (v & E & Hv). exists v. split; [done|]. rewrite Hv.
    split; [intros ->|by intros [= _ ->]]. f_equal. apply i8_inj; [done|done|lia].
Qed.
(** The two tests on a string hold exactly for the string of the name. *)
Lemma env_match name e : env_name name → env_ok (length name) e →
  (env_buffer e !! length name = Some (chr "=") ∧ take (length name) (env_buffer e) = name) ↔ en_name e = name.
Proof.
  intros Hn [He _ _]. unfold env_buffer. split; [|intros ->; split; [by rewrite list_lookup_middle|by rewrite take_app_length]].
  intros [H1 H2]. destruct (Nat.lt_trichotomy (length name) (length (en_name e))) as [Hlt|[Heq|Hgt]].
  - rewrite lookup_app_l in H1 by done. by destruct (proj1 (Forall_lookup _ _) He _ _ H1).
  - by rewrite Heq, take_app_length in H2.
  - assert (Hq : take (length name) (en_name e ++ chr "=" :: en_value e ++ 0 :: en_rest e) !! length (en_name e) = Some (chr "=")).
    { rewrite lookup_take_lt by done. by rewrite list_lookup_middle. }
    rewrite H2 in Hq. by destruct (proj1 (Forall_lookup _ _) Hn _ _ Hq).
Qed.

Lemma env_loop_ok name r env : env_name name → Forall (env_ok (length name)) env → ∀ i,
  env_loop ((Some ∘ env_buffer <$> env) ++ [None]) (name ++ 0 :: r) (length name) i
  = Some ((λ x : nat * env_entry, (i + x.1)%nat) <$> list_find (λ e, en_name e = name) env).
Proof.
  intros Hn Henv. induction Henv as [|e env He _ IH]; intros i; [done|]. cbn [env_loop fmap list_fmap app list_find compose].
  pose proof (env_match name e Hn He) as Hm. destruct He as [H1 H2 H3].
  destruct (lookup_lt_is_Some_2 _ _ H3) as [x Hx]. rewrite Hx. cbn [mbind option_bind].
  assert (Hnext : env_loop ((Some ∘ env_buffer <$> env) ++ [None]) (name ++ 0 :: r) (length name) (S i)
    = Some ((λ x : nat * env_entry, (i + x.1)%nat) <$> (prod_map S id <$> list_find (λ e, en_name e = name) env))).
  { rewrite IH. f_equal. destruct (list_find _ env) as [[j e']|]; cbn; [f_equal; lia|done]. }
  destruct (decide (en_name e = name)) as [Hd|Hd].
  - destruct (proj2 Hm Hd) as [Hq Ht]. rewrite Hx in Hq. injection Hq as ->. rewrite Z.eqb_refl.
    destruct (strncmp_prefix name r (env_buffer e)) as (v & E & Hv); [by eapply Forall_impl; [exact Hn|]; intros c []|done|done|].
    rewrite E. cbn [mbind option_bind]. rewrite (proj2 Hv Ht). cbn. do 2 f_equal. lia.
  - destruct (Z.eqb_spec x (chr "=")) as [->|Hx']; [|exact Hnext].
    destruct (strncmp_prefix name r (env_buffer e)) as (v & E & Hv); [by eapply Forall_impl; [exact Hn|]; intros c []|done|done|].
    rewrite E. cbn [mbind option_bind]. destruct (Z.eqb_spec v 0) as [Hv0|_]; [|exact Hnext].
    by destruct Hd; apply Hm; split; [|apply Hv].
Qed.

(** Looking up a variable: for a name without an equals sign and an
    environment of [name=value] strings, [getenv] returns the value of the
    first string with exactly that name, and NULL when there is none. *)
Theorem getenv_finds name r env : env_name name → Forall (env_ok (length name)) env →
  getenv (name ++ 0 :: r) ((Some ∘ env_buffer <$> env) ++ [None])
  = Some ((λ x : nat * env_entry, en_value x.2 ++ 0 :: en_rest x.2) <$> list_find (λ e, en_name e = name) env).
Proof.
  intros Hn Henv. unfold getenv. rewrite name_length_ok by done. cbn [mbind option_bind]. rewrite env_loop_ok by done. cbn [mbind option_bind].
  destruct (list_find (λ e, en_name e = name) env) as [[j e]|] eqn:E; cbn [fmap option_fmap option_map]; [|done].
  apply list_find_Some in E as (Hj & <- & _). cbn [Nat.add fst snd].
  rewrite lookup_app_l by (rewrite length_fmap; by eapply lookup_lt_Some). rewrite list_lookup_fmap, Hj. cbn.
  unfold env_buffer. by rewrite drop_app_ge, (Nat.sub_succ_l _ _ (Nat.le_refl _)), Nat.sub_diag by lia.
Qed.
Lemma getenv_finds_witness :
  getenv (bytes_of_string "HOME" ++ [0]) [Some (bytes_of_string "PATH=/bin" ++ [0]); Some (bytes_of_string "HOME=/" ++ [0]); None]
  = Some (Some (bytes_of_string "/" ++ [0])).
Proof.
  refine (getenv_finds (bytes_of_string "HOME") [] [EnvEntry (bytes_of_string "PATH") (bytes_of_string "/bin") [];
    EnvEntry (bytes_of_string "HOME") (bytes_of_string "/") []] _ _).
  - repeat constructor; vm_compute; done || discriminate.
  - repeat constructor; vm_compute; done || discriminate || (apply Nat.leb_le; reflexivity).
Defined.

Lemma strchr_none l : Forall is_char l → chr "=" ∉ l → strchr (l ++ [0]) (chr "=") = Some None.
Proof.
  induction 1 as [|c l Hc _ IH]; intros Hn; [done|]. cbn [strchr my_strchr app]. rewrite (char_not_nul c Hc).
  apply not_elem_of_cons in Hn as [Hne Hn]. destruct (Z.eqb_spec (i8 c) (chr "=")) as [E|_].
  - destruct Hne. symmetry. apply i8_inj; [done|by vm_compute|done].
  - unfold strchr in IH. by rewrite IH.
Qed.
(** No variable can be set: the test for an equals sign in the name is
    inverted, so [setenv] fails and changes nothing for every proper name. *)
Theorem setenv_refuses_names junk name value overwrite environ :
  Forall is_char name → chr "=" ∉ name → setenv junk (name ++ [0]) value overwrite environ = Some (-1, environ).
Proof. intros Hc Hn. unfold setenv. by rewrite strchr_none. Qed.
Lemma setenv_refuses_names_witness :
  setenv [] (bytes_of_string "PATH" ++ [0]) (bytes_of_string "/bin" ++ [0]) 1 [None] = Some (-1, [None]).
Proof.
  apply (setenv_refuses_names [] (bytes_of_string "PATH")); [repeat constructor; by vm_compute|].
  apply (bool_decide_eq_true_1 _). vm_compute. reflexivity.
Defined.

(** ** Input *)

Fixpoint getchars (k : nat) (st : instream) : option (list Z * instream) :=
  match k with
  | O => Some ([], st)
  | S k' => '(c, st') ← getchar st; '(cs, st'') ← getchars k' st'; Some (c :: cs, st'')
  end.
Lemma getchars_app k1 k2 st a st1 b st2 : getchars k1 st = Some (a, st1) → getchars k2 st1 = Some (b, st2) →
  getchars (k1 + k2) st = Some (a ++ b, st2).
Proof.
  revert st a. induction k1 as [|k1 IH]; intros st a; cbn [getchars Nat.add].
  { by intros [= <- <-] ->. }
  destruct (getchar st) as [[c s1]|]; cbn [mbind option_bind]; [|done].
  destruct (getchars k1 s1) as [[cs s2]|] eqn:E; cbn [mbind option_bind]; [|done]. intros [= <- ->] H2.
  by rewrite (IH s1 cs E H2).
Qed.
Lemma i32_pred n : 0 < n < 2 ^ 31 → i32 (n - 1) = n - 1.
Proof. intros H. apply i32_small. lia. Qed.

(** What is in the buffer. *)
Lemma getchars_buffer b reads : Forall (λ c, 0 ≤ c < 256) b → Z.of_nat (length b) < 2 ^ 31 →
  getchars (length b) (Instream b (Z.of_nat (length b)) reads) = Some (b, Instream [] 0 reads).
Proof.
  induction 1 as [|c b Hc _ IH]; intros Hl; [done|]. cbn [getchars length] in *. unfold getchar. cbn [in_n in_buf in_reads].
  rewrite (proj2 (Z.eqb_neq (Z.of_nat (S (length b))) 0)) by lia. cbn [in_n in_buf in_reads]. rewrite i32_pred by lia.
  rewrite (proj2 (Z.leb_le 0 _)) by lia. replace (Z.of_nat (S (length b)) - 1) with (Z.of_nat (length b)) by lia.
  cbn [mbind option_bind]. rewrite IH by lia. cbn [mbind option_bind]. unfold u8. by rewrite Z.mod_small by lia.
Qed.
Lemma getchar_refill b bs : b ≠ [] → getchar (Instream [] 0 (b :: bs)) = getchar (Instream b (Z.of_nat (length b)) bs).
Proof.
  intros Hb. unfold getchar. cbn [in_n Z.eqb]. assert (Hl : (0 < length b)%nat) by (destruct b; cbn; [done|lia]).
  by rewrite (proj2 (Z.eqb_neq (Z.of_nat (length b)) 0)) by lia.
Qed.
Lemma getchars_chunk b bs : b ≠ [] → Forall (λ c, 0 ≤ c < 256) b → Z.of_nat (length b) < 2 ^ 31 →
  getchars (length b) (Instream [] 0 (b :: bs)) = Some (b, Instream [] 0 bs).
Proof.
  intros Hb Hc Hl. rewrite <- (getchars_buffer b bs Hc Hl). destruct b as [|c b]; [done|]. cbn [getchars length].
  by rewrite (getchar_refill (c :: b) bs).
Qed.
Lemma getchars_eof m : ∀ n reads buf, - 2 ^ 31 ≤ n - Z.of_nat m → n < 0 →
  getchars m (Instream buf n reads) = Some (replicate m EOF, Instream buf (n - Z.of_nat m) reads).
Proof.
  induction m as [|m IH]; intros n reads buf Hn H0; cbn [getchars replicate]; [by rewrite Z.sub_0_r|].
  unfold getchar. cbn [in_n in_buf in_reads]. rewrite (proj2 (Z.eqb_neq n 0)) by lia. cbn [in_n in_buf in_reads].
  rewrite i32_small by lia. rewrite (proj2 (Z.leb_gt 0 (n - 1))) by lia. cbn [mbind option_bind].
  rewrite IH by lia. cbn [mbind option_bind]. do 3 f_equal. lia.
Qed.

(** Reading characters: the buffered [getchar] returns the bytes of the reads
    in order, whatever their sizes, and then the end of the input for ever. *)
Theorem getchar_reads_stream chunks m : Forall (λ b, b ≠ [] ∧ (length b ≤ 1024)%nat ∧ Forall (λ c, 0 ≤ c < 256) b) chunks →
  Z.of_nat m < 2 ^ 31 →
  ∃ st, getchars (length (mjoin chunks) + m) (Instream [] 0 chunks) = Some (mjoin chunks ++ replicate m EOF, st).
Proof.
  intros Hc Hm. assert (Hd : getchars (length (mjoin chunks)) (Instream [] 0 chunks) = Some (mjoin chunks, Instream [] 0 [])).
  { induction Hc as [|b bs (Hb & Hl & Hr) _ IH]; [done|]. rewrite mjoin_cons, length_app.
    eapply getchars_app; [apply getchars_chunk; [done|done|lia]|exact IH]. }
  destruct m as [|m]; [exists (Instream [] 0 []); rewrite Nat.add_0_r, app_nil_r; exact Hd|].
  eexists. eapply getchars_app; [exact Hd|]. cbn [getchars replicate]. unfold getchar. cbn [in_n Z.eqb refill in_reads in_buf].
  change (i32 (0 - 1)) with (-1). change (0 <=? -1) with false. cbv iota. cbn [mbind option_bind].
  rewrite (getchars_eof m (-1)) by lia. reflexivity.
Qed.
Lemma getchar_reads_stream_witness : ∃ st,
  getchars 5 (Instream [] 0 [bytes_of_string "ab"; bytes_of_string "c"]) = Some (bytes_of_string "abc" ++ [EOF; EOF], st).
Proof.
  destruct (getchar_reads_stream [bytes_of_string "ab"; bytes_of_string "c"] 2) as (st & E).
  - repeat constructor; try (vm_compute; done || discriminate); apply Nat.leb_le; reflexivity.
  - lia.
  - exists st. exact E.
Defined.

(** ** System call numbers *)

(** Every stub of the library enters the handler of its name, and the numbers
    of [chdir], [dup2], [pipe] and [wait4] are past the end of the table. *)
Theorem stubs_match_table :
  Forall (λ x : syscall * Z, sys_call_table !! Z.to_nat x.2 = Some x.1) stubs
  ∧ Forall (λ n, sys_call_table !! Z.to_nat n = None) foreign_stubs.
Proof. split; repeat constructor. Qed.
