(* ===== verification/User.v ===== *)
(** * User programs (bin, libc)

    The shell, init and the commands.  A program is an interaction tree whose
    events are the system calls it makes: an event carries the arguments, with
    the bytes of the buffers the kernel reads, and is answered by the result,
    with the bytes the kernel stores.  A tree with a call of fork is the
    program of both processes: the answer says which one goes on.  Pointers
    are not modelled: a C string is the buffer it points into, a block of
    memory its contents.  A program that leaves a buffer, follows a null
    pointer or reads a missing argument ends in the event [Undefined]. *)

From S2P Require Export Libc.
From ITree Require Export ITree ITreeFacts Events.State Events.StateFacts.

(** ** System calls (libc) *)

Variant sysE : Type → Type :=
| Read (fd count : Z) : sysE (Z * list Z)
| Write (fd : Z) (buf : list Z) : sysE Z
| Fork : sysE Z
| Execve (filename : list Z) (argv envp : list (list Z)) : sysE Z
| Wait : sysE (Z * Z)
| Exit (status : Z) : sysE Empty_set
| Open (filename : list Z) (flags : Z) : sysE Z
| Close (fd : Z) : sysE Z
| Getdents (fd count : Z) : sysE (Z * list Z)
| Getprocs64 (count : Z) : sysE (Z * list Z)
| Mmap (len : Z) : sysE (option (list Z))
| Munmap (len : Z) : sysE Z
| Sleep (seconds : Z) : sysE Z
| Kill (pid sig : Z) : sysE Z
| Undefined : sysE Empty_set.

Abbreviation prog := (itree sysE).
#[export] Instance prog_ret : MRet prog := λ A a, Ret a.
#[export] Instance prog_bind : MBind prog := λ A B f t, ITree.bind t f.

Definition call {A} (e : sysE A) : prog A := ITree.trigger e.
Definition stop {A} (e : sysE Empty_set) : prog A := x ← call e; match x : Empty_set with end.
Definition of_opt {A} (o : option A) : prog A := match o with Some a => mret a | None => stop Undefined end.
Definition loop {S A : Type} (body : S → prog (S + A)) : S → prog A := ITree.iter body.
Definition again {S A : Type} (s : S) : prog (S + A) := mret (inl s).
Definition leave {S A : Type} (a : A) : prog (S + A) := mret (inr a).

(** ** Buffers *)

(** A buffer after [bs] has been stored at its start. *)
Definition overlay (bs buf : list Z) : option (list Z) :=
  if (length bs <=? length buf)%nat then Some (bs ++ drop (length bs) buf) else None.
Definition slice (buf : list Z) (off n : Z) : option (list Z) :=
  if (0 <=? off) && (0 <=? n) && (off + n <=? Z.of_nat (length buf))
  then Some (take (Z.to_nat n) (drop (Z.to_nat off) buf)) else None.
Definition lit (s : string) : list Z := bytes_of_string s ++ [0].

(** ** libc *)

Definition exit {A} (status : Z) : prog A := stop (Exit status).
Definition EXIT_FAILURE : Z := 1.
Definition EXIT_SUCCESS : Z := 0.

Definition uprintf (format : string) (args : list varg) : prog Z :=
  out ← of_opt (printf (lit format) args); call (Write 1 out).
Definition putchar (c : Z) : prog Z :=
  ret ← call (Write 1 [u8 c]); mret (if ret =? 1 then c else EOF).
Fixpoint uputs (s : list Z) : prog Z :=
  match s with
  | [] => stop Undefined
  | c :: s' =>
      if c =? 0 then r ← putchar 10; mret (if r =? 10 then 0 else EOF)
      else r ← putchar (i8 c); if negb (r =? i8 c) then mret EOF else uputs s'
  end.
Definition say (s : string) : prog unit := uputs (lit s);; mret tt.
(** The contents of the new block, [None] for NULL. *)
Definition malloc (size : Z) : prog (option (list Z)) := call (Mmap size).

(** A [DIR] is its descriptor. *)
Definition O_DIRECTORY : Z := 2.
Definition alloc_dir (fd : Z) : prog (option Z) :=
  dirp ← malloc 4;
  match dirp with None => call (Close fd);; mret None | Some _ => mret (Some fd) end.
Definition opendir (dirname : option (list Z)) : prog (option Z) :=
  match dirname with
  | None => mret None
  | Some name =>
      fd ← call (Open name (Z.lor O_RDONLY O_DIRECTORY));
      if fd =? -1 then mret None else alloc_dir fd
  end.
Definition readdir (dir : Z) (max_size : Z) : prog (Z * list Z) := call (Getdents dir max_size).
Definition closedir (dir : option Z) : prog Z :=
  match dir with
  | None => mret (-1)
  | Some fd => s ← call (Munmap 4); if s =? -1 then mret (-1) else call (Close fd)
  end.

(** [fp] is never set: the descriptor of an opened file is stored through it. *)
Definition O_WRONLY : Z := 1.
Definition fopen (filename : option (list Z)) (mode : list Z) : prog (option Z) :=
  match filename with
  | None => mret None
  | Some name =>
      r ← of_opt (strchr mode (chr "r"));
      w ← of_opt (strchr mode (chr "w"));
      match r, w with
      | None, None => mret None
      | Some _, _ => call (Open name O_RDONLY);; stop Undefined
      | None, Some _ => call (Open name O_WRONLY);; stop Undefined
      end
  end.

(** ** cat *)

(** [while(totalwritten < reads)]: whether everything was written. *)
Definition write_all (buf : list Z) (reads : Z) : prog bool :=
  loop (λ totalwritten,
    if totalwritten <? reads then
      bytes ← of_opt (slice buf totalwritten (reads - totalwritten));
      written ← call (Write 1 bytes);
      if written <? 1 then leave false else again (i32 (totalwritten + written))
    else leave true) 0.
(** [buf] are the uninitialised 4096 bytes of the stack. *)
Definition cat_fd (buf : list Z) (fd : Z) : prog Z :=
  loop (λ buf,
    '(reads, bs) ← call (Read fd 4096);
    buf ← of_opt (overlay bs buf);
    if 0 <? reads then
      fine ← write_all buf reads;
      if fine : bool then again buf else leave (-1)
    else leave (if reads =? 0 then 0 else -1)) buf.
Definition cat (buf : list Z) (fname : list Z) : prog Z :=
  fd ← call (Open fname O_RDONLY);
  if fd =? -1 then mret (-1) else
  success ← cat_fd buf fd;
  c ← call (Close fd);
  if negb (c =? 0) then mret (-1) else mret success.
Fixpoint cat_args (buf : list Z) (argv : list (list Z)) : prog Z :=
  match argv with
  | [] => mret 0
  | fname :: argv' =>
      r ← cat buf fname;
      (if negb (r =? 0) then say "Error" else mret tt);;
      cat_args buf argv'
  end.
Definition cat_main (buf : list Z) (argv : list (list Z)) : prog Z :=
  if (length argv =? 1)%nat then
    r ← cat_fd buf 0;
    (if negb (r =? 0) then say "Error" else mret tt);;
    mret 0
  else cat_args buf (drop 1 argv).

(** ** echo *)

Fixpoint echo_args (argv : list (list Z)) : prog unit :=
  match argv with
  | [] => mret tt
  | a :: argv' => uprintf "%s " [VStr a];; echo_args argv'
  end.
Definition echo_main (argv : list (list Z)) : prog Z :=
  if (length argv =? 1)%nat then uputs [10; 0];; mret EXIT_SUCCESS
  else match argv with
  | _ :: a1 :: rest =>
      c ← of_opt (strcmp a1 (lit "-n"));
      (if c =? 0 then uprintf " " [];; echo_args rest
       else uprintf " " [];; echo_args (a1 :: rest);; uprintf (line "") [];; mret tt);;
      mret EXIT_SUCCESS
  | _ => uputs (lit (line "usage : echo string"));; mret EXIT_FAILURE
  end.

(** ** kill, sleep, ls, ps *)

Fixpoint kill_args (argv : list (list Z)) (signal : Z) : prog Z :=
  match argv with
  | [] => mret EXIT_SUCCESS
  | a :: argv' =>
      pid ← of_opt (atoi (Some a));
      err ← call (Kill pid signal);
      if err <? 0 then say (line "error implementing kill");; mret EXIT_FAILURE else kill_args argv' signal
  end.
(** [junk] is the uninitialised [signal]. *)
Definition kill_main (junk : Z) (argv : list (list Z)) : prog Z :=
  match argv with
  | _ :: a1 :: _ :: _ =>
      c0 ← of_opt (a1 !! 0%nat);
      if c0 =? chr "-" then
        c1 ← of_opt (a1 !! 1%nat);
        if isdigit (i8 c1) =? 0 then say (line "usage : kill -9 <pid>");; mret EXIT_FAILURE else
        let signal := i8 c1 - chr "0" in
        if negb (signal =? 9) then say (line "unknown signal number");; mret EXIT_FAILURE
        else kill_args (drop 2 argv) signal
      else kill_args (drop 2 argv) junk
  | _ => say (line "usage : kill -9 <pid>");; mret EXIT_FAILURE
  end.

Definition sleep_main (argv : list (list Z)) : prog Z :=
  match argv with
  | _ :: a1 :: _ => seconds ← of_opt (atoi (Some a1)); call (Sleep seconds);; mret EXIT_SUCCESS
  | _ => exit 1
  end.

(** The record at [point]: the rest of the buffer. *)
Definition record (buf : list Z) (point : Z) : option (list Z) :=
  if point <=? Z.of_nat (length buf) then Some (drop (Z.to_nat point) buf) else None.
(** [while(1)] over records of 32 bytes; the comparison is of unsigned
    numbers. *)
Definition records (buf : list Z) (n_written : Z) (show : list Z → prog unit) : prog unit :=
  loop (λ point,
    if u64 n_written <=? point then leave tt
    else r ← of_opt (record buf point); show r;; again (u64 (point + 32))) 0.
(** [buf] are the uninitialised 1024 bytes of the stack. *)
Definition ls_main (buf : list Z) (argv : list (list Z)) : prog Z :=
  dp ← opendir (Some (default (lit "/") (argv !! 1%nat)));
  match dp with
  | None => exit EXIT_FAILURE
  | Some fd =>
      '(n, bs) ← readdir fd 1024;
      buf ← of_opt (overlay bs buf);
      records buf (i32 n) (λ r, uprintf (line "%s") [VStr r];; mret tt);;
      s ← closedir dp;
      if s =? -1 then exit EXIT_FAILURE else exit EXIT_SUCCESS
  end.
Definition ps_main (buf : list Z) : prog Z :=
  '(n, bs) ← call (Getprocs64 1024);
  buf ← of_opt (overlay bs buf);
  records buf n (λ r, uprintf (line " Process PID : %s Parent PID : %s Cmd: %s")
    [VStr r; VStr (drop 6 r); VStr (drop 12 r)];; mret tt);;
  exit EXIT_SUCCESS.

(** ** init, preempt *)

Definition init_main : prog Z :=
  bleh_pid ← call Fork;
  if bleh_pid <? 0 then say (line "There is a bug in fork");; exit 1
  else if bleh_pid =? 0 then
    call (Execve (lit "/bin/sbush") [lit "bin/sbush"] [lit "/bin:"]);;
    say (line "sbush has returned");; exit 1
  else
    loop (λ _ : unit,
      '(waitpid, status) ← call Wait;
      if waitpid =? -1 then say (line "error in wait");; leave tt
      else
        uprintf (line "/bin/init: reaped pid : %d") [VInt waitpid];;
        (if waitpid =? 2 then uprintf (line "You are killing the shell.. ") [];; mret tt else mret tt);;
        again tt) tt;;
    mret 0.

Definition preempt_main : prog Z :=
  j ← call Fork;
  if j =? 0 then
    uprintf (line "I am a child") [];;
    j ← call Fork;
    if j =? 0 then uprintf (line "I am a child") [];; exit EXIT_SUCCESS
    else uprintf (line "I am a parent") [];; exit EXIT_SUCCESS
  else uprintf (line "I am a parent") [];; exit EXIT_SUCCESS.

(** ** Programs and their environment *)

(** The kernel's anonymous memory: a new block is zero-filled.  Every other
    call is left to the environment. *)
Definition with_memory : sysE ~> prog := λ T e,
  match e in sysE T return prog T with
  | Mmap len => Ret (Some (replicate (Z.to_nat len) 0))
  | e => ITree.trigger e
  end.
Definition run {A} (t : prog A) : prog A := interp with_memory t.

#[export] Instance run_proper {A} : Proper (eutt eq ==> eutt eq) (@run A).
Proof. intros t u H. unfold run. by rewrite H. Qed.

Section run.
Context {A B : Type}.
Implicit Types (f : A → prog B).

Lemma bind_mret (a : A) f : eutt eq (mret a ≫= f) (f a).
Proof. unfold mbind, prog_bind, mret, prog_ret. by rewrite bind_ret_l. Qed.
Lemma bind_some (a : A) f : eutt eq (of_opt (Some a) ≫= f) (f a).
Proof. apply bind_mret. Qed.

Lemma run_ret (a : A) : eutt eq (run (mret a)) (mret a).
Proof. unfold run, mret, prog_ret. by rewrite interp_ret. Qed.
Lemma run_bind (t : prog A) f : eutt eq (run (t ≫= f)) (run t ≫= λ x, run (f x)).
Proof. unfold run, mbind, prog_bind. by rewrite interp_bind. Qed.
Lemma run_some (a : A) f : eutt eq (run (of_opt (Some a) ≫= f)) (run (f a)).
Proof. by rewrite bind_some. Qed.
End run.

Lemma run_trigger {A} (e : sysE A) : eutt eq (run (call e)) (with_memory _ e).
Proof. unfold run, call. by rewrite interp_trigger. Qed.
Lemma run_malloc {B} n (f : option (list Z) → prog B) : 
  eutt eq (run (malloc n ≫= f)) (run (f (Some (replicate (Z.to_nat n) 0)))).
Proof.
  rewrite run_bind. unfold malloc, mbind, prog_bind. rewrite run_trigger. cbn. by rewrite bind_ret_l.
Qed.
(** A call that is left to the environment. *)
Lemma run_call {B C} (e : sysE B) (f : B → prog C) : with_memory _ e = ITree.trigger e →
  eutt eq (run (call e ≫= f)) (call e ≫= λ x, run (f x)).
Proof.
  intros He. rewrite run_bind. unfold mbind, prog_bind. by rewrite run_trigger, He.
Qed.
Lemma run_stop {B} (e : sysE Empty_set) : with_memory _ e = ITree.trigger e → eutt eq (run (stop (A := B) e)) (stop e).
Proof.
  intros He. unfold stop. rewrite run_call by done. unfold mbind, prog_bind.
  apply eqit_bind; [reflexivity|]. intros [].
Qed.

(** ** cat copies its input *)

(** One file, by its name and the descriptor it gets, with the bytes still to
    be read, and a terminal on descriptor 1.  A read of the open file gives at
    least a byte and at most the number asked for and the next limit, and none
    at the end; a write to the terminal takes at least a byte and at most the
    next limit.  Any other file, descriptor or mode gets -1. *)
Record io : Type := Io {
  io_name : list Z; io_fd : Z; io_open : bool; io_data : list Z; io_reads : list nat; io_limits : list nat; io_out : list Z
}.
Definition take_some (limits : list nat) (buf : list Z) : list Z :=
  match limits with [] => buf | n :: _ => take (max 1 n) buf end.
Definition file_io : sysE ~> Monads.stateT io prog := λ T e,
  match e in sysE T return Monads.stateT io prog T with
  | Open name flags => λ '(Io n fd o data reads limits out),
      if bool_decide (name = n) && (flags =? O_RDONLY) && negb o then Ret (Io n fd true data reads limits out, fd)
      else Ret (Io n fd o data reads limits out, -1)
  | Close x => λ '(Io n fd o data reads limits out),
      if (x =? fd) && o then Ret (Io n fd false data reads limits out, 0) else Ret (Io n fd o data reads limits out, -1)
  | Read x count => λ '(Io n fd o data reads limits out),
      if (x =? fd) && o then
        let b := take (Z.to_nat count) (take_some reads data) in
        Ret (Io n fd o (drop (length b) data) (tail reads) limits out, (Z.of_nat (length b), b))
      else Ret (Io n fd o data reads limits out, (-1, []))
  | Write x buf => λ '(Io n fd o data reads limits out),
      if x =? 1 then
        let b := take_some limits buf in Ret (Io n fd o data reads (tail limits) (out ++ b), Z.of_nat (length b))
      else Ret (Io n fd o data reads limits out, -1)
  | e => λ s, ITree.bind (ITree.trigger e) (λ x, Ret (s, x))
  end.
Definition with_io {A} (t : prog A) (s : io) : prog (io * A) := interp_state file_io t s.

#[export] Instance with_io_proper {A} : Proper (eutt eq ==> eq ==> eutt eq) (@with_io A).
Proof. intros t u H s _ <-. unfold with_io. by rewrite H. Qed.
Lemma with_io_ret {A} (a : A) s : eutt eq (with_io (mret a) s) (mret (s, a)).
Proof. unfold with_io, mret, prog_ret. by rewrite interp_state_ret. Qed.
Lemma with_io_call {A B} (e : sysE A) (f : A → prog B) s s' a : file_io _ e s = Ret (s', a) →
  eutt eq (with_io (call e ≫= f) s) (with_io (f a) s').
Proof.
  intros E. unfold with_io, call, mbind, prog_bind. rewrite interp_state_bind, interp_state_trigger, E.
  by rewrite bind_ret_l.
Qed.
Lemma with_io_bind {A B} (t : prog A) (f : A → prog B) s s' a : eutt eq (with_io t s) (mret (s', a)) →
  eutt eq (with_io (t ≫= f) s) (with_io (f a) s').
Proof.
  intros E. unfold with_io, mbind, prog_bind in *. rewrite interp_state_bind, E. unfold mret, prog_ret.
  by rewrite bind_ret_l.
Qed.
(** One round of a loop. *)
Lemma loop_again {S A} (body : S → prog (S + A)) s s' i i' : eutt eq (with_io (body i) s) (mret (s', inl i')) →
  eutt eq (with_io (loop body i) s) (with_io (loop body i') s').
Proof.
  intros E. unfold loop. rewrite unfold_iter. change (ITree.bind ?t ?f) with (t ≫= f). rewrite (with_io_bind _ _ _ _ _ E).
  cbn. by rewrite tau_eutt.
Qed.
Lemma loop_leave {S A} (body : S → prog (S + A)) s s' i a : eutt eq (with_io (body i) s) (mret (s', inr a)) →
  eutt eq (with_io (loop body i) s) (mret (s', a)).
Proof.
  intros E. unfold loop. rewrite unfold_iter. change (ITree.bind ?t ?f) with (t ≫= f). rewrite (with_io_bind _ _ _ _ _ E).
  cbn. apply with_io_ret.
Qed.

(** Every byte is written, in order, whatever the terminal takes at a time. *)
Lemma take_some_spec limits bytes : (1 ≤ length bytes)%nat →
  take_some limits bytes `prefix_of` bytes ∧ (1 ≤ length (take_some limits bytes))%nat.
Proof.
  intros H. unfold take_some. destruct limits as [|k ?]; [by split|]. split; [apply prefix_take|]. rewrite length_take. lia.
Qed.
Lemma write_all_ok buf c r n fd o data reads : buf = c ++ r → Z.of_nat (length c) < 2 ^ 31 → ∀ limits out,
  ∃ limits', eutt eq (with_io (write_all buf (Z.of_nat (length c))) (Io n fd o data reads limits out))
    (mret (Io n fd o data reads limits' (out ++ c), true)).
Proof.
  intros -> Hc. unfold write_all. match goal with |- context [loop ?b] => set (body := b) end.
  cut (∀ m t limits out, (length c - t ≤ m)%nat → (t ≤ length c)%nat → ∃ limits',
    eutt eq (with_io (loop body (Z.of_nat t)) (Io n fd o data reads limits out)) (mret (Io n fd o data reads limits' (out ++ drop t c), true))).
  { intros H limits out. apply (H (length c) 0%nat); lia. }
  induction m as [|m IH]; intros t limits out Hn Ht; destruct (decide (t = length c)) as [->|Hne]; try lia.
  1-2: exists limits; apply loop_leave; subst body; cbn beta; rewrite Z.ltb_irrefl; unfold leave;
       rewrite drop_all, app_nil_r; apply with_io_ret.
  set (bytes := drop t c). set (b := take_some limits bytes).
  assert (Hb : b `prefix_of` bytes ∧ (1 ≤ length b)%nat).
  { apply take_some_spec. subst bytes. rewrite length_drop. lia. }
  destruct Hb as [[rest Hrest] Hb].
  assert (Hlen : (length b + length rest = length c - t)%nat).
  { rewrite <- length_app, <- Hrest. subst bytes. by rewrite length_drop. }
  destruct (IH (t + length b)%nat (tail limits) (out ++ b)) as (limits' & E); [lia|lia|]. exists limits'.
  rewrite (loop_again _ _ (Io n fd o data reads (tail limits) (out ++ b)) _ (Z.of_nat (t + length b))).
  - rewrite E. replace (out ++ bytes) with ((out ++ b) ++ drop (t + length b) c); [done|]. rewrite <- app_assoc. f_equal.
    assert (drop (length b) bytes = drop (t + length b) c) as <- by (unfold bytes; apply drop_drop).
    clearbody b. by rewrite Hrest, drop_app_length.
  - subst body. cbn beta. rewrite (proj2 (Z.ltb_lt _ _)) by lia.
    assert (slice (c ++ r) (Z.of_nat t) (Z.of_nat (length c) - Z.of_nat t) = Some bytes) as ->.
    { unfold slice. rewrite !(proj2 (Z.leb_le _ _)) by (rewrite ?length_app; lia). cbn [andb]. f_equal.
      rewrite Nat2Z.id. replace (Z.to_nat (Z.of_nat (length c) - Z.of_nat t)) with (length bytes).
      - rewrite drop_app_le by done. by rewrite take_app_length.
      - subst bytes. rewrite length_drop. lia. }
    rewrite bind_some. rewrite (with_io_call _ _ _ (Io n fd o data reads (tail limits) (out ++ b)) (Z.of_nat (length b))) by done.
    rewrite (proj2 (Z.ltb_ge _ _)) by lia. rewrite i32_small by lia. rewrite <- Nat2Z.inj_add. apply with_io_ret.
Qed.

Lemma cat_fd_ok name fd limit data : (length data ≤ limit)%nat → ∀ buf reads limits out, length buf = 4096%nat →
  ∃ reads' limits', eutt eq (with_io (cat_fd buf fd) (Io name fd true data reads limits out))
    (mret (Io name fd true [] reads' limits' (out ++ data), 0)).
Proof.
  revert data. induction limit as [|limit IH]; intros data Hlim buf reads limits out Hb; unfold cat_fd;
    (destruct data as [|x data]; [|try (simpl in Hlim; lia)]).
  1-2: exists (tail reads), limits; apply loop_leave; cbn beta;
    rewrite (with_io_call _ _ _ (Io name fd true [] (tail reads) limits out) (0, []));
    [cbn beta iota; change (overlay [] buf) with (Some ([] ++ drop 0 buf)); rewrite bind_some; cbn; rewrite app_nil_r; apply with_io_ret
    |cbn; rewrite Z.eqb_refl; cbn; assert (take_some reads [] = []) as -> by (by destruct reads as [|[|?] ?]); done].
  set (d := x :: data) in *. set (b := take 4096 (take_some reads d)).
  destruct (take_some_spec reads d ltac:(cbn; lia)) as [[r1 P1] L1].
  assert (Hbl : (1 ≤ length b ≤ 4096)%nat) by (unfold b; rewrite length_take; lia).
  assert (Hd : d = b ++ drop (length b) d).
  { assert (b `prefix_of` d) as [r Hr]; [|by rewrite Hr at 1 2; rewrite drop_app_length].
    etrans; [apply prefix_take|]. by exists r1. }
  assert (Hrd : take (Z.to_nat 4096) (take_some reads d) = b) by done.
  clearbody b. assert (overlay b buf = Some (b ++ drop (length b) buf)) as Eo.
  { unfold overlay. by rewrite (proj2 (Nat.leb_le _ _)) by lia. }
  destruct (write_all_ok (b ++ drop (length b) buf) b _ name fd true (drop (length b) d) (tail reads) eq_refl ltac:(lia) limits out) as (l1 & E1).
  destruct (IH (drop (length b) d) ltac:(rewrite length_drop; cbn in *; lia) (b ++ drop (length b) buf) (tail reads) l1 (out ++ b)) as (r2 & l2 & E2).
  { rewrite length_app, length_drop. lia. }
  exists r2, l2. rewrite (loop_again _ _ (Io name fd true (drop (length b) d) (tail reads) l1 (out ++ b)) _ (b ++ drop (length b) buf)).
  - fold (cat_fd (b ++ drop (length b) buf) fd). rewrite E2. rewrite <- app_assoc, <- Hd. done.
  - rewrite (with_io_call _ _ _ (Io name fd true (drop (length b) d) (tail reads) limits out) (Z.of_nat (length b), b));
      [cbn beta iota|unfold file_io; rewrite Z.eqb_refl; cbn [andb]; by rewrite Hrd].
    rewrite Eo, bind_some. rewrite (proj2 (Z.ltb_lt _ _)) by lia.
    rewrite (with_io_bind _ _ _ _ _ E1). apply with_io_ret.
Qed.

(** C26: [cat] copies a file to the terminal.  It opens the file it is given,
    writes to descriptor 1 exactly the bytes of the file, in order, closes the
    file and reports success, whatever part, at least a byte, each of its
    reads delivers and each of its writes takes; its buffer of 4096 bytes is
    never overrun. *)
Theorem cat_copies name fd data reads limits buf : length buf = 4096%nat → fd ≠ -1 →
  ∃ reads' limits', eutt eq (with_io (cat buf name) (Io name fd false data reads limits []))
    (mret (Io name fd false [] reads' limits' data, 0)).
Proof.
  intros Hb Hfd. destruct (cat_fd_ok name fd (length data) data (le_n _) buf reads limits [] Hb) as (r' & l' & E). exists r', l'.
  unfold cat. rewrite (with_io_call _ _ _ (Io name fd true data reads limits []) fd).
  - rewrite (proj2 (Z.eqb_neq _ _) Hfd). rewrite (with_io_bind _ _ _ _ _ E).
    rewrite (with_io_call _ _ _ (Io name fd false [] r' l' data) 0); [apply with_io_ret|]. cbn. by rewrite Z.eqb_refl.
  - cbn. by rewrite bool_decide_true.
Qed.
Lemma cat_copies_witness : ∃ reads' limits',
  eutt eq (with_io (cat (replicate 4096 0) (lit "/a")) (Io (lit "/a") 3 false [104; 105; 10] [2]%nat [1; 5; 0]%nat []))
    (mret (Io (lit "/a") 3 false [] reads' limits' [104; 105; 10], 0)).
Proof. apply (cat_copies (lit "/a") 3 [104; 105; 10]); [apply length_replicate|done]. Defined.

(** ** echo prints its arguments *)

Definition echoed (ws : list (list Z * list Z)) : list Z := mjoin ((λ x, x.1 ++ [32]) <$> ws).

Lemma uprintf_io {B} s args b (f : Z → prog B) n fd o data reads out : printf (lit s) args = Some b →
  eutt eq (with_io (uprintf s args ≫= f) (Io n fd o data reads [] out)) (with_io (f (Z.of_nat (length b))) (Io n fd o data reads [] (out ++ b))).
Proof.
  intros E. unfold uprintf. rewrite E, bind_some. by rewrite (with_io_call _ _ _ (Io n fd o data reads [] (out ++ b)) (Z.of_nat (length b))).
Qed.
Lemma uprintf_word {B} w r (f : Z → prog B) n fd o data reads out : no_nul w → (length w ≤ 126)%nat →
  eutt eq (with_io (uprintf "%s " [VStr (w ++ 0 :: r)] ≫= f) (Io n fd o data reads [] out))
    (with_io (f (Z.of_nat (length (w ++ [32])))) (Io n fd o data reads [] (out ++ w ++ [32]))).
Proof.
  intros Hw Hl. apply uprintf_io. unfold printf, vprintf. change (cstring (lit "%s ")) with (Some [37; 115; 32]). cbn [mbind option_bind format_loop].
    change (negb (37 =? chr "%")) with false. cbn match. unfold conversion. change (115 =? chr "s") with true. cbn match.
    rewrite cstring_app by done. cbn [mbind option_bind format_loop]. change (negb (32 =? chr "%")) with true. cbn [mbind option_bind].
    rewrite (proj2 (Nat.ltb_lt (length (w ++ [32])) 128)) by (rewrite length_app; cbn; lia).
    cbn [mbind option_bind]. rewrite Nat2Z.id. by rewrite take_app_length.
Qed.
Lemma echo_args_ok ws : Forall (λ x, no_nul x.1 ∧ (length x.1 ≤ 126)%nat) ws → ∀ n fd o data reads out,
  eutt eq (with_io (echo_args ((λ x, x.1 ++ 0 :: x.2) <$> ws)) (Io n fd o data reads [] out)) (mret (Io n fd o data reads [] (out ++ echoed ws), tt)).
Proof.
  induction 1 as [|[w r] ws [Hw Hl] _ IH]; intros n fd o data reads out.
  { cbn. rewrite app_nil_r. apply with_io_ret. }
  cbn [fmap list_fmap echo_args fst snd] in *. rewrite uprintf_word by done. rewrite IH.
  unfold echoed. rewrite fmap_cons, mjoin_cons. by rewrite <- !app_assoc.
Qed.
(** [echo] prints a space, its arguments each followed by a space, and a
    newline, when the first is not [-n]. *)
Theorem echo_prints argv0 w r ws n fd o data reads : Forall (λ x, no_nul x.1 ∧ (length x.1 ≤ 126)%nat) ((w, r) :: ws) →
  Forall is_char w → w ≠ bytes_of_string "-n" →
  eutt eq (with_io (echo_main (argv0 :: ((λ x, x.1 ++ 0 :: x.2) <$> (w, r) :: ws))) (Io n fd o data reads [] []))
    (mret (Io n fd o data reads [] ([32] ++ echoed ((w, r) :: ws) ++ [10]), 0)).
Proof.
  intros Hws Hw Hn. unfold echo_main. cbn [length Nat.eqb fmap list_fmap fst snd].
  assert (Forall is_char (bytes_of_string "-n")) as Hc by (apply (bool_decide_unpack _); by vm_compute).
  destruct (strcmp_compares w (bytes_of_string "-n") r [] Hw Hc) as (v & E & _ & _ & Hv).
  change (bytes_of_string "-n" ++ [0]) with (lit "-n") in E. rewrite E, bind_some.
  rewrite (proj2 (Z.eqb_neq v 0)) by tauto.
  assert (eutt eq (with_io (uprintf " " [];; echo_args ((λ x, x.1 ++ 0 :: x.2) <$> (w, r) :: ws);; uprintf (line "") [];; mret tt)
    (Io n fd o data reads [] [])) (mret (Io n fd o data reads [] ([32] ++ echoed ((w, r) :: ws) ++ [10]), tt))) as E2.
  { rewrite (uprintf_io " " [] [32]) by done. cbn beta. rewrite (with_io_bind _ _ _ _ _ (echo_args_ok _ Hws n fd o data reads ([] ++ [32]))).
    cbn beta. rewrite (uprintf_io (line "") [] [10]) by done. rewrite <- app_assoc. apply with_io_ret. }
  rewrite (with_io_bind _ _ _ _ _ E2). apply with_io_ret.
Qed.
