(* ===== verification/Sbush.v ===== *)
(** * The shell (bin/sbush/sbush.c)

    [main] reads a line, splits it into words and runs the command of the
    first one in a new process.  Theorems: the splitting, the command a line
    starts, and what lines it does not survive. *)

From S2P Require Export User.

(** ** Splitting a line *)

Definition is_whitespace (c : Z) : Z :=
  if (c =? 32) || (c =? 12) || (c =? 10) || (c =? 13) || (c =? 9) || (c =? 11) then 1 else 0.
Fixpoint clear_array (p : list Z) (size : nat) : option (list Z) :=
  match size, p with
  | O, _ => Some p
  | S size', _ :: p' => r ← clear_array p' size'; Some (0 :: r)
  | S _, [] => None
  end.
(** [p[i] = c] in an array. *)
Definition put_char (p : list Z) (i : nat) (c : Z) : option (list Z) :=
  if (i <? length p)%nat then Some (<[i := c]> p) else None.
(** [while(cmd[i] != '\0') { dst[i] = cmd[i]; i++; }]. *)
Fixpoint copy_word (cmd dst : list Z) : option (list Z) :=
  match cmd with
  | [] => None
  | c :: cmd' =>
      if c =? 0 then Some dst
      else match dst with [] => None | _ :: dst' => r ← copy_word cmd' dst'; Some (c :: r) end
  end.

(** The loop of [tokenize_string]: [temp] is the rest of the line, [cmds] the
    words stored so far. *)
Fixpoint token_loop (temp cmd : list Z) (i : nat) (is_prev_found : bool) (cmds : list (list Z))
    : prog (list (list Z)) :=
  match temp with
  | [] => stop Undefined
  | c :: temp' =>
      if c =? 0 then
        of_opt (put_char cmd i 0);;
        (if (length cmds <? 32)%nat then mret cmds else stop Undefined)
      else if is_whitespace c =? 0 then
        cmd ← of_opt (put_char cmd i c);
        token_loop temp' cmd (S i) true cmds
      else if is_prev_found then
        cmd ← of_opt (put_char cmd i 0);
        dst ← malloc 64;
        dst ← of_opt dst;
        dst ← of_opt (copy_word cmd dst);
        (if (length cmds <? 32)%nat then mret tt else stop Undefined);;
        cmd ← of_opt (clear_array cmd 64);
        token_loop temp' cmd 0 false (cmds ++ [dst])
      else token_loop temp' cmd i false cmds
  end.
(** [junk] are the 64 uninitialised bytes of [cmd]. *)
Definition tokenize_string (junk string : list Z) : prog (list (list Z)) :=
  cmds ← malloc (32 * 8);
  of_opt cmds;;
  cmd ← of_opt (clear_array junk 64);
  token_loop string cmd 0 false [].

(** ** Running a command *)

(** The chain of [strncmp] tests, in their order. *)
Definition commands : list string := ["ps"; "ls"; "echo"; "cat"; "kill"; "sleep"; "preempt"]%string.
Definition envp : list (list Z) := [lit "/bin:"].
Fixpoint run_child (cs : list string) (argv0 : list Z) (argv : list (list Z)) : prog unit :=
  match cs with
  | [] => uprintf (line "This command not supported by BLEH") [];; mret tt
  | c :: cs' =>
      r ← of_opt (strncmp argv0 (lit c) (String.length c));
      if r =? 0 then call (Execve (lit ("/bin/" ++ c)) argv envp);; mret tt
      else run_child cs' argv0 argv
  end.

(** The [do ... while] of the parent. *)
Definition wait_child (cid : Z) : prog unit :=
  loop (λ _ : unit,
    '(w, status) ← call Wait;
    uprintf (line "status is %d") [VInt status];;
    (if negb (w =? cid) then exit EXIT_FAILURE
     else if status =? 9 then say "Child was killed by SIGTERM"
     else if status =? 11 then say "Child was killed by the SIGSEGV signal"
     else mret tt);;
    if (status =? 9) || (status =? 11) || (status =? 0) || (status =? 1) then leave tt else again tt) tt.

(** [export]: the words it splits are compared with the environment by
    address, so [setenv] is never called. *)
Definition export (argv : list (list Z)) (st : strtok_state) : prog strtok_state :=
  '(_, st) ← of_opt (strtok (argv !! 1%nat) (lit (line "= " ++ String (ascii_of_nat 9) "")%string) st);
  '(_, st) ← of_opt (strtok None (lit (line "= " ++ String (ascii_of_nat 9) "")%string) st);
  mret st.

Definition execute (shell_cmds : list (list Z)) (st : strtok_state) : prog strtok_state :=
  if (32 <=? length shell_cmds)%nat then stop Undefined else
  match shell_cmds with
  | [] => stop Undefined
  | argv0 :: _ =>
      r ← of_opt (strcmp argv0 (lit "export"));
      if r =? 0 then export shell_cmds st
      else
        cid ← call Fork;
        (if cid =? 0 then run_child commands argv0 shell_cmds;; exit EXIT_FAILURE
         else if 0 <? cid then wait_child cid
         else say "fork error");;
        mret st
  end.

(** ** The shell *)

(** What survives a round: the line buffer on the stack and the state of
    [strtok]. *)
Definition shell_command (junk : list Z) (buf : list Z) (st : strtok_state) : prog strtok_state :=
  r ← of_opt (strncmp buf (lit "cd") 2);
  if r =? 0 then mret st else
  r ← of_opt (strncmp buf (lit "exit") 4);
  if r =? 0 then mret st else
  shell_cmds ← tokenize_string junk buf;
  execute shell_cmds st.
Definition shell_round (junk : list Z) (x : list Z * strtok_state) : prog (list Z * strtok_state) :=
  uprintf "sbush> " [];;
  '(n, bs) ← call (Read 0 1024);
  buf ← of_opt (overlay bs (fst x));
  (if i32 n <? 0 then say "read error" else mret tt);;
  st ← shell_command junk buf (snd x);
  mret (buf, st).
Definition shell_main (junk buf : list Z) (st : strtok_state) (argv : list (list Z)) : prog unit :=
  if (length argv =? 1)%nat then loop (λ x, x ← shell_round junk x; again x) (buf, st) else mret tt.

(** ** Routines that [main] does not use *)

Definition collect_shell_command (input : prog Z) : prog (list Z) :=
  buffer ← malloc 1024;
  buffer ← of_opt buffer;
  buffer ← loop (λ x : list Z * nat,
    c ← input;
    if (c =? EOF) || (c =? 10) then b ← of_opt (put_char (fst x) (snd x) 0); leave b
    else b ← of_opt (put_char (fst x) (snd x) (u8 c)); again (b, S (snd x))) (buffer, 0%nat);
  say "return buffer";;
  mret buffer.

(** A word without [&] is looked at for ever. *)
Definition execute_background_process (token_cmds envp : list (list Z)) : prog unit :=
  cid ← call Fork;
  if cid =? 0 then
    argv ← loop (λ i : nat,
      match token_cmds !! i with
      | None => leave (take i token_cmds)
      | Some w =>
          found ← of_opt (strchr w (chr "&"));
          match found with
          | Some _ => if (i <? 63)%nat then again (S i) else stop Undefined
          | None => again i
          end
      end) 0%nat;
    argv0 ← of_opt (argv !! 0%nat);
    call (Execve argv0 argv envp);;
    exit EXIT_FAILURE
  else if cid <? 0 then say (line "Fork error") else mret tt.

(** ** Splitting *)

Definition blank (c : Z) : Prop := is_whitespace c = 1.
Definition letter (c : Z) : Prop := is_char c ∧ is_whitespace c = 0.
Definition zeroes (n : nat) : list Z := replicate n 0.
(** A word in its block of 64 bytes. *)
Definition pad (w : list Z) : list Z := w ++ zeroes (64 - length w).

Lemma blank_char c : blank c → is_char c.
Proof.
  unfold blank, is_whitespace, is_char. intros H.
  destruct (Z.eqb_spec c 32), (Z.eqb_spec c 12), (Z.eqb_spec c 10), (Z.eqb_spec c 13), (Z.eqb_spec c 9), (Z.eqb_spec c 11);
    simpl in H; first [done | lia].
Qed.
Lemma clear_array_ok p : clear_array p (length p) = Some (zeroes (length p)).
Proof. induction p as [|c p IH]; [done|]. cbn [clear_array length]. by rewrite IH. Qed.
Lemma clear_64 p : length p = 64%nat → clear_array p 64 = Some (zeroes 64).
Proof. intros <-. apply clear_array_ok. Qed.
Lemma put_char_next w c n : put_char (w ++ zeroes (S n)) (length w) c = Some ((w ++ [c]) ++ zeroes n).
Proof.
  unfold put_char. rewrite length_app. cbn [zeroes replicate length].
  rewrite (proj2 (Nat.ltb_lt _ _)) by lia. f_equal. rewrite <- (Nat.add_0_r (length w)), insert_app_r.
  cbn. by rewrite <- app_assoc.
Qed.
Lemma copy_word_ok w r : ∀ dst, no_nul w → (length w ≤ length dst)%nat →
  copy_word (w ++ 0 :: r) dst = Some (w ++ drop (length w) dst).
Proof.
  induction w as [|c w IH]; intros dst Hw Hl; [done|]. destruct dst as [|d dst]; [cbn in Hl; lia|].
  apply Forall_cons in Hw as [Hc Hw]. cbn [copy_word app drop length]. rewrite (proj2 (Z.eqb_neq c 0) Hc).
  rewrite IH; [done|done|cbn in Hl; lia].
Qed.

(** Blanks before a word are skipped. *)
Lemma token_gap g : ∀ t cmd i cmds, Forall blank g → token_loop (g ++ t) cmd i false cmds = token_loop t cmd i false cmds.
Proof.
  induction g as [|c g IH]; intros t cmd i cmds Hg; [done|]. apply Forall_cons in Hg as [Hc Hg].
  cbn [token_loop app]. rewrite (char_not_nul c (blank_char c Hc)), Hc. by apply IH.
Qed.
(** The characters of a word are collected. *)
Lemma token_word w : ∀ t p n found cmds, Forall letter w → (length w ≤ n)%nat → w ≠ [] ∨ found = true →
  eutt eq (token_loop (w ++ t) (p ++ zeroes n) (length p) found cmds)
    (token_loop t ((p ++ w) ++ zeroes (n - length w)) (length (p ++ w)) true cmds).
Proof.
  induction w as [|c w IH]; intros t p n found cmds Hw Hl Hf.
  { destruct Hf as [Hf | ->]; [done|]. rewrite app_nil_r, Nat.sub_0_r. done. }
  apply Forall_cons in Hw as [[Hc Hs] Hw]. destruct n as [|n]; [cbn in Hl; lia|].
  cbn [token_loop app]. rewrite (char_not_nul c Hc), Hs. cbn [Z.eqb]. rewrite put_char_next, bind_some.
  assert (S (length p) = length (p ++ [c])) as -> by (rewrite length_app; cbn; lia).
  rewrite IH; [|done|cbn in Hl; lia|by right].
  replace ((p ++ [c]) ++ w) with (p ++ c :: w) by (by rewrite <- app_assoc). done.
Qed.
(** A blank after a word stores the word. *)
Lemma token_end w c t cmds : Forall letter w → (length w ≤ 63)%nat → blank c → (length cmds < 32)%nat →
  eutt eq (run (token_loop (c :: t) (w ++ zeroes (64 - length w)) (length w) true cmds))
    (run (token_loop t (zeroes 64) 0 false (cmds ++ [pad w]))).
Proof.
  intros Hw Hl Hc Hn. cbn [token_loop]. rewrite (char_not_nul c (blank_char c Hc)), Hc. cbn [Z.eqb].
  destruct (64 - length w)%nat as [|k] eqn:Ek; [lia|]. rewrite put_char_next, run_some, run_malloc, run_some.
  rewrite <- app_assoc. cbn [app]. rewrite copy_word_ok, run_some.
  - rewrite (proj2 (Nat.ltb_lt _ _)) by done. rewrite bind_mret.
    rewrite clear_64 by (rewrite length_app; cbn [length]; unfold zeroes; rewrite length_replicate; lia). rewrite run_some.
    unfold pad. change (replicate (Z.to_nat 64) 0) with (zeroes 64).
    unfold zeroes at 2. rewrite drop_replicate. done.
  - eapply Forall_impl; [exact Hw|]. intros x [Hx _] ->. unfold is_char in Hx. lia.
  - rewrite length_replicate. lia.
Qed.

(** A word of a line, the blanks before it and the blank that ends it. *)
Record item : Type := Item { gap : list Z; word : list Z; sep : Z }.
Record item_ok (x : item) : Prop := {
  it_gap : Forall blank (gap x); it_word : Forall letter (word x);
  it_size : (1 ≤ length (word x) ≤ 63)%nat; it_sep : blank (sep x)
}.
Definition item_text (x : item) : list Z := gap x ++ word x ++ [sep x].
Definition line_text (xs : list item) : list Z := mjoin (item_text <$> xs).

Lemma token_items xs : ∀ t cmds, Forall item_ok xs → (length cmds + length xs ≤ 32)%nat →
  eutt eq (run (token_loop (line_text xs ++ t) (zeroes 64) 0 false cmds))
    (run (token_loop t (zeroes 64) 0 false (cmds ++ ((pad ∘ word) <$> xs)))).
Proof.
  induction xs as [|x xs IH]; intros t cmds Hx Hl.
  { by rewrite app_nil_r. }
  apply Forall_cons in Hx as [[Hg Hw Hs Hc] Hx]. unfold line_text. rewrite fmap_cons. rewrite mjoin_cons. fold (line_text xs).
  unfold item_text. rewrite <- !app_assoc. rewrite token_gap by done.
  rewrite (token_word (word x) _ [] 64) 
    by (first [done | lia | left; intros E; rewrite E in Hs; cbn in Hs; lia]). cbn [app].
  rewrite token_end by (try done; cbn in Hl; lia). rewrite IH.
  - by rewrite <- app_assoc.
  - done.
  - rewrite length_app. cbn in *. lia.
Qed.

Lemma tokenize_ok junk xs g p r : length junk = 64%nat → Forall item_ok xs → (length xs < 32)%nat →
  Forall blank g → Forall letter p → (length p ≤ 63)%nat →
  eutt eq (run (tokenize_string junk (line_text xs ++ g ++ p ++ 0 :: r))) (mret ((pad ∘ word) <$> xs)).
Proof.
  intros Hj Hx Hl Hg Hp Hpl. unfold tokenize_string. rewrite run_malloc, run_some, clear_64, run_some by done.
  rewrite token_items by (try done; cbn; lia). rewrite token_gap by done. cbn [app].
  assert (E : ∀ f : bool, eutt eq (run (token_loop (0 :: r) (p ++ zeroes (64 - length p)) (length p) f ((pad ∘ word) <$> xs)))
    (mret ((pad ∘ word) <$> xs))).
  { intros f. cbn [token_loop Z.eqb]. destruct (64 - length p)%nat as [|k] eqn:Ek; [lia|]. rewrite put_char_next, run_some.
    rewrite length_fmap, (proj2 (Nat.ltb_lt _ _)) by done. apply run_ret. }
  destruct (decide (p = [])) as [->|Hne]; [apply (E false)|].
  rewrite (token_word p _ [] 64) by (try done; first [lia | by left]). apply (E true).
Qed.

(** ** The command of a line *)

Definition chars (s : string) : list Z := bytes_of_string s.
(** [w] starts with the name [c]. *)
Definition starts (c : string) (w : list Z) : Prop := chars c `prefix_of` w.

Lemma literal_chars c : c ∈ ["cd"; "exit"; "export"]%string ++ commands → Forall is_char (chars c) ∧ length (chars c) = String.length c.
Proof.
  intros Hc. apply list_elem_of_In in Hc. cbn in Hc.
  destruct_or! Hc; subst; try done; (split; [|done]; apply (bool_decide_unpack _); by vm_compute).
Qed.

Lemma strncmp_starts c w r : c ∈ ["cd"; "exit"; "export"]%string ++ commands →
  Forall (λ x, 0 ≤ x < 256) (w ++ r) → (String.length c < length (w ++ r))%nat → Forall is_char w → (∀ x, r !! 0%nat = Some x → x = 0) →
  ∃ v, strncmp (w ++ r) (lit c) (String.length c) = Some v ∧ (v = 0 ↔ starts c w).
Proof.
  intros Hc Hr Hl Hw H0. destruct (literal_chars c Hc) as [Hcc Hlen]. rewrite <- Hlen in *.
  destruct (strncmp_prefix (chars c) [] (w ++ r) Hcc Hr Hl) as (v & E & Hv). exists v. split; [exact E|].
  rewrite Hv. unfold starts. split; [|intros [t ->]; by rewrite <- app_assoc, take_app_length].
  intros Ht. destruct (decide (length (chars c) ≤ length w)%nat) as [Hle|Hgt].
  - rewrite take_app_le in Ht by done. rewrite <- Ht. apply prefix_take.
  - exfalso. assert (Hz : (w ++ r) !! length w = Some 0).
    { destruct r as [|x r]; [rewrite app_nil_r in Hl; lia|]. rewrite list_lookup_middle by done. by rewrite (H0 x eq_refl). }
    rewrite <- (take_drop (length (chars c)) (w ++ r)), Ht, lookup_app_l in Hz by lia.
    apply (proj1 (Forall_lookup _ _) Hcc) in Hz. unfold is_char in Hz. lia.
Qed.

Lemma starts_disjoint c d w : starts c w → starts d w → starts c (chars d) ∨ starts d (chars c).
Proof. apply prefix_weak_total. Qed.
Definition startsb (c : string) (w : list Z) : bool := bool_decide (chars c `prefix_of` w).

(** No command is a prefix of another, nor of the words handled before. *)
Lemma names_apart c d : c ∈ commands → d ∈ ["cd"; "exit"]%string ++ commands → c ≠ d →
  ¬ starts c (chars d) ∧ ¬ starts d (chars c).
Proof.
  assert (Forall (λ c, Forall (λ d, c = d ∨ startsb c (chars d) = false ∧ startsb d (chars c) = false) (["cd"; "exit"]%string ++ commands)) commands) as H.
  { apply (bool_decide_unpack _). by vm_compute. }
  intros Hc Hd Hne. rewrite Forall_forall in H. specialize (H c Hc). rewrite Forall_forall in H.
  destruct (H d Hd) as [|[H1 H2]]; [done|]. by apply bool_decide_eq_false in H1, H2.
Qed.

Lemma letters_chars w : Forall letter w → Forall is_char w.
Proof. intros H. eapply Forall_impl; [exact H|]. by intros x []. Qed.
Lemma chars_bytes w : Forall is_char w → Forall (λ x, 0 ≤ x < 256) w.
Proof. intros H. eapply Forall_impl; [exact H|]. unfold is_char. cbn. intros; lia. Qed.
Lemma zeroes_bytes n : Forall (λ x, 0 ≤ x < 256) (zeroes n).
Proof. apply Forall_replicate. lia. Qed.

Lemma pad_starts c w : c ∈ commands → Forall letter w → (length w ≤ 63)%nat →
  ∃ v, strncmp (pad w) (lit c) (String.length c) = Some v ∧ (v = 0 ↔ starts c w).
Proof.
  intros Hc Hw Hl. apply strncmp_starts.
  - set_solver.
  - apply Forall_app. split; [by apply chars_bytes, letters_chars|apply zeroes_bytes].
  - rewrite length_app. unfold zeroes. rewrite length_replicate.
    apply list_elem_of_In in Hc. cbn in Hc. destruct_or! Hc; subst; try done; cbn; lia.
  - by apply letters_chars.
  - intros x. unfold zeroes. intros H. apply lookup_replicate in H. tauto.
Qed.

(** The child runs the command its first word starts with. *)
Lemma run_child_ok c w argv cs : Forall letter w → (length w ≤ 63)%nat → c ∈ cs → (∀ d, d ∈ cs → d ∈ commands) → starts c w →
  eutt eq (run_child cs (pad w) argv) (call (Execve (lit ("/bin/" ++ c)) argv envp);; mret tt).
Proof.
  intros Hw Hl Hc Hcs Hs. induction cs as [|d cs IH]; [by apply elem_of_nil in Hc|].
  destruct (pad_starts d w) as (v & E & Hv); [apply Hcs; set_solver|done|done|].
  cbn [run_child]. rewrite E, bind_some. destruct (Z.eqb_spec v 0) as [Hz|Hz].
  - destruct (decide (c = d)) as [->|Hne]; [done|]. exfalso.
    destruct (names_apart c d) as [H1 H2]; [apply Hcs; set_solver|apply elem_of_app; right; apply Hcs; set_solver|done|].
    destruct (starts_disjoint c d w Hs (proj1 Hv Hz)); tauto.
  - apply elem_of_cons in Hc as [->|Hc]; [tauto|]. apply IH; [done|set_solver].
Qed.

Lemma blanks_chars g : Forall blank g → Forall is_char g.
Proof. intros H. eapply Forall_impl; [exact H|]. apply blank_char. Qed.
Lemma line_chars xs : Forall item_ok xs → Forall is_char (line_text xs).
Proof.
  induction 1 as [|x xs [Hg Hw _ Hs] _ IH]; [done|]. unfold line_text. rewrite fmap_cons, mjoin_cons.
  unfold item_text. rewrite !Forall_app. split_and!; [by apply blanks_chars|by apply letters_chars| |exact IH].
  constructor; [by apply blank_char|done].
Qed.

(** A line that starts a command is not taken for [cd] or [exit]. *)
Lemma line_not_builtin c d x t : c ∈ commands → d ∈ ["cd"; "exit"]%string → item_ok x → starts c (word x) →
  ¬ starts d (item_text x ++ t).
Proof.
  intros Hc Hd [Hg _ _ _] Hs Hst. unfold item_text in Hst. destruct (gap x) as [|b g]; cbn [app] in Hst.
  - assert (Hs' : starts c ((word x ++ [sep x]) ++ t)) by (rewrite <- app_assoc; by apply prefix_app_r).
    destruct (names_apart c d) as [H1 H2]; [done|set_solver| |].
    { intros ->. apply list_elem_of_In in Hc, Hd. cbn in Hc, Hd. destruct_or! Hc; destruct_or! Hd; subst; done. }
    destruct (starts_disjoint c d _ Hs' Hst); tauto.
  - apply Forall_cons in Hg as [Hb _]. apply list_elem_of_In in Hd. cbn in Hd.
    destruct Hst as [t' E]. destruct_or! Hd; subst; try done; cbn in E; injection E as -> _; done.
Qed.

Section line.
Context (junk : list Z) (xs : list item) (g p r : list Z).
Let text := line_text xs ++ g ++ p.
Let buf := text ++ 0 :: r.
Context (Hjunk : length junk = 64%nat) (Hxs : Forall item_ok xs) (Hn : (length xs < 32)%nat)
  (Hg : Forall blank g) (Hp : Forall letter p) (Hpl : (length p ≤ 63)%nat)
  (Hbuf : length buf = 1024%nat) (Hr : Forall (λ x, 0 ≤ x < 256) r).

Lemma buf_test d : d ∈ ["cd"; "exit"]%string → ¬ starts d text →
  ∃ v, strncmp buf (lit d) (String.length d) = Some v ∧ (v =? 0) = false.
Proof.
  intros Hd Hs. assert (Forall is_char text) as Ht.
  { unfold text. rewrite !Forall_app. split_and!; [by apply line_chars|by apply blanks_chars|by apply letters_chars]. }
  destruct (strncmp_starts d text (0 :: r)) as (v & E & Hv).
  - set_solver.
  - apply Forall_app. split; [by apply chars_bytes|]. constructor; [lia|done].
  - fold buf. rewrite Hbuf. apply list_elem_of_In in Hd. cbn in Hd. destruct_or! Hd; subst; try done; cbn; lia.
  - done.
  - by intros x [= <-].
  - exists v. split; [exact E|]. apply Z.eqb_neq. tauto.
Qed.

(** A line that is neither [cd] nor [exit] is split and executed. *)
Lemma shell_command_splits st : ¬ starts "cd" text → ¬ starts "exit" text →
  eutt eq (run (shell_command junk buf st)) (run (execute ((pad ∘ word) <$> xs) st)).
Proof.
  intros H1 H2. unfold shell_command.
  destruct (buf_test "cd") as (v1 & E1 & Z1); [set_solver|done|].
  destruct (buf_test "exit") as (v2 & E2 & Z2); [set_solver|done|].
  change (String.length "cd") with 2%nat in E1. change (String.length "exit") with 4%nat in E2.
  rewrite E1, run_some, Z1, E2, run_some, Z2.
  rewrite run_bind. replace buf with (line_text xs ++ g ++ p ++ 0 :: r) by (unfold buf, text; by rewrite <- !app_assoc).
  unfold mbind, prog_bind. rewrite tokenize_ok by done. unfold mret, prog_ret. by rewrite bind_ret_l.
Qed.
End line.

(** One round of the wait: the shell asks for a child once and reports its
    status; with another process it exits, with status 0, 1, 9 or 11 of its own
    child it goes on, and with any other status it asks again. *)
Definition waits (cid : Z) (rest : prog unit) : prog unit :=
  r ← call Wait;
  uprintf (line "status is %d") [VInt r.2];;
  if decide (r.1 ≠ cid) then exit EXIT_FAILURE
  else if decide (r.2 = 0 ∨ r.2 = 1) then mret tt
  else if decide (r.2 = 9) then say "Child was killed by SIGTERM"
  else if decide (r.2 = 11) then say "Child was killed by the SIGSEGV signal"
  else rest.
Lemma wait_child_round cid : eutt eq (wait_child cid) (waits cid (wait_child cid)).
Proof.
  unfold wait_child at 1, loop, waits. rewrite unfold_iter. unfold mbind, prog_bind. rewrite bind_bind.
  apply eqit_bind; [reflexivity|]. intros [w st]. cbn [fst snd]. rewrite bind_bind. apply eqit_bind; [reflexivity|]. intros _.
  rewrite bind_bind. destruct (decide (w ≠ cid)) as [Hw|Hw].
  { rewrite (proj2 (Z.eqb_neq _ _) Hw). cbn [negb]. unfold exit, stop, mbind, prog_bind. rewrite !bind_bind.
    apply eqit_bind; [reflexivity|]. intros []. }
  apply dec_stable in Hw as ->. rewrite Z.eqb_refl. cbn [negb].
  assert (∀ t : prog unit, eutt eq (ITree.bind t (λ _, mret tt)) t) as Hunit.
  { intros t. rewrite <- (bind_ret_r t) at 2. apply eqit_bind; [reflexivity|]. by intros []. }
  unfold leave, again, mret, prog_ret in *.
  destruct (decide (st = 0 ∨ st = 1)) as [[->| ->]|Hn]; [by cbn [Z.eqb Pos.eqb orb]; rewrite !bind_ret_l..|].
  destruct (Z.eqb_spec st 9) as [->|H9].
  { cbn [orb]. setoid_rewrite bind_ret_l. apply Hunit. }
  destruct (Z.eqb_spec st 11) as [->|H11].
  { cbn [orb]. setoid_rewrite bind_ret_l. apply Hunit. }
  rewrite !decide_False, (proj2 (Z.eqb_neq st 0)), (proj2 (Z.eqb_neq st 1)) by tauto.
  cbn [orb]. rewrite !bind_ret_l. by rewrite tau_eutt.
Qed.

Lemma execute_runs xs x c st : Forall item_ok (x :: xs) → (length (x :: xs) < 32)%nat → c ∈ commands → starts c (word x) →
  eutt eq (execute ((pad ∘ word) <$> (x :: xs)) st)
    (cid ← call Fork;
     (if cid =? 0 then
        call (Execve (lit ("/bin/" ++ c)) ((pad ∘ word) <$> (x :: xs)) envp);; exit EXIT_FAILURE
      else if 0 <? cid then wait_child cid else say "fork error");;
     mret st).
Proof.
  intros Hx Hl Hc Hs. apply Forall_cons in Hx as [[_ Hw Hlen _] Hx]. unfold execute.
  rewrite length_fmap, (proj2 (Nat.leb_gt _ _)) by done. cbn [fmap list_fmap compose].
  destruct (literal_chars "export") as [Hec _]; [set_solver|].
  destruct (strcmp_compares (word x) (chars "export") (zeroes (63 - length (word x))) [] (letters_chars _ Hw) Hec)
    as (v & E & _ & _ & Hv).
  assert (pad (word x) = word x ++ 0 :: zeroes (63 - length (word x))) as Epad.
  { unfold pad. f_equal. by replace (64 - length (word x))%nat with (S (63 - length (word x))) by lia. }
  rewrite <- Epad in E. change (chars "export" ++ [0]) with (lit "export") in E. rewrite E, bind_some. rewrite (proj2 (Z.eqb_neq v 0)).
  2: { intros Hz. apply Hv in Hz. rewrite Hz in Hs. apply list_elem_of_In in Hc. cbn in Hc.
       destruct Hs as [t Ht]. destruct_or! Hc; subst; try done; vm_compute in Ht; congruence. }
  unfold mbind, prog_bind. apply eqit_bind; [reflexivity|]. intros cid. destruct (cid =? 0); [|done].
  apply eqit_bind; [|done]. intros. rewrite (run_child_ok c) by (try done; lia).
  unfold mbind, prog_bind, mret, prog_ret. rewrite bind_bind. setoid_rewrite bind_ret_l. done.
Qed.

(** ** Properties *)

(** The shell splits a line as meant: the words of a line, up to 31 of
    up to 63 characters, each ended by a blank, become the arguments, in
    order and each alone in its block; what follows the last blank is lost. *)
Theorem tokenize_splits junk xs g p r : length junk = 64%nat → Forall item_ok xs → (length xs < 32)%nat →
  Forall blank g → Forall letter p → (length p ≤ 63)%nat →
  eutt eq (run (tokenize_string junk (line_text xs ++ g ++ p ++ 0 :: r))) (mret ((pad ∘ word) <$> xs)).
Proof. apply tokenize_ok. Qed.

(** The line [ cat  a ] with its newline. *)
Definition sample : list item := [Item [32] (chars "cat") 32; Item [32] (chars "a") 10].
Lemma sample_ok : Forall item_ok sample.
Proof.
  assert (∀ l : list Z, forallb (λ c, (0 <? c) && (c <? 256) && (is_whitespace c =? 0)) l = true → Forall letter l) as Hl.
  { intros l H. apply Forall_forall. intros c Hc. rewrite forallb_forall in H. specialize (H c (proj1 (list_elem_of_In _ _) Hc)).
    apply andb_prop in H as [[H1%Z.ltb_lt H2%Z.ltb_lt]%andb_prop H3%Z.eqb_eq]. by split. }
  apply Forall_cons. split; [|apply Forall_cons; split; [|apply Forall_nil_2]].
  all: split; [by repeat constructor|by apply Hl|cbn; lia|done].
Qed.
Lemma tokenize_splits_witness :
  eutt eq (run (tokenize_string (zeroes 64) (line_text sample ++ [32] ++ chars "b" ++ 0 :: [1; 2])))
    (mret [pad (chars "cat"); pad (chars "a")]).
Proof.
  apply (tokenize_splits (zeroes 64) sample [32] (chars "b") [1; 2]);
    [done|apply sample_ok|cbn; lia|by repeat constructor| |cbn; lia].
  constructor; [|constructor]. by split; [split|].
Defined.

(** C12: a line whose first word starts with the name of a command runs that
    command: when its requests for memory are met, the shell makes one process, which executes the program of that
    name in /bin with all words of the line as arguments and exits with a
    failure if that returns, while the shell waits for it, until the kernel
    reports that process with status 0, 1, 9 or 11; the report of another
    process ends the shell.  Nothing else is asked of the kernel. *)
Theorem shell_runs_command junk x xs g p r c st :
  length junk = 64%nat → Forall item_ok (x :: xs) → (length (x :: xs) < 32)%nat →
  Forall blank g → Forall letter p → (length p ≤ 63)%nat →
  length ((line_text (x :: xs) ++ g ++ p) ++ 0 :: r) = 1024%nat → Forall (λ b, 0 ≤ b < 256) r →
  c ∈ commands → starts c (word x) →
  eutt eq (run (shell_command junk ((line_text (x :: xs) ++ g ++ p) ++ 0 :: r) st))
    (run (cid ← call Fork;
      (if cid =? 0 then
         call (Execve (lit ("/bin/" ++ c)) ((pad ∘ word) <$> (x :: xs)) envp);; exit EXIT_FAILURE
       else if 0 <? cid then wait_child cid else say "fork error");;
      mret st))
  ∧ ∀ cid, eutt eq (wait_child cid) (waits cid (wait_child cid)).
Proof.
  intros Hj Hx Hn Hg Hp Hpl Hb Hr Hc Hs. split; [|apply wait_child_round].
  assert (∀ d, d ∈ ["cd"; "exit"]%string → ¬ starts d (line_text (x :: xs) ++ g ++ p)) as Hnot.
  { intros d Hd. unfold line_text. rewrite fmap_cons, mjoin_cons, <- app_assoc.
    apply (line_not_builtin c); [done|done|by apply Forall_cons in Hx as [? _]|done]. }
  rewrite shell_command_splits by (try done; apply Hnot; set_solver). by rewrite (execute_runs xs x c).
Qed.

(** An empty line ends the shell: it has no words, and the first one is
    compared through a null pointer. *)
Theorem blank_line_faults junk g r st : length junk = 64%nat → Forall blank g → length (g ++ 0 :: r) = 1024%nat →
  Forall (λ b, 0 ≤ b < 256) r → eutt eq (run (shell_command junk (g ++ 0 :: r) st)) (stop Undefined).
Proof.
  intros Hj Hg Hb Hr. rewrite <- (app_nil_r g) in Hb |- *. change (g ++ []) with (line_text [] ++ g ++ []) in Hb |- *.
  assert (∀ d, d ∈ ["cd"; "exit"]%string → ¬ starts d (line_text [] ++ g ++ [])) as Hnot.
  { intros d Hd [t E]. rewrite app_nil_r in E. change (line_text []) with (@nil Z) in E. cbn [app] in E. subst g.
    apply list_elem_of_In in Hd. cbn in Hd. destruct_or! Hd; subst; try done; by apply Forall_cons in Hg as [Hg _]. }
  rewrite shell_command_splits by (first [apply Hnot; set_solver | done | cbn; lia | apply Forall_nil_2]).
  cbn. by apply run_stop.
Qed.

(** The rest of a line buffer that starts with [t]. *)
Definition rest_of (t : list Z) : list Z := zeroes (1023 - length t).
Lemma shell_runs_command_witness :
  eutt eq (run (shell_command (zeroes 64) ((line_text sample ++ [] ++ []) ++ 0 :: rest_of (line_text sample)) (Strtok [] 0 true)))
    (run (cid ← call Fork;
      (if cid =? 0 then
         call (Execve (lit "/bin/cat") [pad (chars "cat"); pad (chars "a")] envp);; exit EXIT_FAILURE
       else if 0 <? cid then wait_child cid else say "fork error");;
      mret (Strtok [] 0 true))).
Proof.
  apply (shell_runs_command (zeroes 64) (Item [32] (chars "cat") 32) [Item [32] (chars "a") 10] [] [] _ "cat" (Strtok [] 0 true));
    [done|apply sample_ok|cbn; lia|done|done|cbn; lia|reflexivity|apply zeroes_bytes|set_solver|by exists []].
Defined.
Lemma blank_line_faults_witness :
  eutt eq (run (shell_command (zeroes 64) ([10] ++ 0 :: rest_of [10]) (Strtok [] 0 true))) (stop Undefined).
Proof. apply blank_line_faults; [done|by repeat constructor|reflexivity|apply zeroes_bytes]. Defined.

(** A line that starts with [exit] is ignored: the shell does not exit. *)
Theorem exit_is_ignored junk t r st : Forall is_char t → Forall (λ b, 0 ≤ b < 256) r →
  length (t ++ 0 :: r) = 1024%nat → starts "exit" t →
  eutt eq (run (shell_command junk (t ++ 0 :: r) st)) (mret st).
Proof.
  intros Ht Hr Hb Hs. unfold shell_command.
  assert (∀ d, d ∈ ["cd"; "exit"]%string → ∃ v, strncmp (t ++ 0 :: r) (lit d) (String.length d) = Some v ∧ (v = 0 ↔ starts d t)) as H.
  { intros d Hd. apply strncmp_starts; [set_solver| | |done|by intros x [= <-]].
    - apply Forall_app. split; [by apply chars_bytes|]. constructor; [lia|done].
    - rewrite Hb. apply list_elem_of_In in Hd. cbn in Hd. destruct_or! Hd; subst; try done; cbn; lia. }
  destruct (H "cd"%string) as (v1 & E1 & _); [set_solver|]. destruct (H "exit"%string) as (v2 & E2 & Hv2); [set_solver|].
  change (String.length "cd") with 2%nat in E1. change (String.length "exit") with 4%nat in E2.
  rewrite E1, run_some. destruct (v1 =? 0); [apply run_ret|].
  rewrite E2, run_some, (proj2 Hv2 Hs). apply run_ret.
Qed.
