(* ===== verification/Asm.v ===== *)
(** * Assembly code

    The instructions the assembly routines of the kernel use, on a machine
    with registers, flags, segments and memory in 64-bit words, and an
    abstract view of straight-line stack code: a stack as the list of the words
    above the stack pointer and the list of those below it.  The view is sound
    ([astep_sound]), so the effect of such code is found by evaluation. *)

From S2P Require Export Gdt.

(** ** The machine *)

Inductive reg : Type :=
| RAX | RBX | RCX | RDX | RSI | RDI | RBP | RSP | R8 | R9 | R10 | R11 | R12 | R13 | R14 | R15.
#[export] Instance reg_eq_dec : EqDecision reg.
Proof. solve_decision. Defined.
(** Membership in a list of registers, by evaluation. *)
Ltac reg_mem := apply (bool_decide_unpack _); vm_compute; exact I.
Inductive seg : Type := ES | FS | GS | DS | SS.
#[export] Instance seg_eq_dec : EqDecision seg.
Proof. solve_decision. Defined.

(** [m_gs] is the base of the gs segment, [m_kgs] the one [swapgs] exchanges it
    with. *)
Record mach : Type := Mach {
  m_reg : reg → Z; m_mem : gmap Z Z; m_flags : Z; m_cs : Z; m_sel : seg → Z;
  m_gs : Z; m_kgs : Z; m_gdtr : Z; m_tr : Z
}.
Definition set_reg (r : reg) (v : Z) (m : mach) : mach :=
  Mach (λ x, if decide (x = r) then v else m_reg m x) (m_mem m) (m_flags m) (m_cs m) (m_sel m) (m_gs m) (m_kgs m)
    (m_gdtr m) (m_tr m).
Definition set_mem (w : gmap Z Z) (m : mach) : mach :=
  Mach (m_reg m) w (m_flags m) (m_cs m) (m_sel m) (m_gs m) (m_kgs m) (m_gdtr m) (m_tr m).
Definition set_flags (v : Z) (m : mach) : mach :=
  Mach (m_reg m) (m_mem m) v (m_cs m) (m_sel m) (m_gs m) (m_kgs m) (m_gdtr m) (m_tr m).
Definition set_cs (v : Z) (m : mach) : mach :=
  Mach (m_reg m) (m_mem m) (m_flags m) v (m_sel m) (m_gs m) (m_kgs m) (m_gdtr m) (m_tr m).
Definition set_sel (s : seg) (v : Z) (m : mach) : mach :=
  Mach (m_reg m) (m_mem m) (m_flags m) (m_cs m) (λ x, if decide (x = s) then v else m_sel m x) (m_gs m) (m_kgs m)
    (m_gdtr m) (m_tr m).
Definition set_gs (a b : Z) (m : mach) : mach :=
  Mach (m_reg m) (m_mem m) (m_flags m) (m_cs m) (m_sel m) a b (m_gdtr m) (m_tr m).
Definition set_tables (g t : Z) (m : mach) : mach :=
  Mach (m_reg m) (m_mem m) (m_flags m) (m_cs m) (m_sel m) (m_gs m) (m_kgs m) g t.

(** Words of memory, at aligned addresses that exist. *)
Definition word_at (m : mach) (a : Z) : option Z := if a mod 8 =? 0 then m_mem m !! a else None.
Definition put_word (a v : Z) (m : mach) : option mach :=
  match word_at m a with Some _ => Some (set_mem (<[a := v]> (m_mem m)) m) | None => None end.

Definition push (v : Z) (m : mach) : option mach :=
  let a := u64 (m_reg m RSP - 8) in set_reg RSP a <$> put_word a v m.
Definition pop (m : mach) : option (Z * mach) :=
  v ← word_at m (m_reg m RSP); Some (v, set_reg RSP (u64 (m_reg m RSP + 8)) m).

(** Flags: carry, zero, interrupt, direction. *)
Definition CF : Z := 0.
Definition ZF : Z := 6.
Definition IF_ : Z := 9.
Definition DF : Z := 10.
Definition set_flag (n : Z) (b : bool) (f : Z) : Z := if b then Z.setbit f n else Z.clearbit f n.

(** ** Instructions *)

(** Operands are in the order of the source: source before destination.  A
    jump names the index of its target in the routine. *)
Inductive instr : Type :=
| Push (r : reg) | PushI (i : Z) | PushGs (off : Z) | Pop (r : reg) | Pushf | Popf
| Mov (src dst : reg) | Store (src : reg) (off : Z) (base : reg) | StoreI (i off : Z) (base : reg)
| Load (off : Z) (base dst : reg) | StoreGs (src : reg) (off : Z) | LoadGs (off : Z) (dst : reg)
| MovLabel (l : string) (dst : reg)
| AddI (i : Z) (dst : reg) | SubI (i : Z) (dst : reg) | AndR (src dst : reg) | CmpLabel (l : string) (r : reg)
| Ja (target : nat) | Jnz (target : nat) | Jmp (target : nat)
| Call (f : string) | CallTable (r : reg) | CallR (r : reg) | JmpTo (f : string)
| Cld | Sti | Cli | Nop | Swapgs | Sysret | Iret | Ret | Lret
| Lgdt (r : reg) | Ltr (r : reg) | MovSeg (r : reg) (s : seg).

(** What a routine runs in: C functions by name, by system call number and by
    address, from the call to the return; the addresses of labels; the user
    selector base of the MSR STAR. *)
Record env : Type := Env {
  e_call : string → mach → option mach; e_table : Z → mach → option mach; e_ptr : Z → mach → option mach;
  e_label : string → Z; e_star : Z
}.

(** What an instruction does: go on, jump, give control to an address or to a
    function, or fault. *)
Inductive effect : Type :=
| Fall (m : mach) | Goto (target : nat) (m : mach) | To (rip : Z) (m : mach) | Tail (f : string) (m : mach) | Fault.
Definition go (o : option mach) : effect := match o with Some m => Fall m | None => Fault end.

(** [iretq] takes rip, cs, rflags, rsp and ss from the stack.  Of the words for
    cs and ss it takes 16 bits, and it faults on a selector that is not of a
    code segment or not of a stack segment of its level. *)
Definition iret (m : mach) : effect :=
  match pop m with
  | None => Fault
  | Some (rip, m) =>
  match pop m with
  | None => Fault
  | Some (cs, m) =>
  match pop m with
  | None => Fault
  | Some (flags, m) =>
  match pop m with
  | None => Fault
  | Some (sp, m) =>
  match pop m with
  | None => Fault
  | Some (ss, m) =>
      let cs := u16 cs in let ss := u16 ss in
      if code_selector cs && stack_selector cs ss
      then To rip (set_reg RSP sp (set_sel SS ss (set_flags flags (set_cs cs m)))) else Fault
  end end end end end.
(** [sysretq] takes rip from rcx and the flags from r11. *)
Definition sysret_flags (f : Z) : Z := Z.lor (Z.land f 0x3C7FD7) 2.
Definition sysret (star : Z) (m : mach) : effect :=
  To (m_reg m RCX) (set_sel SS (Z.lor (star + 8) 3) (set_cs (Z.lor (star + 16) 3)
    (set_flags (sysret_flags (m_reg m R11)) m))).

Section step.
Context (e : env).

Definition step (i : instr) (m : mach) : effect :=
  match i with
  | Push r => go (push (m_reg m r) m)
  | PushI i => go (push (u64 i) m)
  | PushGs off => match word_at m (u64 (m_gs m + off)) with Some v => go (push v m) | None => Fault end
  | Pop r => match pop m with Some (v, m) => Fall (set_reg r v m) | None => Fault end
  | Pushf => go (push (m_flags m) m)
  | Popf => match pop m with Some (v, m) => Fall (set_flags v m) | None => Fault end
  | Mov src dst => Fall (set_reg dst (m_reg m src) m)
  | Store src off base => go (put_word (u64 (m_reg m base + off)) (m_reg m src) m)
  | StoreI i off base => go (put_word (u64 (m_reg m base + off)) (u64 i) m)
  | Load off base dst => match word_at m (u64 (m_reg m base + off)) with Some v => Fall (set_reg dst v m) | None => Fault end
  | StoreGs src off => go (put_word (u64 (m_gs m + off)) (m_reg m src) m)
  | LoadGs off dst => match word_at m (u64 (m_gs m + off)) with Some v => Fall (set_reg dst v m) | None => Fault end
  | MovLabel l dst => Fall (set_reg dst (e_label e l) m)
  | AddI i dst => Fall (set_reg dst (u64 (m_reg m dst + i)) m)
  | SubI i dst => Fall (set_reg dst (u64 (m_reg m dst - i)) m)
  | AndR src dst =>
      let v := Z.land (m_reg m src) (m_reg m dst) in
      Fall (set_flags (set_flag CF false (set_flag ZF (v =? 0) (m_flags m))) (set_reg dst v m))
  | CmpLabel l r =>
      let a := m_reg m r in let b := e_label e l in
      Fall (set_flags (set_flag CF (a <? b) (set_flag ZF (a =? b) (m_flags m))) m)
  | Ja t => if negb (Z.testbit (m_flags m) CF) && negb (Z.testbit (m_flags m) ZF) then Goto t m else Fall m
  | Jnz t => if negb (Z.testbit (m_flags m) ZF) then Goto t m else Fall m
  | Jmp t => Goto t m
  | Call f => go (e_call e f m)
  | CallTable r => go (e_table e (m_reg m r) m)
  | CallR r => go (e_ptr e (m_reg m r) m)
  | JmpTo f => Tail f m
  | Cld => Fall (set_flags (set_flag DF false (m_flags m)) m)
  | Sti => Fall (set_flags (set_flag IF_ true (m_flags m)) m)
  | Cli => Fall (set_flags (set_flag IF_ false (m_flags m)) m)
  | Nop => Fall m
  | Swapgs => Fall (set_gs (m_kgs m) (m_gs m) m)
  | Sysret => sysret (e_star e) m
  | Iret => iret m
  | Ret => match pop m with Some (v, m) => To v m | None => Fault end
  | Lret => match pop m with
            | Some (v, m) =>
                match pop m with
                | Some (cs, m) => if code_selector (u16 cs) then To v (set_cs (u16 cs) m) else Fault
                | None => Fault
                end
            | None => Fault
            end
  | Lgdt r => Fall (set_tables (m_reg m r) (m_tr m) m)
  | Ltr r => Fall (set_tables (m_gdtr m) (u16 (m_reg m r)) m)
  | MovSeg r s =>
      let m' := set_sel s (u16 (m_reg m r)) m in
      Fall (if decide (s = GS) then set_gs 0 (m_kgs m) m' else m')
  end.

(** How a routine ends. *)
Inductive outcome : Type := Left (rip : Z) (m : mach) | Jumped (f : string) (m : mach) | Stuck | Running.

Fixpoint exec (fuel : nat) (code : list instr) (pc : nat) (m : mach) : outcome :=
  match fuel with
  | O => Running
  | S fuel' =>
      match code !! pc with
      | None => Stuck
      | Some i =>
          match step i m with
          | Fall m' => exec fuel' code (S pc) m'
          | Goto t m' => exec fuel' code t m'
          | To rip m' => Left rip m'
          | Tail f m' => Jumped f m'
          | Fault => Stuck
          end
      end
  end.
End step.

(** One instruction. *)
Lemma exec_fall e fuel code pc i m m' : code !! pc = Some i → step e i m = Fall m' →
  exec e (S fuel) code pc m = exec e fuel code (S pc) m'.
Proof. intros H1 H2. cbn [exec]. by rewrite H1, H2. Qed.
Lemma exec_goto e fuel code pc i m m' t : code !! pc = Some i → step e i m = Goto t m' →
  exec e (S fuel) code pc m = exec e fuel code t m'.
Proof. intros H1 H2. cbn [exec]. by rewrite H1, H2. Qed.
Lemma exec_to e fuel code pc i m m' rip : code !! pc = Some i → step e i m = To rip m' →
  exec e (S fuel) code pc m = Left rip m'.
Proof. intros H1 H2. cbn [exec]. by rewrite H1, H2. Qed.
Lemma go_some o m : o = Some m → go o = Fall m.
Proof. by intros ->. Qed.

(** ** Entering the kernel *)

(** The processor delivers an interrupt through a gate of the interrupt table:
    from user mode on the stack of the task state segment, else on the current
    one, aligned to 16 bytes.  [err] is the error code of the exceptions that
    have one, [rip] the address to return to. *)
Definition in_user (m : mach) : bool := Z.land (m_cs m) 3 =? 3.
Definition frame_base (rsp0 : Z) (m : mach) : Z := Z.land (if in_user m then rsp0 else m_reg m RSP) (Z.lnot 15).
(** The machine runs on segments of the table. *)
Definition selectors_ok (m : mach) : Prop := code_selector (m_cs m) = true ∧ stack_selector (m_cs m) (m_sel m SS) = true.
Fixpoint pushes (vs : list Z) (m : mach) : option mach :=
  match vs with [] => Some m | v :: vs' => m ← push v m; pushes vs' m end.
(** The state of the processor in a handler. *)
Definition handler_mode (m : mach) : mach :=
  set_flags (set_flag IF_ false (m_flags m)) (set_cs 0x08 (if in_user m then set_sel SS 0 m else m)).
Definition deliver (rsp0 rip : Z) (err : option Z) (m : mach) : option mach :=
  handler_mode <$> pushes ([m_sel m SS; m_reg m RSP; m_flags m; m_cs m; rip] ++ option_list err)
    (set_reg RSP (frame_base rsp0 m) m).
(** The [syscall] instruction. *)
Definition syscall (star_kernel rip : Z) (m : mach) : mach :=
  set_sel SS (star_kernel + 8) (set_cs star_kernel
    (set_reg RCX rip (set_reg R11 (m_flags m) m))).

(** ** The view of stack code *)

(** [a_words] are the words of the stack from the address [a_low] on, [a_pos]
    is the index of the word the stack pointer is at.  The stack pointer and
    the memory of [a_m] are not looked at. *)
Record abs : Type := Abs { a_m : mach; a_low : Z; a_words : list Z; a_pos : nat }.
Definition a_sp (a : abs) : Z := a_low a + 8 * Z.of_nat (a_pos a).
Definition a_reg (a : abs) (r : reg) : Z := if decide (r = RSP) then a_sp a else m_reg (a_m a) r.
Definition with_m (f : mach → mach) (a : abs) : abs := Abs (f (a_m a)) (a_low a) (a_words a) (a_pos a).

Definition apush (v : Z) (a : abs) : option abs :=
  match a_pos a with
  | O => None
  | S p => match a_words a !! p with
           | Some _ => Some (Abs (a_m a) (a_low a) (<[p := v]> (a_words a)) p)
           | None => None
           end
  end.
Definition apop (a : abs) : option (Z * abs) :=
  v ← a_words a !! a_pos a; Some (v, Abs (a_m a) (a_low a) (a_words a) (S (a_pos a))).
(** The stack pointer [k] words lower. *)
Definition ashift (k : Z) (a : abs) : option abs :=
  let p := Z.of_nat (a_pos a) - k in
  if (0 <=? p) && (p <=? Z.of_nat (length (a_words a)))
  then Some (Abs (a_m a) (a_low a) (a_words a) (Z.to_nat p)) else None.
(** The index of the word at an offset from the stack pointer. *)
Definition slot (off : Z) (a : abs) : option nat :=
  if (0 <=? off) && (off mod 8 =? 0) then Some (a_pos a + Z.to_nat (off / 8))%nat else None.
Definition astore (off v : Z) (a : abs) : option abs :=
  k ← slot off a;
  match a_words a !! k with
  | Some _ => Some (Abs (a_m a) (a_low a) (<[k := v]> (a_words a)) (a_pos a))
  | None => None
  end.
Definition aload (off : Z) (a : abs) : option Z := k ← slot off a; a_words a !! k.

(** Only the operations above move the stack pointer. *)
Definition aset (r : reg) (v : Z) (a : abs) : option abs :=
  if decide (r = RSP) then None else Some (with_m (set_reg r v) a).

Definition astep (i : instr) (a : abs) : option abs :=
  match i with
  | Push r => apush (a_reg a r) a
  | PushI i => apush (u64 i) a
  | Pop r => '(v, a) ← apop a; aset r v a
  | Pushf => apush (m_flags (a_m a)) a
  | Popf => '(v, a) ← apop a; Some (with_m (set_flags v) a)
  | Mov src dst => aset dst (a_reg a src) a
  | Store src off RSP => astore off (a_reg a src) a
  | StoreI i off RSP => astore off (u64 i) a
  | Load off RSP dst => v ← aload off a; aset dst v a
  | AddI i RSP => if i mod 8 =? 0 then ashift (- i / 8) a else None
  | SubI i RSP => if i mod 8 =? 0 then ashift (i / 8) a else None
  | Cld => Some (with_m (λ m, set_flags (set_flag DF false (m_flags m)) m) a)
  | Sti => Some (with_m (λ m, set_flags (set_flag IF_ true (m_flags m)) m) a)
  | Cli => Some (with_m (λ m, set_flags (set_flag IF_ false (m_flags m)) m) a)
  | Nop => Some a
  | Swapgs => Some (with_m (λ m, set_gs (m_kgs m) (m_gs m) m) a)
  | _ => None
  end.
Fixpoint arun (l : list instr) (a : abs) : option abs :=
  match l with [] => Some a | i :: l' => a ← astep i a; arun l' a end.

(** The machine [m] is in the state [a]: equal but for the stack pointer and
    memory, and the stack in memory. *)
Record view (a : abs) (m : mach) : Prop := {
  v_reg r : m_reg m r = a_reg a r;
  v_flags : m_flags m = m_flags (a_m a);
  v_cs : m_cs m = m_cs (a_m a);
  v_sel s : m_sel m s = m_sel (a_m a) s;
  v_gs : m_gs m = m_gs (a_m a) ∧ m_kgs m = m_kgs (a_m a);
  v_tab : m_gdtr m = m_gdtr (a_m a) ∧ m_tr m = m_tr (a_m a);
  v_low : a_low a mod 8 = 0 ∧ 0 ≤ a_low a ∧ a_low a + 8 * Z.of_nat (length (a_words a)) < 2 ^ 64;
  v_pos : (a_pos a ≤ length (a_words a))%nat;
  v_words i w : a_words a !! i = Some w → m_mem m !! (a_low a + 8 * Z.of_nat i) = Some w
}.
(** Memory outside the stack is the same. *)
Definition elsewhere (a : abs) (m m' : mach) : Prop :=
  ∀ x, ¬ a_low a ≤ x < a_low a + 8 * Z.of_nat (length (a_words a)) → m_mem m' !! x = m_mem m !! x.
Definition same_stack (a b : abs) : Prop := a_low a = a_low b ∧ length (a_words a) = length (a_words b).

Lemma view_word a m i w : view a m → a_words a !! i = Some w → word_at m (a_low a + 8 * Z.of_nat i) = Some w.
Proof.
  intros V E. unfold word_at. destruct (v_low _ _ V) as (H & _).
  rewrite (proj2 (Z.eqb_eq _ 0)) by (rewrite Z.mul_comm, Z_mod_plus_full; done). by apply (v_words _ _ V).
Qed.

(** The view after a word of the stack was written. *)
Lemma view_put a m i w v : view a m → a_words a !! i = Some w →
  ∃ m', put_word (a_low a + 8 * Z.of_nat i) v m = Some m'
    ∧ view (Abs (a_m a) (a_low a) (<[i := v]> (a_words a)) (a_pos a)) m' ∧ elsewhere a m m'
    ∧ m' = set_mem (m_mem m') m.
Proof.
  intros V E. unfold put_word. rewrite (view_word a m i w V E). eexists. split; [done|].
  pose proof (lookup_lt_Some _ _ _ E) as Hi. destruct V as [V1 V2 V3 V4 V5 V6 V7 V8 V9]. split_and!.
  - split; cbn [a_m a_low a_words a_pos m_reg m_flags m_cs m_sel m_gs m_kgs m_gdtr m_tr m_mem set_mem]; try done.
    + by rewrite length_insert.
    + by rewrite length_insert.
    + intros j x. rewrite list_lookup_insert. case_decide as Ej; intros Hx.
      * destruct Ej as [-> _]. injection Hx as ->. by rewrite lookup_insert_eq.
      * rewrite lookup_insert_ne; [by apply V9|]. intros Hij. apply Ej. split; lia.
  - intros x Hx. cbn. rewrite lookup_insert_ne; [done|]. lia.
  - done.
Qed.

Lemma elsewhere_refl a m : elsewhere a m m.
Proof. done. Qed.
Lemma elsewhere_trans a b m1 m2 m3 : same_stack a b → elsewhere a m1 m2 → elsewhere b m2 m3 → elsewhere a m1 m3.
Proof.
  intros [H1 H2] E1 E2 x Hx. rewrite E2; [by apply E1|]. by rewrite <- H1, <- H2.
Qed.

Lemma a_reg_other a r : r ≠ RSP → a_reg a r = m_reg (a_m a) r.
Proof. intros H. unfold a_reg. by rewrite decide_False. Qed.
Lemma a_reg_sp a : a_reg a RSP = a_sp a.
Proof. done. Qed.

(** Changes that do not concern the stack. *)
Lemma view_set a m r v : r ≠ RSP → view a m → view (with_m (set_reg r v) a) (set_reg r v m).
Proof.
  intros Hr [V1 V2 V3 V4 V5 V6 V7 V8 V9]. split; try done. intros x. cbn. unfold a_reg. cbn.
  destruct (decide (x = r)) as [->|Hx]; [by rewrite decide_False|]. rewrite V1. unfold a_reg. done.
Qed.
Lemma view_set_flags a m v : view a m → view (with_m (set_flags v) a) (set_flags v m).
Proof. intros []. by split. Qed.
Lemma view_swapgs a m : view a m →
  view (with_m (λ m, set_gs (m_kgs m) (m_gs m) m) a) (set_gs (m_kgs m) (m_gs m) m).
Proof. intros []. split; try done. cbn. naive_solver. Qed.
(** The stack pointer moves. *)
Lemma view_move a m p : view a m → (p ≤ length (a_words a))%nat →
  view (Abs (a_m a) (a_low a) (a_words a) p) (set_reg RSP (a_low a + 8 * Z.of_nat p) m).
Proof.
  intros [V1 V2 V3 V4 V5 V6 V7 V8 V9] Hp. split; try done. intros x. cbn. unfold a_reg, a_sp. cbn.
  case_decide; [done|]. rewrite V1. unfold a_reg. by rewrite decide_False.
Qed.

Lemma sp_range a m k : view a m → 0 ≤ Z.of_nat (a_pos a) + k ≤ Z.of_nat (length (a_words a)) →
  u64 (a_sp a + 8 * k) = a_low a + 8 * Z.of_nat (Z.to_nat (Z.of_nat (a_pos a) + k)).
Proof.
  intros V Hk. destruct (v_low _ _ V) as (_ & H1 & H2). unfold a_sp. rewrite Z2Nat.id by lia. rewrite u64_small; lia.
Qed.

Lemma push_sound a a' m v : view a m → apush v a = Some a' →
  ∃ m', push v m = Some m' ∧ view a' m' ∧ elsewhere a m m' ∧ same_stack a a'.
Proof.
  intros V. unfold apush, push. destruct (a_pos a) as [|p] eqn:Ep; [done|].
  destruct (a_words a !! p) as [w|] eqn:Ew; [|done]. intros [= <-].
  rewrite (v_reg _ _ V), a_reg_sp. replace (a_sp a - 8) with (a_sp a + 8 * -1) by lia.
  pose proof (lookup_lt_Some _ _ _ Ew). rewrite (sp_range a m (-1) V) by lia.
  replace (Z.to_nat (Z.of_nat (a_pos a) + -1)) with p by lia.
  destruct (view_put a m p w v V Ew) as (m' & E & V' & Hel & _). rewrite E. eexists. split; [done|]. split_and!.
  - apply (view_move _ _ p V'). cbn. rewrite length_insert. lia.
  - done.
  - split; [done|]. cbn. by rewrite length_insert.
Qed.
Lemma pop_sound a a' m v : view a m → apop a = Some (v, a') →
  ∃ m', pop m = Some (v, m') ∧ view a' m' ∧ m_mem m' = m_mem m ∧ same_stack a a'.
Proof.
  intros V. unfold apop, pop. destruct (a_words a !! a_pos a) as [w|] eqn:Ew; cbn [mbind option_bind]; [|done].
  intros [= <- <-]. rewrite (v_reg _ _ V), a_reg_sp.
  rewrite (view_word a m _ _ V Ew : word_at m (a_sp a) = Some w). cbn [mbind option_bind]. eexists. split; [done|]. split; [|done].
  pose proof (lookup_lt_Some _ _ _ Ew). replace (a_sp a + 8) with (a_sp a + 8 * 1) by lia.
  rewrite (sp_range a m 1 V) by lia. replace (Z.to_nat (Z.of_nat (a_pos a) + 1)) with (S (a_pos a)) by lia.
  apply view_move; [done|lia].
Qed.
Lemma shift_sound a a' m k : view a m → ashift k a = Some a' →
  view a' (set_reg RSP (u64 (a_sp a - 8 * k)) m) ∧ same_stack a a'.
Proof.
  intros V. unfold ashift. destruct (_ && _) eqn:E; [|done]. intros [= <-].
  apply andb_prop in E as [E1%Z.leb_le E2%Z.leb_le]. split; [|done].
  replace (a_sp a - 8 * k) with (a_sp a + 8 * - k) by lia. rewrite (sp_range a m (- k) V) by lia.
  replace (Z.of_nat (a_pos a) + - k) with (Z.of_nat (a_pos a) - k) by lia. apply view_move; [done|lia].
Qed.
Lemma slot_sound a m off k w : view a m → slot off a = Some k → a_words a !! k = Some w →
  u64 (a_sp a + off) = a_low a + 8 * Z.of_nat k.
Proof.
  intros V. unfold slot. destruct (_ && _) eqn:E; [|done]. intros [= <-] Hk%lookup_lt_Some.
  apply andb_prop in E as [E1%Z.leb_le E2%Z.eqb_eq]. assert (off = 8 * (off / 8)) as Eo by (Z.div_mod_to_equations; lia).
  rewrite Eo at 1. rewrite (sp_range a m (off / 8) V) by lia. f_equal. lia.
Qed.

Lemma astep_sound e i a a' m : view a m → astep i a = Some a' →
  ∃ m', step e i m = Fall m' ∧ view a' m' ∧ elsewhere a m m' ∧ same_stack a a'.
Proof.
  intros V.
  assert (Hpush : ∀ v, apush v a = Some a' →
    ∃ m', go (push v m) = Fall m' ∧ view a' m' ∧ elsewhere a m m' ∧ same_stack a a').
  { intros v E. destruct (push_sound a a' m v V E) as (m' & -> & H). by exists m'. }
  assert (Hset : ∀ r v b n, view b n → m_mem n = m_mem m → same_stack a b → aset r v b = Some a' →
    view a' (set_reg r v n) ∧ elsewhere a m (set_reg r v n) ∧ same_stack a a').
  { intros r v b n Vb Hn Hs. unfold aset. case_decide; [done|]. intros [= <-]. split; [by apply view_set|].
    split; [|done]. intros x _. cbn. by rewrite Hn. }
  assert (Hst : ∀ off v, astore off v a = Some a' →
    ∃ m', go (put_word (u64 (a_sp a + off)) v m) = Fall m' ∧ view a' m' ∧ elsewhere a m m' ∧ same_stack a a').
  { intros off v. unfold astore. destruct (slot off a) as [k|] eqn:Ek; cbn [mbind option_bind]; [|done].
    destruct (a_words a !! k) as [w|] eqn:Ew; [|done]. intros [= <-]. rewrite (slot_sound a m off k w V Ek Ew).
    destruct (view_put a m k w v V Ew) as (m' & -> & V' & He & _). exists m'. split; [done|].
    split; [done|]. split; [done|]. split; [done|]. cbn. by rewrite length_insert. }
  destruct i; cbn [astep step]; try done; rewrite ?(v_reg _ _ V), ?(v_flags _ _ V); try (by apply Hpush).
  - destruct (apop a) as [[v b]|] eqn:E; cbn [mbind option_bind]; [|done]. intros Hs.
    destruct (pop_sound a b m v V E) as (n & -> & Vb & Hn & Hss). eexists. split; [done|]. by apply (Hset r v b n).
  - destruct (apop a) as [[v b]|] eqn:E; cbn [mbind option_bind]; [|done]. intros [= <-].
    destruct (pop_sound a b m v V E) as (n & -> & Vb & Hn & Hss). eexists. split; [done|].
    split; [by apply view_set_flags|]. split; [|done]. intros x _. cbn. by rewrite Hn.
  - intros Hs. eexists. split; [done|]. by apply (Hset dst _ a m).
  - destruct base; try done. apply Hst.
  - destruct base; try done. apply Hst.
  - destruct base; try done. unfold aload. destruct (slot off a) as [k|] eqn:Ek; cbn [mbind option_bind]; [|done].
    destruct (a_words a !! k) as [w|] eqn:Ew; cbn [mbind option_bind]; [|done]. intros Hs.
    rewrite a_reg_sp, (slot_sound a m off k w V Ek Ew), (view_word a m k w V Ew). eexists. split; [done|].
    by apply (Hset dst w a m).
  - destruct dst; try done. destruct (Z.eqb_spec (i mod 8) 0) as [Hi|]; [|done]. intros Hs.
    destruct (shift_sound a a' m _ V Hs) as [V' Hss]. eexists. split; [done|]. split; [|done].
    rewrite a_reg_sp. replace (a_sp a + i) with (a_sp a - 8 * (- i / 8)) by (Z.div_mod_to_equations; lia). done.
  - destruct dst; try done. destruct (Z.eqb_spec (i mod 8) 0) as [Hi|]; [|done]. intros Hs.
    destruct (shift_sound a a' m _ V Hs) as [V' Hss]. eexists. split; [done|]. split; [|done].
    rewrite a_reg_sp. replace (a_sp a - i) with (a_sp a - 8 * (i / 8)) by (Z.div_mod_to_equations; lia). done.
  - intros [= <-]. eexists. split; [done|]. split; [by apply view_set_flags|done].
  - intros [= <-]. eexists. split; [done|]. split; [by apply view_set_flags|done].
  - intros [= <-]. eexists. split; [done|]. split; [by apply view_set_flags|done].
  - intros [= <-]. eexists. split; [done|]. split; [done|done].
  - intros [= <-]. eexists. split; [done|]. split; [by apply view_swapgs|done].
Qed.

(** Straight-line code runs as its view does. *)
Lemma arun_sound e seg : ∀ code pc a a' m, (∀ i x, seg !! i = Some x → code !! (pc + i)%nat = Some x) →
  view a m → arun seg a = Some a' →
  ∃ m', (∀ fuel, exec e (length seg + fuel) code pc m = exec e fuel code (pc + length seg) m')
    ∧ view a' m' ∧ elsewhere a m m' ∧ same_stack a a'.
Proof.
  induction seg as [|i seg IH]; intros code pc a a' m Hc V E.
  - injection E as <-. exists m. rewrite Nat.add_0_r. done.
  - cbn [arun] in E. destruct (astep i a) as [b|] eqn:Eb; cbn [mbind option_bind] in E; [|done].
    destruct (astep_sound e i a b m V Eb) as (m1 & E1 & V1 & H1 & S1).
    assert (Hc' : ∀ j x, seg !! j = Some x → code !! (S pc + j)%nat = Some x).
    { intros j x Hj. rewrite Nat.add_succ_l, <- Nat.add_succ_r. by apply Hc. }
    destruct (IH code (S pc) b a' m1 Hc' V1 E) as (m2 & E2 & V2 & H2 & S2). exists m2.
    split; [|split_and!; [done|by apply (elsewhere_trans a b m m1 m2)|]].
    + intros fuel. cbn [length Nat.add exec]. rewrite <- (Nat.add_0_r pc) at 1. rewrite (Hc 0%nat i) by done. rewrite E1, E2.
      f_equal. lia.
    + destruct S1, S2. split; congruence.
Qed.

(** The same, for a part of the code found by evaluation; with any fuel, and
    with a given one. *)
Lemma arun_from e seg code pc a a' m : take (length seg) (drop pc code) = seg →
  view a m → arun seg a = Some a' →
  ∃ m', (∀ fuel, exec e (length seg + fuel) code pc m = exec e fuel code (pc + length seg) m')
    ∧ view a' m' ∧ elsewhere a m m' ∧ same_stack a a'.
Proof.
  intros Hc. apply arun_sound. intros i x Hi. rewrite <- Hc in Hi. apply lookup_take_Some in Hi as [Hi _].
  by rewrite lookup_drop in Hi.
Qed.
Lemma arun_at e seg code pc a a' m fuel : take (length seg) (drop pc code) = seg →
  view a m → arun seg a = Some a' →
  ∃ m', exec e (length seg + fuel) code pc m = exec e fuel code (pc + length seg) m'
    ∧ view a' m' ∧ elsewhere a m m' ∧ same_stack a a'.
Proof. intros Hc V E. destruct (arun_from e seg code pc a a' m Hc V E) as (m' & E' & H). by exists m'. Qed.

(** ** Leaving a stack *)

Lemma view_load a m k w : view a m → a_words a !! (a_pos a + k)%nat = Some w →
  word_at m (u64 (m_reg m RSP + 8 * Z.of_nat k)) = Some w.
Proof.
  intros V E. rewrite (v_reg _ _ V), a_reg_sp. pose proof (lookup_lt_Some _ _ _ E).
  rewrite (sp_range a m (Z.of_nat k) V) by lia.
  replace (Z.to_nat (Z.of_nat (a_pos a) + Z.of_nat k)) with (a_pos a + k)%nat by lia. by apply view_word.
Qed.

(** The five words of [iretq] are popped, whatever they are. *)
Lemma iret_pops a m rip cs flags sp ss : view a m →
  take 5 (drop (a_pos a) (a_words a)) = [rip; cs; flags; sp; ss] →
  ∃ n, iret m = (if code_selector (u16 cs) && stack_selector (u16 cs) (u16 ss)
                 then To rip (set_reg RSP sp (set_sel SS (u16 ss) (set_flags flags (set_cs (u16 cs) n)))) else Fault)
    ∧ view (Abs (a_m a) (a_low a) (a_words a) (a_pos a + 5)) n ∧ m_mem n = m_mem m.
Proof.
  intros V Hw.
  assert (Hk : ∀ k w, [rip; cs; flags; sp; ss] !! k = Some w → a_words a !! (a_pos a + k)%nat = Some w).
  { intros k w. rewrite <- Hw. intros Hk. apply lookup_take_Some in Hk as [Hk _]. by rewrite lookup_drop in Hk. }
  assert (Hpop : ∀ k w n, [rip; cs; flags; sp; ss] !! k = Some w →
    view (Abs (a_m a) (a_low a) (a_words a) (a_pos a + k)) n →
    ∃ n', pop n = Some (w, n') ∧ view (Abs (a_m a) (a_low a) (a_words a) (a_pos a + S k)) n' ∧ m_mem n' = m_mem n).
  { intros k w n Ew Vn. edestruct pop_sound as (n' & En & Vn' & Hn & _); [exact Vn| |].
    - unfold apop. cbn [a_words a_pos]. rewrite (Hk k w Ew). reflexivity.
    - exists n'. split; [done|]. by rewrite Nat.add_succ_r. }
  assert (V0 : view (Abs (a_m a) (a_low a) (a_words a) (a_pos a + 0)) m) by (rewrite Nat.add_0_r; by destruct a).
  unfold iret.
  destruct (Hpop 0%nat rip m eq_refl V0) as (m1 & -> & V1 & H1).
  destruct (Hpop 1%nat cs m1 eq_refl V1) as (m2 & -> & V2 & H2).
  destruct (Hpop 2%nat flags m2 eq_refl V2) as (m3 & -> & V3 & H3).
  destruct (Hpop 3%nat sp m3 eq_refl V3) as (m4 & -> & V4 & H4).
  destruct (Hpop 4%nat ss m4 eq_refl V4) as (m5 & -> & V5 & H5).
  exists m5. split; [done|]. split; [done|congruence].
Qed.

Lemma iret_sound a m rip cs flags sp ss : view a m →
  take 5 (drop (a_pos a) (a_words a)) = [rip; cs; flags; sp; ss] → code_selector cs = true → stack_selector cs ss = true →
  ∃ m', iret m = To rip m' ∧ (∀ r, m_reg m' r = if decide (r = RSP) then sp else m_reg (a_m a) r)
    ∧ m_flags m' = flags ∧ m_cs m' = cs ∧ (∀ s, m_sel m' s = if decide (s = SS) then ss else m_sel (a_m a) s)
    ∧ m_gs m' = m_gs (a_m a) ∧ m_kgs m' = m_kgs (a_m a) ∧ m_mem m' = m_mem m.
Proof.
  intros V Hw Hcs Hss. destruct (iret_pops a m rip cs flags sp ss V Hw) as (m5 & E & V5 & H5).
  pose proof (code_selector_small _ Hcs). pose proof (stack_selector_small _ _ Hss).
  unfold u16 in E. rewrite !Z.mod_small in E by lia. rewrite Hcs, Hss in E.
  eexists. split; [exact E|]. cbn. split_and!; try done.
  - intros r. case_decide; [done|]. by rewrite (v_reg _ _ V5), a_reg_other.
  - intros s. case_decide; [done|]. apply (v_sel _ _ V5).
  - apply (v_gs _ _ V5).
  - apply (v_gs _ _ V5).
Qed.

(** ** Windows of memory *)

(** The words [ws] are in memory from [low] on. *)
Definition window (m : mach) (low : Z) (ws : list Z) : Prop :=
  low mod 8 = 0 ∧ 0 ≤ low ∧ low + 8 * Z.of_nat (length ws) < 2 ^ 64
  ∧ ∀ i w, ws !! i = Some w → m_mem m !! (low + 8 * Z.of_nat i) = Some w.

(** The stack pointer is put into a window. *)
Lemma window_view m low ws p : window m low ws → (p ≤ length ws)%nat →
  view (Abs m low ws p) (set_reg RSP (low + 8 * Z.of_nat p) m).
Proof.
  by intros (H1 & H2 & H3 & H4) Hp; split.
Qed.
Lemma view_window a m : view a m → window m (a_low a) (a_words a).
Proof. intros V. destruct (v_low _ _ V) as (H1 & H2 & H3). split_and!; [done..|]. apply (v_words _ _ V). Qed.
Lemma view_of_window m low ws p : window m low ws → (p ≤ length ws)%nat → m_reg m RSP = low + 8 * Z.of_nat p →
  view (Abs m low ws p) m.
Proof.
  intros (H1 & H2 & H3 & H4) Hp Hsp. split; try done. intros r. unfold a_reg, a_sp. cbn. case_decide; [by subst|done].
Qed.
Lemma window_keep m m' low ws : window m low ws →
  (∀ x, low ≤ x < low + 8 * Z.of_nat (length ws) → m_mem m' !! x = m_mem m !! x) → window m' low ws.
Proof.
  intros (H1 & H2 & H3 & H4) H. split_and!; [done..|]. intros i w Hi. rewrite H; [by apply H4|].
  apply lookup_lt_Some in Hi. lia.
Qed.

(** Windows by evaluation. *)
Fixpoint words_b (mem : gmap Z Z) (a : Z) (ws : list Z) : bool :=
  match ws with [] => true | w :: ws' => bool_decide (mem !! a = Some w) && words_b mem (a + 8) ws' end.
Definition window_b (m : mach) (low : Z) (ws : list Z) : bool :=
  (low mod 8 =? 0) && (0 <=? low) && (low + 8 * Z.of_nat (length ws) <? 2 ^ 64) && words_b (m_mem m) low ws.
Lemma words_b_ok mem a ws : words_b mem a ws = true →
  ∀ i w, ws !! i = Some w → mem !! (a + 8 * Z.of_nat i) = Some w.
Proof.
  revert a. induction ws as [|x ws IH]; intros a H [|i] w E; [done..| |]; cbn in H; apply andb_prop in H as [H1 H2].
  - injection E as <-. rewrite Z.add_0_r. by apply bool_decide_eq_true in H1.
  - rewrite <- (IH _ H2 i w E). f_equal. lia.
Qed.
Lemma window_b_ok m low ws : window_b m low ws = true → window m low ws.
Proof.
  unfold window_b. intros [[[H1%Z.eqb_eq H2%Z.leb_le]%andb_prop H3%Z.ltb_lt]%andb_prop H4]%andb_prop.
  split_and!; [done..|]. by apply words_b_ok.
Qed.
(** A memory of words from [low] on. *)
Fixpoint mem_of (low : Z) (ws : list Z) : gmap Z Z :=
  match ws with [] => ∅ | w :: ws' => <[low := w]> (mem_of (low + 8) ws') end.

(** ** C functions *)

Definition callee_saved : list reg := [RBX; RBP; RSP; R12; R13; R14; R15].
(** Nothing the caller relies on changes: the registers of the calling
    convention, segments, and the words of the stack in use, up to [top].  The
    stack segment and the gs base that [swapgs] brings in may change: a routine
    that is switched away and back may find those of another process, and
    [post_stack_switch] writes the latter. *)
Record kept (top : Z) (m m' : mach) : Prop := {
  k_saved r : r ∈ callee_saved → m_reg m' r = m_reg m r;
  k_cs : m_cs m' = m_cs m;
  k_sel s : s ≠ SS → m_sel m' s = m_sel m s;
  k_gs : m_gs m' = m_gs m;
  k_stack x : m_reg m RSP ≤ x < top → m_mem m' !! x = m_mem m !! x
}.
Definition polite (top : Z) (f : mach → option mach) : Prop := ∀ m, ∃ m', f m = Some m' ∧ kept top m m'.

(** ** Frames *)

Lemma apush_app M low l x t v : apush v (Abs M low (l ++ x :: t) (S (length l))) = Some (Abs M low (l ++ v :: t) (length l)).
Proof.
  unfold apush. cbn [a_pos a_words a_m a_low]. rewrite list_lookup_middle by done.
  rewrite <- (Nat.add_0_r (length l)) at 1. by rewrite insert_app_r.
Qed.
Lemma pushes_sound M low pre vs : ∀ xs t m, length xs = length vs →
  view (Abs M low (pre ++ xs ++ t) (length pre + length xs)) m →
  ∃ m', pushes vs m = Some m' ∧ view (Abs M low (pre ++ reverse vs ++ t) (length pre)) m'
    ∧ elsewhere (Abs M low (pre ++ xs ++ t) 0) m m'.
Proof.
  induction vs as [|v vs IH]; intros xs t m Hl V.
  { destruct xs; [|done]. exists m. rewrite Nat.add_0_r in V. done. }
  destruct xs as [|y ys _] using rev_ind; [done|]. rewrite length_app in Hl, V. cbn in Hl, V.
  rewrite <- app_assoc, app_assoc in V. cbn [app] in V.
  replace (length pre + (length ys + 1))%nat with (S (length (pre ++ ys))) in V by (rewrite length_app; lia).
  destruct (push_sound _ _ m v V (apush_app M low (pre ++ ys) y t v)) as (m1 & E1 & V1 & H1 & _).
  rewrite length_app, <- app_assoc in V1.
  destruct (IH ys (v :: t) m1 ltac:(lia) V1) as (m2 & E2 & V2 & H2). exists m2. split_and!.
  - cbn [pushes]. rewrite E1. exact E2.
  - rewrite reverse_cons, <- app_assoc. exact V2.
  - intros x Hx. unfold elsewhere in *. cbn [a_low a_words] in *. rewrite !length_app in *. cbn in *.
    rewrite H2, H1; [done|rewrite ?length_app; cbn; lia..].
Qed.

(** An interrupt writes its frame at the end of a window. *)
Lemma deliver_ok rsp0 rip err m low pre xs :
  let vs := [m_sel m SS; m_reg m RSP; m_flags m; m_cs m; rip] ++ option_list err in
  length xs = length vs → window m low (pre ++ xs) → frame_base rsp0 m = low + 8 * Z.of_nat (length (pre ++ xs)) →
  ∃ m', deliver rsp0 rip err m = Some m' ∧ view (Abs (handler_mode m) low (pre ++ reverse vs) (length pre)) m'
    ∧ ∀ x, ¬ low ≤ x < frame_base rsp0 m → m_mem m' !! x = m_mem m !! x.
Proof.
  intros vs Hl Hw Hb. pose proof (window_view m low (pre ++ xs) (length (pre ++ xs)) Hw ltac:(lia)) as V.
  rewrite <- Hb in V. rewrite <- (app_nil_r xs) in V at 1. rewrite length_app in V.
  destruct (pushes_sound m low pre vs xs [] _ Hl V) as (m1 & E1 & V1 & H1). rewrite app_nil_r in V1.
  exists (handler_mode m1). split; [|split].
  - unfold deliver. fold vs. by rewrite E1.
  - destruct V1 as [W1 W2 W3 W4 W5 W6 W7 W8 W9]. cbn [a_m a_low a_words a_pos] in *.
    assert (in_user m1 = in_user m) as Hu by (unfold in_user; by rewrite W3).
    unfold handler_mode. rewrite Hu. split; cbn [a_m a_low a_words a_pos]; try done.
    + intros r. rewrite <- W1 || idtac. specialize (W1 r). unfold a_reg, a_sp in *. cbn in *. by destruct (in_user m).
    + cbn. by rewrite W2.
    + intros s. specialize (W4 s). destruct (in_user m); cbn; [by rewrite W4|done].
    + by destruct (in_user m).
    + by destruct (in_user m).
    + intros i w. specialize (W9 i w). by destruct (in_user m).
  - intros x Hx. assert (m_mem (handler_mode m1) = m_mem m1) as -> by (unfold handler_mode; by destruct (in_user m1)).
    rewrite (H1 x); [done|]. cbn [a_low a_words]. rewrite app_nil_r, length_app in *. lia.
Qed.

Lemma polite_id top : polite top Some.
Proof. intros m. exists m. by split. Qed.
