(* ===== verification/Entry.v ===== *)
(** * Entry points (sys/do_syscall.s, sys/page_fault_handler.s, sys/scheduler.s,
    sys/task.s, sys/gdt.s, and the inline assembly of pit.c, keyboard.c and
    common.c)

    The routines as instruction lists, and what they keep: the interrupted
    program, the user registers around a system call, the registers of a
    process that is switched away. *)

From S2P Require Export Asm.

(** ** Interrupt wrappers *)

Definition i86_pit_wrapper : list instr :=
  [Push RAX; Push RBX; Push RCX; Push RDX; Push RBP; Push RDI; Push RSI; Push R8; Push R9; Push R10; Push R11;
   Push R12; Push R13; Push R14; Push R15;
   Cld; Call "i86_pit_irq";
   Pop R15; Pop R14; Pop R13; Pop R12; Pop R11; Pop R10; Pop R9; Pop R8; Pop RSI; Pop RDI; Pop RBP; Pop RDX;
   Pop RCX; Pop RBX; Pop RAX; Iret].
Definition i86_keyboard_wrapper : list instr :=
  [Push RAX; Push RBX; Push RCX; Push RDX; Push RBP; Push RDI; Push RSI; Push R8; Push R9; Push R10; Push R11;
   Push R12; Push R13; Push R14; Push R15;
   Cld; Call "i86_keyboard_irq";
   Pop R15; Pop R14; Pop R13; Pop R12; Pop R11; Pop R10; Pop R9; Pop R8; Pop RSI; Pop RDI; Pop RBP; Pop RDX;
   Pop RCX; Pop RBX; Pop RAX; Iret].
Definition default_handler : list instr :=
  [Push RAX; Push RBX; Push RCX; Push RDX; Push RBP; Push RDI; Push RSI; Push R8; Push R9; Push R10; Push R11;
   Push R12; Push R13; Push R14; Push R15;
   Cld; Nop;
   Pop R15; Pop R14; Pop R13; Pop R12; Pop R11; Pop R10; Pop R9; Pop R8; Pop RSI; Pop RDI; Pop RBP; Pop RDX;
   Pop RCX; Pop RBX; Pop RAX; Iret].

Definition enable_all_interrupts : list instr := [Sti; Ret].
Definition disable_all_interrupts : list instr := [Cli; Ret].

(** ** Page faults *)

Definition i86_page_fault_handler : list instr :=
  [AddI (-120) RSP; Cld;
   Store R11 (6 * 8) RSP; Store R10 (7 * 8) RSP; Store R9 (8 * 8) RSP; Store R8 (9 * 8) RSP; Store RAX (10 * 8) RSP;
   Store RCX (11 * 8) RSP; Store RDX (12 * 8) RSP; Store RSI (13 * 8) RSP; Store RDI (14 * 8) RSP;
   Store RBX (5 * 8) RSP; Store RBP (4 * 8) RSP; Store R12 (3 * 8) RSP; Store R13 (2 * 8) RSP; Store R14 (1 * 8) RSP;
   Store R15 (0 * 8) RSP;
   Mov RSP RDI; Call "copy_regs"; Mov RAX RSP; Mov RSP RDI;
   Load (15 * 8) RSP RSI; StoreI (-1) (15 * 8) RSP;
   Call "page_fault_handler";
   Cli; Pop R15; Pop R14; Pop R13; Pop R12; Pop RBP; Pop RBX; Pop R11; Pop R10; Pop R9; Pop R8; Pop RAX; Pop RCX;
   Pop RDX; Pop RSI; Pop RDI; SubI (-8) RSP; Iret].

(** ** System calls *)

Definition do_syscalls : list instr :=
  [Swapgs; StoreGs RSP 8; LoadGs 0 RSP;
   PushI 0x23; PushGs 8; Sti; Push R11; PushI 0x2B; Push RCX; Push RAX; Push RDI; Push RSI; Push RDX; Push RCX;
   PushI (-1); Push R8; Push R9; Push R10; Push R11; SubI (6 * 8) RSP;
   CmpLabel "syscall_max" RAX; Ja 24; Mov R10 RCX; CallTable RAX;
   Cli; Store RAX 80 RSP; Load 128 RSP RCX; Load 144 RSP R11; Load 56 RSP R10; Load 64 RSP R9; Load 72 RSP R8;
   Load 80 RSP RAX; Load 96 RSP RDX; Load 104 RSP RSI; Load 112 RSP RDI; Load 152 RSP RSP;
   Swapgs; Sysret].

Definition ret_from_fork_code : list instr :=
  [AndR RBX RBX; Jnz 20;
   Call "switch_to_user_cr3";
   Load 0 RSP R15; Load 8 RSP R14; Load 16 RSP R13; Load 24 RSP R12; Load 32 RSP RBP; Load 40 RSP RBX;
   Load 48 RSP R11; Load 56 RSP R10; Load 64 RSP R9; Load 72 RSP R8; Load 80 RSP RAX; Load 88 RSP RCX;
   Load 96 RSP RDX; Load 104 RSP RSI; Load 112 RSP RDI; SubI (-128) RSP; Iret;
   Mov R12 RDI; CallR RBX; StoreI 0 80 RSP; Jmp 2].

(** ** Switching stacks *)

Definition do_switch_code : list instr :=
  [Push RBP; Push RBX; Push R12; Push R13; Push R14; Push R15; Store RSP 8 RDI; Load 8 RSI RSP;
   Pop R15; Pop R14; Pop R13; Pop R12; Pop RBX; Pop RBP; JmpTo "post_stack_switch"].

Definition switch_task : list instr :=
  [Push RAX; Push RBX; Push RCX; Push RDX; Push RBP; Push RSI; Push RDI; Push R8; Push R9; Push R10; Push R11;
   Push R12; Push R13; Push R14; Push R15; Pushf;
   Store RSP 8 RDI; Load 8 RSI RSP;
   Popf; Pop R15; Pop R14; Pop R13; Pop R12; Pop R11; Pop R10; Pop R9; Pop R8; Pop RDI; Pop RSI; Pop RBP; Pop RDX;
   Pop RCX; Pop RBX; Pop RAX; Ret].

(** ** Descriptor tables *)

(** The far return goes to the label after it. *)
Definition x86_64_asm_lgdt : list instr := [Lgdt RDI; Push RSI; MovLabel ".done" R10; Push R10; Lret].
Definition lgdt_done : list instr := [MovSeg RDX ES; MovSeg RDX FS; MovSeg RDX GS; MovSeg RDX DS; MovSeg RDX SS; Ret].
Definition x86_64_asm_ltr : list instr := [Ltr RDI; Ret].

(** ** Saving the registers of an interrupted program *)

Definition saved_regs : list reg := [RAX; RBX; RCX; RDX; RBP; RDI; RSI; R8; R9; R10; R11; R12; R13; R14; R15].
Definition saves : list instr := Push <$> saved_regs.
Definition restores : list instr := Pop <$> reverse saved_regs.

(** The program goes on as if nothing had happened. *)
Record resumed (m m' : mach) : Prop := {
  r_reg r : m_reg m' r = m_reg m r;
  r_flags : m_flags m' = m_flags m;
  r_cs : m_cs m' = m_cs m;
  r_sel s : m_sel m' s = m_sel m s;
  r_gs : m_gs m' = m_gs m
}.

Definition CLD (m : mach) : mach := set_flags (set_flag DF false (m_flags m)) m.
Lemma arun_saves_cld M low xs t : length xs = 15%nat →
  arun (saves ++ [Cld]) (Abs M low (xs ++ t) 15) = Some (Abs (CLD M) low ((m_reg M <$> reverse saved_regs) ++ t) 0).
Proof. intros H. do 15 (destruct xs as [|? xs]; [done|]). by destruct xs. Qed.

(** The registers of [l], loaded with the values [f]. *)
Definition reload (f : reg → Z) (l : list reg) (M : mach) : mach := foldl (λ M r, set_reg r (f r) M) M l.
Lemma arun_restores f M low t : arun restores (Abs M low ((f <$> reverse saved_regs) ++ t) 0)
  = Some (Abs (reload f (reverse saved_regs) M) low ((f <$> reverse saved_regs) ++ t) 15).
Proof. done. Qed.
Lemma arun_nop_restores f M low t : arun (Nop :: restores) (Abs M low ((f <$> reverse saved_regs) ++ t) 0)
  = Some (Abs (reload f (reverse saved_regs) M) low ((f <$> reverse saved_regs) ++ t) 15).
Proof. done. Qed.
Lemma reload_reg f l M r : m_reg (reload f l M) r = if decide (r ∈ l) then f r else m_reg M r.
Proof.
  revert M. induction l as [|x l IH]; intros M; [done|]. cbn [reload foldl]. change (foldl _ ?n l) with (reload f l n).
  rewrite IH. cbn. destruct (decide (r ∈ l)) as [H|H]; [by rewrite decide_True by set_solver|].
  case_decide as Hx; [subst; by rewrite decide_True by set_solver|]. by rewrite decide_False by set_solver.
Qed.
Lemma reload_rest f l M : m_flags (reload f l M) = m_flags M ∧ m_cs (reload f l M) = m_cs M
  ∧ m_sel (reload f l M) = m_sel M ∧ m_gs (reload f l M) = m_gs M ∧ m_kgs (reload f l M) = m_kgs M.
Proof. revert M. induction l as [|r l IH]; intros M; [done|]. apply (IH (set_reg r (f r) M)). Qed.
Lemma all_saved r : r ≠ RSP → r ∈ reverse saved_regs.
Proof. intros H. apply (bool_decide_unpack _). by destruct r. Qed.

Lemma handler_mode_facts m : (∀ r, m_reg (handler_mode m) r = m_reg m r) ∧ m_gs (handler_mode m) = m_gs m
  ∧ m_kgs (handler_mode m) = m_kgs m ∧ (∀ s, s ≠ SS → m_sel (handler_mode m) s = m_sel m s).
Proof.
  unfold handler_mode. destruct (in_user m); split_and!; try done. intros s Hs. cbn. by rewrite decide_False.
Qed.

(** A C function leaves the stack in use as it is. *)
Lemma polite_view top f a m : polite top f → view a m → a_pos a = 0%nat →
  a_low a + 8 * Z.of_nat (length (a_words a)) ≤ top →
  ∃ m', f m = Some m' ∧ kept top m m' ∧ view (Abs m' (a_low a) (a_words a) 0) m'.
Proof.
  intros P V Hp Ht. destruct (P m) as (m' & E & K). exists m'. split; [done|]. split; [done|].
  assert (m_reg m RSP = a_low a) as Hsp by (rewrite (v_reg _ _ V), a_reg_sp; unfold a_sp; rewrite Hp; lia).
  apply view_of_window; [|lia|].
  - apply (window_keep m); [by apply view_window|]. intros x Hx. apply (k_stack _ _ _ K). lia.
  - rewrite (k_saved _ _ _ K) by reg_mem. lia.
Qed.

(** A wrapper: save, run something polite, restore, return. *)
Definition wrapper (mid : instr) : list instr := (saves ++ [Cld]) ++ mid :: restores ++ [Iret].

Lemma wrapper_resumes e mid h rsp0 rip m low ws : (∀ m, step e mid m = go (h m)) → selectors_ok m → polite (frame_base rsp0 m) h →
  window m low ws → length ws = 20%nat → frame_base rsp0 m = low + 160 →
  ∃ m1 m2 m3 m4, deliver rsp0 rip None m = Some m1 ∧ exec e 33 (wrapper mid) 0 m1 = Left rip m4 ∧ resumed m m4
    ∧ (∀ x, ¬ low ≤ x < frame_base rsp0 m → m_mem m2 !! x = m_mem m !! x)
    ∧ h m2 = Some m3 ∧ (∀ x, ¬ low ≤ x < frame_base rsp0 m → m_mem m4 !! x = m_mem m3 !! x).
Proof.
  intros Hmid [Hcs Hss] Hh Hw Hl Hb. rewrite <- (take_drop 15 ws) in Hw.
  assert (length (take 15 ws) = 15%nat) as L1 by (rewrite length_take; lia).
  assert (length (drop 15 ws) = 5%nat) as L2 by (rewrite length_drop; lia).
  destruct (deliver_ok rsp0 rip None m low (take 15 ws) (drop 15 ws)) as (m1 & E1 & V1 & H1); [done..|rewrite length_app; lia|].
  set (frame := reverse _) in V1. rewrite L1 in V1.
  destruct (arun_at e (saves ++ [Cld]) (wrapper mid) 0 _ _ m1 17 eq_refl V1 (arun_saves_cld _ low _ frame L1))
    as (m2 & E2 & V2 & H2 & _).
  destruct (polite_view _ h _ m2 Hh V2 eq_refl) as (m3 & E3 & K3 & V3).
  { cbn. lia. }
  destruct (arun_at e restores (wrapper mid) 17 _ _ m3 1 eq_refl V3 (arun_restores _ m3 low frame))
    as (m4 & E4 & V4 & H4 & _).
  destruct (iret_sound _ m4 rip (m_cs m) (m_flags m) (m_reg m RSP) (m_sel m SS) V4 eq_refl Hcs Hss) as (m5 & E5 & R1 & R2 & R3 & R4 & R5 & R6 & R7).
  exists m1, m2, m3, m5. destruct (handler_mode_facts m) as (F1 & F2 & F3 & F4).
  destruct (reload_rest (m_reg (handler_mode m)) (reverse saved_regs) m3) as (G1 & G2 & G3 & G4 & G5).
  split_and!; [done| | | |done|].
  - change 33%nat with (length (saves ++ [Cld]) + 17)%nat. rewrite E2.
    change 17%nat with (S (length restores + 1)) at 1. cbn [exec].
    change (wrapper mid !! (0 + length (saves ++ [Cld]))%nat) with (Some mid). cbn [mbind]. rewrite Hmid, E3. cbn [go].
    change (S (0 + length (saves ++ [Cld]))) with 17%nat. rewrite E4. cbn [exec].
    change (wrapper mid !! _) with (Some Iret). cbn [step]. by rewrite E5.
  - split; cbn [a_m] in *.
    + intros r. rewrite R1. case_decide as Hr; [by rewrite Hr|]. rewrite reload_reg, decide_True by by apply all_saved. apply F1.
    + done.
    + done.
    + intros s. rewrite R4, G3. case_decide as Hs; [by rewrite Hs|]. rewrite (k_sel _ _ _ K3 s Hs), (v_sel _ _ V2). by apply F4.
    + by rewrite R5, G4, (k_gs _ _ _ K3), (proj1 (v_gs _ _ V2)).
  - intros x Hx. rewrite (H2 x); [by apply H1|]. cbn [a_low a_words]. rewrite length_app, L1. cbn. lia.
  - intros x Hx. rewrite R7, (H4 x); [done|]. cbn [a_low a_words]. rewrite length_app. cbn. lia.
Qed.

(** The handlers of interrupts without an error code, with what each runs. *)
Definition handlers (e : env) : list (list instr * (mach → option mach)) :=
  [(i86_pit_wrapper, e_call e "i86_pit_irq"); (i86_keyboard_wrapper, e_call e "i86_keyboard_irq"); (default_handler, Some)].

(** C14: an interrupt through the timer, keyboard or default handler is
    invisible to the program it interrupts, in user or kernel mode, on the code
    and stack segments of the descriptor table: the
    processor's frame and the fifteen saved registers need twenty words below the
    frame base, and when the C routine keeps its calling convention the
    program goes on at the same address with every register, the flags, the
    segments and its stack pointer as they were; outside those words memory is
    as the C routine, which saw the memory of the interrupted program, left it. *)
Theorem interrupts_are_transparent e rsp0 rip m low ws code h : (code, h) ∈ handlers e → selectors_ok m →
  polite (frame_base rsp0 m) h → window m low ws → length ws = 20%nat → frame_base rsp0 m = low + 160 →
  ∃ m1 m2 m3 m4, deliver rsp0 rip None m = Some m1 ∧ exec e 33 code 0 m1 = Left rip m4 ∧ resumed m m4
    ∧ (∀ x, ¬ low ≤ x < frame_base rsp0 m → m_mem m2 !! x = m_mem m !! x)
    ∧ h m2 = Some m3 ∧ (∀ x, ¬ low ≤ x < frame_base rsp0 m → m_mem m4 !! x = m_mem m3 !! x).
Proof.
  intros Hc. unfold handlers in Hc. rewrite !elem_of_cons in Hc.
  destruct Hc as [[= -> ->] | [[= -> ->] | [[= -> ->] | []%elem_of_nil]]].
  - by apply (wrapper_resumes e (Call "i86_pit_irq")).
  - by apply (wrapper_resumes e (Call "i86_keyboard_irq")).
  - by apply (wrapper_resumes e Nop).
Qed.

(** A user program with numbered registers, interrupted by the timer: its C
    routine changes the registers it may and a word of the kernel's data. *)
Definition ex_user : mach :=
  Mach (λ r, match r with RAX => 1 | RBX => 2 | RCX => 3 | RDX => 4 | RSI => 5 | RDI => 6 | RBP => 7 | RSP => 0x7000
             | R8 => 8 | R9 => 9 | R10 => 10 | R11 => 11 | R12 => 12 | R13 => 13 | R14 => 14 | R15 => 15 end)
    (<[0x9000 := 0]> (mem_of 0x1000 (replicate 64 0))) 0x202 0x2B (λ s, match s with SS => 0x23 | _ => 0 end) 0x5000 0x9000 0 0.
Definition ex_clobber (m : mach) : option mach := Some (set_reg RAX 77 (set_reg R11 78 (set_mem (<[0x9000 := 79]> (m_mem m)) m))).
Definition ex_env : env := Env (λ _, ex_clobber) (λ _, ex_clobber) (λ _, ex_clobber) (λ _, 0xffffffff80001000) 0x1B.
Lemma ex_clobber_polite : polite 0x1200 ex_clobber.
Proof.
  intros m. eexists. split; [done|]. split; try done.
  - intros r Hr. cbn. destruct r; try done; exfalso; revert Hr; reg_mem.
  - intros x Hx. cbn. rewrite lookup_insert_ne; [done|lia].
Qed.
Lemma interrupts_are_transparent_witness : ∃ m1 m4, deliver 0x1200 0x400000 None ex_user = Some m1
  ∧ exec ex_env 33 i86_pit_wrapper 0 m1 = Left 0x400000 m4 ∧ resumed ex_user m4 ∧ m_mem m4 !! 0x9000 = Some 79.
Proof.
  destruct (interrupts_are_transparent ex_env 0x1200 0x400000 ex_user 0x1160 (replicate 20 0) i86_pit_wrapper ex_clobber)
    as (m1 & m2 & m3 & m4 & H1 & H2 & H3 & H4 & H5 & H6).
  - left.
  - split; vm_compute; reflexivity.
  - exact ex_clobber_polite.
  - apply window_b_ok. vm_compute. reflexivity.
  - reflexivity.
  - vm_compute. reflexivity.
  - exists m1, m4. split; [done|]. split; [done|]. split; [done|]. rewrite H6; [|change (frame_base 0x1200 ex_user) with 0x1200; lia].
    injection H5 as <-. cbn. apply lookup_insert_eq.
Defined.

(** ** Exceptions with an error code *)

(** C40: an exception that pushes an error code (double fault, 10 to 13, 17)
    and reaches the default handler does not go back to the program.  The
    handler leaves the code on the stack, so [iretq] takes the error code for the
    address to return to, the low 16 bits of the address for the code segment
    and those of the stack pointer for the stack segment.  All instructions up
    to [iretq] run; unless the low bits of the address happen to be a code
    selector, 0x08 or 0x2B, the [iretq] faults in its turn, and if it does
    return it returns to the error code. *)
Theorem default_handler_keeps_error_code e rsp0 rip err m low ws :
  window m low ws → length ws = 21%nat → frame_base rsp0 m = low + 168 →
  ∃ m1, deliver rsp0 rip (Some err) m = Some m1 ∧ exec e 32 default_handler 0 m1 = Running
    ∧ (rip mod 2 ^ 16 ≠ 0x08 → rip mod 2 ^ 16 ≠ 0x2B → exec e 33 default_handler 0 m1 = Stuck)
    ∧ (∀ a m2, exec e 33 default_handler 0 m1 = Left a m2 → a = err ∧ m_cs m2 = rip mod 2 ^ 16
         ∧ m_sel m2 SS = m_reg m RSP mod 2 ^ 16 ∧ m_reg m2 RSP = m_flags m).
Proof.
  intros Hw Hl Hb. rewrite <- (take_drop 15 ws) in Hw.
  assert (length (take 15 ws) = 15%nat) as L1 by (rewrite length_take; lia).
  assert (length (drop 15 ws) = 6%nat) as L2 by (rewrite length_drop; lia).
  destruct (deliver_ok rsp0 rip (Some err) m low (take 15 ws) (drop 15 ws)) as (m1 & E1 & V1 & _); [done..|rewrite length_app; lia|].
  set (frame := reverse _) in V1. rewrite L1 in V1.
  assert (Hrun : ∃ m4 a, view a m4 ∧ take 5 (drop (a_pos a) (a_words a)) = [err; rip; m_cs m; m_flags m; m_reg m RSP]
    ∧ ∀ n, exec e (32 + n) default_handler 0 m1 = exec e n default_handler 32 m4).
  { destruct (arun_from e (saves ++ [Cld]) (wrapper Nop) 0 _ _ m1 eq_refl V1 (arun_saves_cld _ low _ frame L1)) as (m2 & E2 & V2 & _).
    destruct (arun_from e (Nop :: restores) (wrapper Nop) 16 _ _ m2 eq_refl V2 (arun_nop_restores _ _ low frame)) as (m4 & E4 & V4 & _).
    exists m4. eexists. split; [exact V4|]. split; [reflexivity|]. intros n. exact (eq_trans (E2 (16 + n)%nat) (E4 n)). }
  destruct Hrun as (m4 & a & V4 & Hws & E4). destruct (iret_pops a m4 _ _ _ _ _ V4 Hws) as (m5 & E5 & _ & _).
  assert (E33 : exec e 33 default_handler 0 m1 = match iret m4 with To r n => Left r n | _ => Stuck end).
  { change 33%nat with (32 + 1)%nat. rewrite E4. cbn [exec]. change (default_handler !! 32%nat) with (Some Iret). cbn [step]. rewrite E5.
    by destruct (code_selector _ && stack_selector _ _). }
  exists m1. split; [done|]. split; [change 32%nat with (32 + 0)%nat; by rewrite E4|]. split.
  - intros H8 H2B. rewrite E33, E5. destruct (code_selector (u16 rip)) eqn:Hc; [|done].
    apply code_selectors in Hc as [Hc|Hc]; by unfold u16 in Hc.
  - intros b m2. rewrite E33, E5. destruct (code_selector _ && stack_selector _ _); [|done]. by intros [= <- <-].
Qed.

Lemma default_handler_keeps_error_code_witness : ∃ m1, deliver 0x1200 0x400000 (Some 0x18) ex_user = Some m1
  ∧ exec ex_env 33 default_handler 0 m1 = Stuck.
Proof.
  destruct (default_handler_keeps_error_code ex_env 0x1200 0x400000 0x18 ex_user 0x1158 (replicate 21 0)) as (m1 & H1 & _ & H2 & _).
  - apply window_b_ok. vm_compute. reflexivity.
  - reflexivity.
  - vm_compute. reflexivity.
  - exists m1. split; [exact H1|]. apply H2; vm_compute; discriminate.
Defined.

(** ** Page faults: the register list *)

(** [struct reg_list]: the registers the handlers save and the frame of the
    processor, with the word [orig] between them. *)
Definition list_regs : list reg := [R15; R14; R13; R12; RBP; RBX; R11; R10; R9; R8; RAX; RCX; RDX; RSI; RDI].
Definition frame (rip : Z) (m : mach) : list Z := [rip; m_cs m; m_flags m; m_reg m RSP; m_sel m SS].
Definition reg_list (orig rip : Z) (m : mach) : list Z := (m_reg m <$> list_regs) ++ orig :: frame rip m.

(** [copy_regs] copies the 21 words its argument points to to the top of the
    kernel stack of the process and returns where they are; it keeps the rest
    of the stack in use. *)
Definition copies_regs (esp0 : Z) (f : mach → option mach) : Prop :=
  ∀ m ws old, window m (m_reg m RDI) ws → length ws = 21%nat → window m (esp0 - 168) old → length old = 21%nat →
    m_reg m RDI = esp0 - 168 ∨ m_reg m RDI + 168 ≤ esp0 - 168 →
    ∃ m', f m = Some m' ∧ m_reg m' RAX = esp0 - 168 ∧ window m' (esp0 - 168) ws
      ∧ (∀ r, r ∈ callee_saved → m_reg m' r = m_reg m r) ∧ m_cs m' = m_cs m ∧ (∀ s, m_sel m' s = m_sel m s)
      ∧ m_gs m' = m_gs m ∧ m_kgs m' = m_kgs m
      ∧ (∀ x, m_reg m RSP ≤ x → ¬ esp0 - 168 ≤ x < esp0 → m_mem m' !! x = m_mem m !! x).

(** The three straight-line parts of the handler. *)
Definition pf_save : list instr := take 18 i86_page_fault_handler.
Definition pf_args : list instr := take 3 (drop 20 i86_page_fault_handler).
Definition pf_restore : list instr := take 17 (drop 24 i86_page_fault_handler).
Lemma arun_pf_save M low xs t : length xs = 15%nat → arun pf_save (Abs M low (xs ++ t) 15)
  = Some (Abs (set_reg RDI (low + 0) (CLD M)) low ((m_reg M <$> list_regs) ++ t) 0).
Proof. intros H. do 15 (destruct xs as [|? xs]; [done|]). by destruct xs. Qed.
Lemma arun_pf_args M low (f : reg → Z) err t : arun pf_args (Abs M low ((f <$> list_regs) ++ err :: t) 0)
  = Some (Abs (set_reg RSI err (set_reg RDI (low + 0) M)) low ((f <$> list_regs) ++ u64 (-1) :: t) 0).
Proof. reflexivity. Qed.
Lemma arun_pf_restore M low orig rip m : arun pf_restore (Abs M low (reg_list orig rip m) 0)
  = Some (Abs (reload (m_reg m) list_regs (set_flags (set_flag IF_ false (m_flags M)) M)) low (reg_list orig rip m) 16).
Proof. reflexivity. Qed.
Lemma all_listed r : r ≠ RSP → r ∈ list_regs.
Proof. intros H. apply (bool_decide_unpack _). by destruct r. Qed.

(** The handler of page faults, from the fault to the return: it may be entered
    with its frame at the top of the kernel stack or below the registers saved
    there. *)
Lemma page_fault_run e esp0 rsp0 rip err m low ws old h : selectors_ok m → e_call e "page_fault_handler" = h → polite esp0 h →
  copies_regs esp0 (e_call e "copy_regs") → window m low ws → length ws = 21%nat → frame_base rsp0 m = low + 168 →
  window m (esp0 - 168) old → length old = 21%nat → low = esp0 - 168 ∨ low + 168 ≤ esp0 - 168 →
  ∃ m1 m2 m3 m4, deliver rsp0 rip (Some err) m = Some m1 ∧ exec e 42 i86_page_fault_handler 0 m1 = Left rip m4
    ∧ resumed m m4 ∧ h m2 = Some m3 ∧ m_reg m2 RDI = esp0 - 168 ∧ m_reg m2 RSI = err ∧ m_reg m2 RSP = esp0 - 168
    ∧ window m2 (esp0 - 168) (reg_list (u64 (-1)) rip m) ∧ window m4 (esp0 - 168) (reg_list (u64 (-1)) rip m).
Proof.
  intros [Hcs Hss] Eh Hh Hcp Hw Hl Hb Ho Hlo Hpos. rewrite <- (take_drop 15 ws) in Hw.
  assert (length (take 15 ws) = 15%nat) as L1 by (rewrite length_take; lia).
  assert (length (drop 15 ws) = 6%nat) as L2 by (rewrite length_drop; lia).
  destruct (deliver_ok rsp0 rip (Some err) m low (take 15 ws) (drop 15 ws)) as (m1 & E1 & V1 & H1); [done..|rewrite length_app; lia|].
  change (reverse _) with (err :: frame rip m) in V1. rewrite L1 in V1.
  destruct (arun_at e pf_save i86_page_fault_handler 0 _ _ m1 24 eq_refl V1 (arun_pf_save _ low _ _ L1)) as (m2 & E2 & V2 & H2 & _).
  destruct (handler_mode_facts m) as (F1 & F2 & F3 & F4).
  assert (M2 : m_reg m2 RDI = low ∧ m_reg m2 RSP = low).
  { rewrite !(v_reg _ _ V2), a_reg_sp, a_reg_other by done. unfold a_sp. split; [apply Z.add_0_r|apply Z.add_0_r]. }
  destruct M2 as [M2 M2'].
  assert (W2 : window m2 (m_reg m2 RDI) (reg_list err rip m)).
  { rewrite M2. unfold reg_list. rewrite <- (list_fmap_ext (m_reg (handler_mode m)) (m_reg m) list_regs) by auto.
    apply (view_window _ _ V2). }
  assert (O2 : ∃ old', window m2 (esp0 - 168) old' ∧ length old' = 21%nat).
  { destruct Hpos as [Hp|Hp]; [exists (reg_list err rip m); by rewrite <- Hp, <- M2|].
    exists old. split; [|done]. apply (window_keep m); [done|]. rewrite Hlo. intros x Hx.
    rewrite (H2 x), (H1 x); [done|lia|]. cbn [a_low a_words]. rewrite length_app, L1. cbn. lia. }
  destruct O2 as (old' & O2 & Lo).
  destruct (Hcp m2 _ old' W2 eq_refl O2 Lo) as (m3 & E3 & Ra & W3 & Sv & Cs & Sl & G1 & G2 & _); [by rewrite M2|].
  assert (V3 : view (Abs (set_reg RSP (esp0 - 168) m3) (esp0 - 168) (reg_list err rip m) 0) (set_reg RSP (esp0 - 168) m3)).
  { apply view_of_window; [done|lia|]. symmetry. apply Z.add_0_r. }
  destruct (arun_at e pf_args i86_page_fault_handler 20 _ _ _ 19 eq_refl V3 (arun_pf_args _ _ (m_reg m) err (frame rip m)))
    as (m4 & E4 & V4 & _ & _).
  destruct (polite_view esp0 h _ m4 Hh V4 eq_refl) as (m5 & E5 & K5 & V5); [cbn; lia|].
  destruct (arun_at e pf_restore i86_page_fault_handler 24 _ _ m5 1 eq_refl V5 (arun_pf_restore m5 (esp0 - 168) (u64 (-1)) rip m))
    as (m6 & E6 & V6 & _ & _).
  destruct (iret_sound _ m6 rip (m_cs m) (m_flags m) (m_reg m RSP) (m_sel m SS) V6 eq_refl Hcs Hss) as (m7 & E7 & R1 & R2 & R3 & R4 & R5 & R6 & R7).
  destruct (reload_rest (m_reg m) list_regs (set_flags (set_flag IF_ false (m_flags m5)) m5)) as (_ & _ & Q3 & Q4 & Q5).
  exists m1, m4, m5, m7. split_and!; [done| | |done|..].
  - refine (eq_trans E2 _).
    refine (eq_trans (exec_fall e 23 i86_page_fault_handler 18 (Call "copy_regs") m2 m3 eq_refl (go_some _ _ E3)) _).
    refine (eq_trans (exec_fall e 22 i86_page_fault_handler 19 (Mov RAX RSP) m3 _ eq_refl eq_refl) _). rewrite Ra. refine (eq_trans E4 _).
    refine (eq_trans (exec_fall e 18 i86_page_fault_handler 23 (Call "page_fault_handler") m4 m5 eq_refl _) _); [cbn; by rewrite Eh, E5|].
    refine (eq_trans E6 _). by apply (exec_to e 0 _ 41 Iret).
  - split; cbn [a_m] in *.
    + intros r. rewrite R1. case_decide as Hr; [by rewrite Hr|]. by rewrite reload_reg, decide_True by by apply all_listed.
    + done.
    + done.
    + intros s. rewrite R4, Q3. case_decide as Hs; [by rewrite Hs|]. change (m_sel m5 s = m_sel m s).
      rewrite (k_sel _ _ _ K5 s Hs), (v_sel _ _ V4). change (m_sel m3 s = m_sel m s). rewrite Sl, (v_sel _ _ V2). by apply F4.
    + rewrite R5, Q4. change (m_gs m5 = m_gs m). rewrite (k_gs _ _ _ K5), (proj1 (v_gs _ _ V4)). cbn.
      by rewrite G1, (proj1 (v_gs _ _ V2)).
  - rewrite (v_reg _ _ V4), a_reg_other by done. apply Z.add_0_r.
  - rewrite (v_reg _ _ V4), a_reg_other by done. done.
  - rewrite (v_reg _ _ V4), a_reg_sp. apply Z.add_0_r.
  - apply (view_window _ _ V4).
  - apply (window_keep m6); [apply (view_window _ _ V6)|]. intros x _. by rewrite R7.
Qed.

(** ** System calls *)

(** The return: rax is the result, the rest comes from the register list. *)
Definition sysret_part : list instr := take 11 (drop 24 do_syscalls).
Definition sysret_regs (ws : list Z) (f : reg → Z) (r : reg) : Z :=
  match r with
  | RCX => ws !!! 16%nat | R11 => ws !!! 18%nat | R10 => ws !!! 7%nat | R9 => ws !!! 8%nat | R8 => ws !!! 9%nat
  | RDX => ws !!! 12%nat | RSI => ws !!! 13%nat | RDI => ws !!! 14%nat | RSP => ws !!! 19%nat | _ => f r
  end.
Lemma arun_sysret M low ws : length ws = 21%nat →
  ∃ a, arun sysret_part (Abs M low ws 0) = Some a ∧ a_low a = low ∧ a_pos a = 0%nat
    ∧ a_words a = <[10%nat := m_reg M RAX]> ws
    ∧ (∀ r, r ≠ RSP → m_reg (a_m a) r = sysret_regs ws (m_reg M) r)
    ∧ m_sel (a_m a) = m_sel M ∧ m_gs (a_m a) = m_gs M ∧ m_kgs (a_m a) = m_kgs M.
Proof.
  intros H. do 21 (destruct ws as [|? ws]; [done|]). destruct ws; [|done]. eexists. split; [reflexivity|].
  split_and!; try done. intros r Hr. by destruct r.
Qed.

Lemma sys_return e m ws : window m (m_reg m RSP) ws → length ws = 21%nat →
  ∃ m', exec e 14 do_syscalls 24 m = Left (ws !!! 16%nat) m' ∧ (∀ r, m_reg m' r = sysret_regs ws (m_reg m) r)
    ∧ m_flags m' = sysret_flags (ws !!! 18%nat) ∧ m_cs m' = Z.lor (e_star e + 16) 3
    ∧ (∀ s, m_sel m' s = if decide (s = SS) then Z.lor (e_star e + 8) 3 else m_sel m s)
    ∧ m_gs m' = m_kgs m ∧ m_kgs m' = m_gs m
    ∧ (∀ x, ¬ m_reg m RSP ≤ x < m_reg m RSP + 168 → m_mem m' !! x = m_mem m !! x).
Proof.
  intros Hw Hl. assert (V : view (Abs m (m_reg m RSP) ws 0) m) by (apply view_of_window; [done|lia|lia]).
  destruct (arun_sysret m (m_reg m RSP) ws Hl) as (a & A1 & A2 & A3 & A4 & A5 & A6 & A7 & A8).
  destruct (arun_at e sysret_part do_syscalls 24 _ _ m 3 eq_refl V A1) as (m1 & E1 & V1 & H1 & _).
  assert (Hsp : word_at m1 (u64 (m_reg m1 RSP + 8 * Z.of_nat 19)) = Some (ws !!! 19%nat)).
  { apply (view_load a); [done|]. rewrite A3, A4, list_lookup_insert_ne by done. apply list_lookup_lookup_total_lt. lia. }
  eexists. split; [refine (eq_trans E1 _); refine (eq_trans (exec_fall e 2 do_syscalls 35 (Load 152 RSP RSP) m1 _ eq_refl _) _)|].
  - cbn [step]. change 152 with (8 * Z.of_nat 19). rewrite Hsp. reflexivity.
  - refine (eq_trans (exec_fall e 1 do_syscalls 36 Swapgs _ _ eq_refl eq_refl) _).
    refine (exec_to e 0 do_syscalls 37 Sysret _ _ _ eq_refl _). unfold step, sysret. f_equal.
    cbn. rewrite (v_reg _ _ V1), a_reg_other by done. by rewrite A5.
  - cbn. destruct (v_gs _ _ V1) as [G1 G2]. split_and!.
    + intros r. case_decide as Hr; [by rewrite Hr|]. by rewrite (v_reg _ _ V1), a_reg_other, A5.
    + by rewrite (v_reg _ _ V1), a_reg_other, A5.
    + done.
    + intros s. case_decide; [done|]. by rewrite (v_sel _ _ V1), A6.
    + congruence.
    + congruence.
    + intros x Hx. apply (H1 x). cbn [a_low a_words]. lia.
Qed.

(** The kernel's data of [swapgs]: its stack, and a word for the user's stack
    pointer, apart from the words of that stack. *)
Record gs_data (m : mach) (esp0 : Z) : Prop := {
  kd_stack : word_at m (m_kgs m) = Some esp0;
  kd_user : ∃ w, word_at m (m_kgs m + 8) = Some w;
  kd_range : 0 ≤ m_kgs m < 2 ^ 64 - 8;
  kd_apart : m_kgs m + 8 < esp0 - 168 ∨ esp0 ≤ m_kgs m
}.
(** The register list of a system call: its first six words are not written. *)
Definition sys_list (stale : list Z) (rip : Z) (m : mach) : list Z :=
  stale ++ [m_flags m; m_reg m R10; m_reg m R9; m_reg m R8; u64 (-1); rip; m_reg m RDX; m_reg m RSI; m_reg m RDI;
            m_reg m RAX; rip; 0x2B; m_flags m; m_reg m RSP; 0x23].
Definition push_part : list instr := take 15 (drop 5 do_syscalls).
(** The machine in the kernel: the user's registers but for the stack pointer. *)
Definition sys_mode (rip : Z) (m : mach) : mach :=
  set_gs (m_kgs m) (m_gs m) (syscall 0x08 rip m).
Definition STI (m : mach) : mach := set_flags (set_flag IF_ true (m_flags m)) m.

Lemma arun_push_part M low stale xs a b : length stale = 6%nat → length xs = 13%nat →
  arun push_part (Abs M low (stale ++ xs ++ [a; b]) 19)
  = Some (Abs (STI M) low (stale ++ [m_reg M R11; m_reg M R10; m_reg M R9; m_reg M R8; u64 (-1); m_reg M RCX; m_reg M RDX;
      m_reg M RSI; m_reg M RDI; m_reg M RAX; m_reg M RCX; u64 0x2B; m_reg M R11; a; b]) 0).
Proof.
  intros H1 H2. do 6 (destruct stale as [|? stale]; [done|]). destruct stale; [|done].
  do 13 (destruct xs as [|? xs]; [done|]). by destruct xs.
Qed.

(** Its first instructions: the stack switch. *)
Lemma sys_switch e esp0 rip m fuel : gs_data m esp0 →
  exec e (3 + fuel) do_syscalls 0 (syscall 0x08 rip m) = exec e fuel do_syscalls 3
    (set_reg RSP esp0 (set_mem (<[m_kgs m + 8 := m_reg m RSP]> (m_mem m)) (sys_mode rip m))).
Proof.
  intros K. set (m1 := set_mem _ (sys_mode rip m)). destruct (kd_user _ _ K) as (w & Ew). pose proof (kd_range _ _ K) as Kr.
  refine (eq_trans (exec_fall e (2 + fuel) do_syscalls 0 Swapgs _ _ eq_refl eq_refl) _).
  refine (eq_trans (exec_fall e (1 + fuel) do_syscalls 1 (StoreGs RSP 8) _ m1 eq_refl _) _).
  { cbn. rewrite u64_small by lia. unfold put_word. change (word_at _ ?x) with (word_at m x). by rewrite Ew. }
  refine (exec_fall e fuel do_syscalls 2 (LoadGs 0 RSP) m1 _ eq_refl _).
  cbn [step]. change (m_gs m1) with (m_kgs m). rewrite Z.add_0_r, u64_small by lia.
  assert (word_at m1 (m_kgs m) = Some esp0) as ->; [|done]. rewrite <- (kd_stack _ _ K). unfold word_at. cbn.
  by rewrite lookup_insert_ne by lia.
Qed.

(** The entry builds the register list on the kernel stack. *)
Lemma sys_enter e esp0 rip m ws fuel : gs_data m esp0 → window m (esp0 - 168) ws → length ws = 21%nat →
  ∃ m', exec e (20 + fuel) do_syscalls 0 (syscall 0x08 rip m) = exec e fuel do_syscalls 20 m'
    ∧ view (Abs (STI (sys_mode rip m)) (esp0 - 168) (sys_list (take 6 ws) rip m) 0) m'
    ∧ m_mem m' !! (m_kgs m + 8) = Some (m_reg m RSP)
    ∧ (∀ x, ¬ esp0 - 168 ≤ x < esp0 → x ≠ m_kgs m + 8 → m_mem m' !! x = m_mem m !! x).
Proof.
  intros K Hw Hl. set (m1 := set_mem (<[m_kgs m + 8 := m_reg m RSP]> (m_mem m)) (sys_mode rip m)).
  pose proof (kd_range _ _ K) as Kr. pose proof (kd_apart _ _ K) as Ka.
  assert (W : window (set_reg RSP esp0 m1) (esp0 - 168) ws).
  { apply (window_keep m); [done|]. intros x Hx. cbn. apply lookup_insert_ne. lia. }
  assert (V : view (Abs (sys_mode rip m) (esp0 - 168) ws 21) (set_reg RSP esp0 m1)).
  { destruct W as (W1 & W2 & W3 & W4). split; try done; [|cbn; lia]. intros r. unfold a_reg, a_sp. cbn. case_decide; [lia|done]. }
  clear W Hw. do 19 (destruct ws as [|? ws]; [done|]). destruct ws as [|? [|? [|]]]; try done.
  destruct (arun_at e [PushI 0x23] do_syscalls 3 _ _ _ (16 + fuel) eq_refl V eq_refl) as (m2 & E2 & V2 & H2 & _).
  destruct (push_sound _ _ m2 (m_reg m RSP) V2 eq_refl) as (m3 & E3 & V3 & H3 & _).
  destruct (arun_at e push_part do_syscalls 5 _ _ m3 fuel eq_refl V3
    (arun_push_part _ (esp0 - 168) [_; _; _; _; _; _] [_; _; _; _; _; _; _; _; _; _; _; _; _] _ _ eq_refl eq_refl))
    as (m4 & E4 & V4 & H4 & _).
  exists m4. assert (Hm : ∀ x, ¬ esp0 - 168 ≤ x < esp0 → m_mem m4 !! x = m_mem m1 !! x).
  { intros x Hx. rewrite (H4 x), (H3 x), (H2 x); [done|cbn; lia..]. }
  split_and!; [|exact V4| |].
  - refine (eq_trans (sys_switch e esp0 rip m (17 + fuel) K) _). refine (eq_trans E2 _).
    refine (eq_trans (exec_fall e (15 + fuel) do_syscalls 4 (PushGs 8) m2 m3 eq_refl _) E4).
    cbn [step]. destruct (v_gs _ _ V2) as [-> _]. change (m_gs (a_m _)) with (m_kgs m). rewrite u64_small by lia.
    destruct (kd_user _ _ K) as (w & Ew). assert (word_at m2 (m_kgs m + 8) = Some (m_reg m RSP)) as ->; [|by rewrite E3].
    unfold word_at in *. destruct (_ =? 0); [|done]. rewrite (H2 (m_kgs m + 8)) by (cbn; lia). apply lookup_insert_eq.
  - rewrite Hm by lia. apply lookup_insert_eq.
  - intros x Hx Hne. rewrite Hm by done. by apply lookup_insert_ne.
Qed.

(** The comparison with the limit. *)
Lemma above_flags a b f : let f' := set_flag CF (a <? b) (set_flag ZF (a =? b) f) in
  negb (Z.testbit f' CF) && negb (Z.testbit f' ZF) = (b <? a).
Proof.
  cbn zeta. unfold set_flag, CF, ZF. destruct (Z.ltb_spec a b), (Z.eqb_spec a b); try lia;
    rewrite ?Z.setbit_eqb, ?Z.clearbit_eqb, ?Z.setbit_eqb by lia; cbn; destruct (Z.ltb_spec b a); try lia; try done;
    rewrite ?andb_false_r, ?orb_false_r; cbn; try done.
Qed.

(** From the user program to the system call, or past it. *)
Lemma sys_dispatch e esp0 rip m ws fuel : gs_data m esp0 → window m (esp0 - 168) ws → length ws = 21%nat →
  ∃ m2, exec e (24 + fuel) do_syscalls 0 (syscall 0x08 rip m)
      = (if e_label e "syscall_max" <? m_reg m RAX then exec e (2 + fuel) do_syscalls 24 m2
         else match e_table e (m_reg m RAX) m2 with Some m3 => exec e fuel do_syscalls 24 m3 | None => Stuck end)
    ∧ (∀ r, r ∉ [RSP; RCX; R11] → m_reg m2 r = m_reg m r) ∧ m_reg m2 RSP = esp0 - 168
    ∧ (m_reg m RAX ≤ e_label e "syscall_max" → m_reg m2 RCX = m_reg m R10)
    ∧ window m2 (esp0 - 168) (sys_list (take 6 ws) rip m)
    ∧ (∀ s, s ≠ SS → m_sel m2 s = m_sel m s) ∧ m_gs m2 = m_kgs m ∧ m_kgs m2 = m_gs m ∧ m_cs m2 = 0x08
    ∧ (∀ x, ¬ esp0 - 168 ≤ x < esp0 → x ≠ m_kgs m + 8 → m_mem m2 !! x = m_mem m !! x).
Proof.
  intros K Hw Hl. destruct (sys_enter e esp0 rip m ws (4 + fuel) K Hw Hl) as (m1 & E1 & V1 & _ & H1).
  assert (R1 : ∀ r, r ∉ [RSP; RCX; R11] → m_reg m1 r = m_reg m r).
  { intros r Hr. rewrite (v_reg _ _ V1). destruct r; try done; exfalso; apply Hr; reg_mem. }
  assert (Ra : m_reg m1 RAX = m_reg m RAX) by (apply R1; reg_mem).
  set (m2 := set_flags (set_flag CF (m_reg m RAX <? e_label e "syscall_max")
    (set_flag ZF (m_reg m RAX =? e_label e "syscall_max") (m_flags m1))) m1).
  assert (E2 : exec e (24 + fuel) do_syscalls 0 (syscall 0x08 rip m) = exec e (3 + fuel) do_syscalls 21 m2).
  { refine (eq_trans E1 _). refine (exec_fall e (3 + fuel) do_syscalls 20 (CmpLabel "syscall_max" RAX) m1 _ eq_refl _).
    cbn [step]. by rewrite Ra. }
  assert (Ej : step e (Ja 24) m2 = if e_label e "syscall_max" <? m_reg m RAX then Goto 24 m2 else Fall m2)
    by (cbn [step]; rewrite <- above_flags with (f := m_flags m1); done).
  destruct (v_gs _ _ V1) as [G1 G2]. pose proof (view_window _ _ V1) as W1.
  assert (Hsp : m_reg m1 RSP = esp0 - 168) by (rewrite (v_reg _ _ V1), a_reg_sp; apply Z.add_0_r).
  assert (Hsel : ∀ s, s ≠ SS → m_sel m1 s = m_sel m s) by (intros s Hs; rewrite (v_sel _ _ V1); by destruct s).
  destruct (Z.ltb_spec (e_label e "syscall_max") (m_reg m RAX)) as [Hb|Hb].
  - exists m2. split_and!; try done; [|intros; lia|exact (v_cs _ _ V1)].
    refine (eq_trans E2 _). by apply (exec_goto e (2 + fuel) do_syscalls 21 (Ja 24)).
  - exists (set_reg RCX (m_reg m R10) m2). split_and!; try done; [|intros r Hr|exact (v_cs _ _ V1)].
    + refine (eq_trans E2 _). refine (eq_trans (exec_fall e (2 + fuel) do_syscalls 21 (Ja 24) m2 m2 eq_refl Ej) _).
      refine (eq_trans (exec_fall e (1 + fuel) do_syscalls 22 (Mov R10 RCX) m2 (set_reg RCX (m_reg m R10) m2) eq_refl _) _).
      { cbn [step]. change (m_reg m2 R10) with (m_reg m1 R10). rewrite R1; [done|]. reg_mem. }
      cbn [Nat.add exec]. change (do_syscalls !! 23%nat) with (Some (CallTable RAX)). cbn [step].
      change (m_reg (set_reg RCX _ m2) RAX) with (m_reg m1 RAX). rewrite Ra. by destruct (e_table _ _ _).
    + cbn. rewrite decide_False; [by apply R1|]. intros ->. apply Hr. reg_mem.
Qed.

Lemma sys_list_words stale rip m : length stale = 6%nat →
  length (sys_list stale rip m) = 21%nat ∧ ∀ i, (6 ≤ i)%nat → sys_list stale rip m !!! i = sys_list (replicate 6 0) rip m !!! i.
Proof.
  intros H. do 6 (destruct stale as [|? stale]; [done|]). destruct stale; [|done]. split; [done|].
  intros i Hi. do 6 (destruct i as [|i]; [lia|]). done.
Qed.

(** C11: a system call, from the [syscall] instruction to [sysretq].  The C
    function of its number is called on the kernel stack in ring 0 with the
    arguments of the user, the fourth moved from r10 to rcx, and with the user's
    registers in a [struct reg_list] at the top of that stack; when it keeps
    its calling convention the program goes on after the instruction with the result
    in rax, with rcx and r11 holding the address and the flags as the
    instruction left them, and every other register, its stack pointer, its flags
    and its segments as they were; its gs base is the one the C function left
    for [swapgs]. *)
Theorem system_call_returns e esp0 rip m ws : e_star e = 0x1B → m_reg m RAX ≤ e_label e "syscall_max" →
  gs_data m esp0 → window m (esp0 - 168) ws → length ws = 21%nat → polite esp0 (e_table e (m_reg m RAX)) →
  ∃ m2 m3 m4, exec e 38 do_syscalls 0 (syscall 0x08 rip m) = Left rip m4
    ∧ e_table e (m_reg m RAX) m2 = Some m3 ∧ m_cs m2 = 0x08 ∧ m_reg m2 RSP = esp0 - 168
    ∧ (∀ r, r ∈ [RDI; RSI; RDX; R8; R9] → m_reg m2 r = m_reg m r) ∧ m_reg m2 RCX = m_reg m R10
    ∧ window m2 (esp0 - 168) (sys_list (take 6 ws) rip m)
    ∧ (∀ r, r ∉ [RAX; RCX; R11] → m_reg m4 r = m_reg m r)
    ∧ m_reg m4 RAX = m_reg m3 RAX ∧ m_reg m4 RCX = rip ∧ m_reg m4 R11 = m_flags m
    ∧ m_flags m4 = sysret_flags (m_flags m) ∧ m_cs m4 = 0x2B ∧ m_sel m4 SS = 0x23
    ∧ (∀ s, s ≠ SS → m_sel m4 s = m_sel m s) ∧ m_gs m4 = m_kgs m3 ∧ m_kgs m4 = m_kgs m.
Proof.
  intros Hs Hb K Hw Hl P. destruct (sys_dispatch e esp0 rip m ws 14 K Hw Hl) as (m2 & E & R & Sp & Rc & W & Sl & G1 & G2 & Cs & _).
  destruct (P m2) as (m3 & E3 & K3). rewrite (proj2 (Z.ltb_ge _ _) Hb), E3 in E.
  assert (S3 : m_reg m3 RSP = esp0 - 168) by (rewrite (k_saved _ _ _ K3) by reg_mem; done).
  destruct (sys_list_words (take 6 ws) rip m ltac:(rewrite length_take; lia)) as [L6 W6].
  destruct (sys_return e m3 (sys_list (take 6 ws) rip m)) as (m4 & E4 & R4 & F4 & C4 & Sl4 & G4 & G4' & _); [|done|].
  { rewrite S3. apply (window_keep m2); [done|]. rewrite L6. intros x Hx. apply (k_stack _ _ _ K3). lia. }
  pose proof (k_gs _ _ _ K3) as K4. exists m2, m3, m4. rewrite Hs in *. split_and!; try done.
  - refine (eq_trans E _). rewrite E4. by rewrite W6 by lia.
  - intros r Hr. apply R. destruct r; try reg_mem; exfalso; revert Hr; reg_mem.
  - by apply Rc.
  - intros r Hr. rewrite R4. unfold sysret_regs. rewrite !W6 by lia.
    destruct r; try done; try (rewrite (k_saved _ _ _ K3) by reg_mem; apply R; reg_mem); exfalso; apply Hr; reg_mem.
  - rewrite R4. unfold sysret_regs. by rewrite W6 by lia.
  - rewrite R4. unfold sysret_regs. by rewrite W6 by lia.
  - by rewrite F4, W6 by lia.
  - intros s Hss. rewrite Sl4, decide_False by done. rewrite (k_sel _ _ _ K3) by done. by apply Sl.
  - congruence.
Qed.

(** The system call number 1 of the user program, with a C function that
    returns 77. *)
Definition ex_sys : mach := set_mem (mem_of 0x1000 (replicate 64 5) ∪ mem_of 0x9000 [0x1200; 0]) ex_user.
Lemma ex_sys_data : gs_data ex_sys 0x1200.
Proof. split; [done|by exists 0|cbn; lia|cbn; lia]. Qed.
Lemma ex_sys_window : window ex_sys (0x1200 - 168) (replicate 21 5).
Proof. apply window_b_ok. vm_compute. reflexivity. Qed.
Lemma system_call_returns_witness : ∃ m4, exec ex_env 38 do_syscalls 0 (syscall 0x08 0x400000 ex_sys) = Left 0x400000 m4
  ∧ m_reg m4 RAX = 77 ∧ m_reg m4 RBX = 2 ∧ m_reg m4 RSP = 0x7000 ∧ m_reg m4 R10 = 10.
Proof.
  destruct (system_call_returns ex_env 0x1200 0x400000 ex_sys (replicate 21 5) eq_refl)
    as (m2 & m3 & m4 & E & E3 & _ & _ & _ & _ & _ & R & Ra & _).
  - vm_compute. discriminate.
  - exact ex_sys_data.
  - exact ex_sys_window.
  - reflexivity.
  - exact ex_clobber_polite.
  - exists m4. split; [exact E|]. rewrite Ra, !R by reg_mem. injection E3 as <-. repeat split.
Defined.

(** C39: system call numbers are not checked.  The limit is the address of the
    variable [syscall_max], a kernel address, instead of its value: a number
    below it that has no function in the table (the table ends at 14) is called
    all the same, so a missing entry faults in the kernel; only a number above
    that address is refused, and then what the program gets in rax is the
    number itself, not the -1 that the entry put into the register list. *)
Theorem system_call_number_unchecked e esp0 rip m ws : 0xFFFFFFFF80000000 ≤ e_label e "syscall_max" →
  gs_data m esp0 → window m (esp0 - 168) ws → length ws = 21%nat →
  (14 ≤ m_reg m RAX < 0xFFFFFFFF80000000 → (∀ m', e_table e (m_reg m RAX) m' = None) →
   exec e 36 do_syscalls 0 (syscall 0x08 rip m) = Stuck)
  ∧ (e_label e "syscall_max" < m_reg m RAX →
     ∃ m4, exec e 36 do_syscalls 0 (syscall 0x08 rip m) = Left rip m4 ∧ m_reg m4 RAX = m_reg m RAX).
Proof.
  intros Hlab K Hw Hl. destruct (sys_dispatch e esp0 rip m ws 12 K Hw Hl) as (m2 & E & R & Sp & _ & W & _). split.
  - intros Hr Hn. rewrite (proj2 (Z.ltb_ge _ _)), Hn in E by lia. exact E.
  - intros Hr. rewrite (proj2 (Z.ltb_lt _ _) Hr) in E.
    destruct (sys_list_words (take 6 ws) rip m ltac:(rewrite length_take; lia)) as [L6 W6].
    destruct (sys_return e m2 (sys_list (take 6 ws) rip m)) as (m4 & E4 & R4 & _); [by rewrite Sp|done|].
    exists m4. split; [|rewrite R4; apply R; reg_mem]. refine (eq_trans E _). refine (eq_trans E4 _). by rewrite W6 by lia.
Qed.

Lemma system_call_number_unchecked_witness :
  exec (Env (λ _, ex_clobber) (λ n, if n <? 14 then ex_clobber else λ _, None) (λ _, ex_clobber) (λ _, 0xFFFFFFFF80201000) 0x1B)
    36 do_syscalls 0 (syscall 0x08 0x400000 (set_reg RAX 61 ex_sys)) = Stuck
  ∧ ∃ m4, exec ex_env 36 do_syscalls 0 (syscall 0x08 0x400000 (set_reg RAX (u64 (-1)) ex_sys)) = Left 0x400000 m4
    ∧ m_reg m4 RAX = u64 (-1).
Proof.
  set (e := Env _ _ _ _ _). split.
  - apply (system_call_number_unchecked e 0x1200 0x400000 (set_reg RAX 61 ex_sys) (replicate 21 5)).
    + vm_compute. discriminate.
    + destruct ex_sys_data. by split.
    + exact ex_sys_window.
    + reflexivity.
    + vm_compute. split; [discriminate|reflexivity].
    + reflexivity.
  - apply (system_call_number_unchecked ex_env 0x1200 0x400000 (set_reg RAX (u64 (-1)) ex_sys) (replicate 21 5)).
    + vm_compute. discriminate.
    + destruct ex_sys_data. by split.
    + exact ex_sys_window.
    + reflexivity.
    + vm_compute. reflexivity.
Defined.

(** ** Page faults in user and in kernel mode *)

Lemma frame_base_user rsp0 m : in_user m = true → rsp0 mod 16 = 0 → frame_base rsp0 m = rsp0.
Proof.
  intros Hu Ha. unfold frame_base. rewrite Hu. change 15 with (Z.ones 4). rewrite <- Z.ldiff_land, Z.ldiff_ones_r by lia.
  rewrite Z.shiftl_mul_pow2, Z.shiftr_div_pow2 by lia. change (2 ^ 4) with 16. Z.div_mod_to_equations. lia.
Qed.

(** C20: a page fault of a user program.  The handler leaves on the top of the
    kernel stack the [struct reg_list] of the program, which runs on segments of
    the descriptor table, calls
    [page_fault_handler] with its address and with the error code, and goes back
    to the faulting instruction with every register, the flags, the segments and
    the stack pointer of the program as they were. *)
Theorem user_page_fault_resumes e esp0 rip err m ws : in_user m = true → selectors_ok m → esp0 mod 16 = 0 →
  window m (esp0 - 168) ws → length ws = 21%nat →
  copies_regs esp0 (e_call e "copy_regs") → polite esp0 (e_call e "page_fault_handler") →
  ∃ m1 m2 m3 m4, deliver esp0 rip (Some err) m = Some m1 ∧ exec e 42 i86_page_fault_handler 0 m1 = Left rip m4
    ∧ resumed m m4 ∧ e_call e "page_fault_handler" m2 = Some m3 ∧ m_reg m2 RDI = esp0 - 168 ∧ m_reg m2 RSI = err
    ∧ window m2 (esp0 - 168) (reg_list (u64 (-1)) rip m).
Proof.
  intros Hu Hsel Ha Hw Hl Hc Hp. pose proof (frame_base_user esp0 m Hu Ha) as Hb.
  destruct (page_fault_run e esp0 esp0 rip err m (esp0 - 168) ws ws _ Hsel eq_refl Hp Hc Hw Hl) as (m1 & m2 & m3 & m4 & H1 & H2 & H3 & H4 & H5 & H6 & H7 & H8 & _); [lia|done|done|lia|].
  exists m1, m2, m3, m4. split_and!; assumption.
Qed.

(** C38: a page fault in kernel mode, while a system call runs (a buffer of the
    user that is not in memory yet).  The kernel's own registers are copied over
    the user registers the system call saved on the top of the stack, and
    [page_fault_handler] runs there too, above the stack of the interrupted
    kernel code; the kernel code goes on, but when the system call returns,
    [sysretq] leaves for the kernel address of the fault, with the kernel's
    stack pointer, in ring 3. *)
Theorem kernel_page_fault_loses_user_registers e esp0 rip err m ws old : in_user m = false → selectors_ok m →
  frame_base esp0 m ≤ esp0 - 168 →
  window m (frame_base esp0 m - 168) ws → length ws = 21%nat → window m (esp0 - 168) old → length old = 21%nat →
  copies_regs esp0 (e_call e "copy_regs") → polite esp0 (e_call e "page_fault_handler") →
  ∃ m1 m2 m3 m4, deliver esp0 rip (Some err) m = Some m1 ∧ exec e 42 i86_page_fault_handler 0 m1 = Left rip m4
    ∧ resumed m m4 ∧ e_call e "page_fault_handler" m2 = Some m3 ∧ m_reg m2 RSP = esp0 - 168
    ∧ ∀ m5, (∀ x, esp0 - 168 ≤ x < esp0 → m_mem m5 !! x = m_mem m4 !! x) → m_reg m5 RSP = esp0 - 168 →
        ∃ m6, exec e 14 do_syscalls 24 m5 = Left rip m6 ∧ m_reg m6 RSP = m_reg m RSP ∧ m_cs m6 = Z.lor (e_star e + 16) 3.
Proof.
  intros Hu Hsel Hb Hw Hl Ho Hlo Hc Hp.
  destruct (page_fault_run e esp0 esp0 rip err m (frame_base esp0 m - 168) ws old _ Hsel eq_refl Hp Hc Hw Hl)
    as (m1 & m2 & m3 & m4 & H1 & H2 & H3 & H4 & _ & _ & H7 & _ & H9); [lia|done|done|lia|].
  exists m1, m2, m3, m4. do 5 (split; [assumption|]). intros m5 K Hsp.
  destruct (sys_return e m5 (reg_list (u64 (-1)) rip m)) as (m6 & E6 & R6 & _ & C6 & _); [|done|].
  - rewrite Hsp. apply (window_keep m4); [done|]. intros x Hx. apply K. cbn in Hx. lia.
  - exists m6. split; [exact E6|]. split; [|done]. by rewrite R6.
Qed.

(** [copy_regs] as a function on the machine. *)
Definition copy_words (src dst : Z) (mem : gmap Z Z) (n : nat) : gmap Z Z :=
  foldr (λ i w, match mem !! (src + 8 * Z.of_nat i) with Some v => <[dst + 8 * Z.of_nat i := v]> w | None => w end) mem (seq 0 n).
Definition ex_copy (esp0 : Z) (m : mach) : option mach :=
  Some (set_reg RAX (esp0 - 168) (set_mem (copy_words (m_reg m RDI) (esp0 - 168) (m_mem m) 21) m)).
Lemma copy_words_ok src dst mem n :
  (∀ x, ¬ dst ≤ x < dst + 8 * Z.of_nat n → copy_words src dst mem n !! x = mem !! x)
  ∧ ∀ i v, (i < n)%nat → mem !! (src + 8 * Z.of_nat i) = Some v → copy_words src dst mem n !! (dst + 8 * Z.of_nat i) = Some v.
Proof.
  unfold copy_words. set (f := λ i w, _). assert (Hne : ∀ l x, (∀ i, i ∈ l → x ≠ dst + 8 * Z.of_nat i) → foldr f mem l !! x = mem !! x).
  { induction l as [|i l IH]; intros x Hx; [done|]. cbn.  unfold f at 1.
    destruct (mem !! _); [rewrite lookup_insert_ne by (intros <-; by apply (Hx i); [left|])|]; apply IH; intros j Hj; apply Hx; by right. }
  split.
  - intros x Hx. apply Hne. intros i Hi%elem_of_seq. lia.
  - intros i v Hi Hv. assert (i ∈ seq 0 n) as Hs by (apply elem_of_seq; lia). revert Hs. generalize (seq 0 n) as l.
    induction l as [|j l IH]; [by intros []%elem_of_nil|]. cbn. unfold f at 1. intros Hj.
    destruct (decide (i = j)) as [<-|Hne']; [rewrite Hv; apply lookup_insert_eq|].
    apply elem_of_cons in Hj as [->|Hj]; [done|]. destruct (mem !! (src + 8 * Z.of_nat j)); [|by apply IH].
    rewrite lookup_insert_ne by lia. by apply IH.
Qed.
Lemma ex_copy_ok esp0 : copies_regs esp0 (ex_copy esp0).
Proof.
  intros m ws old (W1 & W2 & W3 & W4) Hl (O1 & O2 & O3 & O4) Ho _. eexists. split; [reflexivity|].
  destruct (copy_words_ok (m_reg m RDI) (esp0 - 168) (m_mem m) 21) as [C1 C2].
  split; [done|]. split; [split_and!; [done..|rewrite Hl; rewrite Ho in O3; exact O3|]|].
  - intros i w Hi. apply C2; [apply lookup_lt_Some in Hi; lia|by apply W4].
  - split_and!; try done; [intros r Hr; destruct r; try done; exfalso; revert Hr; reg_mem|].
    intros x _ Hx. apply C1. lia.
Qed.
Definition ex_fault_env : env :=
  Env (λ f, if String.eqb f "copy_regs" then ex_copy 0x1200 else ex_clobber) (λ _, ex_clobber) (λ _, ex_clobber)
    (λ _, 0xffffffff80001000) 0x1B.

Lemma user_page_fault_resumes_witness : ∃ m1 m4, deliver 0x1200 0x400000 (Some 6) ex_user = Some m1
  ∧ exec ex_fault_env 42 i86_page_fault_handler 0 m1 = Left 0x400000 m4 ∧ resumed ex_user m4.
Proof.
  destruct (user_page_fault_resumes ex_fault_env 0x1200 0x400000 6 ex_user (replicate 21 0))
    as (m1 & m2 & m3 & m4 & H1 & H2 & H3 & _).
  - reflexivity.
  - split; vm_compute; reflexivity.
  - reflexivity.
  - apply window_b_ok. vm_compute. reflexivity.
  - reflexivity.
  - exact (ex_copy_ok 0x1200).
  - exact ex_clobber_polite.
  - exists m1, m4. split; [exact H1|]. split; [exact H2|exact H3].
Defined.

(** Kernel code at 0x8000, with its stack at 0x1100, reads a page that is not
    present. *)
Definition ex_kernel : mach := set_cs 0x08 (set_sel SS 0x10 (set_reg RSP 0x1100 ex_sys)).
Lemma kernel_page_fault_loses_user_registers_witness : ∃ m1 m4, deliver 0x1200 0x8000 (Some 0) ex_kernel = Some m1
  ∧ exec ex_fault_env 42 i86_page_fault_handler 0 m1 = Left 0x8000 m4
  ∧ ∃ m6, exec ex_fault_env 14 do_syscalls 24 (set_reg RSP 0x1158 m4) = Left 0x8000 m6 ∧ m_reg m6 RSP = 0x1100 ∧ m_cs m6 = 0x2B.
Proof.
  destruct (kernel_page_fault_loses_user_registers ex_fault_env 0x1200 0x8000 0 ex_kernel (replicate 21 5) (replicate 21 5))
    as (m1 & m2 & m3 & m4 & H1 & H2 & _ & _ & _ & H).
  - reflexivity.
  - split; vm_compute; reflexivity.
  - vm_compute. discriminate.
  - apply window_b_ok. vm_compute. reflexivity.
  - reflexivity.
  - exact ex_sys_window.
  - reflexivity.
  - exact (ex_copy_ok 0x1200).
  - exact ex_clobber_polite.
  - exists m1, m4. split; [exact H1|]. split; [exact H2|]. apply (H (set_reg RSP 0x1158 m4)); [|reflexivity]. intros x _. reflexivity.
Defined.

(** ** The first return of a new process *)

Definition fork_part : list instr := take 16 (drop 3 ret_from_fork_code).
Definition list_value (ws : list Z) (r : reg) : Z :=
  match r with
  | R15 => ws !!! 0%nat | R14 => ws !!! 1%nat | R13 => ws !!! 2%nat | R12 => ws !!! 3%nat | RBP => ws !!! 4%nat
  | RBX => ws !!! 5%nat | R11 => ws !!! 6%nat | R10 => ws !!! 7%nat | R9 => ws !!! 8%nat | R8 => ws !!! 9%nat
  | RAX => ws !!! 10%nat | RCX => ws !!! 11%nat | RDX => ws !!! 12%nat | RSI => ws !!! 13%nat | RDI => ws !!! 14%nat
  | RSP => ws !!! 19%nat
  end.
Lemma arun_fork_part M low ws : length ws = 21%nat →
  arun fork_part (Abs M low ws 0) = Some (Abs (reload (list_value ws) list_regs M) low ws 16)
  ∧ take 5 (drop 16 ws) = [ws !!! 16%nat; ws !!! 17%nat; ws !!! 18%nat; ws !!! 19%nat; ws !!! 20%nat].
Proof. intros H. do 21 (destruct ws as [|? ws]; [done|]). destruct ws; [|done]. split; reflexivity. Qed.

(** The list has selectors of the descriptor table. *)
Definition return_to (ws : list Z) : Prop :=
  code_selector (ws !!! 17%nat) = true ∧ stack_selector (ws !!! 17%nat) (ws !!! 20%nat) = true.
(** The end of the routine: every register from the list, the rest by [iretq]. *)
Lemma fork_return e m ws : window m (m_reg m RSP) ws → length ws = 21%nat → return_to ws →
  polite (m_reg m RSP + 168) (e_call e "switch_to_user_cr3") →
  ∃ m', exec e 18 ret_from_fork_code 2 m = Left (ws !!! 16%nat) m' ∧ (∀ r, m_reg m' r = list_value ws r)
    ∧ m_cs m' = ws !!! 17%nat ∧ m_flags m' = ws !!! 18%nat ∧ m_sel m' SS = ws !!! 20%nat.
Proof.
  intros Hw Hl [Hcs Hss] P. assert (V : view (Abs m (m_reg m RSP) ws 0) m) by (apply view_of_window; [done|lia|lia]).
  destruct (polite_view _ _ _ m P V eq_refl) as (m1 & E1 & K1 & V1); [cbn; lia|].
  destruct (arun_fork_part m1 (m_reg m RSP) ws Hl) as [A2 F].
  destruct (arun_at e fork_part ret_from_fork_code 3 _ _ m1 1 eq_refl V1 A2) as (m2 & E2 & V2 & _).
  destruct (iret_sound _ m2 _ _ _ _ _ V2 F Hcs Hss) as (m3 & E3 & R1 & R2 & R3 & R4 & _). exists m3. split_and!; [|intros r|done|done|by rewrite R4].
  - refine (eq_trans (exec_fall e 17 ret_from_fork_code 2 (Call "switch_to_user_cr3") m m1 eq_refl (go_some _ _ E1)) _).
    refine (eq_trans E2 _). by apply (exec_to e 0 ret_from_fork_code 19 Iret).
  - rewrite R1. case_decide as Hr; [by rewrite Hr|]. cbn [a_m].
    by rewrite reload_reg, decide_True by by apply all_listed.
Qed.

Lemma fork_child e m ws : m_reg m RBX = 0 → window m (m_reg m RSP) ws → length ws = 21%nat → return_to ws →
  polite (m_reg m RSP + 168) (e_call e "switch_to_user_cr3") →
  ∃ m', exec e 20 ret_from_fork_code 0 m = Left (ws !!! 16%nat) m' ∧ (∀ r, m_reg m' r = list_value ws r)
    ∧ m_cs m' = ws !!! 17%nat ∧ m_flags m' = ws !!! 18%nat ∧ m_sel m' SS = ws !!! 20%nat.
Proof.
  intros Hb Hw Hl Hr P. set (m1 := set_flags (set_flag CF false (set_flag ZF true (m_flags m))) (set_reg RBX 0 m)).
  destruct (fork_return e m1 ws Hw Hl Hr P) as (m' & E & H). exists m'. split; [|exact H].
  refine (eq_trans (exec_fall e 19 ret_from_fork_code 0 (AndR RBX RBX) m m1 eq_refl _) _); [cbn [step]; by rewrite Hb|].
  refine (eq_trans (exec_fall e 18 ret_from_fork_code 1 (Jnz 20) m1 m1 eq_refl _) E). cbn [step].
  assert (Z.testbit (m_flags m1) ZF = true) as ->; [|done]. unfold m1, set_flag, CF, ZF. cbn [m_flags set_flags].
  by rewrite Z.clearbit_eqb, Z.setbit_eqb by lia.
Qed.
(** A kernel thread runs its function with its argument first. *)
Lemma kernel_thread e m ws : m_reg m RBX ≠ 0 → window m (m_reg m RSP) ws → length ws = 21%nat → return_to ws →
  polite (m_reg m RSP + 168) (e_ptr e (m_reg m RBX)) → polite (m_reg m RSP + 168) (e_call e "switch_to_user_cr3") →
  ∃ m1 m2 m', e_ptr e (m_reg m RBX) m1 = Some m2 ∧ m_reg m1 RDI = m_reg m R12
    ∧ exec e 24 ret_from_fork_code 0 m = Left (ws !!! 16%nat) m' ∧ (∀ r, m_reg m' r = list_value (<[10%nat := 0]> ws) r).
Proof.
  intros Hb Hw Hl Hret Pf P. set (m0 := set_flags (set_flag CF false (set_flag ZF false (m_flags m))) (set_reg RBX (m_reg m RBX) m)).
  assert (V : view (Abs (set_reg RDI (m_reg m R12) m0) (m_reg m RSP) ws 0) (set_reg RDI (m_reg m R12) m0))
    by (apply view_of_window; [done|lia|symmetry; apply Z.add_0_r]).
  destruct (polite_view _ _ _ _ Pf V eq_refl) as (m2 & E2 & K2 & V2); [cbn; lia|].
  assert (A3 : arun [StoreI 0 80 RSP] (Abs m2 (m_reg m RSP) ws 0) = Some (Abs m2 (m_reg m RSP) (<[10%nat := 0]> ws) 0)).
  { clear -Hl. do 11 (destruct ws as [|? ws]; [done|]). reflexivity. }
  destruct (arun_at e [StoreI 0 80 RSP] ret_from_fork_code 22 _ _ m2 19 eq_refl V2 A3) as (m3 & E3 & V3 & _ & _).
  assert (Hsp : m_reg m3 RSP = m_reg m RSP) by (rewrite (v_reg _ _ V3), a_reg_sp; apply Z.add_0_r).
  destruct (fork_return e m3 (<[10%nat := 0]> ws)) as (m4 & E4 & R4 & _).
  - rewrite Hsp. apply (view_window _ _ V3).
  - by rewrite length_insert.
  - unfold return_to. by rewrite !list_lookup_total_insert_ne by done.
  - by rewrite Hsp.
  - exists (set_reg RDI (m_reg m R12) m0), m2, m4. split; [exact E2|]. split; [reflexivity|]. split; [|exact R4].
    refine (eq_trans (exec_fall e 23 ret_from_fork_code 0 (AndR RBX RBX) m m0 eq_refl _) _).
    { cbn [step]. by rewrite Z.land_diag, (proj2 (Z.eqb_neq _ 0) Hb). }
    refine (eq_trans (exec_goto e 22 ret_from_fork_code 1 (Jnz 20) m0 m0 20 eq_refl _) _).
    { cbn [step]. assert (Z.testbit (m_flags m0) ZF = false) as ->; [|done]. unfold m0, set_flag, CF, ZF.
      cbn [m_flags set_flags]. by rewrite !Z.clearbit_eqb, andb_false_r by lia. }
    refine (eq_trans (exec_fall e 21 ret_from_fork_code 20 (Mov R12 RDI) m0 _ eq_refl eq_refl) _).
    refine (eq_trans (exec_fall e 20 ret_from_fork_code 21 (CallR RBX) (set_reg RDI (m_reg m R12) m0) m2 eq_refl (go_some _ _ E2)) _).
    refine (eq_trans E3 _). refine (eq_trans (exec_goto e 18 ret_from_fork_code 23 (Jmp 2) m3 m3 2 eq_refl eq_refl) _).
    rewrite E4. by rewrite list_lookup_total_insert_ne by done.
Qed.

(** The child of a fork.  [sys_fork] is called with the register list of
    its caller on the kernel stack, and copies it with rax set to 0.  The child
    that starts on such a copy returns from the same system call in the same
    place with 0, the caller's arguments, r10, stack pointer and flags; but its
    rbx, rbp and r12 to r15 are the words that happened to be in the six places
    of the list that the entry leaves room for and does not write, not the
    registers of its parent. *)
Theorem fork_child_registers e esp0 rip m ws : m_reg m RAX ≤ e_label e "syscall_max" →
  gs_data m esp0 → window m (esp0 - 168) ws → length ws = 21%nat →
  ∃ m2 l, exec e 38 do_syscalls 0 (syscall 0x08 rip m)
      = match e_table e (m_reg m RAX) m2 with Some m3 => exec e 14 do_syscalls 24 m3 | None => Stuck end
    ∧ length l = 21%nat ∧ window m2 (esp0 - 168) l
    ∧ ∀ c, m_reg c RBX = 0 → window c (m_reg c RSP) (<[10%nat := 0]> l) →
        polite (m_reg c RSP + 168) (e_call e "switch_to_user_cr3") →
        ∃ c', exec e 20 ret_from_fork_code 0 c = Left rip c' ∧ m_reg c' RAX = 0
          ∧ (∀ r, r ∈ [RDI; RSI; RDX; R8; R9; R10; RSP] → m_reg c' r = m_reg m r) ∧ m_flags c' = m_flags m
          ∧ m_cs c' = 0x2B ∧ m_sel c' SS = 0x23
          ∧ m_reg c' <$> [R15; R14; R13; R12; RBP; RBX] = take 6 ws.
Proof.
  intros Hb K Hw Hl. destruct (sys_dispatch e esp0 rip m ws 14 K Hw Hl) as (m2 & E & _ & _ & _ & W & _).
  rewrite (proj2 (Z.ltb_ge _ _) Hb) in E. exists m2, (sys_list (take 6 ws) rip m). split; [exact E|].
  destruct (sys_list_words (take 6 ws) rip m ltac:(rewrite length_take; lia)) as [L6 W6].
  split; [exact L6|]. split; [exact W|]. intros c Hc Wc P.
  assert (Hrt : return_to (<[10%nat := 0]> (sys_list (take 6 ws) rip m))).
  { unfold return_to. by rewrite !list_lookup_total_insert_ne, !W6 by lia. }
  destruct (fork_child e c _ Hc Wc ltac:(by rewrite length_insert) Hrt P) as (c' & Ec & R & Cs & Fl & Ss).
  rewrite !list_lookup_total_insert_ne, !W6 in * by lia. exists c'. split_and!; try done.
  - rewrite R. cbn [list_value]. apply list_lookup_total_insert_eq. rewrite L6. lia.
  - intros r Hr. rewrite R. destruct r; try (exfalso; revert Hr; reg_mem); cbn [list_value];
      by rewrite list_lookup_total_insert_ne, W6 by lia.
  - cbn. rewrite !R. cbn [list_value]. clear -Hl. rewrite !list_lookup_total_insert_ne by lia.
    do 6 (destruct ws as [|? ws]; [done|]). done.
Qed.

(** Its stack words were all 5: the child of a parent whose rbx is 2 has 5. *)
Lemma fork_child_registers_witness : ∃ c c', exec ex_env 20 ret_from_fork_code 0 c = Left 0x400000 c'
  ∧ m_reg c' RAX = 0 ∧ m_reg c' RDI = m_reg ex_sys RDI ∧ m_reg ex_sys RBX = 2 ∧ m_reg c' RBX = 5.
Proof.
  destruct (fork_child_registers ex_env 0x1200 0x400000 ex_sys (replicate 21 5)) as (m2 & l & _ & Hl & W & H).
  - vm_compute. discriminate.
  - exact ex_sys_data.
  - exact ex_sys_window.
  - reflexivity.
  - set (c := set_reg RBX 0 (set_reg RSP 0x1158 (set_mem (<[0x11A8 := 0]> (m_mem m2)) m2))).
    destruct (H c) as (c' & E & Ra & R & _ & _ & _ & S).
    + reflexivity.
    + destruct W as (W1 & W2 & W3 & W4). split_and!; [done|done|by rewrite length_insert|]. intros i w Hi.
      change (<[0x11A8 := 0]> (m_mem m2) !! (0x1158 + 8 * Z.of_nat i) = Some w). destruct (decide (i = 10%nat)) as [->|Hne].
      * rewrite list_lookup_insert_eq in Hi by lia. injection Hi as <-. apply lookup_insert_eq.
      * rewrite list_lookup_insert_ne in Hi by done. rewrite lookup_insert_ne by lia. by apply W4.
    + exact ex_clobber_polite.
    + exists c, c'. split; [exact E|]. split; [exact Ra|]. split; [apply R; reg_mem|]. split; [reflexivity|].
      injection S as _ _ _ _ _ S. exact S.
Defined.

(** ** Switching between processes *)

Definition switch_regs : list reg := [R15; R14; R13; R12; RBX; RBP].
Definition switch_push : list instr := take 6 do_switch_code.
Definition switch_pop : list instr := take 6 (drop 8 do_switch_code).
Definition apart (x n y k : Z) : Prop := x + n ≤ y ∨ y + k ≤ x.

(** The two processes: [xs] is the room on the stack of the first, [fr] the
    words the second left on its own at [qs]. *)
Record switchable (m : mach) (p q qs : Z) (xs fr : list Z) : Prop := {
  sw_prev : m_reg m RDI = p;
  sw_next : m_reg m RSI = q;
  sw_room : window m (m_reg m RSP - 48) xs ∧ length xs = 6%nat;
  sw_frame : window m qs fr ∧ length fr = 6%nat;
  sw_range : 0 ≤ p ∧ p + 8 < 2 ^ 64 ∧ 0 ≤ q ∧ q + 8 < 2 ^ 64;
  sw_slot : ∃ w, word_at m (p + 8) = Some w;
  sw_saved : word_at m (q + 8) = Some qs;
  sw_apart : apart (m_reg m RSP - 48) 48 (p + 8) 8 ∧ apart (m_reg m RSP - 48) 48 (q + 8) 8
    ∧ apart (m_reg m RSP - 48) 48 qs 48 ∧ apart (p + 8) 8 (q + 8) 8 ∧ apart (p + 8) 8 qs 48
}.

Lemma arun_switch_push M low xs : length xs = 6%nat →
  arun switch_push (Abs M low xs 6) = Some (Abs M low (m_reg M <$> switch_regs) 0).
Proof. intros H. do 6 (destruct xs as [|? xs]; [done|]). by destruct xs. Qed.
Definition frame_value (fr : list Z) (r : reg) : Z :=
  match r with
  | R15 => fr !!! 0%nat | R14 => fr !!! 1%nat | R13 => fr !!! 2%nat | R12 => fr !!! 3%nat | RBX => fr !!! 4%nat
  | _ => fr !!! 5%nat
  end.
Lemma arun_switch_pop M low fr : length fr = 6%nat →
  arun switch_pop (Abs M low fr 0) = Some (Abs (reload (frame_value fr) switch_regs M) low fr 6).
Proof. intros H. do 6 (destruct fr as [|? fr]; [done|]). by destruct fr. Qed.

Lemma switch_ok e m p q qs xs fr : switchable m p q qs xs fr →
  ∃ m', exec e 15 do_switch_code 0 m = Jumped "post_stack_switch" m'
    ∧ (∀ r, m_reg m' r = if decide (r = RSP) then qs + 48 else if decide (r ∈ switch_regs) then frame_value fr r else m_reg m r)
    ∧ word_at m' (p + 8) = Some (m_reg m RSP - 48) ∧ window m' (m_reg m RSP - 48) (m_reg m <$> switch_regs)
    ∧ (∀ x, ¬ m_reg m RSP - 48 ≤ x < m_reg m RSP → ¬ qs ≤ x < qs + 48 → x ≠ p + 8 → m_mem m' !! x = m_mem m !! x).
Proof.
  intros [<- <- [W1 L1] [W2 L2] R (w & Sw) Sq (A1 & A2 & A3 & A4 & A5)]. unfold apart in *.
  assert (V : view (Abs m (m_reg m RSP - 48) xs 6) m) by (apply view_of_window; [done|lia|lia]).
  destruct (arun_at e switch_push do_switch_code 0 _ _ m 9 eq_refl V (arun_switch_push m _ xs L1)) as (m1 & E1 & V1 & H1 & _).
  assert (Hm : ∀ x, ¬ m_reg m RSP - 48 ≤ x < m_reg m RSP → m_mem m1 !! x = m_mem m !! x).
  { intros x Hx. apply (H1 x). cbn [a_low a_words]. lia. }
  assert (Hd : ∀ r, r ≠ RSP → m_reg m1 r = m_reg m r) by (intros r Hr; by rewrite (v_reg _ _ V1), a_reg_other).
  assert (Hs : m_reg m1 RSP = m_reg m RSP - 48) by (rewrite (v_reg _ _ V1), a_reg_sp; apply Z.add_0_r).
  set (m2 := set_mem (<[m_reg m RDI + 8 := m_reg m RSP - 48]> (m_mem m1)) m1).
  assert (E2 : step e (Store RSP 8 RDI) m1 = Fall m2).
  { cbn [step]. rewrite Hs, Hd, u64_small by (done || lia). unfold put_word, word_at in *. destruct (_ =? 0); [|done].
    rewrite Hm by lia. by rewrite Sw. }
  assert (E3 : step e (Load 8 RSI RSP) m2 = Fall (set_reg RSP qs m2)).
  { cbn [step]. change (m_reg m2 RSI) with (m_reg m1 RSI). rewrite Hd, u64_small by (done || lia).
    assert (word_at m2 (m_reg m RSI + 8) = Some qs) as ->; [|done]. rewrite <- Sq. unfold word_at. cbn.
    by rewrite lookup_insert_ne, Hm by lia. }
  assert (V3 : view (Abs (set_reg RSP qs m2) qs fr 0) (set_reg RSP qs m2)).
  { apply view_of_window; [|lia|symmetry; apply Z.add_0_r]. apply (window_keep m); [done|]. rewrite L2. intros x Hx. cbn.
    by rewrite lookup_insert_ne, Hm by lia. }
  destruct (arun_at e switch_pop do_switch_code 8 _ _ _ 1 eq_refl V3 (arun_switch_pop _ qs fr L2)) as (m4 & E4 & V4 & H4 & _).
  assert (Hf : ∀ x, ¬ qs ≤ x < qs + 48 → m_mem m4 !! x = m_mem m2 !! x) by (intros x Hx; apply (H4 x); cbn [a_low a_words]; lia).
  exists m4. split_and!.
  - refine (eq_trans E1 _). refine (eq_trans (exec_fall e 8 do_switch_code 6 (Store RSP 8 RDI) m1 m2 eq_refl E2) _).
    exact (eq_trans (exec_fall e 7 do_switch_code 7 (Load 8 RSI RSP) m2 _ eq_refl E3) E4).
  - intros r. rewrite (v_reg _ _ V4). unfold a_reg, a_sp. case_decide as Hr; [done|]. cbn [a_m]. rewrite reload_reg.
    case_decide; [done|]. rewrite <- (Hd r Hr). cbn. by rewrite decide_False.
  - unfold word_at in *. destruct (_ =? 0); [|done]. rewrite Hf by lia. apply lookup_insert_eq.
  - apply (window_keep m1); [apply (view_window _ _ V1)|]. intros x Hx. cbn in Hx. rewrite Hf by lia. cbn. by rewrite lookup_insert_ne by lia.
  - intros x Hx Hq Hne. rewrite Hf by done. cbn. by rewrite lookup_insert_ne, Hm by lia.
Qed.

(** What a machine that switches from [p] to [q] needs of its own: the
    arguments, room for six words on its stack and a slot for its stack
    pointer, all away from the words at [qs]. *)
Record leaving (m : mach) (p q qs : Z) (xs : list Z) : Prop := {
  lv_prev : m_reg m RDI = p;
  lv_next : m_reg m RSI = q;
  lv_room : window m (m_reg m RSP - 48) xs ∧ length xs = 6%nat;
  lv_range : 0 ≤ p ∧ p + 8 < 2 ^ 64 ∧ 0 ≤ q ∧ q + 8 < 2 ^ 64;
  lv_slot : ∃ w, word_at m (p + 8) = Some w;
  lv_apart : apart (m_reg m RSP - 48) 48 (p + 8) 8 ∧ apart (m_reg m RSP - 48) 48 (q + 8) 8
    ∧ apart (m_reg m RSP - 48) 48 qs 48 ∧ apart (p + 8) 8 (q + 8) 8 ∧ apart (p + 8) 8 qs 48
}.
Lemma leaving_switchable m p q qs xs fr : leaving m p q qs xs → window m qs fr → length fr = 6%nat →
  word_at m (q + 8) = Some qs → switchable m p q qs xs fr.
Proof. intros []. by constructor. Qed.
(** A window and a word are the same in memories that agree on them. *)
Lemma word_keep m n a w : word_at m a = Some w → m_mem n !! a = m_mem m !! a → word_at n a = Some w.
Proof. unfold word_at. intros H ->. exact H. Qed.

(** C13: switching away from a process and back is invisible to it.  [do_switch]
    leaves for [post_stack_switch] on the stack of the next process with the
    registers that process saved, its arguments untouched, changing no word
    above the stack pointer of the first.  Whenever later any process makes a
    switch to the first one, on a memory that still has the 48 bytes below that
    stack pointer and the saved stack pointer of the first as the first switch
    left them, the first goes on with the callee-saved registers and the stack
    pointer it had. *)
Theorem switch_round_trip e m p q qs xs fr : switchable m p q qs xs fr →
  ∃ m', exec e 15 do_switch_code 0 m = Jumped "post_stack_switch" m' ∧ m_reg m' RSP = qs + 48
    ∧ m_reg m' <$> switch_regs = fr ∧ m_reg m' RDI = p ∧ m_reg m' RSI = q
    ∧ (∀ x, m_reg m RSP ≤ x → apart x 1 qs 48 → x ≠ p + 8 → m_mem m' !! x = m_mem m !! x)
    ∧ ∀ n p' ys, leaving n p' p (m_reg m RSP - 48) ys →
        (∀ x, m_reg m RSP - 48 ≤ x < m_reg m RSP ∨ x = p + 8 → m_mem n !! x = m_mem m' !! x) →
        ∃ n', exec e 15 do_switch_code 0 n = Jumped "post_stack_switch" n' ∧ ∀ r, r ∈ callee_saved → m_reg n' r = m_reg m r.
Proof.
  intros S. destruct (switch_ok e m p q qs xs fr S) as (m' & E & R & Sl & W & H). exists m'.
  split; [exact E|]. split; [by rewrite R|]. split.
  { destruct (sw_frame _ _ _ _ _ _ S) as [_ L]. cbn. rewrite !R. clear -L.
    do 6 (destruct fr as [|? fr]; [done|]). by destruct fr. }
  split; [by rewrite R, <- (sw_prev _ _ _ _ _ _ S)|]. split; [by rewrite R, <- (sw_next _ _ _ _ _ _ S)|]. split.
  { intros x Hx Hq Hne. unfold apart in Hq. apply H; [lia|lia|done]. }
  intros n p' ys Ln K.
  assert (Sn : switchable n p' p (m_reg m RSP - 48) ys (m_reg m <$> switch_regs)).
  { apply leaving_switchable; [done| |done|].
    - apply (window_keep m'); [done|]. intros x Hx. apply K. cbn in Hx. lia.
    - apply (word_keep m'); [done|]. apply K. by right. }
  destruct (switch_ok e n p' p _ ys _ Sn) as (n' & En & Rn & _). exists n'. split; [exact En|].
  intros r Hr. rewrite Rn. destruct r; try (exfalso; revert Hr; reg_mem); try done.
  change (m_reg m RSP - 48 + 48 = m_reg m RSP). lia.
Qed.

(** Two processes with descriptors at 0x100 and 0x200; the second left 10 to
    15 on its stack. *)
Definition ex_switch : mach :=
  set_reg RDI 0x100 (set_reg RSI 0x200 (set_reg RSP 0x1100 (set_mem
    (mem_of 0x1000 (replicate 32 0) ∪ mem_of 0x2000 [10; 11; 12; 13; 14; 15] ∪ mem_of 0x108 [0] ∪ mem_of 0x208 [0x2000]) ex_user))).
Lemma ex_switchable : switchable ex_switch 0x100 0x200 0x2000 (replicate 6 0) [10; 11; 12; 13; 14; 15].
Proof.
  split; try done.
  - split; [|done]. apply window_b_ok. vm_compute. reflexivity.
  - split; [|done]. apply window_b_ok. vm_compute. reflexivity.
  - by exists 0.
  - unfold apart. change (m_reg ex_switch RSP) with 0x1100. lia.
Qed.
(** The machine when the second process switches back. *)
Definition ex_back : mach :=
  match exec ex_env 15 do_switch_code 0 ex_switch with
  | Jumped _ m' => set_reg RDI 0x200 (set_reg RSI 0x100 m')
  | _ => ex_switch
  end.
Lemma ex_back_leaving : leaving ex_back 0x200 0x100 (m_reg ex_switch RSP - 48) [10; 11; 12; 13; 14; 15].
Proof.
  split.
  - vm_compute. reflexivity.
  - vm_compute. reflexivity.
  - split; [|reflexivity]. apply window_b_ok. vm_compute. reflexivity.
  - lia.
  - exists 0x2000. vm_compute. reflexivity.
  - unfold apart. change (m_reg ex_switch RSP) with 0x1100. assert (m_reg ex_back RSP = 0x2030) as -> by (vm_compute; reflexivity). lia.
Qed.
Lemma switch_round_trip_witness : ∃ m' n', exec ex_env 15 do_switch_code 0 ex_switch = Jumped "post_stack_switch" m'
  ∧ m_reg m' R15 = 10 ∧ m_reg m' RBP = 15 ∧ m_reg m' RSP = 0x2030
  ∧ exec ex_env 15 do_switch_code 0 ex_back = Jumped "post_stack_switch" n'
  ∧ m_reg n' RSP = 0x1100 ∧ m_reg n' RBP = m_reg ex_switch RBP.
Proof.
  destruct (switch_round_trip ex_env ex_switch 0x100 0x200 0x2000 (replicate 6 0) [10; 11; 12; 13; 14; 15] ex_switchable)
    as (m' & E & Sp & Fr & _ & _ & _ & H).
  destruct (H ex_back 0x200 [10; 11; 12; 13; 14; 15] ex_back_leaving) as (n' & En & Rn).
  { intros x _. unfold ex_back. rewrite E. reflexivity. }
  injection Fr as F1 F2 F3 F4 F5 F6. exists m', n'. split; [exact E|]. split; [exact F1|]. split; [exact F6|].
  split; [exact Sp|]. split; [exact En|]. split; apply Rn; reg_mem.
Defined.

(** ** Loading the descriptor table *)

Lemma lgdt_far e m x y ret : code_selector (m_reg m RSI) = true → window m (m_reg m RSP - 16) [x; y; ret] →
  ∃ m1, exec e 5 x86_64_asm_lgdt 0 m = Left (e_label e ".done") m1 ∧ word_at m1 (m_reg m1 RSP) = Some ret
    ∧ m_gdtr m1 = m_reg m RDI ∧ m_cs m1 = m_reg m RSI ∧ m_reg m1 RSP = m_reg m RSP ∧ m_kgs m1 = m_kgs m
    ∧ (∀ r, r ∉ [RSP; R10] → m_reg m1 r = m_reg m r).
Proof.
  intros Hcs W. set (m0 := set_tables (m_reg m RDI) (m_tr m) m).
  assert (V0 : view (Abs m0 (m_reg m RSP - 16) [x; y; ret] 2) m0) by (apply view_of_window; [done|cbn; lia|cbn; lia]).
  destruct (push_sound _ (Abs m0 (m_reg m RSP - 16) [x; m_reg m RSI; ret] 1) m0 (m_reg m RSI) V0 eq_refl) as (m1 & E1 & V1 & _ & _).
  pose proof (view_set _ _ R10 (e_label e ".done") ltac:(done) V1) as V2.
  destruct (push_sound _ (Abs (set_reg R10 (e_label e ".done") m0) (m_reg m RSP - 16) [e_label e ".done"; m_reg m RSI; ret] 0)
    _ _ V2 eq_refl) as (m3 & E3 & V3 & _ & _).
  destruct (pop_sound _ (Abs (set_reg R10 (e_label e ".done") m0) (m_reg m RSP - 16) [e_label e ".done"; m_reg m RSI; ret] 1)
    _ _ V3 eq_refl) as (m4 & E4 & V4 & _ & _).
  destruct (pop_sound _ (Abs (set_reg R10 (e_label e ".done") m0) (m_reg m RSP - 16) [e_label e ".done"; m_reg m RSI; ret] 2)
    _ _ V4 eq_refl) as (m5 & E5 & V5 & _ & _).
  assert (Sp : m_reg m5 RSP = m_reg m RSP) by (rewrite (v_reg _ _ V5), a_reg_sp; unfold a_sp; cbn [a_low a_pos]; lia).
  exists (set_cs (m_reg m RSI) m5). split_and!; [|..|intros r Hr].
  - cbn [exec]. change (x86_64_asm_lgdt !! 0%nat) with (Some (Lgdt RDI)). cbn [step]. fold m0.
    refine (eq_trans (exec_fall e 3 x86_64_asm_lgdt 1 (Push RSI) m0 m1 eq_refl (go_some _ _ E1)) _).
    refine (eq_trans (exec_fall e 2 x86_64_asm_lgdt 2 (MovLabel ".done" R10) m1 _ eq_refl eq_refl) _).
    refine (eq_trans (exec_fall e 1 x86_64_asm_lgdt 3 (Push R10) (set_reg R10 (e_label e ".done") m1) m3 eq_refl (go_some _ _ E3)) _).
    refine (exec_to e 0 x86_64_asm_lgdt 4 Lret m3 _ (e_label e ".done") eq_refl _). cbn [step]. rewrite E4, E5.
    pose proof (code_selector_small _ Hcs). unfold u16. rewrite Z.mod_small by lia. by rewrite Hcs.
  - pose proof (view_word _ m5 2 ret V5 eq_refl) as L. cbn [a_low] in L. change (word_at m5 (m_reg m5 RSP) = Some ret).
    rewrite Sp. replace (m_reg m RSP) with (m_reg m RSP - 16 + 8 * Z.of_nat 2) by lia. exact L.
  - apply (v_tab _ _ V5).
  - done.
  - exact Sp.
  - apply (v_gs _ _ V5).
  - change (m_reg m5 r = m_reg m r). rewrite (v_reg _ _ V5). destruct r; try done; exfalso; apply Hr; reg_mem.
Qed.
Lemma lgdt_near e m ret : word_at m (m_reg m RSP) = Some ret →
  ∃ m2, exec e 6 lgdt_done 0 m = Left ret m2 ∧ m_gdtr m2 = m_gdtr m ∧ m_cs m2 = m_cs m
    ∧ (∀ s, m_sel m2 s = u16 (m_reg m RDX)) ∧ m_reg m2 RSP = u64 (m_reg m RSP + 8) ∧ m_gs m2 = 0 ∧ m_kgs m2 = m_kgs m
    ∧ (∀ r, r ≠ RSP → m_reg m2 r = m_reg m r).
Proof.
  intros Hw. eexists. split.
  - refine (eq_trans (exec_fall e 5 lgdt_done 0 (MovSeg RDX ES) _ _ eq_refl eq_refl) _).
    refine (eq_trans (exec_fall e 4 lgdt_done 1 (MovSeg RDX FS) _ _ eq_refl eq_refl) _).
    refine (eq_trans (exec_fall e 3 lgdt_done 2 (MovSeg RDX GS) _ _ eq_refl eq_refl) _).
    refine (eq_trans (exec_fall e 2 lgdt_done 3 (MovSeg RDX DS) _ _ eq_refl eq_refl) _).
    refine (eq_trans (exec_fall e 1 lgdt_done 4 (MovSeg RDX SS) _ _ eq_refl eq_refl) _).
    refine (exec_to e 0 lgdt_done 5 Ret _ _ ret eq_refl _). cbn [step]. unfold pop.
    change (word_at _ _) with (word_at m (m_reg m RSP)) at 1. rewrite Hw. reflexivity.
  - split_and!; try done; [by intros []|]. intros r Hr. cbn. by rewrite decide_False.
Qed.

(** The routine returns to its caller with the new table, the given code
    selector, and the given data selector in every other segment. *)
Lemma lgdt_ok e m x y ret : code_selector (m_reg m RSI) = true → window m (m_reg m RSP - 16) [x; y; ret] →
  ∃ m1 m2, exec e 5 x86_64_asm_lgdt 0 m = Left (e_label e ".done") m1 ∧ exec e 6 lgdt_done 0 m1 = Left ret m2
    ∧ m_gdtr m2 = m_reg m RDI ∧ m_cs m2 = m_reg m RSI ∧ (∀ s, m_sel m2 s = u16 (m_reg m RDX))
    ∧ m_reg m2 RSP = u64 (m_reg m RSP + 8) ∧ m_gs m2 = 0 ∧ m_kgs m2 = m_kgs m
    ∧ (∀ r, r ∉ [RSP; R10] → m_reg m2 r = m_reg m r).
Proof.
  intros Hcs W. destruct (lgdt_far e m x y ret Hcs W) as (m1 & E1 & Hw & G1 & C1 & S1 & K1 & R1).
  destruct (lgdt_near e m1 ret Hw) as (m2 & E2 & G2 & C2 & Se & S2 & B2 & K2 & R2). exists m1, m2.
  split_and!; try congruence.
  - intros s. rewrite Se, R1; [done|reg_mem].
  - intros r Hr. rewrite R2; [by apply R1|]. intros ->. apply Hr. reg_mem.
Qed.
