(* ===== verification/FirstRun.v ===== *)
(** * The first run of a forked process

    Process.v and Entry.v together: the kernel stack [copy_thread] builds for
    the child, and the assembly that runs on it, from the switch to the child up
    to its first instruction in user mode. *)

From S2P Require Import Process.
From S2P Require Import Entry.

(** ** Parts of a window *)

Lemma window_drop m low ws n : (n ≤ length ws)%nat → window m low ws → window m (low + 8 * Z.of_nat n) (drop n ws).
Proof.
  intros Hn (H1 & H2 & H3 & H4). split_and!.
  - rewrite Z.mul_comm, Z_mod_plus_full. done.
  - lia.
  - rewrite length_drop. lia.
  - intros i w Hi. rewrite lookup_drop in Hi. rewrite <- (H4 _ _ Hi). f_equal. lia.
Qed.
Lemma window_take m low ws n : window m low ws → window m low (take n ws).
Proof.
  intros (H1 & H2 & H3 & H4). split_and!; [done..| |].
  - rewrite length_take. lia.
  - intros i w [Hi _]%lookup_take_Some. by apply H4.
Qed.

(** ** The stack of the child *)

Lemma forked_list ret t : length t = 512%nat → drop 491 (forked_stack ret 0 t) = <[10%nat := 0]> (drop 491 t).
Proof.
  intros Ht. apply list_eq. intros i. unfold forked_stack. rewrite lookup_drop, list_lookup_imap.
  destruct (decide (i < 21)%nat) as [Hi|Hi].
  - destruct (lookup_lt_is_Some_2 t (491 + i) ltac:(lia)) as [w Hw]. rewrite Hw. cbn.
    rewrite list_lookup_insert, length_drop, lookup_drop, Ht, Hw. unfold forked_word.
    repeat case_decide; try lia; try done; naive_solver lia.
  - rewrite !lookup_ge_None_2; [done|rewrite length_insert, length_drop; lia|lia].
Qed.
Lemma forked_frame ret t : length t = 512%nat → ∃ a b c d f,
  take 6 (drop 484 (forked_stack ret 0 t)) = [a; b; c; d; 0; f] ∧ forked_stack ret 0 t !! 490%nat = Some ret.
Proof.
  intros Ht. destruct (lookup_lt_is_Some_2 t 490 ltac:(lia)) as [w Hw].
  destruct (lookup_lt_is_Some_2 t 488 ltac:(lia)) as [v Hv].
  assert (E4 : forked_stack ret 0 t !! 488%nat = Some 0) by (unfold forked_stack; by rewrite list_lookup_imap, Hv).
  assert (L : length (take 6 (drop 484 (forked_stack ret 0 t))) = 6%nat).
  { unfold forked_stack. rewrite length_take, length_drop, length_imap. lia. }
  assert (E : take 6 (drop 484 (forked_stack ret 0 t)) !! 4%nat = Some 0).
  { rewrite lookup_take_lt by lia. by rewrite lookup_drop. }
  destruct (take 6 _) as [|a [|b [|c [|d [|z [|f [|]]]]]]]; try done. injection E as ->.
  exists a, b, c, d, f. split; [done|]. unfold forked_stack. by rewrite list_lookup_imap, Hw.
Qed.

(** ** From the switch to user mode *)

(** The machine [c] is about to switch from [p] to [q], whose kernel stack at [K]
    has the words [w] and starts to run at word 484. *)
Record before_first_run (c : mach) (p q K : Z) (w : list Z) : Prop := {
  b_stack : window c K w ∧ length w = 512%nat;
  b_switch : ∃ xs, switchable c p q (K + 8 * 484) xs (take 6 (drop 484 w));
  b_room : apart (m_reg c RSP - 48) 48 K 4096;
  b_slot : apart (p + 8) 8 K 4096
}.

Lemma stack_after_switch e c p q K w : before_first_run c p q K w →
  ∃ c1, exec e 15 do_switch_code 0 c = Jumped "post_stack_switch" c1 ∧ m_reg c1 RSP = K + 8 * 490
    ∧ m_reg c1 RBX = w !!! 488%nat ∧ window c1 (K + 8 * 490) (drop 490 w).
Proof.
  intros [[W L] (xs & S) R P]. unfold apart in *. destruct (switch_ok e c p q _ xs _ S) as (c1 & E & Rg & _ & _ & H).
  exists c1. split; [exact E|]. split; [rewrite Rg; change (K + 8 * 484 + 48 = K + 8 * 490); lia|]. split.
  - rewrite Rg. change (take 6 (drop 484 w) !!! 4%nat = w !!! 488%nat).
    rewrite !list_lookup_total_alt, lookup_take_lt by lia. by rewrite lookup_drop.
  - change 490 with (Z.of_nat 490). apply (window_keep c); [apply window_drop; [lia|done]|].
    rewrite length_drop, L. intros x Hx. apply H; lia.
Qed.

Lemma first_run e c p q K w : before_first_run c p q K w → w !!! 488%nat = 0 → return_to (drop 491 w) →
  polite (K + 4096) (e_call e "post_stack_switch") → polite (K + 4096) (e_call e "switch_to_user_cr3") →
  ∃ c1 c2 c3 c4, exec e 15 do_switch_code 0 c = Jumped "post_stack_switch" c1
    ∧ e_call e "post_stack_switch" c1 = Some c2 ∧ exec e 1 [Ret] 0 c2 = Left (w !!! 490%nat) c3
    ∧ exec e 20 ret_from_fork_code 0 c3 = Left (drop 491 w !!! 16%nat) c4
    ∧ (∀ r, m_reg c4 r = list_value (drop 491 w) r) ∧ m_cs c4 = drop 491 w !!! 17%nat
    ∧ m_flags c4 = drop 491 w !!! 18%nat ∧ m_sel c4 SS = drop 491 w !!! 20%nat.
Proof.
  intros B Hb Hrt P1 P2. pose proof (b_stack _ _ _ _ _ B) as [_ L].
  destruct (stack_after_switch e c p q K w B) as (c1 & E1 & Sp & Rb & W1).
  destruct (P1 c1) as (c2 & E2 & K2).
  assert (S2 : m_reg c2 RSP = K + 8 * 490) by (rewrite (k_saved _ _ _ K2) by reg_mem; exact Sp).
  assert (W2 : window c2 (K + 8 * 490) (drop 490 w)).
  { apply (window_keep c1); [done|]. rewrite length_drop, L. intros x Hx. apply (k_stack _ _ _ K2). lia. }
  assert (V2 : view (Abs c2 (K + 8 * 490) (drop 490 w) 0) c2) by (apply view_of_window; [done|lia|lia]).
  assert (A : apop (Abs c2 (K + 8 * 490) (drop 490 w) 0) = Some (w !!! 490%nat, Abs c2 (K + 8 * 490) (drop 490 w) 1)).
  { unfold apop. cbn [a_words a_pos]. rewrite lookup_drop, list_lookup_lookup_total_lt by lia. reflexivity. }
  destruct (pop_sound _ _ c2 _ V2 A) as (c3 & E3 & V3 & _ & _).
  assert (S3 : m_reg c3 RSP = K + 8 * 491) by (rewrite (v_reg _ _ V3), a_reg_sp; unfold a_sp; cbn [a_low a_pos]; lia).
  destruct (fork_child e c3 (drop 491 w)) as (c4 & E4 & H4).
  - rewrite (v_reg _ _ V3), a_reg_other by done. cbn [a_m]. rewrite (k_saved _ _ _ K2) by reg_mem. by rewrite Rb.
  - rewrite S3. assert (W3 : window c3 (K + 8 * 490 + 8 * Z.of_nat 1) (drop 1 (drop 490 w))).
    { apply window_drop; [rewrite length_drop; lia|apply (view_window _ _ V3)]. }
    rewrite drop_drop in W3. replace (K + 8 * 491) with (K + 8 * 490 + 8 * Z.of_nat 1) by lia. exact W3.
  - rewrite length_drop. lia.
  - exact Hrt.
  - rewrite S3. replace (K + 8 * 491 + 168) with (K + 4096) by lia. done.
  - exists c1, c2, c3, c4. split; [exact E1|]. split; [exact E2|]. split; [|split; [exact E4|exact H4]].
    refine (exec_to e 0 [Ret] 0 Ret c2 c3 _ eq_refl _). cbn [step]. by rewrite E3.
Qed.

(** ** Fork to the end *)

Lemma list_values ret stale rip m t : length t = 512%nat → length stale = 6%nat → drop 491 t = sys_list stale rip m →
  let l := drop 491 (forked_stack ret 0 t) in
  l !!! 16%nat = rip ∧ l !!! 17%nat = 0x2B ∧ l !!! 18%nat = m_flags m ∧ l !!! 20%nat = 0x23
  ∧ list_value l RAX = 0 ∧ (∀ r, r ∈ [RDI; RSI; RDX; R8; R9; R10; RSP] → list_value l r = m_reg m r)
  ∧ list_value l <$> [R15; R14; R13; R12; RBP; RBX] = stale.
Proof.
  intros Ht Hs El. cbn zeta. rewrite (forked_list ret t Ht), El. clear -Hs.
  do 6 (destruct stale as [|? stale]; [done|]). destruct stale; [|done]. split_and!; try reflexivity.
  intros r Hr. destruct r; try reflexivity; exfalso; revert Hr; reg_mem.
Qed.

(** C22: fork, from the copy of the kernel stack to the first instruction of the
    child.  When the parent is in the system call that its user program made at
    [rip] with the registers of [m], [copy_thread] gives the child a stack of its
    own and changes no other object but its descriptor; and whenever the
    processor then switches to the child, [do_switch], [post_stack_switch]
    and [ret_from_fork] one after the other end in user mode at [rip], with 0
    in rax, and with the arguments, stack pointer and flags of the parent.  The
    callee-saved registers are the six stale words of the parent's list. *)
Theorem forked_child_first_run e base k s ret child parent pc cc t stale rip m :
  frontier base k s → k < n_frames s → k_is_paging s ≠ 0 →
  get_pcb s parent = Some pc → get_pcb s child = Some cc → parent ≠ child → p_flags cc = PF_UTHREAD →
  k_heap s !! p_kstack pc = Some (OTable t) → length t = 512%nat →
  p_kstack pc mod 4096 = 0 → 0 ≤ p_kstack pc < 2 ^ 64 - 4096 → p_esp0 pc = p_kstack pc + 4096 →
  length stale = 6%nat → drop 491 t = sys_list stale rip m →
  let K := kv (frame_at base k) in let w := forked_stack ret 0 t in
  ∃ s', copy_thread ret child parent 0 0 s = Ok (tt, s') ∧ k_heap s' !! K = Some (OTable w)
    ∧ get_pcb s' child = Some (set_p_rsp (K + 8 * 484) (set_p_esp0 (K + 4096) (set_p_kstack K cc)))
    ∧ (∀ b o, b ≠ child → k_heap s !! b = Some o → k_heap s' !! b = Some o)
    ∧ ∀ c p, before_first_run c p child K w →
        polite (K + 4096) (e_call e "post_stack_switch") → polite (K + 4096) (e_call e "switch_to_user_cr3") →
        ∃ c1 c2 c3 c4, exec e 15 do_switch_code 0 c = Jumped "post_stack_switch" c1
          ∧ e_call e "post_stack_switch" c1 = Some c2 ∧ exec e 1 [Ret] 0 c2 = Left ret c3
          ∧ exec e 20 ret_from_fork_code 0 c3 = Left rip c4 ∧ m_reg c4 RAX = 0
          ∧ (∀ r, r ∈ [RDI; RSI; RDX; R8; R9; R10; RSP] → m_reg c4 r = m_reg m r) ∧ m_flags c4 = m_flags m
          ∧ m_cs c4 = 0x2B ∧ m_sel c4 SS = 0x23 ∧ m_reg c4 <$> [R15; R14; R13; R12; RBP; RBX] = stale.
Proof.
  intros Hf Hk Hpg Hp Hc Hne Hfl Hst Ht Hal HR Hesp Hs El K w.
  destruct (forked_process_returns_zero base k s ret child parent pc cc t 0 0 Hf Hk Hpg Hp Hc Hne Hfl Hst Ht Hal HR Hesp)
    as (s' & E & Hw & Hch & _ & Hkeep).
  exists s'. do 4 (split; [assumption|]). intros c p B P1 P2.
  destruct (forked_frame ret t Ht) as (a & b & d & g & f & Fr & Er). fold w in Fr, Er.
  assert (Hb : w !!! 488%nat = 0).
  { assert (drop 484 w !! 4%nat = Some 0) as E0 by (rewrite <- (lookup_take_lt (drop 484 w) 6 4), Fr by lia; done).
    rewrite lookup_drop in E0. by apply list_lookup_total_correct. }
  destruct (list_values ret stale rip m t Ht Hs El) as (L16 & L17 & L18 & L20 & La & Lr & Lc). fold w in L16, L17, L18, L20, La, Lr, Lc.
  assert (Hrt : return_to (drop 491 w)) by (unfold return_to; by rewrite L17, L20).
  destruct (first_run e c p child K w B Hb Hrt P1 P2) as (c1 & c2 & c3 & c4 & E1 & E2 & E3 & E4 & R & Cs & Fl & Ss).
  rewrite (list_lookup_total_correct _ _ _ Er) in E3.
  rewrite L16 in E4. exists c1, c2, c3, c4. do 4 (split; [assumption|]). split; [by rewrite R|].
  split; [intros r Hr; rewrite R; by apply Lr|]. split; [congruence|]. split; [congruence|]. split; [congruence|].
  rewrite <- Lc. apply list_fmap_ext. intros i r _. apply R.
Qed.

(** A process at frame 14 with its stack at frame 15 forks in the system call
    of [ex_user]; its child is at frame 13. *)
Definition ex_stack : list Z := replicate 491 0 ++ sys_list [21; 22; 23; 24; 25; 26] 0x400000 ex_user.
Definition ex_parent : pcb := life_pcb 1 (fr 15) (fr 8) (fr 9) (fr 6) 0.
Definition ex_forking : kst :=
  life_machine 16 0 [(fr 13, OPcb zero_pcb); (fr 14, OPcb ex_parent); (fr 15, OTable ex_stack)] 0.
(** The machine that switches to the child from a process at 0x100. *)
Definition ex_child_stack : list Z := forked_stack 0xABC 0 ex_stack.
Definition ex_before : mach :=
  set_reg RDI 0x100 (set_reg RSI (fr 13) (set_reg RSP 0x1100 (set_mem
    (mem_of 0x1000 (replicate 32 0) ∪ mem_of (fr 16) ex_child_stack ∪ mem_of 0x108 [0] ∪ mem_of (fr 13 + 8) [fr 16 + 8 * 484]) ex_user))).
Definition ex_polite (m : mach) : option mach := Some (set_reg RAX 99 m).
Definition ex_run_env : env := Env (λ _, ex_polite) (λ _, ex_polite) (λ _, ex_polite) (λ _, 0) 0x1B.
Lemma ex_polite_ok top : polite top ex_polite.
Proof.
  intros m. eexists. split; [done|]. split; try done. intros r Hr. destruct r; try done. exfalso. revert Hr. reg_mem.
Qed.
Lemma ex_before_ok : before_first_run ex_before 0x100 (fr 13) (fr 16) ex_child_stack.
Proof.
  assert (fr 13 = 0xFFFFFFFF8040D000) as F13 by (vm_compute; reflexivity).
  assert (fr 16 = 0xFFFFFFFF80410000) as F16 by (vm_compute; reflexivity).
  assert (Sp : m_reg ex_before RSP = 0x1100) by reflexivity.
  split; [split; [apply window_b_ok; vm_compute; reflexivity|vm_compute; reflexivity]| | |].
  - exists (replicate 6 0). split.
    + reflexivity.
    + reflexivity.
    + split; [apply window_b_ok; vm_compute; reflexivity|reflexivity].
    + split; [apply window_b_ok; vm_compute; reflexivity|vm_compute; reflexivity].
    + rewrite F13. lia.
    + exists 0. vm_compute. reflexivity.
    + vm_compute. reflexivity.
    + unfold apart. rewrite Sp, F13, F16. lia.
  - unfold apart. rewrite Sp, F16. lia.
  - unfold apart. rewrite F16. lia.
Qed.

Lemma forked_child_first_run_witness :
  ∃ s', copy_thread 0xABC (fr 13) (fr 14) 0 0 ex_forking = Ok (tt, s') ∧ k_heap s' !! fr 16 = Some (OTable ex_child_stack)
    ∧ ∃ c3 c4, exec ex_run_env 20 ret_from_fork_code 0 c3 = Left 0x400000 c4 ∧ m_reg c4 RAX = 0 ∧ m_reg c4 RDI = 6
      ∧ m_reg c4 RSP = 0x7000.
Proof.
  destruct (forked_child_first_run ex_run_env 0x400000 16 ex_forking 0xABC (fr 13) (fr 14) ex_parent zero_pcb ex_stack
    [21; 22; 23; 24; 25; 26] 0x400000 ex_user) as (s' & E & H & _ & _ & R).
  - by apply (life_frontier 16); [lia|vm_compute].
  - vm_compute. reflexivity.
  - vm_compute. discriminate.
  - vm_compute. reflexivity.
  - vm_compute. reflexivity.
  - vm_compute. discriminate.
  - reflexivity.
  - vm_compute. reflexivity.
  - vm_compute. reflexivity.
  - vm_compute. reflexivity.
  - vm_compute. split; [discriminate|reflexivity].
  - vm_compute. reflexivity.
  - reflexivity.
  - reflexivity.
  - exists s'. split; [exact E|]. split; [exact H|].
    destruct (R ex_before 0x100 ex_before_ok (ex_polite_ok _) (ex_polite_ok _)) as (c1 & c2 & c3 & c4 & _ & _ & _ & E4 & Ra & Rr & _).
    exists c3, c4. split; [exact E4|]. split; [exact Ra|]. split; apply Rr; reg_mem.
Defined.

(** ** execve: the return into the new program *)

(** The stack after [start_thread]: rip, cs, rflags, sp and ss of the list. *)
Definition started (sp ip : Z) (t : list Z) : list Z :=
  <[509%nat := Z.shiftl 1 9]> (<[511%nat := 0x23]> (<[508%nat := 0x2B]> (<[510%nat := sp]> (<[507%nat := ip]> t)))).
Definition with_table (P : Z) (t : list Z) (s : kst) : kst := set_k_heap (<[P := OTable t]> (k_heap s)) s.

Lemma table_again P t t' s : upd_heap <[P := OTable t']> (with_table P t s) = with_table P t' s.
Proof. unfold with_table, upd_heap. cbn. by rewrite insert_insert_eq. Qed.
Lemma table_word_set P t s i v : P mod 4096 = 0 → 0 ≤ i < 512 → length t = 512%nat →
  word_set (P + 8 * i) v (with_table P t s) = Ok (tt, with_table P (<[Z.to_nat i := v]> t) s).
Proof.
  intros HP Hi Ht. unfold word_set. destruct (word_addr P HP i Hi) as [-> ->].
  mstep (load_some as_table P _ t (with_table P t s) (lookup_insert_eq _ _ _) eq_refl).
  rewrite (proj2 (Nat.ltb_lt _ _)) by lia. unfold store, modify.
  by rewrite table_again.
Qed.
Lemma start_thread_ok P t s sp ip : P mod 4096 = 0 → length t = 512%nat →
  start_thread (P + 8 * 491) sp ip (with_table P t s) = Ok (tt, with_table P (started sp ip t) s).
Proof.
  intros HP Ht. unfold start_thread, reg_rip, reg_sp, reg_cs, reg_ss, reg_rflags.
  replace (P + 8 * 491 + 128) with (P + 8 * 507) by lia. replace (P + 8 * 491 + 152) with (P + 8 * 510) by lia.
  replace (P + 8 * 491 + 136) with (P + 8 * 508) by lia. replace (P + 8 * 491 + 160) with (P + 8 * 511) by lia.
  replace (P + 8 * 491 + 144) with (P + 8 * 509) by lia.
  mstep (table_word_set P t s 507 ip HP ltac:(lia) Ht).
  mstep (table_word_set P (<[507%nat := ip]> t) s 510 sp HP ltac:(lia) ltac:(by rewrite !length_insert)).
  mstep (table_word_set P (<[510%nat := sp]> (<[507%nat := ip]> t)) s 508 0x2B HP ltac:(lia) ltac:(by rewrite !length_insert)).
  mstep (table_word_set P (<[508%nat := 0x2B]> (<[510%nat := sp]> (<[507%nat := ip]> t))) s 511 0x23 HP ltac:(lia)
    ltac:(by rewrite !length_insert)).
  exact (table_word_set P (<[511%nat := 0x23]> (<[508%nat := 0x2B]> (<[510%nat := sp]> (<[507%nat := ip]> t)))) s 509 _ HP
    ltac:(lia) ltac:(by rewrite !length_insert)).
Qed.

Lemma table_same P t s : k_heap s !! P = Some (OTable t) → with_table P t s = s.
Proof. intros H. unfold with_table. rewrite insert_id by done. by destruct s. Qed.
(** The list of the process afterwards. *)
Lemma started_list sp ip t : length t = 512%nat →
  let l := drop 491 (started sp ip t) in
  length l = 21%nat ∧ l !!! 16%nat = ip ∧ l !!! 18%nat = Z.shiftl 1 9 ∧ l !!! 19%nat = sp
  ∧ ∀ r, r ∈ [RDI; RSI; RDX; R8; R9; R10] → ∀ f, sysret_regs l f r = list_value (drop 491 t) r.
Proof.
  intros Ht. cbn zeta. unfold started. rewrite !drop_insert_ge by lia. assert (Hd : length (drop 491 t) = 21%nat) by (rewrite length_drop; lia).
  revert Hd. generalize (drop 491 t). intros l Hd. do 21 (destruct l as [|? l]; [done|]). destruct l; [|done].
  split_and!; try reflexivity. intros r Hr f. destruct r; try reflexivity; exfalso; revert Hr; reg_mem.
Qed.

(** C28: execve, from its last step to the new program.  [start_thread] writes
    the entry point and the stack pointer of the program into the register list
    of the process and changes nothing else; when the system call returns
    from there, [sysretq] enters the program at its entry point, in ring 3, on
    its stack, with interrupts enabled; rdi, rsi, rdx, r8, r9 and r10 are still
    those of the program that called execve. *)
Theorem execve_enters_program e s cur c P t sp ip : e_star e = 0x1B → get_pcb s cur = Some c → p_esp0 c = P + 4096 →
  P mod 4096 = 0 → 0 ≤ P < 2 ^ 64 - 4096 → k_heap s !! P = Some (OTable t) → length t = 512%nat →
  ∃ s', (registers ← task_reg_list cur; start_thread registers sp ip) s = Ok (tt, s')
    ∧ k_heap s' !! P = Some (OTable (started sp ip t)) ∧ (∀ b, b ≠ P → k_heap s' !! b = k_heap s !! b)
    ∧ ∀ m, m_reg m RSP = P + 8 * 491 → window m (P + 8 * 491) (drop 491 (started sp ip t)) →
        ∃ m', exec e 14 do_syscalls 24 m = Left ip m' ∧ m_reg m' RSP = sp ∧ m_reg m' RAX = m_reg m RAX
          ∧ m_flags m' = 0x202 ∧ m_cs m' = 0x2B ∧ m_sel m' SS = 0x23
          ∧ (∀ r, r ∈ [RDI; RSI; RDX; R8; R9; R10] → m_reg m' r = list_value (drop 491 t) r).
Proof.
  intros Hst Hc Hesp HP HR Ht Hl. exists (with_table P (started sp ip t) s). split; [|split; [|split]].
  - unfold task_reg_list. rewrite bind_assoc. mstep (load_some as_pcb cur _ c s (get_pcb_heap _ _ _ Hc) eq_refl).
    rewrite Hesp. unfold REG_SIZE. rewrite u64_small by lia. replace (P + 4096 - 168) with (P + 8 * 491) by lia.
    rewrite <- (table_same P t s Ht) at 1. by apply start_thread_ok.
  - apply lookup_insert_eq.
  - intros b Hb. by apply lookup_insert_ne.
  - intros m Hsp Hw. rewrite <- Hsp in Hw. 
    destruct (started_list sp ip t Hl) as (L & L16 & L18 & L19 & Lr).
    destruct (sys_return e m _ Hw L) as (m' & E & R & F & C & S & _).
    exists m'. rewrite Hst in *. rewrite L16 in E. split; [exact E|]. split; [by rewrite R|]. split; [by rewrite R|].
    split; [by rewrite F, L18|]. split; [by rewrite C|]. split; [by rewrite S|]. intros r Hr. rewrite R. by apply Lr.
Qed.

(** The process of frame 4, with an empty stack at frame 5. *)
Lemma execve_enters_program_witness :
  ∃ s', (registers ← task_reg_list (fr 4); start_thread registers 0x7000 0x400080) forking = Ok (tt, s')
    ∧ ∃ m', exec ex_run_env 14 do_syscalls 24
        (set_reg RSP (fr 5 + 8 * 491) (set_mem (mem_of (fr 5 + 8 * 491) (drop 491 (started 0x7000 0x400080 zero_table))) ex_user))
        = Left 0x400080 m' ∧ m_reg m' RSP = 0x7000.
Proof.
  destruct (execve_enters_program ex_run_env forking (fr 4) (life_pcb 1 (fr 5) (fr 8) (fr 9) (fr 6) 0) (fr 5) zero_table 0x7000 0x400080)
    as (s' & E & _ & _ & H).
  - reflexivity.
  - vm_compute. reflexivity.
  - vm_compute. reflexivity.
  - vm_compute. reflexivity.
  - vm_compute. split; [discriminate|reflexivity].
  - vm_compute. reflexivity.
  - vm_compute. reflexivity.
  - exists s'. split; [exact E|]. edestruct H as (m' & Em & Sp & _).
    3:{ exists m'. split; [exact Em|exact Sp]. }
    + reflexivity.
    + apply window_b_ok. vm_compute. reflexivity.
Defined.
